(* ===== verification/_CoqProject ===== *)
-Q . S2P
Prelude.v
Addr.v
ArrayForest.v
Buddy.v
BuddyTree.v
BuddyMap.v
BuddySpec.v
BuddyOps.v
BuddyInit.v
BuddyTheorems.v
Memblock.v
MemblockTheorems.v
Phy.v
PhyTheorems.v
Entry.v
Paging.v
PagingTheorems.v
PageAlloc.v
PageAllocTheorems.v
PhyBoot.v
PagingInit.v
PagingInitTheorems.v
PagingMapTheorems.v
AddressSpace.v
MapLife.v
Proc.v
Slab.v
SlabTheorems.v
AllocTheorems.v
Heap.v
Vec.v
MemTest.v
Pmio.v
Vga.v
VgaTheorems.v
Keyboard.v
KeyboardTheorems.v
Interrupt.v
InterruptTheorems.v
Boot.v
MemInit.v
KernelMemory.v
FirstProcess.v
Kmain.v
Idle.v
