(* ===== verification/Prelude.v ===== *)
(** * Koe-OS: a verification development

    Koe-OS is a small x86-64 kernel in Rust.  This library translates its memory
    management, its allocators, its drivers and its interrupt handling into
    executable definitions and proves what makes them correct.  Paths below are
    relative to [src/src/].

    ** The parts of the kernel and where they are modelled

    - [Prelude] (this file): results of computations ([Ok], [Panic],
      [OutOfFuel]), machine integers with the checks of the [dev] profile,
      layouts, slices, and the tactics and lemmas that all files share.
    - [Addr]: [mem/addr.rs] and [mem/virt.rs], the address spaces, addresses,
      ranges, pages and page ranges, and the linear remap of physical memory.
    - [ArrayForest], [Buddy]: [common/array_forest.rs] and [mem/phy/buddy.rs], the
      complete binary trees in one array and the buddy system on top of them.
      [BuddyTree], [BuddyMap], [BuddySpec], [BuddyOps], [BuddyInit] hold the
      lemmas, [BuddyTheorems] the theorems.
    - [Memblock], [MemblockTheorems]: [mem/phy/memblock.rs], the arrays of blocks
      that the boot memory manager allocates from.
    - [Phy], [PhyTheorems]: [mem/phy.rs], the record of physical frames over the
      buddy system, the hand-over from the boot memory manager, and the trait
      [Allocator] of [mem/addr.rs] as a type class.  [PhyBoot] is the hand-over as a
      whole.
    - [Entry], [Paging], [PagingTheorems]: [mem/paging/entry.rs],
      [mem/paging/table.rs] and [mem/paging.rs], page table entries, the walker,
      [map] and [translate].  The tables are words of physical memory, a function
      from addresses; a class [TableAllocator] says what [map] needs from the
      allocator, and the boot memory manager is an instance.  [AddressSpace] has what
      [map] does to every address, on tables that form a tree ([tree_ok]).
    - [PagingInit], [PagingInitTheorems], [PagingMapTheorems]: the rest of
      [mem/paging.rs], the first page tables that [X86_64MemoryManager::init]
      builds, and [X86_64MemoryMap::new] and its [Drop].  [MapLife] has the whole life of
      a map over the page allocator: [owns] says which tables are its own, and the
      page allocator is another instance of [TableAllocator].
    - [Proc]: the records of [usr/proc.rs] and [init] of [usr.rs].
    - [PageAlloc], [PageAllocTheorems]: [mem/alloc/page.rs], allocators of whole
      pages.  The class [PageSource] is what the heap needs from them; the
      physical memory manager is an instance.
    - [Slab], [SlabTheorems], [AllocTheorems]: [mem/alloc/slab.rs],
      [common/ll.rs] and [mem/alloc.rs], slabs, caches, the record of caches and
      the global allocator, over any [PageSource].
    - [Heap]: the global allocator as its clients see it.  The class [HeapOps] has its
      operations, [GlobalHeap] the laws over the blocks that are out; the global
      allocator over the pages it was started with is an instance.
    - [Vec], [MemTest]: the vectors of the [alloc] crate, as far as the kernel uses
      them, over a memory of bytes, and the memory test of [test.rs].
    - [Pmio]: [common/pmio.rs], port accesses of all widths as an ordered trace.
    - [Vga], [VgaTheorems]: [drivers/vga.rs], the text console.
    - [Keyboard], [KeyboardTheorems]: [drivers/ps2.rs], [io/keyboard.rs] and
      [io/monitor.rs], from scan codes to characters on the console.
    - [Interrupt], [InterruptTheorems]: [interrupt.rs], [interrupt/pic.rs] and
      [interrupt/handler.rs].
    - [Boot]: [boot/multiboot2_header.rs], the segments and linker symbols of
      [mem.rs], and the console output of [main.rs] and [common/panic.rs].
    - [MemInit], [KernelMemory]: [init] of [mem.rs], which puts the memory management
      together, and the heap on top of it.  [FirstProcess] puts the maps of processes on
      top of it too.
    - [Kmain], [Idle]: [kmain] of [main.rs] from its first message to [hlt], with
      [drivers.rs], and [hlt] of [common.rs] as the loop over the requests that wake
      the processor.  [Idle] also runs the end of [kmain] byte by byte with interrupt
      requests between its steps ([run], over a list of events).

    At boot, the multiboot memory map fills the memblock arrays; the first page
    tables map the kernel and the remap of physical memory; the boot memory
    manager allocates from the arrays; the frame record is built from what is left, and
    the buddy system, the page allocator, the slabs and the global allocator
    stand on it in this order.  The keyboard interrupt fills a ring buffer that
    the monitor empties to the console.

    ** How the code is modelled

    Every function is a Rocq function of the state it reads, which returns its
    result and the new state inside [outcome]; a failed assertion, an overflow, an
    index out of range and an [unwrap] of nothing are [Panic].  So is a reference
    to memory of the boot allocator that is not plain memory or is already in use, which the
    language leaves undefined ([boot_take] in [Phy]).  Machine integers
    are [Z]s.  Locks and cells guard state that one processor uses without
    contention, and appear as that state.  Statics that are initialised once are
    options.  Loops are structural, or run on fuel: [split_all] on
    the size of the block, [back_over_blanks] on the
    cursor, [down_to], [translate_from] and [drop_entry_target] on the number of
    levels, [init_kernel_pages] on the size of the kernel image, the loops of
    the buddy system on the height of a tree.  Each theorem that covers such a
    loop shows that it returns [Ok], so the fuel is enough.

    Code of other crates is a parameter with its documented laws, in a type
    class: [LinkedList], [BitSlice], [SlabSizes], [BitFlags], [BitSet], [RingBuf],
    [BitField]; so is what a ring buffer takes from the heap ([rb_storage] in
    [Kmain]) and what the boot loader's information holds.  Each has an instance in
    the file whose witnesses need it.  The vectors of the [alloc] crate are modelled,
    from their documentation: growth by doubling from four items, one block per vector,
    and a header of three words, whose order is the model's choice and does not
    show.  The bytes that programs write are a memory of their own, apart from page
    tables and the slabs' own data, which the model keeps as structures.  The frame
    records and the map of the buddy system are lists, with the address they start at.  The boot
    allocator puts them at low physical addresses, and a parameter ([Ram]) says which ranges there
    are plain memory that nothing else uses; the bytes are claimed from these ranges, so that the
    lists share no byte with anything else.  When memory runs out in a vector the kernel panics, in
    [handle_alloc_error]; inside a function of the model this is [None], to tell it from other
    panics, and [test_mem_rows] and [kmain_rows] turn it into [Panic] ([alloc_error] in [Vec]).
    Both take the size of the memory test, and [test_mem] and [kmain] are the case of 1200 rows
    of 10 items; their witnesses have three rows of five.  Devices are parameters too: what a port answers is a
    function of the accesses before, and the theorems on the interrupt controllers
    assume that a mask that was written can be read back.

    ** What the theorems show

    - Physical memory: [buddy_reachable_safe], [buddy_reserve_correct],
      [buddy_free_correct], [buddy_frames_conserved], [double_free_panics],
      [buddy_new_correct]: in every reachable state blocks are disjoint, nothing
      panics, and frames are neither lost nor made up.
      [memblock_init_correct], [memblocks_insert_correct],
      [memblock_reserve_correct], [freeze_correct], [aligned_split_correct] do the
      same for the boot memory manager.  [allocate_pages_correct],
      [deallocate_pages_correct], [allocate_deallocate_roundtrip] lift this to page
      ranges, [free_memblocks_correct] and [record_new_correct] to the hand-over:
      under the conditions that [handover_ok] spells out and the code does not test,
      the free frames are exactly the memory that is left, and the records lie in plain
      memory below it.  The conditions are on the blocks that are left and on the low addresses
      where the records go; an ordinary map with one area above the kernel does not meet
      them.
    - Heap: [page_allocator_refines] shows that the page allocator implements a
      set of disjoint blocks, and [heap_reachable_safe] that every client of the
      global allocator gets disjoint, aligned blocks and can give each back,
      without a panic; [heap_reuses_block], [slab_reserve_correct] and
      [slab_free_correct] describe the slabs.  [test_mem_correct] shows for every
      heap of this kind that the memory test ends without a failed assertion and
      gives all its memory back, or panics because the heap refuses a request.
    - Paging: [map_page_refines] shows that [map] is one update of the address space,
      with what it does to the larger page it may run into; [reinit_correct] is the
      round trip of an entry.  [paging_init_correct]
      shows that the first tables implement [first_map], the intended address
      space by pages, for every address; [memory_map_new_correct] that the map of a process
      shares the kernel's half, and [memory_map_drop_correct] that it gives its
      tables back.  [memory_map_life] composes them: over making a map, mapping any list of
      small pages and dropping it, no table is lost or given back twice, provided the pages
      can be had and hold zeros, which the code does not see to.  [first_process_map] shows that
      the other conditions hold on the tables that [init] builds, at any time after the boot.
    - The whole: [mem_init_correct] composes the boot up to the frame record, whose
      construction is not correct in general ([handover_frees_reserved]).
      [mem_init_heap_backed] adds the conditions under which it is, and shows that
      every byte of every block the heap will ever hand out is memory that the boot
      loader reported, apart from the frame records, and exactly when the page tables map it:
      below the next multiple of 512 GiB above the size of the managed memory.  [kmain_correct] runs all of
      [kmain], [kmain_interrupted_correct] shows that interrupts between its steps do
      not change where it ends, and [hlt_correct] what follows for any sequence of
      interrupts.
    - Devices: [vga_write_safe], [vga_println_correct], [vga_backspace_undoes],
      [keyboard_console_correct],
      [keyboard_console_drains], [interrupt_init_correct], [pic_masks_correct],
      [irq_handler_spec], [interrupt_guard_correct], [panic_screen_correct],
      [multiboot_header_valid].
    - Some theorems show that the code does not do what it means to:
      [handover_frees_reserved], [heap_one_block_per_page], and the
      lemmas [small_page_allocation_panics], [map_keeps_stale_entries],
      [aligned_split_overrun], [reserved_offset], [freeze_unused_empty],
      [record_new_over_video], [free_never_merges],
      [reserve_max_order_refused], [reinit_misaligned], [map_ignores_bad_flags],
      [vga_last_cell_freezes], [set_cursor_pos_product], [newline_at_row_start],
      [slab_allocate_oversize], [page_allocator_zst], [remap_misses_top], [slave_ack],
      [page_fault_spins], [large_page_leaks_table].

    ** Not modelled

    The recursive walker at the end of [mem/paging.rs], which is commented out, and
    the TLB; assembly ([boot/boot.S], [interrupt/handler.S], inline
    instructions beyond their effect on the modelled state); the scheduling of
    processes, of which [usr/proc.rs] has only the records; the formatting machinery of
    the core library; requests that arrive inside a single step of the model (a handler
    shares nothing with the code it interrupts but the ports and the keyboard); concurrency
    between processors, which the code does not support.  Accessors, conversions
    between references and trait declarations are not repeated where the model has the
    field or the function itself. *)

From stdpp Require Export base list.
From Stdlib Require Export ZArith Lia Bool.
Open Scope Z_scope.

(** ** Outcomes

    The kernel is built with [cargo build] (Makefile), that is with the [dev]
    profile: integer overflow, out-of-range shifts and failed [debug_assert!]s
    panic.  Every fallible operation of the model returns an [outcome];
    [OutOfFuel] is what a loop yields when the bound the model gives it is too
    small, and never stands for a behaviour of the code. *)

Inductive outcome (A : Type) : Type :=
| Ok (a : A)
| Panic
| OutOfFuel.
Arguments Ok {A} a.
Arguments Panic {A}.
Arguments OutOfFuel {A}.

Definition obind {A B : Type} (m : outcome A) (k : A -> outcome B) : outcome B :=
  match m with
  | Ok a => k a
  | Panic => Panic
  | OutOfFuel => OutOfFuel
  end.

(** [Option::expect] and [Option::unwrap]. *)
Definition oexpect {A : Type} (o : option A) : outcome A :=
  match o with
  | Some a => Ok a
  | None => Panic
  end.

Declare Scope outcome_scope.
Delimit Scope outcome_scope with outcome.
Open Scope outcome_scope.

Notation "'let!' x ':=' m 'in' k" := (obind m (fun x => k))
  (at level 10, x name, m at level 200, k at level 200)
  : outcome_scope.
Notation "'let!' ' p ':=' m 'in' k" := (obind m (fun x => match x with p => k end))
  (at level 10, p pattern, m at level 200, k at level 200)
  : outcome_scope.
(** [assert!(b)] and, in this profile, [debug_assert!(b)]. *)
Notation "'check!' b 'in' k" := (if b then k else Panic)
  (at level 10, b at level 200, k at level 200)
  : outcome_scope.

(** [x?] on an [Option] inside a function that returns an [Option]. *)
Notation "'try!' x ':=' m 'in' k" :=
  (obind m (fun o => match o with Some x => k | None => Ok None end))
  (at level 10, x name, m at level 200, k at level 200)
  : outcome_scope.
Notation "'try!' ' p ':=' m 'in' k" :=
  (obind m (fun o => match o with Some p => k | None => Ok None end))
  (at level 10, p pattern, m at level 200, k at level 200)
  : outcome_scope.

Lemma obind_Ok {A B} (m : outcome A) (k : A -> outcome B) b :
  obind m k = Ok b <-> exists a, m = Ok a /\ k a = Ok b.
Proof.
  split.
  - destruct m as [a| |]; simpl; intros H; try discriminate. by exists a.
  - by intros (a & -> & H).
Qed.

Lemma obind_assoc {A B C} (m : outcome A) (f : A -> outcome B) (g : B -> outcome C) :
  obind (obind m f) g = obind m (fun a => obind (f a) g).
Proof. by destruct m. Qed.

(** ** Machine integers

    [u8], [u16], [u32], [u64] and [usize] values are [Z]s in [0 .. 2^w).  The
    arithmetic operators check the result, as the [dev] profile does. *)

Abbreviation USIZE := 18446744073709551616 (only parsing).
Abbreviation ISIZE := 9223372036854775808 (only parsing).

Definition fits (w z : Z) : bool := (0 <=? z) && (z <? 2 ^ w).

(** The result [z] of a checked operation on [w]-bit unsigned integers. *)
Definition chk (w z : Z) : outcome Z := if fits w z then Ok z else Panic.

Definition uadd (w a b : Z) : outcome Z := chk w (a + b).
Definition usub (w a b : Z) : outcome Z := chk w (a - b).
Definition umul (w a b : Z) : outcome Z := chk w (a * b).
Definition udiv (a b : Z) : outcome Z := if b =? 0 then Panic else Ok (a / b).
Definition urem (a b : Z) : outcome Z := if b =? 0 then Panic else Ok (a mod b).

(** [a << n] keeps the low [w] bits and panics only when [n >= w]. *)
Definition ushl (w a n : Z) : outcome Z :=
  if (0 <=? n) && (n <? w) then Ok (Z.shiftl a n mod 2 ^ w) else Panic.
Definition ushr (w a n : Z) : outcome Z :=
  if (0 <=? n) && (n <? w) then Ok (Z.shiftr a n) else Panic.

(** [checked_add] and [checked_sub] of [usize]. *)
Definition checked_add (a b : Z) : option Z := if fits 64 (a + b) then Some (a + b) else None.
Definition checked_sub (a b : Z) : option Z := if fits 64 (a - b) then Some (a - b) else None.

(** [as isize], [as usize] and [as u8]: reinterpretation modulo the width. *)
Definition as_isize (z : Z) : Z := if z <? ISIZE then z else z - USIZE.
Definition as_usize (z : Z) : Z := z mod USIZE.
Definition as_u8 (z : Z) : Z := z mod 256.
Definition as_u16 (z : Z) : Z := z mod 65536.

(** Checked [isize] subtraction and addition. *)
Definition chk_i (z : Z) : outcome Z :=
  if (- ISIZE <=? z) && (z <? ISIZE) then Ok z else Panic.
Definition isub (a b : Z) : outcome Z := chk_i (a - b).
Definition iadd (a b : Z) : outcome Z := chk_i (a + b).

(** [usize::try_from] of an [isize]. *)
Definition try_usize (z : Z) : option Z := if 0 <=? z then Some z else None.

(** [checked_next_multiple_of] returns [None] for a zero multiple as well as on
    overflow; [next_multiple_of] panics in both cases. *)
Definition checked_next_multiple_of (a m : Z) : option Z :=
  if m =? 0 then None
  else let r := a mod m in
       if r =? 0 then Some a else checked_add a (m - r).
Definition next_multiple_of (a m : Z) : outcome Z := oexpect (checked_next_multiple_of a m).

Definition div_ceil (a b : Z) : outcome Z :=
  if b =? 0 then Panic
  else Ok (if a mod b =? 0 then a / b else a / b + 1).

(** [next_power_of_two] panics when the result does not fit in a [usize]. *)
Definition next_power_of_two (a : Z) : outcome Z :=
  if a <=? 1 then Ok 1 else chk 64 (2 ^ (Z.log2 (a - 1) + 1)).

Definition ilog2 (a : Z) : outcome Z := if a <=? 0 then Panic else Ok (Z.log2 a).

Definition leading_zeros (a : Z) : Z := if a =? 0 then 64 else 63 - Z.log2 a.

Fixpoint pos_trailing_zeros (p : positive) : Z :=
  match p with
  | xO q => 1 + pos_trailing_zeros q
  | _ => 0
  end.
Definition trailing_zeros (a : Z) : Z :=
  match a with
  | Zpos p => pos_trailing_zeros p
  | _ => 64
  end.

(** ** Layouts

    [core::alloc::Layout]: [pad_to_align] rounds the size up to the alignment. *)

Record Layout := mkLayout { layout_size : Z; layout_align : Z }.

Definition is_power_of_two (a : Z) : bool := (0 <? a) && (2 ^ Z.log2 a =? a).

(** What every [Layout] satisfies: a power-of-two alignment, and a size that
    still fits [isize] once it is padded. *)
Definition layout_valid (l : Layout) : Prop :=
  0 <= layout_size l /\ is_power_of_two (layout_align l) = true /\
  layout_size l <= ISIZE - layout_align l.

Definition pad_to_align (l : Layout) : Layout :=
  mkLayout ((layout_size l + layout_align l - 1) / layout_align l * layout_align l)
           (layout_align l).

(** [Layout::array::<T>(n)] for a [T] of the given size and alignment. *)
Definition layout_array (size align n : Z) : option Layout :=
  if size * n <=? ISIZE - align then Some (mkLayout (size * n) align) else None.

(** ** Integers in memory *)

(** The bytes of an integer, the lowest first, and back. *)
Fixpoint le_bytes (n : nat) (x : Z) : list Z :=
  match n with
  | O => []
  | S n => x mod 256 :: le_bytes n (x / 256)
  end.
Fixpoint le_value (bs : list Z) : Z :=
  match bs with
  | [] => 0
  | b :: bs => b + 256 * le_value bs
  end.

Lemma le_bytes_length n x : length (le_bytes n x) = n.
Proof. revert x. induction n as [|n IH]; intros x; cbn; by rewrite ?IH. Qed.

Lemma le_value_bytes n x : le_value (le_bytes n x) = x mod 256 ^ Z.of_nat n.
Proof.
  revert x. induction n as [|n IH]; intros x; cbn [le_bytes le_value]; [by rewrite Z.mod_1_r|].
  rewrite IH, Nat2Z.inj_succ, Z.pow_succ_r by lia. rewrite (Z.rem_mul_r x 256) by (try apply Z.pow_nonzero; lia). done.
Qed.

(** ** Slices

    Indexing with a [usize]; out of range panics. *)

Section Slices.
Context {A : Type}.

Definition len (l : list A) : Z := Z.of_nat (length l).

Definition slice_get (l : list A) (i : Z) : outcome A :=
  if 0 <=? i then oexpect (l !! Z.to_nat i) else Panic.

Definition slice_set (l : list A) (i : Z) (x : A) : outcome (list A) :=
  if (0 <=? i) && (i <? len l) then Ok (<[Z.to_nat i := x]> l) else Panic.

(** [&l[s..e]] *)
Definition subslice (l : list A) (s e : Z) : outcome (list A) :=
  if (0 <=? s) && (s <=? e) && (e <=? len l)
  then Ok (take (Z.to_nat (e - s)) (drop (Z.to_nat s) l)) else Panic.

(** [l[s..e]] replaced by [m], a slice of the same length. *)
Definition splice (l : list A) (s : Z) (m : list A) : list A :=
  take (Z.to_nat s) l ++ m ++ drop (Z.to_nat s + length m) l.

(** [l[s..e].fill(x)] *)
Definition slice_fill (l : list A) (s e : Z) (x : A) : outcome (list A) :=
  if (0 <=? s) && (s <=? e) && (e <=? len l)
  then Ok (splice l s (replicate (Z.to_nat (e - s)) x)) else Panic.
End Slices.

(** ** Inversion and evaluation of checked operations *)

Create HintDb koe discriminated.

(** [b = true] or [b = false] for a comparison [b] that [lia] decides. *)
Ltac bool_lia :=
  first [ lia | apply Z.eqb_neq; lia | apply Z.eqb_eq; lia | apply Z.leb_le; lia
        | apply Z.leb_gt; lia | apply Z.ltb_lt; lia | apply Z.ltb_ge; lia ].

(** Decide the guard of the goal's [if] with [lia]; fails when it cannot. *)
Ltac case_bool_lia :=
  match goal with
  | |- context [if ?b then _ else _] =>
      let E := fresh in
      first [ assert (b = true) as E by bool_lia; rewrite E; clear E
            | assert (b = false) as E by bool_lia; rewrite E; clear E ]
  end.

Lemma fits_true w z : fits w z = true <-> 0 <= z < 2 ^ w.
Proof. unfold fits. lia. Qed.

Lemma chk_ok w z : 0 <= z < 2 ^ w -> chk w z = Ok z.
Proof. intros H. unfold chk. by rewrite (proj2 (fits_true w z) H). Qed.

Lemma chk_inv w z r : chk w z = Ok r -> r = z /\ 0 <= z < 2 ^ w.
Proof.
  unfold chk. destruct (fits w z) eqn:E; [|discriminate].
  intros [= <-]. by apply fits_true in E.
Qed.

Lemma uadd_ok w a b : 0 <= a + b < 2 ^ w -> uadd w a b = Ok (a + b).
Proof. apply chk_ok. Qed.
Lemma usub_ok w a b : 0 <= a - b < 2 ^ w -> usub w a b = Ok (a - b).
Proof. apply chk_ok. Qed.
Lemma umul_ok w a b : 0 <= a * b < 2 ^ w -> umul w a b = Ok (a * b).
Proof. apply chk_ok. Qed.
Lemma udiv_ok a b : b <> 0 -> udiv a b = Ok (a / b).
Proof. intros H. unfold udiv. by rewrite (proj2 (Z.eqb_neq b 0) H). Qed.
Lemma urem_ok a b : b <> 0 -> urem a b = Ok (a mod b).
Proof. intros H. unfold urem. by rewrite (proj2 (Z.eqb_neq b 0) H). Qed.

Lemma isub_ok a b : - ISIZE <= a - b < ISIZE -> isub a b = Ok (a - b).
Proof. intros H. unfold isub, chk_i. by case_bool_lia. Qed.
Lemma iadd_ok a b : - ISIZE <= a + b < ISIZE -> iadd a b = Ok (a + b).
Proof. intros H. unfold iadd, chk_i. by case_bool_lia. Qed.

Lemma ushl_ok w a n :
  0 <= n < w -> 0 <= a * 2 ^ n < 2 ^ w -> ushl w a n = Ok (a * 2 ^ n).
Proof.
  intros Hn Ha. unfold ushl. case_bool_lia.
  rewrite Z.shiftl_mul_pow2 by lia. by rewrite Z.mod_small.
Qed.

Lemma ushr_ok w a n : 0 <= n < w -> ushr w a n = Ok (a / 2 ^ n).
Proof.
  intros Hn. unfold ushr. case_bool_lia.
  by rewrite Z.shiftr_div_pow2 by lia.
Qed.

Lemma checked_add_Some a b r :
  checked_add a b = Some r <-> r = a + b /\ 0 <= a + b < USIZE.
Proof.
  unfold checked_add. destruct (fits 64 (a + b)) eqn:E.
  - apply fits_true in E. split; [intros [= <-]|intros [-> _]]; by try split.
  - split; [discriminate|]. intros [_ H]. by rewrite (proj2 (fits_true 64 _) H) in E.
Qed.

(** Peel one layer of a hypothesis saying that a computation returned. *)
Ltac inv_ok_step H :=
  let a := fresh "r" in let Ha := fresh "Hr" in
  lazymatch type of H with
  | obind _ _ = Ok _ => apply obind_Ok in H as (a & Ha & H)
  | (if ?b then _ else Panic) = Ok _ =>
      let E := fresh "E" in destruct b eqn:E; [|discriminate H]
  | chk _ _ = Ok _ => apply chk_inv in H as [-> ?]
  | uadd _ _ _ = Ok _ => apply chk_inv in H as [-> ?]
  | usub _ _ _ = Ok _ => apply chk_inv in H as [-> ?]
  | umul _ _ _ = Ok _ => apply chk_inv in H as [-> ?]
  | Ok _ = Ok _ => injection H as H
  | Panic = Ok _ => discriminate H
  | OutOfFuel = Ok _ => discriminate H
  end.

(** Evaluate the checked operation that the computation of the goal runs first,
    its range left to [lia]. *)
Ltac ok_head m :=
  lazymatch m with
  | obind ?m' _ => ok_head m'
  | uadd ?w ?a ?b => rewrite (uadd_ok w a b) by lia
  | usub ?w ?a ?b => rewrite (usub_ok w a b) by lia
  | umul ?w ?a ?b => rewrite (umul_ok w a b) by lia
  | isub ?a ?b => rewrite (isub_ok a b) by lia
  | iadd ?a ?b => rewrite (iadd_ok a b) by lia
  | udiv ?a ?b => rewrite (udiv_ok a b) by lia
  | urem ?a ?b => rewrite (urem_ok a b) by lia
  | ushr ?w ?a ?b => rewrite (ushr_ok w a b) by lia
  end.
Ltac ok_step :=
  lazymatch goal with
  | |- ?m = _ => ok_head m
  | |- context [obind ?m _] => ok_head m
  end; cbn [obind].

(** Split a boolean guard and turn it into a proposition. *)
Ltac case_bool b E :=
  destruct b eqn:E;
  repeat first [ rewrite andb_true_iff in E | rewrite andb_false_iff in E
               | rewrite Z.ltb_lt in E | rewrite Z.ltb_ge in E
               | rewrite Z.leb_le in E | rewrite Z.leb_gt in E
               | rewrite Z.eqb_eq in E | rewrite Z.eqb_neq in E ].

(** ** Arithmetic shared by the components *)

Lemma pow2_pos n : 0 <= n -> 0 < 2 ^ n.
Proof. intros. by apply Z.pow_pos_nonneg. Qed.

Lemma pow2_succ n : 0 <= n -> 2 ^ (n + 1) = 2 * 2 ^ n.
Proof. intros. rewrite Z.pow_add_r by lia. change (2 ^ 1) with 2. lia. Qed.

Lemma pow2_le a b : 0 <= a <= b -> 2 ^ a <= 2 ^ b.
Proof. intros. apply Z.pow_le_mono_r; lia. Qed.

Lemma pow2_split a b : 0 <= a <= b -> 2 ^ b = 2 ^ (b - a) * 2 ^ a.
Proof. intros. rewrite <- Z.pow_add_r by lia. f_equal. lia. Qed.

Lemma pow2_divide a b : 0 <= a <= b -> (2 ^ a | 2 ^ b).
Proof. intros H. rewrite (pow2_split a b H). apply Z.divide_factor_r. Qed.

#[export] Hint Resolve pow2_pos pow2_le : koe.

(** Rounding up and down to a multiple. *)
Lemma round_down_spec a m :
  0 < m -> (m | a - a mod m) /\ a - m < a - a mod m <= a.
Proof.
  intros Hm. pose proof (Z.mod_pos_bound a m Hm). split; [|lia].
  exists (a / m). pose proof (Z.div_mod a m ltac:(lia)). lia.
Qed.

Lemma checked_next_multiple_of_Some a m r :
  0 <= a -> 0 < m -> checked_next_multiple_of a m = Some r ->
  (m | r) /\ a <= r < a + m.
Proof.
  intros Ha Hm. unfold checked_next_multiple_of.
  rewrite (proj2 (Z.eqb_neq m 0)) by lia. pose proof (Z.mod_pos_bound a m Hm).
  pose proof (Z.div_mod a m ltac:(lia)). cbn zeta.
  case_bool (a mod m =? 0) E.
  - intros [= <-]. split; [exists (a / m)|]; lia.
  - intros [-> _]%checked_add_Some. split; [exists (a / m + 1)|]; lia.
Qed.

Lemma checked_next_multiple_of_ok a m :
  0 <= a -> 0 < m -> a + m <= USIZE ->
  exists r, checked_next_multiple_of a m = Some r.
Proof.
  intros Ha Hm Hmax. unfold checked_next_multiple_of.
  rewrite (proj2 (Z.eqb_neq m 0)) by lia. pose proof (Z.mod_pos_bound a m Hm).
  cbn zeta. case_bool (a mod m =? 0) E; [by exists a|].
  exists (a + (m - a mod m)). apply checked_add_Some. split; [done|lia].
Qed.

(** The only multiple of [m] in an interval of length [m]. *)
Lemma multiple_unique m a r1 r2 :
  0 < m -> (m | r1) -> (m | r2) -> a <= r1 < a + m -> a <= r2 < a + m -> r1 = r2.
Proof. intros Hm [x ->] [y ->] H1 H2. assert (x = y) by nia. lia. Qed.

(** Multiples of [m] less than [m] apart from above are ordered. *)
Lemma multiple_le m a b : 0 < m -> (m | a) -> (m | b) -> a < b + m -> a <= b.
Proof.
  intros Hm [x ->] [y ->] H. apply Z.mul_le_mono_nonneg_r; [lia|].
  apply Z.lt_succ_r, (Z.mul_lt_mono_pos_r m); lia.
Qed.

Lemma multiple_add m a n : (m | a) -> (m | a + n * m).
Proof. intros H. apply Z.divide_add_r; [done|apply Z.divide_factor_r]. Qed.

(** The multiples of [P] inside [lo..hi], counted from the first one. *)
Lemma multiples_inside P x n p lo hi :
  0 < P -> (P | x) -> (P | p) -> lo <= x < lo + P -> x + n * P <= hi < x + n * P + P ->
  x <= p < x + n * P <-> lo <= p /\ p + P <= hi.
Proof.
  intros HP Hx Hp Hlo Hhi. pose proof (multiple_add P x n Hx) as Hn.
  assert (Hp1 : (P | p + P)) by (rewrite <- (Z.mul_1_l P) at 2; by apply multiple_add).
  split.
  - intros [H1 H2]. pose proof (multiple_le P (p + P) (x + n * P) HP Hp1 Hn). lia.
  - intros [H1 H2]. pose proof (multiple_le P x p HP Hx Hp).
    pose proof (multiple_le P (p + P) (x + n * P) HP Hp1 Hn). lia.
Qed.

(** The multiples of [P] whose interval of length [P] meets [lo..hi]. *)
Lemma multiples_meeting P x n p lo hi :
  0 < P -> (P | x) -> (P | p) -> x <= lo < x + P -> x + n * P - P < hi <= x + n * P ->
  x <= p < x + n * P <-> p < hi /\ lo < p + P.
Proof.
  intros HP Hx Hp Hlo Hhi. pose proof (multiple_add P x n Hx) as Hn.
  assert (Hp1 : (P | p + P)) by (rewrite <- (Z.mul_1_l P) at 2; by apply multiple_add).
  split.
  - intros [H1 H2]. pose proof (multiple_le P (p + P) (x + n * P) HP Hp1 Hn). lia.
  - intros [H1 H2]. pose proof (multiple_le P x p HP Hx Hp). lia.
Qed.

(** ** Slices: lengths and lookups *)

Section SliceLemmas.
Context {A : Type}.
Implicit Types (l m : list A).

Lemma len_nonneg l : 0 <= len l.
Proof. unfold len. lia. Qed.

Lemma slice_get_ok l i x :
  0 <= i -> l !! Z.to_nat i = Some x -> slice_get l i = Ok x.
Proof. intros Hi Hl. unfold slice_get. by rewrite (proj2 (Z.leb_le 0 i) Hi), Hl. Qed.

Lemma slice_get_in_range l i :
  0 <= i < len l -> exists x, slice_get l i = Ok x /\ l !! Z.to_nat i = Some x.
Proof.
  intros Hi. destruct (lookup_lt_is_Some_2 l (Z.to_nat i)) as [x Hx].
  { unfold len in Hi. lia. }
  exists x. split; [|done]. apply slice_get_ok; [lia|done].
Qed.

Lemma slice_set_ok l i x :
  0 <= i < len l -> slice_set l i x = Ok (<[Z.to_nat i := x]> l).
Proof. intros Hi. unfold slice_set. by case_bool_lia. Qed.

Lemma length_splice l s m :
  0 <= s -> s + len m <= len l -> length (splice l s m) = length l.
Proof.
  unfold splice, len. intros. rewrite !length_app, length_take, length_drop. lia.
Qed.

Lemma lookup_splice l s m i :
  0 <= s -> s + len m <= len l ->
  splice l s m !! i =
    if decide (Z.to_nat s <= i < Z.to_nat s + length m)%nat
    then m !! (i - Z.to_nat s)%nat else l !! i.
Proof.
  unfold splice, len. intros Hs Hle. rewrite !lookup_app, length_take.
  replace (Z.to_nat s `min` length l)%nat with (Z.to_nat s) by lia.
  destruct (decide (i < Z.to_nat s)%nat) as [Hi|Hi].
  - rewrite decide_False by lia. rewrite lookup_take_lt by lia.
    destruct (l !! i) eqn:E; [done|].
    apply lookup_ge_None in E. lia.
  - rewrite lookup_take_ge by lia. case_decide as Hm.
    + destruct (m !! (i - Z.to_nat s)%nat) eqn:E; [done|].
      apply lookup_ge_None in E. lia.
    + rewrite (lookup_ge_None_2 m) by lia.
      rewrite lookup_drop. f_equal. lia.
Qed.
End SliceLemmas.
