(* ===== verification/Addr.v ===== *)
(** * Addresses, address ranges and pages

    [src/src/mem/addr.rs] and [src/src/mem/virt.rs]: the typed addresses of an
    address space, ranges of addresses and of pages, the page sizes, and the
    translation between physical memory and its linear remap. *)

From S2P Require Import Prelude.

(** ** Address spaces *)

(** [trait AddrSpace]: the bounds of the space. *)
Class AddrSpace (S : Type) := { range_start : Z; range_end : Z }.
Arguments range_start S {_}.
Arguments range_end S {_}.

(** [trait VirtSpace]. *)
Class VirtSpace (S : Type) := { virt_addr_space :: AddrSpace S; IS_KERNEL : bool }.
Arguments IS_KERNEL S {_}.

(** [S::RANGE.contains(&x)] *)
Definition in_space (S : Type) `{AddrSpace S} (x : Z) : bool :=
  (range_start S <=? x) && (x <? range_end S).

(** What the code relies on: a non-empty range of [usize]s that does not
    straddle the middle of the [usize]s, so that differences of addresses fit
    an [isize]. *)
Class SpaceOk (S : Type) `{AddrSpace S} : Prop := {
  space_start : 0 <= range_start S;
  space_nonempty : range_start S < range_end S;
  space_end : range_end S <= USIZE;
  space_half : range_end S < ISIZE \/ ISIZE <= range_start S;
  space_size : range_end S - range_start S < ISIZE
}.

Definition TiB : Z := 1099511627776.
Definition GiB : Z := 1073741824.
Definition MiB : Z := 1048576.
Definition KiB : Z := 1024.

Inductive UMASpace := UMASpace_tag.
#[export] Instance UMASpace_space : AddrSpace UMASpace :=
  { range_start := 0; range_end := 64 * TiB }.

Inductive KernelImageSpace := KernelImageSpace_tag.
#[export] Instance KernelImageSpace_virt : VirtSpace KernelImageSpace :=
  { virt_addr_space := {| range_start := 0xFFFFFFFF80000000; range_end := 0xFFFFFFFFFF600000 |};
    IS_KERNEL := true }.

Inductive PhysicalRemapSpace := PhysicalRemapSpace_tag.
#[export] Instance PhysicalRemapSpace_virt : VirtSpace PhysicalRemapSpace :=
  { virt_addr_space := {| range_start := 0xFFFF888000000000; range_end := 0xFFFFC88000000000 |};
    IS_KERNEL := true }.

Inductive DataStackSpace := DataStackSpace_tag.
#[export] Instance DataStackSpace_virt : VirtSpace DataStackSpace :=
  { virt_addr_space := {| range_start := 0xFFFFC90000000000; range_end := 0xFFFFE90000000000 |};
    IS_KERNEL := true }.

Inductive RecursivePagingSpace := RecursivePagingSpace_tag.
#[export] Instance RecursivePagingSpace_virt : VirtSpace RecursivePagingSpace :=
  { virt_addr_space := {| range_start := 0xFFFFFE8000000000; range_end := 0xFFFFFF0000000000 |};
    IS_KERNEL := true }.

(** ** Page sizes *)

Inductive PageSize := Small | Large | Huge.

#[export] Instance PageSize_eq_dec : EqDecision PageSize.
Proof. solve_decision. Defined.

(** The discriminant, which is the base-2 logarithm of the size. *)
Definition PageSize_order (p : PageSize) : Z :=
  match p with Small => 12 | Large => 21 | Huge => 30 end.
Definition PageSize_usize (p : PageSize) : Z := 2 ^ PageSize_order p.
Definition PageSize_align (p : PageSize) : Z := PageSize_usize p.
Definition PageSize_MAX : PageSize := Huge.
Definition PageSize_MIN : PageSize := Small.
Definition PageSize_VARIANTS : list PageSize := [Small; Large; Huge].
Definition PageSize_layout (p : PageSize) : Layout :=
  mkLayout (PageSize_usize p) (PageSize_align p).

(** The loop of [PageSize::fit] over the remaining variants. *)
Fixpoint fit_from (align_order : Z) (variants : list PageSize) : option PageSize :=
  match variants with
  | [] => None
  | p :: rest =>
      if align_order <=? PageSize_order p then Some p else fit_from align_order rest
  end.
Definition PageSize_fit (layout : Layout) : option PageSize :=
  let layout := pad_to_align layout in
  let align_order := as_u8 (64 - leading_zeros (layout_size layout)) in
  fit_from align_order PageSize_VARIANTS.

(** [assert_range_is_page_aligned] *)
Definition assert_range_is_page_aligned (S : Type) `{AddrSpace S} : bool :=
  (range_start S mod PageSize_align PageSize_MAX =? 0) &&
  (range_end S mod PageSize_align PageSize_MAX =? 0).

(** ** Addresses *)

Record Addr (S : Type) := mkAddr { value : Z }.
Arguments mkAddr {S} value.
Arguments value {S} a : rename.

Section AddrOps.
Context {S : Type} `{AddrSpace S}.

Definition Addr_new (v : Z) : outcome (Addr S) :=
  check! in_space S v in Ok (mkAddr v).

Definition byte_add (a : Addr S) (x : Z) : outcome (Addr S) :=
  let! v := uadd 64 (value a) x in
  check! range_start S <=? v in Ok (mkAddr v).

Definition checked_byte_add (a : Addr S) (x : Z) : option (Addr S) :=
  match checked_add (value a) x with
  | Some v => if in_space S v then Some (mkAddr v) else None
  | None => None
  end.

Definition byte_sub (a : Addr S) (x : Z) : outcome (Addr S) :=
  let! v := usub 64 (value a) x in
  check! v <? range_end S in Ok (mkAddr v).

Definition checked_byte_sub (a : Addr S) (x : Z) : option (Addr S) :=
  match checked_sub (value a) x with
  | Some v => if in_space S v then Some (mkAddr v) else None
  | None => None
  end.

Definition addr_sub (a x : Addr S) : outcome Z := isub (as_isize (value a)) (as_isize (value x)).

Definition align_ceil (a : Addr S) (align : Z) : option (Addr S) :=
  match checked_next_multiple_of (value a) align with
  | Some x => if x <? range_end S then Some (mkAddr x) else None
  | None => None
  end.

Definition align_floor (a : Addr S) (align : Z) : outcome (option (Addr S)) :=
  let! r := urem (value a) align in
  let! x := usub 64 (value a) r in
  Ok (if range_start S <=? x then Some (mkAddr x) else None).

Definition is_aligned_to (a : Addr S) (alignment : Z) : outcome bool :=
  let! r := urem (value a) alignment in Ok (r =? 0).

End AddrOps.

(** [index_range]: the bits [lo..hi] of a virtual address; [strict_shl] panics
    from 64 on, and [hi = 64] is therefore refused. *)
Definition index_range {S : Type} `{VirtSpace S} (a : Addr S) (lo hi : Z) : outcome Z :=
  if hi <=? lo then Ok 0
  else
    let! top := ushl 64 1 hi in
    let! mask := usub 64 top 1 in
    ushr 64 (Z.land (value a) mask) lo.

(** ** Pages *)

Record PageAddr (S : Type) := mkPageAddr { page_base : Addr S; page_size : PageSize }.
Arguments mkPageAddr {S}.
Arguments page_base {S}.
Arguments page_size {S}.

Record PageRange (S : Type) := mkPageRange { pr_base : PageAddr S; pr_len : Z }.
Arguments mkPageRange {S}.
Arguments pr_base {S}.
Arguments pr_len {S}.

Record AddrRange (S : Type) := mkAddrRange { ar_base : Addr S; ar_size : Z }.
Arguments mkAddrRange {S}.
Arguments ar_base {S}.
Arguments ar_size {S}.

Section PageOps.
Context {S : Type} `{AddrSpace S}.

Definition PageAddr_new (base : Addr S) (ps : PageSize) : outcome (PageAddr S) :=
  let! r := urem (value base) (PageSize_align ps) in
  check! r =? 0 in Ok (mkPageAddr base ps).

Definition checked_page_add (p : PageAddr S) (page_cnt : Z) : outcome (option (PageAddr S)) :=
  let! n := umul 64 page_cnt (PageSize_usize (page_size p)) in
  Ok (match checked_byte_add (page_base p) n with
      | Some b => Some (mkPageAddr b (page_size p))
      | None => None
      end).

Definition checked_page_sub (p : PageAddr S) (page_cnt : Z) : outcome (option (PageAddr S)) :=
  let! n := umul 64 page_cnt (PageSize_usize (page_size p)) in
  Ok (match checked_byte_sub (page_base p) n with
      | Some b => Some (mkPageAddr b (page_size p))
      | None => None
      end).

(** [Into<AddrRange<S>> for PageRange<S>] *)
Definition PageRange_into (r : PageRange S) : outcome (AddrRange S) :=
  let! size := umul 64 (pr_len r) (PageSize_usize (page_size (pr_base r))) in
  Ok (mkAddrRange (page_base (pr_base r)) size).

(** [IntoIterator for PageRange<S>], the items in order.  [(start..)] steps past
    each item it yields, hence the checked increment. *)
Fixpoint pages_from (n : nat) (base step : Z) (ps : PageSize) : outcome (list (PageAddr S)) :=
  match n with
  | O => Ok []
  | Datatypes.S n =>
      let! _ := uadd 64 base 1 in
      let! a := Addr_new base in
      let! p := PageAddr_new a ps in
      let! rest := pages_from n (base + step) step ps in
      Ok (p :: rest)
  end.
Definition PageRange_into_iter (r : PageRange S) : outcome (list (PageAddr S)) :=
  pages_from (Z.to_nat (pr_len r)) (value (page_base (pr_base r)))
    (PageSize_usize (page_size (pr_base r))) (page_size (pr_base r)).

Definition PageRange_empty (ps : PageSize) : outcome (PageRange S) :=
  let! a := Addr_new (range_start S) in
  let! base := PageAddr_new a ps in
  Ok (mkPageRange base 0).

Definition try_from_range (r : AddrRange S) (ps : PageSize) : outcome (option (PageRange S)) :=
  let! aligned := is_aligned_to (ar_base r) (PageSize_align ps) in
  if negb aligned then Ok None
  else
    let! base := PageAddr_new (ar_base r) ps in
    if negb (ar_size r mod PageSize_align ps =? 0) then Ok None
    else Ok (Some (mkPageRange base (ar_size r / PageSize_align ps))).

(** ** Address ranges *)

Definition AddrRange_new (base : Addr S) (size : Z) : outcome (AddrRange S) :=
  let! e := uadd 64 (value base) size in
  check! e <=? range_end S in Ok (mkAddrRange base size).

(** [From<Range<Addr<S>>>] *)
Definition AddrRange_from (start end_ : Addr S) : outcome (AddrRange S) :=
  let! d := addr_sub end_ start in
  Ok (mkAddrRange start (default 0 (try_usize d))).

Definition AddrRange_end (r : AddrRange S) : outcome (Addr S) := byte_add (ar_base r) (ar_size r).
Definition AddrRange_is_empty (r : AddrRange S) : bool := ar_size r =? 0.
Definition AddrRange_empty : outcome (AddrRange S) :=
  let! a := Addr_new (range_start S) in Ok (mkAddrRange a 0).

Definition range_sub (self rhs : AddrRange S) : outcome (AddrRange S * AddrRange S) :=
  if AddrRange_is_empty self then
    let! e := AddrRange_empty in Ok (e, rhs)
  else if AddrRange_is_empty rhs then
    let! e := AddrRange_empty in Ok (self, e)
  else
    let! d := addr_sub (ar_base rhs) (ar_base self) in
    let low_size := Z.min (default 0 (try_usize d)) (ar_size self) in
    let! d' := addr_sub (ar_base self) (ar_base rhs) in
    let! ds := isub (as_isize (ar_size self)) (as_isize (ar_size rhs)) in
    let! h := iadd d' ds in
    let hi_size := Z.min (default 0 (try_usize h)) (ar_size self) in
    let! lo := AddrRange_new (ar_base self) low_size in
    let! n := usub 64 (ar_size self) hi_size in
    let! hb := byte_add (ar_base self) n in
    let! hi := AddrRange_new hb hi_size in
    Ok (lo, hi).

Definition contained_pages (self : AddrRange S) (ps : PageSize) : outcome (PageRange S) :=
  if ar_size self <? PageSize_usize ps then PageRange_empty ps
  else
    let! base := oexpect (align_ceil (ar_base self) (PageSize_usize ps)) in
    let! d := addr_sub base (ar_base self) in
    let! residual := usub 64 (ar_size self) (as_usize d) in
    let! p := PageAddr_new base ps in
    Ok (mkPageRange p (residual / PageSize_usize ps)).

Definition overlapped_pages (self : AddrRange S) (ps : PageSize) : outcome (PageRange S) :=
  let! o := align_floor (ar_base self) (PageSize_usize ps) in
  let! base := oexpect o in
  let! d := addr_sub (ar_base self) base in
  let! residual := uadd 64 (ar_size self) (as_usize d) in
  let! p := PageAddr_new base ps in
  let! n := div_ceil residual (PageSize_usize ps) in
  Ok (mkPageRange p n).
End PageOps.

(** ** The virtual spaces of [virt.rs] *)

Definition KernelImageSpace_v2p (vaddr : Addr KernelImageSpace) : outcome (Addr UMASpace) :=
  check! in_space KernelImageSpace (value vaddr) in
  let! v := usub 64 (value vaddr) (range_start KernelImageSpace) in
  Addr_new v.

Definition REMAP_OFFSET : Z := range_start PhysicalRemapSpace.

Definition p2v (paddr : Addr UMASpace) : outcome (Addr PhysicalRemapSpace) :=
  let! v := uadd 64 (value paddr) REMAP_OFFSET in Addr_new v.

Definition v2p (vaddr : Addr PhysicalRemapSpace) : outcome (Addr UMASpace) :=
  let! v := usub 64 (value vaddr) REMAP_OFFSET in Addr_new v.

(** ** Lemmas *)

#[export] Instance UMASpace_ok : SpaceOk UMASpace.
Proof. split; cbn; unfold TiB; lia. Qed.
#[export] Instance KernelImageSpace_ok : SpaceOk KernelImageSpace.
Proof. split; cbn; lia. Qed.
#[export] Instance PhysicalRemapSpace_ok : SpaceOk PhysicalRemapSpace.
Proof. split; cbn; lia. Qed.

Lemma UMA_end : range_end UMASpace = 70368744177664.
Proof. reflexivity. Qed.
Lemma UMA_start : range_start UMASpace = 0.
Proof. reflexivity. Qed.

Lemma PageSize_usize_pos p : 0 < PageSize_usize p.
Proof. by destruct p. Qed.
Lemma PageSize_usize_bound p : PageSize_usize p <= GiB.
Proof. by destruct p. Qed.
#[export] Hint Resolve PageSize_usize_pos PageSize_usize_bound : koe.

Section SpaceLemmas.
Context {S : Type} `{HS : SpaceOk S}.

(** The range lies in the address space. *)
Definition range_ok (r : AddrRange S) : Prop :=
  range_start S <= value (ar_base r) /\ 0 <= ar_size r /\
  value (ar_base r) + ar_size r <= range_end S.

Definition in_range (r : AddrRange S) (x : Z) : Prop :=
  value (ar_base r) <= x < value (ar_base r) + ar_size r.

(** The page at [p] belongs to the page range. *)
Definition page_in (r : PageRange S) (p : Z) : Prop :=
  value (page_base (pr_base r)) <= p <
  value (page_base (pr_base r)) + pr_len r * PageSize_usize (page_size (pr_base r)).

Lemma addr_sub_ok (a b : Addr S) :
  range_start S <= value a <= range_end S -> range_start S <= value b <= range_end S ->
  value a < USIZE -> value b < USIZE ->
  addr_sub a b = Ok (value a - value b).
Proof using HS.
  intros Ha Hb Ua Ub. destruct HS as [S1 S2 S3 S4 S5]. unfold addr_sub, as_isize.
  assert (E : forall x y, (x <? ISIZE) = (y <? ISIZE) ->
    (if x <? ISIZE then x else x - USIZE) - (if y <? ISIZE then y else y - USIZE) = x - y).
  { intros x y ->. destruct (y <? ISIZE); lia. }
  rewrite isub_ok; rewrite E; try lia; done.
Qed.

Lemma in_space_ok x : range_start S <= x < range_end S -> in_space S x = true.
Proof using. unfold in_space. lia. Qed.

Lemma Addr_new_ok x : range_start S <= x < range_end S -> Addr_new (S := S) x = Ok (mkAddr x).
Proof using. intros Hx. unfold Addr_new. by rewrite in_space_ok. Qed.

Lemma PageAddr_new_ok (a : Addr S) ps :
  (PageSize_usize ps | value a) -> PageAddr_new a ps = Ok (mkPageAddr a ps).
Proof using.
  intros Hd. unfold PageAddr_new. pose proof (PageSize_usize_pos ps).
  unfold PageSize_align. ok_step. rewrite (proj2 (Z.mod_divide (value a) (PageSize_usize ps) ltac:(lia)) Hd). done.
Qed.

Lemma AddrRange_new_ok (base : Addr S) size :
  0 <= value base -> 0 <= size -> value base + size <= range_end S ->
  value base + size < USIZE ->
  AddrRange_new base size = Ok (mkAddrRange base size).
Proof using.
  intros. unfold AddrRange_new. ok_step. by case_bool_lia.
Qed.

Lemma byte_add_ok (a : Addr S) x :
  range_start S <= value a -> 0 <= x -> 0 <= value a -> value a + x < USIZE ->
  byte_add a x = Ok (mkAddr (value a + x)).
Proof using. intros. unfold byte_add. ok_step. by case_bool_lia. Qed.

Lemma AddrRange_empty_ok : AddrRange_empty (S := S) = Ok (mkAddrRange (mkAddr (range_start S)) 0).
Proof using HS.
  destruct HS. unfold AddrRange_empty. rewrite Addr_new_ok by lia. done.
Qed.

Lemma default_try_usize z : default 0 (try_usize z) = Z.max 0 z.
Proof using. unfold try_usize. case_bool (0 <=? z) E; cbn; lia. Qed.

Lemma align_ceil_ok (a : Addr S) m :
  0 <= value a -> 0 < m -> value a + m <= range_end S -> range_end S <= USIZE ->
  exists x, align_ceil a m = Some (mkAddr x) /\ (m | x) /\ value a <= x < value a + m.
Proof using.
  intros Ha Hm Hend Hu. unfold align_ceil.
  destruct (checked_next_multiple_of_ok (value a) m) as [r Hr]; [lia..|].
  destruct (checked_next_multiple_of_Some _ _ _ Ha Hm Hr) as [Hd Hb].
  rewrite Hr. exists r. case_bool_lia. done.
Qed.

Lemma align_floor_ok (a : Addr S) m :
  0 <= value a < USIZE -> 0 < m -> 0 <= range_start S ->
  range_start S <= value a -> (m | range_start S) ->
  exists x, align_floor a m = Ok (Some (mkAddr x)) /\ (m | x) /\
    value a - m < x <= value a /\ range_start S <= x.
Proof using.
  intros Ha Hm H0 Hs [q Hq]. unfold align_floor. ok_step.
  destruct (round_down_spec (value a) m Hm) as [Hd Hb].
  pose proof (Z.mod_pos_bound (value a) m Hm). pose proof (Z.mod_le (value a) m ltac:(lia) Hm).
  ok_step. exists (value a - value a mod m).
  assert (range_start S <= value a - value a mod m) by (destruct Hd as [q' Hq']; assert (q <= q') by nia; nia).
  case_bool_lia. done.
Qed.
End SpaceLemmas.

(** ** Properties *)

(** C38: on a non-empty range [range_sub] is the set difference: the two ranges
    it returns lie in the address space, in order and without overlap, and hold
    exactly the addresses of the first range that the second does not. *)
Theorem range_sub_correct {S : Type} `{HS : SpaceOk S} (self rhs : AddrRange S) :
  range_ok self -> range_ok rhs -> ar_size self <> 0 ->
  value (ar_base self) + ar_size self < USIZE ->
  exists lo hi, range_sub self rhs = Ok (lo, hi) /\
    (forall x, in_range lo x \/ in_range hi x <-> in_range self x /\ ~ in_range rhs x) /\
    (ar_size rhs <> 0 -> value (ar_base lo) + ar_size lo <= value (ar_base hi)) /\
    (ar_size rhs <> 0 -> range_ok lo /\ range_ok hi).
Proof.
  intros (A1 & A2 & A3) (B1 & B2 & B3) Hne Hu. destruct (HS) as [S1 S2 S3 S4 S5].
  unfold range_sub, AddrRange_is_empty. case_bool_lia.
  case_bool (ar_size rhs =? 0) E.
  { rewrite AddrRange_empty_ok. cbn [obind]. eexists _, _. split; [done|].
    unfold in_range; cbn. split; [|lia]. intros x. lia. }
  rewrite addr_sub_ok by lia. cbn [obind]. rewrite addr_sub_ok by lia. cbn [obind].
  unfold as_isize. repeat case_bool_lia. ok_step. ok_step. rewrite !default_try_usize.
  set (low := Z.min _ _). set (hi := Z.min _ _).
  rewrite AddrRange_new_ok by lia. cbn [obind]. ok_step.
  rewrite byte_add_ok by lia. cbn [obind].
  rewrite AddrRange_new_ok by (cbn; lia). cbn [obind].
  eexists _, _. split; [done|]. unfold in_range, range_ok; cbn.
  split; [intros x; lia|]. split; intros _; lia.
Qed.

(** Subtracting from an empty range returns the subtrahend, which is not the
    empty set difference. *)
Theorem range_sub_empty_self {S : Type} `{HS : SpaceOk S} (self rhs : AddrRange S) :
  ar_size self = 0 ->
  exists e, range_sub self rhs = Ok (e, rhs) /\
    (forall x, ~ in_range self x) /\ (forall x, ~ in_range e x).
Proof.
  intros E. unfold range_sub, AddrRange_is_empty. case_bool_lia.
  rewrite AddrRange_empty_ok. cbn [obind]. eexists. split; [done|]. unfold in_range; cbn.
  split; lia.
Qed.

(** [contained_pages] returns for every range of the space, and its pages are
    exactly the aligned pages that lie inside the range. *)
Theorem contained_pages_correct {S : Type} `{HS : SpaceOk S} (r : AddrRange S) ps :
  range_ok r -> (PageSize_usize ps | range_start S) ->
  exists pr, contained_pages r ps = Ok pr /\ page_size (pr_base pr) = ps /\
    forall p, (PageSize_usize ps | p) ->
      page_in pr p <->
      value (ar_base r) <= p /\ p + PageSize_usize ps <= value (ar_base r) + ar_size r.
Proof.
  intros (A1 & A2 & A3) Hst. destruct (HS) as [S1 S2 S3 S4 S5].
  pose proof (PageSize_usize_pos ps) as Hp. unfold contained_pages.
  case_bool (ar_size r <? PageSize_usize ps) E.
  { unfold PageRange_empty. rewrite Addr_new_ok by lia. cbn [obind].
    rewrite PageAddr_new_ok by done. cbn [obind]. eexists. split; [done|]. split; [done|].
    intros p _. unfold page_in; cbn. lia. }
  destruct (align_ceil_ok (ar_base r) (PageSize_usize ps)) as (x & Ex & Hd & Hx); [lia..|].
  rewrite Ex. cbn [obind oexpect]. rewrite addr_sub_ok by (cbn; lia). cbn [obind value].
  unfold as_usize. rewrite Z.mod_small by lia. ok_step.
  rewrite PageAddr_new_ok by done. cbn [obind]. eexists. split; [done|]. split; [done|].
  intros p Hdp. unfold page_in; cbn.
  set (res := ar_size r - (x - value (ar_base r))).
  pose proof (Z.div_mod res (PageSize_usize ps) ltac:(lia)) as Edm.
  pose proof (Z.mod_pos_bound res (PageSize_usize ps) Hp) as Hm.
  apply multiples_inside; try done; lia.
Qed.

(** [overlapped_pages] returns for every non-empty range of the space, and
    its pages are exactly the aligned pages that share an address with it. *)
Theorem overlapped_pages_correct {S : Type} `{HS : SpaceOk S} (r : AddrRange S) ps :
  range_ok r -> 0 < ar_size r -> (PageSize_usize ps | range_start S) ->
  exists pr, overlapped_pages r ps = Ok pr /\ page_size (pr_base pr) = ps /\
    forall p, (PageSize_usize ps | p) ->
      page_in pr p <->
      p < value (ar_base r) + ar_size r /\ value (ar_base r) < p + PageSize_usize ps.
Proof.
  intros (A1 & A2 & A3) Hne Hst. destruct (HS) as [S1 S2 S3 S4 S5].
  pose proof (PageSize_usize_pos ps) as Hp. pose proof (PageSize_usize_bound ps) as Hg.
  unfold GiB in Hg. unfold overlapped_pages.
  destruct (align_floor_ok (ar_base r) (PageSize_usize ps)) as (x & Ex & Hd & Hx & Hxs); [lia..|done|].
  rewrite Ex. cbn [obind oexpect]. rewrite addr_sub_ok by (cbn; lia). cbn [obind value].
  unfold as_usize. rewrite Z.mod_small by lia. ok_step.
  rewrite PageAddr_new_ok by done. cbn [obind].
  unfold div_ceil. case_bool_lia. cbn [obind]. eexists. split; [done|]. split; [done|].
  intros p Hdp. unfold page_in; cbn.
  set (res := ar_size r + (value (ar_base r) - x)).
  pose proof (Z.div_mod res (PageSize_usize ps) ltac:(lia)) as Edm.
  pose proof (Z.mod_pos_bound res (PageSize_usize ps) Hp) as Hm.
  case_bool (res mod PageSize_usize ps =? 0) E0; apply multiples_meeting; try done; lia.
Qed.

(** [usize::BITS - leading_zeros] against a power of two. *)
Lemma bit_length_le n k :
  0 <= n < USIZE -> 0 <= k < 64 -> 64 - leading_zeros n <= k <-> n < 2 ^ k.
Proof.
  intros Hn Hk. unfold leading_zeros. case_bool (n =? 0) E.
  - subst n. pose proof (pow2_pos k). lia.
  - rewrite (Z.log2_lt_pow2 n k) by lia. lia.
Qed.

(** [PageSize::fit] returns the smallest page strictly larger than the padded
    layout, and [None] exactly when the layout is at least as large as the
    largest page. *)
Theorem page_fit_correct l :
  layout_valid l ->
  let n := layout_size (pad_to_align l) in
  match PageSize_fit l with
  | Some p => n < PageSize_usize p /\ forall q, n < PageSize_usize q -> PageSize_usize p <= PageSize_usize q
  | None => PageSize_usize Huge <= n
  end.
Proof.
  intros (Hs & Hpow & Hmax) n. assert (Hn : 0 <= n < USIZE).
  { unfold n, pad_to_align; cbn. unfold is_power_of_two in Hpow.
    assert (Ha : 0 < layout_align l) by lia. set (a := layout_align l) in *.
    pose proof (Z.mul_div_le (layout_size l + a - 1) a Ha).
    pose proof (Z.div_pos (layout_size l + a - 1) a ltac:(lia) Ha). nia. }
  unfold PageSize_fit. fold n. unfold as_u8.
  assert (Hlz : 0 <= 64 - leading_zeros n <= 64).
  { unfold leading_zeros. case_bool (n =? 0) E; [lia|].
    pose proof (Z.log2_nonneg n). assert (Z.log2 n < 64) by (apply Z.log2_lt_pow2; lia). lia. }
  rewrite Z.mod_small by lia. cbn [PageSize_VARIANTS fit_from PageSize_order].
  pose proof (bit_length_le n 12 Hn ltac:(lia)). pose proof (bit_length_le n 21 Hn ltac:(lia)).
  pose proof (bit_length_le n 30 Hn ltac:(lia)).
  assert (Hu : forall q, PageSize_usize q = 2 ^ 12 \/ PageSize_usize q = 2 ^ 21 \/ PageSize_usize q = 2 ^ 30)
    by (intros []; auto).
  change (PageSize_usize Huge) with (2 ^ 30) in *.
  case_bool (64 - leading_zeros n <=? 12) E1; [|case_bool (64 - leading_zeros n <=? 21) E2;
    [|case_bool (64 - leading_zeros n <=? 30) E3]].
  - change (PageSize_usize Small) with (2 ^ 12). split; [lia|]. intros q Hq. destruct (Hu q); lia.
  - change (PageSize_usize Large) with (2 ^ 21). split; [lia|]. intros q Hq. destruct (Hu q); lia.
  - change (PageSize_usize Huge) with (2 ^ 30). split; [lia|]. intros q Hq. destruct (Hu q); lia.
  - lia.
Qed.

(** No page size fits its own layout: [fit] takes the next larger page for a
    layout that fills a page exactly, and finds none for the largest. *)
Theorem page_fit_own_layout :
  PageSize_fit (PageSize_layout Small) = Some Large /\
  PageSize_fit (PageSize_layout Large) = Some Huge /\
  PageSize_fit (PageSize_layout Huge) = None.
Proof. repeat split; vm_compute; reflexivity. Qed.

(** An address of physical memory and its image under the remap. *)
Lemma remap_ok x :
  0 <= x < range_end UMASpace ->
  p2v (mkAddr x) = Ok (mkAddr (x + REMAP_OFFSET)) /\
  in_space PhysicalRemapSpace (x + REMAP_OFFSET) = true /\
  v2p (mkAddr (x + REMAP_OFFSET)) = Ok (mkAddr x).
Proof.
  rewrite UMA_end. intros Hx. unfold p2v, v2p, REMAP_OFFSET; cbn [value].
  change (range_start PhysicalRemapSpace) with 0xFFFF888000000000.
  ok_step. rewrite Addr_new_ok by (cbn; lia). split; [done|].
  split; [apply in_space_ok; cbn; lia|]. ok_step.
  rewrite Addr_new_ok by (cbn; unfold TiB; lia). do 2 f_equal. lia.
Qed.

(** The remap is a bijection between physical memory and its virtual space:
    [p2v] and [v2p] never panic on an address of their space and undo each
    other. *)
Theorem remap_roundtrip :
  (forall p : Addr UMASpace, in_space UMASpace (value p) = true ->
     exists v, p2v p = Ok v /\ in_space PhysicalRemapSpace (value v) = true /\ v2p v = Ok p) /\
  (forall v : Addr PhysicalRemapSpace, in_space PhysicalRemapSpace (value v) = true ->
     exists p, v2p v = Ok p /\ in_space UMASpace (value p) = true /\ p2v p = Ok v).
Proof.
  split; intros [x] Hx; unfold in_space in Hx; cbn [value] in Hx; rewrite andb_true_iff, Z.leb_le, Z.ltb_lt in Hx.
  - destruct (remap_ok x) as (E & Hin & E'); [done|]. by eexists.
  - change (range_start PhysicalRemapSpace) with 0xFFFF888000000000 in Hx.
    change (range_end PhysicalRemapSpace) with 0xFFFFC88000000000 in Hx.
    destruct (remap_ok (x - REMAP_OFFSET)) as (E & _ & E').
    { rewrite UMA_end. unfold REMAP_OFFSET. change (range_start PhysicalRemapSpace) with 0xFFFF888000000000. lia. }
    rewrite Z.sub_add in E, E'. exists (mkAddr (x - REMAP_OFFSET)). split; [done|]. split; [|done].
    apply in_space_ok. rewrite UMA_start, UMA_end. unfold REMAP_OFFSET. cbn [value].
    change (range_start PhysicalRemapSpace) with 0xFFFF888000000000. lia.
Qed.

(** Every address space but the kernel image's starts and ends on a boundary
    of the largest page; the end of the kernel image space does not. *)
Theorem spaces_page_aligned :
  assert_range_is_page_aligned UMASpace = true /\
  assert_range_is_page_aligned PhysicalRemapSpace = true /\
  assert_range_is_page_aligned DataStackSpace = true /\
  assert_range_is_page_aligned RecursivePagingSpace = true /\
  assert_range_is_page_aligned KernelImageSpace = false.
Proof. repeat split; vm_compute; reflexivity. Qed.

(** An aligned page range survives the conversion to an address range and
    back. *)
Theorem page_range_roundtrip {S : Type} `{AddrSpace S} (r : PageRange S) :
  let ps := page_size (pr_base r) in
  (PageSize_usize ps | value (page_base (pr_base r))) ->
  0 <= pr_len r -> pr_len r * PageSize_usize ps < USIZE ->
  exists a, PageRange_into r = Ok a /\ try_from_range a ps = Ok (Some r).
Proof.
  intros ps Hd H0 Hu. destruct r as [[base sz] n]; cbn in *. pose proof (PageSize_usize_pos sz) as Hp.
  unfold PageRange_into; cbn. rewrite umul_ok by nia. cbn. eexists. split; [done|].
  unfold try_from_range, is_aligned_to, PageSize_align; cbn [ar_base ar_size].
  ok_step. unfold ps. rewrite (proj2 (Z.mod_divide (value base) (PageSize_usize sz) ltac:(lia)) Hd).
  cbn [negb Z.eqb obind]. rewrite PageAddr_new_ok by done. cbn [obind].
  rewrite Z.mod_mul by lia. cbn [negb Z.eqb]. rewrite Z.div_mul by lia. done.
Qed.

(** ** Witnesses *)

Definition demo_range (b n : Z) : AddrRange UMASpace := mkAddrRange (mkAddr b) n.

Lemma range_sub_correct_witness :
  exists lo hi, range_sub (demo_range 0x1000 0x4000) (demo_range 0x2000 0x1000) = Ok (lo, hi) /\
    in_range hi 0x3800.
Proof.
  destruct (range_sub_correct (demo_range 0x1000 0x4000) (demo_range 0x2000 0x1000))
    as (lo & hi & E & H & _); [cbn; unfold range_ok, TiB; cbn; unfold TiB; lia..|].
  exists lo, hi. split; [exact E|]. vm_compute in E. injection E as <- <-.
  unfold in_range; cbn. lia.
Defined.

Lemma range_sub_empty_self_witness :
  exists e, range_sub (demo_range 0x1000 0) (demo_range 0x2000 0x1000) =
    Ok (e, demo_range 0x2000 0x1000).
Proof.
  destruct (range_sub_empty_self (demo_range 0x1000 0) (demo_range 0x2000 0x1000) eq_refl)
    as (e & E & _). by exists e.
Defined.

Lemma contained_pages_correct_witness :
  exists pr, contained_pages (demo_range 0x1800 0x3000) Small = Ok pr /\
    (page_in pr 0x2000 <-> 0x1800 <= 0x2000 /\ 0x2000 + 0x1000 <= 0x1800 + 0x3000).
Proof.
  destruct (contained_pages_correct (demo_range 0x1800 0x3000) Small) as (pr & E & _ & H);
    [unfold range_ok; cbn; unfold TiB; lia|by exists 0|].
  exists pr. split; [exact E|]. apply (H 0x2000). by exists 2.
Defined.

Lemma overlapped_pages_correct_witness :
  exists pr, overlapped_pages (demo_range 0x1800 0x3000) Small = Ok pr /\
    (page_in pr 0x1000 <-> 0x1000 < 0x1800 + 0x3000 /\ 0x1800 < 0x1000 + 0x1000).
Proof.
  destruct (overlapped_pages_correct (demo_range 0x1800 0x3000) Small) as (pr & E & _ & H);
    [unfold range_ok; cbn; unfold TiB; lia|cbn; lia|by exists 0|].
  exists pr. split; [exact E|]. apply (H 0x1000). by exists 1.
Defined.

Lemma page_fit_correct_witness :
  PageSize_fit (mkLayout 4095 1) = Some Small /\ 4095 < PageSize_usize Small.
Proof.
  split; [vm_compute; reflexivity|].
  apply (page_fit_correct (mkLayout 4095 1)).
  split; [cbn; lia|]. split; [vm_compute; reflexivity|cbn; lia].
Defined.

Lemma page_range_roundtrip_witness :
  exists a, PageRange_into (mkPageRange (mkPageAddr (@mkAddr UMASpace 0x3000) Small) 2) = Ok a /\
    try_from_range a Small = Ok (Some (mkPageRange (mkPageAddr (mkAddr 0x3000) Small) 2)).
Proof.
  apply (page_range_roundtrip (mkPageRange (mkPageAddr (@mkAddr UMASpace 0x3000) Small) 2)).
  - by exists 3.
  - cbn. lia.
  - vm_compute. reflexivity.
Defined.
