(* ===== verification/ArrayForest.v ===== *)
(** * The array forest

    [src/src/common/array_forest.rs]: a forest of perfect binary trees stored
    level by level in one buffer.  The node at offset [o] has its children at
    [2 * o] and [2 * o + 1]; level [d] starts at offset [tree_cnt << d], and
    offset [o] is stored at index [o - tree_cnt] of the buffer.  A cursor is a
    depth and an offset; the forest it borrows is an argument of its operations,
    and the operations that write through it return the new forest. *)

From S2P Require Import Prelude.

(** [buf] is a borrowed slice: the address it starts at and its items. *)
Record ArrayForest (T : Type) := mkForest {
  buf_ptr : Z;
  buf : list T;
  tree_depth : Z;
  tree_cnt : Z
}.
Arguments mkForest {T}.
Arguments buf_ptr {T}.
Arguments buf {T}.
Arguments tree_depth {T}.
Arguments tree_cnt {T}.

Record Cursor := mkCursor { depth : Z; max_depth : Z; offset : Z }.

(** ** Cursors *)

Definition down (c : Cursor) (child_idx : Z) : outcome (Cursor * bool) :=
  check! child_idx <? 2 in
  if depth c =? max_depth c then Ok (c, false)
  else
    let! d := uadd 64 (depth c) 1 in
    let! o := umul 64 (offset c) 2 in
    let! o := uadd 64 o child_idx in
    Ok (mkCursor d (max_depth c) o, true).

Definition left (c : Cursor) : outcome (Cursor * bool) := down c 0.
Definition right (c : Cursor) : outcome (Cursor * bool) := down c 1.

Definition up (c : Cursor) : outcome (Cursor * bool) :=
  if depth c =? 0 then Ok (c, false)
  else
    let! d := usub 64 (depth c) 1 in
    Ok (mkCursor d (max_depth c) (offset c / 2), true).

Definition sibling (c : Cursor) : Cursor * bool :=
  if depth c =? 0 then (c, false)
  else (mkCursor (depth c) (max_depth c) (Z.lxor (offset c) 1), true).

Section Forest.
Context {T : Type}.
Implicit Types F : ArrayForest T.

(** [get] and the write [*cursor.get_mut() = x]. *)
Definition get F (c : Cursor) : outcome T :=
  let! idx := usub 64 (offset c) (tree_cnt F) in
  slice_get (buf F) idx.

Definition set F (c : Cursor) (x : T) : outcome (ArrayForest T) :=
  let! idx := usub 64 (offset c) (tree_cnt F) in
  let! b := slice_set (buf F) idx x in
  Ok (mkForest (buf_ptr F) b (tree_depth F) (tree_cnt F)).

(** ** The forest *)

Definition offset_start F (d : Z) : outcome Z := ushl 64 (tree_cnt F) d.

Definition forest_max_depth F : outcome Z := usub 64 (tree_depth F) 1.

(** [Cursor::idx] *)
Definition idx F (c : Cursor) : outcome Z :=
  let! s := offset_start F (depth c) in
  usub 64 (offset c) s.

(** [cursor] and [cursor_mut]. *)
Definition cursor F (d i : Z) : outcome Cursor :=
  check! d <=? tree_depth F in
  let! s := offset_start F d in
  let! d' := uadd 64 d 1 in
  let! e := offset_start F d' in
  let! n := usub 64 e s in
  check! i <? n in
  let! o := uadd 64 s i in
  let! m := forest_max_depth F in
  Ok (mkCursor d m o).

(** The bounds that [slice] and [slice_mut] share. *)
Definition slice_bounds F (d : Z) : outcome (Z * Z) :=
  let! s := offset_start F d in
  let! s := usub 64 s (tree_cnt F) in
  let! d' := uadd 64 d 1 in
  let! e := offset_start F d' in
  let! e := usub 64 e (tree_cnt F) in
  Ok (s, e).

Definition slice F (d : Z) : outcome (list T) :=
  let! ' (s, e) := slice_bounds F d in
  subslice (buf F) s e.

(** [slice_mut], the borrowed nodes rewritten by [f]. *)
Definition slice_mut F (d : Z) (f : list T -> outcome (list T)) : outcome (ArrayForest T) :=
  let! ' (s, e) := slice_bounds F d in
  let! nodes := subslice (buf F) s e in
  let! nodes := f nodes in
  Ok (mkForest (buf_ptr F) (splice (buf F) s nodes) (tree_depth F) (tree_cnt F)).

(** [buf_layout], for nodes of [size] bytes aligned to [align]. *)
Definition buf_layout (size align tcnt tdepth : Z) : outcome Layout :=
  let! n := ushl 64 tcnt tdepth in
  oexpect (layout_array size align n).

(** [ArrayForest::new]: the allocator is state passing, and what it allocates is
    filled before it is read.  [None] is [Err(AllocError)]. *)
Definition forest_new {St : Type} (size align tcnt tdepth : Z)
    (alloc : Layout -> St -> outcome (option Z * St)) (fill : T) (st : St)
    : outcome (option (ArrayForest T) * St) :=
  let! l := buf_layout size align tcnt tdepth in
  let! n := udiv (layout_size l) size in
  let! ' (r, st) := alloc l st in
  Ok (match r with
      | None => None
      | Some buf_ptr => Some (mkForest buf_ptr (replicate (Z.to_nat n) fill) tdepth tcnt)
      end, st).
End Forest.

(** ** Well-formed forests *)

Section ForestLemmas.
Context {T : Type}.
Implicit Types F : ArrayForest T.

(** The sizes of a forest that [forest_new] builds: [tree_depth] levels and a
    buffer of [tree_cnt << tree_depth] nodes, small enough that no offset
    computation overflows. *)
Record forest_ok F : Prop := {
  fo_cnt : 1 <= tree_cnt F;
  fo_depth : 1 <= tree_depth F;
  fo_depth_max : tree_depth F < 63;
  fo_len : len (buf F) = tree_cnt F * 2 ^ tree_depth F;
  fo_max : tree_cnt F * 2 ^ (tree_depth F + 1) < USIZE
}.

(** Offset [o] is a node of level [d]. *)
Definition on_level F (d o : Z) : Prop :=
  0 <= d < tree_depth F /\ tree_cnt F * 2 ^ d <= o < tree_cnt F * 2 ^ (d + 1).

(** [c] points at the node at offset [o] of level [d]. *)
Definition cursor_at F (c : Cursor) (d o : Z) : Prop :=
  c = mkCursor d (tree_depth F - 1) o /\ on_level F d o.

Lemma level_bound F d :
  forest_ok F -> 0 <= d <= tree_depth F + 1 ->
  0 <= tree_cnt F * 2 ^ d < USIZE.
Proof.
  intros [? ? ? ? ?] Hd. pose proof (pow2_le d (tree_depth F + 1) Hd).
  pose proof (pow2_pos d). nia.
Qed.

Lemma offset_start_ok F d :
  forest_ok F -> 0 <= d <= tree_depth F + 1 -> offset_start F d = Ok (tree_cnt F * 2 ^ d).
Proof.
  intros HF Hd. apply ushl_ok; [destruct HF; lia|by apply level_bound].
Qed.

Lemma on_level_index F d o :
  forest_ok F -> on_level F d o -> 0 <= o - tree_cnt F < len (buf F).
Proof.
  intros HF [Hd Ho]. destruct HF as [? ? ? Hl ?]. rewrite Hl.
  pose proof (pow2_le 0 d). pose proof (pow2_le (d + 1) (tree_depth F)).
  change (2 ^ 0) with 1 in *. nia.
Qed.

Lemma on_level_usize F d o : forest_ok F -> on_level F d o -> 0 <= o < USIZE.
Proof.
  intros HF [Hd Ho]. pose proof (level_bound F d HF). pose proof (level_bound F (d + 1) HF). lia.
Qed.

Lemma on_level_child F d o b :
  on_level F d o -> d + 1 < tree_depth F -> 0 <= b < 2 -> on_level F (d + 1) (2 * o + b).
Proof.
  intros [Hd Ho] Hd' Hb. split; [lia|].
  rewrite (pow2_succ (d + 1)) by lia. rewrite (pow2_succ d) in * by lia. lia.
Qed.

Lemma on_level_parent F d o : 0 < d -> on_level F d o -> on_level F (d - 1) (o / 2).
Proof.
  intros Hd [Hd' Ho]. split; [lia|].
  replace (d - 1 + 1) with d by lia.
  assert (E1 : 2 ^ d = 2 * 2 ^ (d - 1)) by (rewrite <- pow2_succ by lia; f_equal; lia).
  assert (E2 : 2 ^ (d + 1) = 2 * 2 ^ d) by (apply pow2_succ; lia).
  rewrite E2, E1 in Ho. rewrite E1.
  pose proof (Z.div_mod o 2). pose proof (Z.mod_pos_bound o 2). lia.
Qed.

(** [o ^ 1] is the other child of the parent of [o]. *)
Lemma lxor_1 o : Z.lxor o 1 = 2 * (o / 2) + (1 - o mod 2).
Proof.
  rewrite <- Z.bit0_mod.
  pose proof (Z.div_mod o 2 ltac:(lia)) as E. rewrite <- Z.bit0_mod in E.
  apply Z.bits_inj'. intros n Hn. rewrite Z.lxor_spec.
  destruct (Z.eq_dec n 0) as [->|Hn0].
  - replace (Z.testbit 1 0) with true by done.
    destruct (Z.testbit o 0) eqn:B; simpl Z.b2z.
    + by replace (2 * (o / 2) + (1 - 1)) with (2 * (o / 2)) by lia; rewrite Z.testbit_even_0.
    + by replace (2 * (o / 2) + (1 - 0)) with (2 * (o / 2) + 1) by lia; rewrite Z.testbit_odd_0.
  - replace (Z.testbit 1 n) with false.
    2:{ symmetry. change 1 with (2 ^ 0). apply Z.pow2_bits_false. lia. }
    rewrite xorb_false_r. replace n with (Z.succ (n - 1)) by lia.
    destruct (Z.testbit o 0) eqn:B; simpl Z.b2z in *.
    + replace (2 * (o / 2) + (1 - 1)) with (2 * (o / 2)) by lia.
      rewrite Z.testbit_even_succ by lia. rewrite E at 1. by rewrite Z.testbit_odd_succ by lia.
    + replace (2 * (o / 2) + (1 - 0)) with (2 * (o / 2) + 1) by lia.
      rewrite Z.testbit_odd_succ by lia. rewrite E at 1. rewrite Z.add_0_r.
      by rewrite Z.testbit_even_succ by lia.
Qed.

(** The cursor operations on a cursor that points at a node. *)

Lemma get_at F c d o :
  forest_ok F -> cursor_at F c d o ->
  exists x, get F c = Ok x /\ buf F !! Z.to_nat (o - tree_cnt F) = Some x.
Proof.
  intros HF [-> Ho]. pose proof (on_level_index _ _ _ HF Ho) as Hi.
  pose proof (on_level_usize _ _ _ HF Ho). pose proof (fo_cnt _ HF).
  unfold get. cbn [offset]. ok_step. by apply slice_get_in_range.
Qed.

Lemma set_at F c d o x :
  forest_ok F -> cursor_at F c d o ->
  set F c x = Ok (mkForest (buf_ptr F) (<[Z.to_nat (o - tree_cnt F) := x]> (buf F)) (tree_depth F) (tree_cnt F)).
Proof.
  intros HF [-> Ho]. pose proof (on_level_index _ _ _ HF Ho) as Hi.
  pose proof (on_level_usize _ _ _ HF Ho). pose proof (fo_cnt _ HF).
  unfold set. cbn [offset]. ok_step. by rewrite slice_set_ok.
Qed.

Lemma down_at F c d o b :
  forest_ok F -> cursor_at F c d o -> d + 1 < tree_depth F -> 0 <= b < 2 ->
  down c b = Ok (mkCursor (d + 1) (tree_depth F - 1) (2 * o + b), true).
Proof.
  intros HF [-> Ho] Hd Hb. pose proof (on_level_child _ _ _ _ Ho Hd Hb) as Ho'.
  pose proof (on_level_usize _ _ _ HF Ho). pose proof (on_level_usize _ _ _ HF Ho').
  pose proof (fo_depth_max _ HF). destruct Ho as [? _].
  unfold down. cbn [depth max_depth offset].
  case_bool_lia. case_bool_lia. ok_step. ok_step. rewrite (Z.mul_comm o 2). by ok_step.
Qed.

Lemma up_at F c d o :
  forest_ok F -> cursor_at F c d o -> 0 < d ->
  up c = Ok (mkCursor (d - 1) (tree_depth F - 1) (o / 2), true).
Proof.
  intros HF [-> Ho] Hd. pose proof (fo_depth_max _ HF). destruct Ho as [? _].
  unfold up. cbn [depth max_depth offset]. case_bool_lia. by ok_step.
Qed.

Lemma cursor_ok F d i :
  forest_ok F -> 0 <= d < tree_depth F -> 0 <= i < tree_cnt F * 2 ^ d ->
  cursor F d i = Ok (mkCursor d (tree_depth F - 1) (tree_cnt F * 2 ^ d + i)) /\
  on_level F d (tree_cnt F * 2 ^ d + i).
Proof.
  intros HF Hd Hi. pose proof (fo_depth_max _ HF).
  pose proof (level_bound F (d + 1) HF ltac:(lia)). pose proof (level_bound F d HF ltac:(lia)).
  assert (E : tree_cnt F * 2 ^ (d + 1) = 2 * (tree_cnt F * 2 ^ d)) by (rewrite pow2_succ; lia).
  split; [|split; lia]. unfold cursor, forest_max_depth. case_bool_lia.
  rewrite offset_start_ok by (done || lia). cbn [obind]. ok_step.
  rewrite offset_start_ok by (done || lia). cbn [obind]. ok_step.
  case_bool_lia. repeat ok_step. done.
Qed.

Lemma idx_at F c d o :
  forest_ok F -> cursor_at F c d o -> idx F c = Ok (o - tree_cnt F * 2 ^ d).
Proof.
  intros HF [-> Ho]. pose proof (on_level_usize _ _ _ HF Ho). destruct Ho as [? ?].
  unfold idx. cbn [depth offset]. rewrite offset_start_ok by (done || lia). cbn [obind].
  pose proof (level_bound F d HF ltac:(lia)). by ok_step.
Qed.

Lemma slice_bounds_ok F d :
  forest_ok F -> 0 <= d < tree_depth F ->
  slice_bounds F d = Ok (tree_cnt F * 2 ^ d - tree_cnt F, tree_cnt F * 2 ^ (d + 1) - tree_cnt F) /\
  0 <= tree_cnt F * 2 ^ d - tree_cnt F <= tree_cnt F * 2 ^ (d + 1) - tree_cnt F /\
  tree_cnt F * 2 ^ (d + 1) - tree_cnt F <= len (buf F).
Proof.
  intros HF Hd. pose proof (fo_cnt _ HF). pose proof (fo_depth_max _ HF).
  pose proof (fo_len _ HF) as Hl.
  pose proof (level_bound F (d + 1) HF ltac:(lia)). pose proof (level_bound F d HF ltac:(lia)).
  pose proof (pow2_le 0 d ltac:(lia)). pose proof (pow2_le d (d + 1) ltac:(lia)).
  pose proof (pow2_le (d + 1) (tree_depth F) ltac:(lia)). change (2 ^ 0) with 1 in *.
  assert (tree_cnt F <= tree_cnt F * 2 ^ d) by nia.
  assert (tree_cnt F * 2 ^ d <= tree_cnt F * 2 ^ (d + 1)) by nia.
  split; [|split; [lia|]].
  - unfold slice_bounds. rewrite offset_start_ok by (done || lia). cbn [obind]. ok_step. ok_step.
    rewrite offset_start_ok by (done || lia). cbn [obind]. by ok_step.
  - rewrite Hl. nia.
Qed.
End ForestLemmas.
