(* ===== verification/Buddy.v ===== *)
(** * The buddy system

    [src/src/mem/phy/buddy.rs].  A node of the forest holds a [Buddy]: 0 for
    reserved, [order + 1] for a node under which a free block of that order can
    be found. *)

From S2P Require Import Prelude Addr ArrayForest.

Definition BUDDY_MAX_ORDER : Z := 18.
Definition BUDDY_MAX_DEPTH : Z := BUDDY_MAX_ORDER.
Definition BUDDY_MIN_BLOCK_SIZE : Z := PageSize_usize Small.

(** ** Buddies, [struct Buddy(u8)] *)

Definition Buddy_free (order : Z) : outcome Z :=
  check! negb (order =? 255) in uadd 8 order 1.
Definition Buddy_reserved : Z := 0.
Definition Buddy_is_reserved (b : Z) : bool := b =? 0.
Definition Buddy_is_free (b : Z) : bool := negb (Buddy_is_reserved b).
Definition Buddy_order (b : Z) : outcome Z := usub 8 b 1.

Record BuddySystem := mkBuddySystem { map : ArrayForest Z; max_order : Z }.

(** ** Operations *)

(** [BuddySystem::new].  A [Buddy] is one byte wide. *)
Definition buddy_new {St : Type} (page_cnt : Z)
    (alloc : Layout -> St -> outcome (option Z * St)) (st : St)
    : outcome (option BuddySystem * St) :=
  let! dummy_page_cnt := next_power_of_two page_cnt in
  let! l := ilog2 dummy_page_cnt in
  let max_order := Z.min (as_u8 l) BUDDY_MAX_ORDER in
  let! tree_depth := uadd 8 max_order 1 in
  let! blk := ushl 64 1 max_order in
  let! tree_cnt := div_ceil page_cnt blk in
  let! ' (r, st) := forest_new 1 1 tree_cnt tree_depth alloc Buddy_reserved st in
  Ok (match r with
      | None => None
      | Some m => Some (mkBuddySystem m max_order)
      end, st).

Definition depth_to_order (m : ArrayForest Z) (d : Z) : outcome Z :=
  let! md := forest_max_depth m in
  let! o := usub 64 md d in Ok (as_u8 o).
Definition order_to_depth (m : ArrayForest Z) (order : Z) : outcome Z :=
  let! md := forest_max_depth m in usub 64 md order.

(** The loop of [fixup_map], one unit of fuel per level. *)
Fixpoint fixup_map (fuel : nat) (m : ArrayForest Z) (c : Cursor) : outcome (ArrayForest Z) :=
  match fuel with
  | O => OutOfFuel
  | S fuel =>
      if depth c =? 0 then Ok m
      else
        let! me := get m c in
        let (c, _) := sibling c in
        let! sib := get m c in
        let par := Z.max me sib in
        let! ' (c, _) := up c in
        let! cur := get m c in
        if cur =? par then Ok m
        else
          let! m := set m c par in
          fixup_map fuel m c
  end.
Definition fixup (m : ArrayForest Z) (c : Cursor) : outcome (ArrayForest Z) :=
  fixup_map (S (Z.to_nat (depth c))) m c.

Definition free (b : BuddySystem) (idx order : Z) : outcome BuddySystem :=
  let! d := order_to_depth (map b) order in
  let! i := ushr 64 idx order in
  let! c := cursor (map b) d i in
  let! buddy := get (map b) c in
  check! Buddy_is_reserved buddy in
  let! x := Buddy_free order in
  let! m := set (map b) c x in
  let! m := fixup m c in
  Ok (mkBuddySystem m (max_order b)).

(** The loop of [free_forced] over [depth in target_depth..=max_depth]: [n]
    levels are left, the next one is [depth]. *)
Fixpoint fill_levels (n : nat) (m : ArrayForest Z) (idx max_depth target_depth depth : Z)
    : outcome (ArrayForest Z) :=
  match n with
  | O => Ok m
  | S n =>
      let! order := usub 64 max_depth depth in
      let! k := usub 64 depth target_depth in
      let! block_cnt := ushl 64 1 k in
      let! start := ushr 64 idx order in
      let! end_ := uadd 64 start block_cnt in
      let! x := Buddy_free (as_u8 order) in
      let! m := slice_mut m depth (fun blocks => slice_fill blocks start end_ x) in
      fill_levels n m idx max_depth target_depth (depth + 1)
  end.

Definition free_forced (b : BuddySystem) (idx order : Z) : outcome BuddySystem :=
  check! order <=? max_order b in
  let! max_depth := forest_max_depth (map b) in
  let! target_depth := usub 64 max_depth order in
  let! m := fill_levels (Z.to_nat (max_depth - target_depth + 1)) (map b)
              idx max_depth target_depth target_depth in
  let! i := ushr 64 idx order in
  let! c := cursor m target_depth i in
  let! m := fixup m c in
  Ok (mkBuddySystem m (max_order b)).

(** The first loop of [reserve]: the index of the first root that holds a free
    block of an order above [order]. *)
Fixpoint find_root (roots : list Z) (i order : Z) : outcome (option Z) :=
  match roots with
  | [] => Ok None
  | root :: rest =>
      if Buddy_is_free root then
        let! o := Buddy_order root in
        if order <? o then Ok (Some i) else find_root rest (i + 1) order
      else find_root rest (i + 1) order
  end.

(** The second loop of [reserve]: a search with an explicit stack, an
    [ArrayVec] of [BUDDY_MAX_DEPTH] cursors whose [push] panics when it is
    full.  [None] is the loop left with [cursor_opt = None]. *)
Fixpoint search (fuel : nat) (m : ArrayForest Z) (order : Z) (c : Cursor) (stack : list Cursor)
    : outcome (option Cursor) :=
  match fuel with
  | O => OutOfFuel
  | S fuel =>
      let pop := match stack with
                 | [] => Ok None
                 | c' :: stack' => search fuel m order c' stack'
                 end in
      let! b := get m c in
      if Buddy_is_reserved b then pop
      else
        let! cur_max_order := depth_to_order m (depth c) in
        let! cur_order := Buddy_order b in
        if cur_order <? order then pop
        else if (cur_order =? order) && (cur_order =? cur_max_order) then Ok (Some c)
        else
          let! ' (rewind, not_end) := right c in
          check! not_end in
          check! len stack <? BUDDY_MAX_DEPTH in
          let! ' (c', _) := left c in
          search fuel m order c' (rewind :: stack)
  end.

(** Every iteration visits another node, so the size of the buffer bounds the
    search. *)
Definition search_fuel (m : ArrayForest Z) : nat := length (buf m).

Definition reserve (b : BuddySystem) (order : Z) : outcome (option Z * BuddySystem) :=
  check! order <=? max_order b in
  let! roots := slice (map b) 0 in
  let! r := find_root roots 0 order in
  match r with
  | None => Ok (None, b)
  | Some i =>
      let! c := cursor (map b) 0 i in
      let! found := search (search_fuel (map b)) (map b) order c [] in
      match found with
      | None => Panic
      | Some c =>
          let! i := idx (map b) c in
          let! c := cursor (map b) (depth c) i in
          let! m := set (map b) c Buddy_reserved in
          let! m := fixup m c in
          let! r := ushl 64 i order in
          Ok (Some r, mkBuddySystem m (max_order b))
      end
  end.
