(* ===== verification/BuddyTree.v ===== *)
(** * The invariant of the buddy map

    What a map of the buddy system means, stated on the function from offsets to
    buddies.  A node of height [h] (the order of the block it stands for) is in
    one of three states: its whole block is free, its whole block was reserved at
    once, or its buddy is the larger of its children's. *)

From S2P Require Import Prelude.

(** The buddy of a node of height [h] whose block is free as a whole. *)
Definition full (h : nat) : Z := Z.of_nat h + 1.

(** The node [o] of height [h] stands for a block that was reserved whole: the
    nodes under it still look free. *)
Definition hidden (v : Z -> Z) (h : nat) (o : Z) : Prop :=
  match h with
  | O => False
  | S h' => v o = 0 /\ v (2 * o) = full h' /\ v (2 * o + 1) = full h'
  end.

Definition node_ok (v : Z -> Z) (h : nat) (o : Z) : Prop :=
  match h with
  | O => v o = 0 \/ v o = 1
  | S h' =>
      (v o = full h /\ v (2 * o) = full h' /\ v (2 * o + 1) = full h') \/
      hidden v h o \/
      v o = Z.max (v (2 * o)) (v (2 * o + 1))
  end.

(** Whether the leaf [L] is free, seen from its ancestor of height [h]: the
    first ancestor that is free or reserved as a whole decides. *)
Fixpoint walk (v : Z -> Z) (h : nat) (L : Z) : bool :=
  let o := L / 2 ^ Z.of_nat h in
  if v o =? full h then true
  else if v o =? 0 then false
  else match h with
       | O => false
       | S h' => walk v h' L
       end.

(** ** Ancestors *)

Lemma div_pow2_succ L (h : nat) : L / 2 ^ Z.of_nat (S h) = (L / 2 ^ Z.of_nat h) / 2.
Proof.
  rewrite Nat2Z.inj_succ, Z.pow_succ_r by lia. rewrite Z.mul_comm.
  rewrite Z.div_div; [done|pose proof (pow2_pos (Z.of_nat h)); lia|lia].
Qed.

Lemma div_pow2_add L (a b : nat) :
  L / 2 ^ Z.of_nat (a + b) = (L / 2 ^ Z.of_nat a) / 2 ^ Z.of_nat b.
Proof.
  rewrite Nat2Z.inj_add, Z.pow_add_r by lia.
  pose proof (pow2_pos (Z.of_nat a)). pose proof (pow2_pos (Z.of_nat b)).
  rewrite Z.div_div; lia.
Qed.

Lemma div_pow2_0 L : L / 2 ^ Z.of_nat 0 = L.
Proof. apply Z.div_1_r. Qed.

Lemma child_cases c o : c / 2 = o -> c = 2 * o \/ c = 2 * o + 1.
Proof. pose proof (Z.div_mod c 2). pose proof (Z.mod_pos_bound c 2). lia. Qed.

Section Tree.
(** The number of trees and the height of their roots. *)
Context (T : Z) (D : nat) (HT : 1 <= T).

(** Offset [o] is a node of height [h]. *)
Definition lev (h : nat) (o : Z) : Prop :=
  (h <= D)%nat /\ T * 2 ^ Z.of_nat (D - h) <= o < T * 2 ^ Z.of_nat (D - h + 1).

Definition nodes_ok (v : Z -> Z) : Prop := forall h o, lev h o -> node_ok v h o.

Lemma lev_child h o b : lev (S h) o -> 0 <= b < 2 -> lev h (2 * o + b).
Proof.
  intros [Hh Ho] Hb. split; [lia|].
  replace (D - h)%nat with (S (D - S h)) by lia.
  replace (D - S h + 1)%nat with (S (D - S h)) in Ho by lia.
  replace (S (D - S h) + 1)%nat with (S (S (D - S h))) by lia.
  rewrite !Nat2Z.inj_succ, !Z.pow_succ_r in * by lia. lia.
Qed.

Lemma lev_left h o : lev (S h) o -> lev h (2 * o).
Proof. intros H. rewrite <- (Z.add_0_r (2 * o)). apply lev_child; [done|lia]. Qed.
Lemma lev_right h o : lev (S h) o -> lev h (2 * o + 1).
Proof. intros H. apply lev_child; [done|lia]. Qed.

Lemma lev_parent h o : (h < D)%nat -> lev h o -> lev (S h) (o / 2).
Proof.
  intros Hh [_ Ho]. split; [lia|].
  replace (D - h)%nat with (S (D - S h)) in Ho by lia.
  replace (D - S h + 1)%nat with (S (D - S h)) by lia.
  replace (S (D - S h) + 1)%nat with (S (S (D - S h))) in Ho by lia.
  rewrite !Nat2Z.inj_succ, !Z.pow_succ_r in * by lia.
  pose proof (Z.div_mod o 2). pose proof (Z.mod_pos_bound o 2). lia.
Qed.

Lemma lev_anc (j : nat) : forall h o,
  (h + j <= D)%nat -> lev h o -> lev (h + j) (o / 2 ^ Z.of_nat j).
Proof.
  induction j as [|j IH]; intros h o Hj Ho.
  - rewrite div_pow2_0, Nat.add_0_r. done.
  - rewrite div_pow2_succ, Nat.add_succ_r. apply lev_parent; [lia|]. apply IH; [lia|done].
Qed.

Lemma lev_unique h1 h2 o : lev h1 o -> lev h2 o -> h1 = h2.
Proof.
  intros [H1 O1] [H2 O2].
  destruct (Nat.lt_trichotomy h1 h2) as [Hl|[He|Hl]]; [|done|]; exfalso.
  - assert (2 ^ Z.of_nat (D - h2 + 1) <= 2 ^ Z.of_nat (D - h1)) by (apply pow2_le; lia). nia.
  - assert (2 ^ Z.of_nat (D - h1 + 1) <= 2 ^ Z.of_nat (D - h2)) by (apply pow2_le; lia). nia.
Qed.

Section Values.
Context (v : Z -> Z) (Hv : nodes_ok v).

Lemma val_bound : forall h o, lev h o -> 0 <= v o <= full h.
Proof using Hv.
  induction h as [|h IH]; intros o Ho; pose proof (Hv _ _ Ho) as Hn; simpl in Hn; unfold full in *.
  - lia.
  - pose proof (IH _ (lev_left _ _ Ho)). pose proof (IH _ (lev_right _ _ Ho)). lia.
Qed.

(** A free block is free all the way down. *)
Lemma full_children h o :
  lev (S h) o -> v o = full (S h) -> v (2 * o) = full h /\ v (2 * o + 1) = full h.
Proof using Hv.
  intros Ho Hf. pose proof (Hv _ _ Ho) as Hn.
  pose proof (val_bound _ _ (lev_left _ _ Ho)). pose proof (val_bound _ _ (lev_right _ _ Ho)).
  simpl in Hn. unfold full in *. lia.
Qed.

(** A node with a child that is not full, and that is not hidden, holds the
    larger of its children's buddies. *)
Lemma max_of_not_full h o :
  lev (S h) o -> v (2 * o) <> full h \/ v (2 * o + 1) <> full h ->
  v o = Z.max (v (2 * o)) (v (2 * o + 1)).
Proof using Hv. intros Ho Hn. pose proof (Hv _ _ Ho) as Hok. simpl in Hok. lia. Qed.

Lemma max_not_full h o :
  lev (S h) o -> v o = Z.max (v (2 * o)) (v (2 * o + 1)) ->
  v o <> full (S h) /\ ~ hidden v (S h) o.
Proof using Hv.
  intros Ho Hm.
  pose proof (val_bound _ _ (lev_left _ _ Ho)). pose proof (val_bound _ _ (lev_right _ _ Ho)).
  unfold hidden, full in *. lia.
Qed.

(** Once the parent of [o] is the maximum of its children, so is every
    ancestor above it. *)
Lemma ancestors_max k o :
  lev k o -> (k < D)%nat ->
  v (o / 2) = Z.max (v (2 * (o / 2))) (v (2 * (o / 2) + 1)) ->
  forall j, (k + S j <= D)%nat ->
  let a := o / 2 ^ Z.of_nat (S j) in
  v a = Z.max (v (2 * a)) (v (2 * a + 1)).
Proof using Hv.
  intros Ho Hk Hm. induction j as [|j IH]; intros Hj; cbv zeta.
  - rewrite div_pow2_succ, div_pow2_0. done.
  - pose proof (lev_anc (S j) k o ltac:(lia) Ho) as Hc.
    pose proof (IH ltac:(lia)) as Hm'. cbv zeta in Hm'.
    rewrite Nat.add_succ_r in Hc.
    destruct (max_not_full _ _ Hc Hm') as [Hnf _].
    rewrite (div_pow2_succ o (S j)). rewrite <- Nat.add_succ_r in Hc, Hnf.
    apply (max_of_not_full (k + S j)); [apply lev_parent; [lia|done]|].
    destruct (child_cases (o / 2 ^ Z.of_nat (S j)) _ eq_refl) as [E|E]; rewrite <- E; auto.
Qed.

(** ** Free leaves *)

Lemma walk_full h L : v (L / 2 ^ Z.of_nat h) = full h -> walk v h L = true.
Proof using. intros E. destruct h; simpl; by rewrite E, Z.eqb_refl. Qed.

Lemma walk_zero h L : v (L / 2 ^ Z.of_nat h) = 0 -> walk v h L = false.
Proof using.
  intros E. assert (Hf : (0 =? full h) = false) by (apply Z.eqb_neq; unfold full; lia).
  destruct h; cbn [walk]; by rewrite E, Hf, Z.eqb_refl.
Qed.

(** Only a node that was reserved whole hides what is below it. *)
Lemma walk_step h L :
  lev (S h) (L / 2 ^ Z.of_nat (S h)) -> ~ hidden v (S h) (L / 2 ^ Z.of_nat (S h)) ->
  walk v (S h) L = walk v h L.
Proof using Hv.
  intros Ho Hh. set (o := L / 2 ^ Z.of_nat (S h)) in *.
  assert (Hc : L / 2 ^ Z.of_nat h = 2 * o \/ L / 2 ^ Z.of_nat h = 2 * o + 1)
    by (apply child_cases; unfold o; by rewrite div_pow2_succ).
  pose proof (val_bound _ _ (lev_left _ _ Ho)). pose proof (val_bound _ _ (lev_right _ _ Ho)).
  destruct (Z.eq_dec (v o) (full (S h))) as [Ef|Ef].
  - destruct (full_children _ _ Ho Ef).
    rewrite (walk_full (S h)), (walk_full h); [done| |exact Ef].
    destruct Hc as [-> | ->]; done.
  - destruct (Z.eq_dec (v o) 0) as [E0|E0].
    + rewrite (walk_zero (S h)), (walk_zero h); [done| |exact E0].
      pose proof (Hv _ _ Ho) as Hn. cbn [node_ok] in Hn.
      destruct Hn as [[? _]|[?|?]]; [done|done|]. destruct Hc as [-> | ->]; lia.
    + cbn [walk]. fold o. by rewrite (proj2 (Z.eqb_neq _ _) Ef), (proj2 (Z.eqb_neq _ _) E0).
Qed.

(** No ancestor of [o], a node of height [k], was reserved whole. *)
Definition visible (k : nat) (o : Z) : Prop :=
  forall j, (k + S j <= D)%nat -> ~ hidden v (k + S j) (o / 2 ^ Z.of_nat (S j)).

Lemma walk_visible k L :
  lev 0 L -> (k <= D)%nat -> visible k (L / 2 ^ Z.of_nat k) -> walk v D L = walk v k L.
Proof using Hv.
  intros HL Hk Hvis. assert (G : forall j, (k + j <= D)%nat -> walk v (k + j) L = walk v k L).
  { induction j as [|j IH]; intros Hj; [by rewrite Nat.add_0_r|].
    rewrite <- IH by lia. rewrite Nat.add_succ_r. apply walk_step.
    - apply (lev_anc (S (k + j)) 0 L); [lia|done].
    - rewrite <- Nat.add_succ_r, div_pow2_add. apply Hvis. lia. }
  replace D with (k + (D - k))%nat by lia. apply G. lia.
Qed.
End Values.

(** ** The effect of changing a node and its ancestors *)

Section Update.
Context (v v' : Z -> Z) (Hv : nodes_ok v) (Hv' : nodes_ok v').
Context (k : nat) (o : Z) (Ho : lev k o).
(** Outside the ancestors of [o] and the tree under it nothing changes. *)
Context (Hsame : forall h' o', lev h' o' ->
  (forall j, (k + j <= D)%nat -> o' <> o / 2 ^ Z.of_nat j) ->
  ((h' < k)%nat -> o' / 2 ^ Z.of_nat (k - h') <> o) -> v' o' = v o').

Lemma walk_unaffected (i : nat) L :
  lev 0 L -> (k <= i <= D)%nat ->
  (forall j, (k + j <= i)%nat -> L / 2 ^ Z.of_nat (k + j) <> o / 2 ^ Z.of_nat j) ->
  walk v' i L = walk v i L.
Proof using Hsame Ho HT.
  intros HL Hi Hne.
  assert (E : forall i', (i' <= i)%nat -> v' (L / 2 ^ Z.of_nat i') = v (L / 2 ^ Z.of_nat i')).
  { intros i' Hi'. pose proof (lev_anc i' 0 L ltac:(lia) HL) as H1. simpl in H1.
    apply (Hsame i' _ H1).
    - intros j Hj Heq. rewrite Heq in H1.
      pose proof (lev_unique _ _ _ H1 (lev_anc j k o Hj Ho)) as E.
      apply (Hne j); [lia|]. by rewrite <- E.
    - intros Hlt Heq. apply (Hne 0%nat); [lia|]. rewrite div_pow2_0, Nat.add_0_r, <- Heq.
      rewrite <- div_pow2_add. do 3 f_equal. lia. }
  clear Hne. destruct Hi as [_ Hi]. induction i as [|i IH]; cbn [walk]; rewrite !E by lia; [done|].
  rewrite IH; [done|lia|]. intros i' Hi'. apply E. lia.
Qed.

Lemma walk_update L :
  lev 0 L -> visible v k o -> visible v' k o ->
  walk v' D L = if L / 2 ^ Z.of_nat k =? o then walk v' k L else walk v D L.
Proof using Hsame Ho HT Hv Hv'.
  intros HL Hvis Hvis'. pose proof (proj1 Ho) as Hk.
  case_bool (L / 2 ^ Z.of_nat k =? o) E.
  - apply walk_visible; [done|done|done|]. by rewrite E.
  - assert (G : forall j, (k + j <= D)%nat -> walk v' (k + j) L = walk v (k + j) L).
    { induction j as [|j IH]; intros Hj.
      - apply walk_unaffected; [done|lia|]. intros j Hj'.
        replace j with 0%nat by lia. by rewrite Nat.add_0_r, div_pow2_0.
      - destruct (Z.eq_dec (L / 2 ^ Z.of_nat (k + S j)) (o / 2 ^ Z.of_nat (S j))) as [Ej|Ej].
        + pose proof (lev_anc (k + S j) 0 L ltac:(lia) HL) as Hl. simpl in Hl.
          pose proof (Hvis j Hj) as H1. pose proof (Hvis' j Hj) as H2.
          rewrite <- Ej in H1, H2. rewrite Nat.add_succ_r in *.
          rewrite (walk_step v' Hv' _ _ Hl H2), (walk_step v Hv _ _ Hl H1). apply IH. lia.
        + apply walk_unaffected; [done|lia|]. intros i Hi Heq. apply Ej.
          replace (k + S j)%nat with (k + i + (S j - i))%nat by lia.
          rewrite (div_pow2_add L (k + i)), Heq, <- div_pow2_add. do 3 f_equal. lia. }
    replace D with (k + (D - k))%nat by lia. apply G. lia.
Qed.
End Update.
End Tree.
