(* ===== verification/BuddyMap.v ===== *)
(** * The buddy map as a tree

    The operations of [buddy.rs] that walk or repair the map, described on the
    function from offsets to buddies: [fixup_map] restores the invariant, and the
    search of [reserve] ends on a free block of the requested order. *)

From S2P Require Import Prelude Addr ArrayForest Buddy BuddyTree.

(** The buddy at an offset. *)
Definition val (F : ArrayForest Z) (o : Z) : Z :=
  if o <? tree_cnt F then 0 else default 0 (buf F !! Z.to_nat (o - tree_cnt F)).

(** The height of the roots. *)
Definition ht (F : ArrayForest Z) : nat := Z.to_nat (tree_depth F - 1).

Abbreviation nlev F := (lev (tree_cnt F) (ht F)).
Abbreviation map_ok F := (nodes_ok (tree_cnt F) (ht F) (val F)).

(** The cursor [c] points at the node [o] of height [h]. *)
Definition at_node (F : ArrayForest Z) (c : Cursor) (h : nat) (o : Z) : Prop :=
  c = mkCursor (Z.of_nat (ht F - h)) (tree_depth F - 1) o /\ nlev F h o.

Record same_shape (F F' : ArrayForest Z) : Prop := {
  ss_depth : tree_depth F' = tree_depth F;
  ss_cnt : tree_cnt F' = tree_cnt F;
  ss_len : length (buf F') = length (buf F);
  ss_ptr : buf_ptr F' = buf_ptr F
}.

Lemma same_shape_refl F : same_shape F F.
Proof. done. Qed.

Lemma same_shape_trans F1 F2 F3 : same_shape F1 F2 -> same_shape F2 F3 -> same_shape F1 F3.
Proof. intros [] []. split; congruence. Qed.

#[export] Instance same_shape_preorder : PreOrder same_shape.
Proof. split; [exact same_shape_refl|exact same_shape_trans]. Qed.

Section Shape.
Context (F F' : ArrayForest Z) (HF : forest_ok F) (HS : same_shape F F').

Lemma same_shape_ok : forest_ok F'.
Proof using HF HS.
  destruct HS as [E1 E2 E3], HF as [? ? ? El ?]. unfold len in *.
  by split; unfold len; rewrite ?E1, ?E2, ?E3.
Qed.

Lemma same_shape_ht : ht F' = ht F.
Proof using HS. unfold ht. by rewrite (ss_depth _ _ HS). Qed.

Lemma same_shape_lev h o : nlev F' h o <-> nlev F h o.
Proof using HS. by rewrite same_shape_ht, (ss_cnt _ _ HS). Qed.

Lemma same_shape_at c h o : at_node F' c h o <-> at_node F c h o.
Proof using HS.
  unfold at_node. by rewrite same_shape_ht, (ss_depth _ _ HS), (ss_cnt _ _ HS).
Qed.
End Shape.

Section Nodes.
Context (F : ArrayForest Z) (HF : forest_ok F).

Lemma ht_eq : Z.of_nat (ht F) = tree_depth F - 1.
Proof using HF. unfold ht. destruct HF. lia. Qed.

Lemma lev_on_level h o : nlev F h o -> on_level F (Z.of_nat (ht F - h)) o.
Proof using HF.
  pose proof ht_eq. intros [Hh Ho]. split; [lia|].
  by replace (Z.of_nat (ht F - h) + 1) with (Z.of_nat (ht F - h + 1)) by lia.
Qed.

Lemma at_node_cursor c h o : at_node F c h o -> cursor_at F c (Z.of_nat (ht F - h)) o.
Proof using HF. intros [-> Ho]. split; [done|by apply lev_on_level]. Qed.

Lemma lev_pos h o : nlev F h o -> tree_cnt F <= o.
Proof using HF.
  intros [_ Ho]. pose proof (fo_cnt _ HF).
  pose proof (pow2_pos (Z.of_nat (ht F - h)) ltac:(lia)). nia.
Qed.

Lemma val_lookup h o x :
  nlev F h o -> buf F !! Z.to_nat (o - tree_cnt F) = Some x -> val F o = x.
Proof using HF.
  intros Ho Hx. pose proof (lev_pos _ _ Ho). unfold val.
  case_bool_lia. by rewrite Hx.
Qed.

Lemma get_node c h o : at_node F c h o -> get F c = Ok (val F o).
Proof using HF.
  intros Hc. destruct (get_at _ _ _ _ HF (at_node_cursor _ _ _ Hc)) as (x & -> & Hx).
  f_equal. symmetry. exact (val_lookup _ _ _ (proj2 Hc) Hx).
Qed.

Lemma set_node c h o x :
  at_node F c h o ->
  exists F', set F c x = Ok F' /\ same_shape F F' /\
    forall o', val F' o' = if o' =? o then x else val F o'.
Proof using HF.
  intros Hc. pose proof (at_node_cursor _ _ _ Hc) as Hc'.
  rewrite (set_at _ _ _ _ x HF Hc'). eexists. split; [done|].
  destruct Hc as [_ Ho]. pose proof (lev_pos _ _ Ho).
  pose proof (on_level_index _ _ _ HF (lev_on_level _ _ Ho)) as Hi. unfold len in Hi.
  split; [split; cbn; by rewrite ?length_insert|].
  intros o'. unfold val. cbn. case_bool (o' =? o) E.
  - subst o'. case_bool_lia. by rewrite list_lookup_insert_eq by lia.
  - case_bool (o' <? tree_cnt F) E'; [done|]. rewrite list_lookup_insert_ne by lia. done.
Qed.

Lemma up_node c h o :
  at_node F c h o -> (h < ht F)%nat ->
  exists c', up c = Ok (c', true) /\ at_node F c' (S h) (o / 2).
Proof using HF.
  intros Hc Hh. destruct (Hc) as [_ Ho].
  eexists. split; [apply (up_at _ _ _ _ HF (at_node_cursor _ _ _ Hc)); lia|].
  split; [|by apply lev_parent]. f_equal. lia.
Qed.

Lemma sibling_node c h o :
  at_node F c h o -> (h < ht F)%nat ->
  exists c', sibling c = (c', true) /\ at_node F c' h (Z.lxor o 1).
Proof using HF.
  intros [-> Ho] Hh. unfold sibling. cbn [depth max_depth offset]. case_bool_lia.
  eexists. split; [done|]. split; [done|]. rewrite lxor_1.
  pose proof (Z.mod_pos_bound o 2). apply lev_child; [by apply lev_parent|lia].
Qed.

Lemma down_node c h o b :
  at_node F c (S h) o -> 0 <= b < 2 ->
  exists c', down c b = Ok (c', true) /\ at_node F c' h (2 * o + b).
Proof using HF.
  intros Hc Hb. pose proof ht_eq. destruct (Hc) as [_ Ho]. destruct (Ho) as [? _].
  eexists. split.
  { apply (down_at _ _ _ _ b HF (at_node_cursor _ _ _ Hc)); lia. }
  split; [|by apply lev_child]. f_equal. lia.
Qed.

(** The parent's buddy as [fixup_map] computes it, from a node and its
    sibling. *)
Lemma max_with_sibling o (v : Z -> Z) :
  Z.max (v o) (v (Z.lxor o 1)) = Z.max (v (2 * (o / 2))) (v (2 * (o / 2) + 1)).
Proof using.
  rewrite lxor_1. pose proof (Z.div_mod o 2). pose proof (Z.mod_pos_bound o 2).
  assert (o mod 2 = 0 \/ o mod 2 = 1) as [E|E] by lia; rewrite E.
  - rewrite Z.sub_0_r. replace (2 * (o / 2)) with o by lia. done.
  - rewrite Z.sub_diag, Z.add_0_r. replace (2 * (o / 2) + 1) with o by lia. lia.
Qed.
End Nodes.

(** [node_ok] looks at the node and its children only. *)
Lemma node_ok_ext v v' h o :
  v' o = v o -> v' (2 * o) = v (2 * o) -> v' (2 * o + 1) = v (2 * o + 1) ->
  node_ok v h o -> node_ok v' h o.
Proof. intros E1 E2 E3. destruct h; unfold node_ok, hidden; rewrite ?E1, ?E2, ?E3; done. Qed.

(** Changing the node [p] of height [h] leaves every node but [p] and its parent
    as consistent as it was. *)
Lemma node_ok_upd T D (v v' : Z -> Z) h p h' o' :
  1 <= T -> lev T D h p ->
  (forall o, o <> p -> v' o = v o) ->
  lev T D h' o' -> o' <> p -> ~ (h' = S h /\ o' = p / 2) ->
  node_ok v h' o' -> node_ok v' h' o'.
Proof.
  intros HT Hp Hsame Ho' Hne Hpar. destruct h' as [|h'].
  - unfold node_ok. by rewrite Hsame.
  - assert (Hc : forall b, 0 <= b < 2 -> 2 * o' + b <> p).
    { intros b Hb E. apply Hpar. pose proof (lev_child T D h' o' b Ho' Hb) as Hl.
      rewrite E in Hl. rewrite (lev_unique T D HT _ _ _ Hl Hp). split; [done|].
      rewrite <- E. rewrite Z.mul_comm, Z.div_add_l by lia. rewrite Z.div_small by lia. lia. }
    pose proof (Hc 0 ltac:(lia)). pose proof (Hc 1 ltac:(lia)).
    apply node_ok_ext; apply Hsame; lia.
Qed.

(** ** [fixup_map] *)

(** What repairing the map above [o] gives: an invariant map that differs from
    [F] at proper ancestors of [o] only, the parent of [o] being the maximum of
    its children. *)
Record fixed_above (F F' : ArrayForest Z) (h : nat) (o : Z) : Prop := {
  fa_shape : same_shape F F';
  fa_ok : map_ok F';
  fa_same : forall o', (forall j, (h + S j <= ht F)%nat -> o' <> o / 2 ^ Z.of_nat (S j)) ->
              val F' o' = val F o';
  fa_parent : (h < ht F)%nat ->
    val F' (o / 2) = Z.max (val F' (2 * (o / 2))) (val F' (2 * (o / 2) + 1))
}.

Lemma fixup_map_step F F1 c' h o fuel :
  forest_ok F -> same_shape F F1 -> (h < ht F)%nat -> nlev F h o ->
  (forall o', val F1 o' = if o' =? o / 2
                          then Z.max (val F (2 * (o / 2))) (val F (2 * (o / 2) + 1)) else val F o') ->
  (exists F', fixup_map fuel F1 c' = Ok F' /\ fixed_above F1 F' (S h) (o / 2)) ->
  exists F', fixup_map fuel F1 c' = Ok F' /\ fixed_above F F' h o.
Proof.
  intros HF HS Hh Ho Hv1 (F' & E & [A1 A2 A3 A4]). exists F'. split; [done|].
  pose proof (lev_parent _ _ _ _ Hh Ho) as Hp. pose proof (fo_cnt _ HF) as HT.
  assert (Hht : ht F1 = ht F) by by apply same_shape_ht.
  assert (Hanc : forall j, (S h + S j <= ht F)%nat -> nlev F (S h + S j) (o / 2 / 2 ^ Z.of_nat (S j)))
    by (intros; by apply lev_anc).
  assert (Hnotanc : forall h' o', nlev F h' o' -> (h' <= S h)%nat ->
            forall j, (S h + S j <= ht F)%nat -> o' <> o / 2 / 2 ^ Z.of_nat (S j)).
  { intros h' o' Ho' Hle j Hj ->. pose proof (lev_unique _ _ HT _ _ _ Ho' (Hanc j Hj)). lia. }
  pose proof (lev_left _ _ _ _ Hp) as Hl. pose proof (lev_right _ _ _ _ Hp) as Hr.
  split; [by etrans|done| |].
  - intros o' Hne. rewrite A3.
    + rewrite Hv1. case_bool (o' =? o / 2) Eo; [|done]. exfalso. apply (Hne 0%nat); [lia|].
      by rewrite div_pow2_succ, div_pow2_0.
    + intros j Hj. rewrite Hht in Hj. specialize (Hne (S j) ltac:(lia)).
      change (S (S j)) with (1 + S j)%nat in Hne.
      by rewrite div_pow2_add, (div_pow2_succ o 0), div_pow2_0 in Hne.
  - intros _. rewrite !A3.
    1: by rewrite !Hv1, Z.eqb_refl; pose proof (lev_pos _ HF _ _ Hp); repeat case_bool_lia.
    all: intros j Hj; rewrite Hht in Hj.
    all: first [ apply (Hnotanc h); [done|lia|lia] | apply (Hnotanc (S h)); [done|lia|lia] ].
Qed.

Lemma fixup_map_spec : forall (d fuel h : nat) F c o,
  forest_ok F -> at_node F c h o -> (ht F - h = d)%nat -> (d < fuel)%nat ->
  (forall h' o', nlev F h' o' -> ~ (h' = S h /\ o' = o / 2) -> node_ok (val F) h' o') ->
  exists F', fixup_map fuel F c = Ok F' /\ fixed_above F F' h o.
Proof.
  induction d as [|d IH]; intros [|fuel] h F c o HF Hc Hd Hfuel Hok; try lia;
    pose proof (proj2 Hc) as Ho; pose proof (proj1 Ho) as Hle; cbn [fixup_map].
  - destruct Hc as [-> _]. cbn [depth]. case_bool_lia. exists F. split; [done|].
    split; [done| |done|lia]. intros h' o' Ho'. apply Hok; [done|].
    intros [-> _]. destruct Ho'. lia.
  - assert (Hh : (h < ht F)%nat) by lia.
    pose proof (lev_parent _ _ _ _ Hh Ho) as Hp. pose proof (fo_cnt _ HF) as HT.
    assert (Hd0 : (depth c =? 0) = false) by (destruct Hc as [-> _]; cbn [depth]; bool_lia).
    rewrite Hd0.
    rewrite (get_node F HF _ _ _ Hc). cbn [obind].
    destruct (sibling_node F HF _ _ _ Hc Hh) as (cs & Es & Hcs). rewrite Es.
    rewrite (get_node F HF _ _ _ Hcs). cbn [obind].
    (* [up] from the sibling reaches the same parent *)
    destruct (up_node F HF _ _ _ Hcs Hh) as (cp & Eu & Hcp). rewrite Eu. cbn [obind].
    replace (Z.lxor o 1 / 2) with (o / 2) in Hcp.
    2:{ rewrite lxor_1. pose proof (Z.mod_pos_bound o 2).
        rewrite (Z.mul_comm 2), Z.div_add_l, (Z.div_small (1 - o mod 2)) by lia. lia. }
    rewrite (get_node F HF _ _ _ Hcp). cbn [obind]. rewrite max_with_sibling.
    case_bool (val F (o / 2) =? Z.max (val F (2 * (o / 2))) (val F (2 * (o / 2) + 1))) E.
    + exists F. split; [done|]. split; [done| |done|done].
      intros h' o' Ho'. destruct (decide (h' = S h /\ o' = o / 2)) as [[-> ->]|Hne].
      * right. by right.
      * by apply Hok.
    + destruct (set_node F HF _ _ _ (Z.max (val F (2 * (o / 2))) (val F (2 * (o / 2) + 1))) Hcp)
        as (F1 & Eset & HS & Hv1).
      rewrite Eset. cbn [obind]. apply (fixup_map_step F); try done.
      assert (HF1 : forest_ok F1) by by apply (same_shape_ok F).
      assert (Hht : ht F1 = ht F) by by apply same_shape_ht.
      apply IH; [done|by apply (same_shape_at F)|lia|lia|].
      intros h' o' Ho' Hne. apply (same_shape_lev F) in Ho'; [|done].
      destruct (decide (o' = o / 2)) as [->|Hneq].
      * rewrite (lev_unique _ _ HT _ _ _ Ho' Hp). right. right.
        rewrite !Hv1, Z.eqb_refl. pose proof (lev_pos _ HF _ _ Hp).
        by repeat case_bool_lia.
      * apply (node_ok_upd (tree_cnt F) (ht F) (val F) _ (S h) (o / 2)); try done.
        { intros o'' Hne'. rewrite Hv1. by case_bool_lia. }
        apply Hok; [done|]. intros [_ ->]. done.
Qed.

(** ** Writing a node and repairing the map *)

(** [F'] is [F] with the node [o] of height [k] set to [x] and its ancestors
    brought up to date. *)
Record updated (F F' : ArrayForest Z) (k : nat) (o x : Z) : Prop := {
  up_shape : same_shape F F';
  up_ok : map_ok F';
  up_val : val F' o = x;
  up_same : forall o', (forall j, (k + j <= ht F)%nat -> o' <> o / 2 ^ Z.of_nat j) ->
              val F' o' = val F o';
  up_visible : visible (ht F') (val F') k o;
  up_not_full : forall j, (k + S j <= ht F)%nat ->
                  val F' (o / 2 ^ Z.of_nat (S j)) <> full (k + S j)
}.

(** Above a repaired node no block is free or reserved as a whole. *)
Lemma fixed_above_ancestors F F' k o j :
  forest_ok F -> nlev F k o -> fixed_above F F' k o -> (k + S j <= ht F)%nat ->
  val F' (o / 2 ^ Z.of_nat (S j)) <> full (k + S j) /\
  ~ hidden (val F') (k + S j) (o / 2 ^ Z.of_nat (S j)).
Proof.
  intros HF Ho [HS Hok _ Hpar] Hj. pose proof (proj1 Ho).
  pose proof (proj2 (same_shape_lev _ _ HS k o) Ho) as Ho'.
  pose proof (ancestors_max _ _ _ Hok k o Ho') as Hm.
  rewrite (same_shape_ht _ _ HS) in Hm. specialize (Hm ltac:(lia) (Hpar ltac:(lia)) j ltac:(lia)).
  pose proof (lev_anc (tree_cnt F') (ht F') (S j) k o
    ltac:(rewrite (same_shape_ht _ _ HS); lia) Ho') as Ha.
  rewrite Nat.add_succ_r in *. by apply (max_not_full _ _ _ Hok).
Qed.

Lemma fixed_above_visible F F' k o :
  forest_ok F -> nlev F k o -> fixed_above F F' k o -> visible (ht F') (val F') k o.
Proof.
  intros HF Ho HA j Hj. rewrite (same_shape_ht _ _ (fa_shape _ _ _ _ HA)) in Hj.
  by apply (fixed_above_ancestors F).
Qed.

Lemma set_fixup_spec F c k o x :
  forest_ok F -> map_ok F -> at_node F c k o ->
  node_ok (fun o' => if o' =? o then x else val F o') k o ->
  exists F', (let! m := set F c x in fixup m c) = Ok F' /\ updated F F' k o x.
Proof.
  intros HF Hok Hc Hx. pose proof (fo_cnt _ HF) as HT. pose proof (proj2 Hc) as Ho.
  destruct (set_node F HF _ _ _ x Hc) as (F1 & -> & HS & Hv1). cbn [obind].
  assert (HF1 : forest_ok F1) by by apply (same_shape_ok F).
  assert (Hht : ht F1 = ht F) by by apply same_shape_ht.
  destruct (fixup_map_spec (ht F1 - k) (S (Z.to_nat (depth c))) k F1 c o) as (F' & E & HA).
  { done. } { by apply (same_shape_at F). } { done. }
  { destruct Hc as [-> _]. cbn [depth]. lia. }
  { intros h' o' Ho' Hne. apply (same_shape_lev F) in Ho'; [|done].
    destruct (decide (o' = o)) as [->|Hneq].
    - rewrite (lev_unique _ _ HT _ _ _ Ho' Ho).
      revert Hx. apply node_ok_ext; apply Hv1.
    - apply (node_ok_upd (tree_cnt F) (ht F) (val F) _ k o); try done.
      + intros o'' Hne'. rewrite Hv1. by case_bool_lia.
      + by apply Hok. }
  exists F'. split; [exact E|].
  pose proof (fixed_above_visible F1 F' k o HF1 (proj2 (same_shape_lev _ _ HS _ _) Ho) HA) as Hvis.
  assert (Hnf : forall j, (k + S j <= ht F)%nat ->
            val F' (o / 2 ^ Z.of_nat (S j)) <> full (k + S j)).
  { intros j Hj. apply (fixed_above_ancestors F1); [done|by apply (same_shape_lev F)|done|lia]. }
  destruct HA as [A1 A2 A3 A4]. split; [by etrans|done| | |done|done].
  - rewrite A3, Hv1, Z.eqb_refl; [done|]. intros j Hj Heq. rewrite Hht in Hj.
    pose proof (lev_anc (tree_cnt F) (ht F) (S j) k o Hj Ho) as Ha. rewrite <- Heq in Ha.
    pose proof (lev_unique _ _ HT _ _ _ Ha Ho). lia.
  - intros o' Hne. rewrite A3, Hv1.
    + case_bool (o' =? o) Eo; [|done]. exfalso. apply (Hne 0%nat); [destruct Ho; lia|].
      by rewrite div_pow2_0.
    + intros j Hj. rewrite Hht in Hj. apply Hne. lia.
Qed.
