(* ===== verification/BuddySpec.v ===== *)
(** * What the buddy system promises

    The frames that the map holds as free, the blocks that are live, and the
    effect of [reserve], [free] and [free_forced] on them. *)

From stdpp Require Import gmap.
From S2P Require Import Prelude Addr ArrayForest Buddy BuddyTree BuddyMap.

(** ** Abstraction *)

Record buddy_wf (b : BuddySystem) : Prop := {
  bw_forest : forest_ok (map b);
  bw_order : max_order b = tree_depth (map b) - 1;
  bw_max : max_order b <= BUDDY_MAX_ORDER;
  bw_map : map_ok (map b)
}.

(** The number of frames the map covers. *)
Definition capacity (b : BuddySystem) : Z := tree_cnt (map b) * 2 ^ Z.of_nat (ht (map b)).

(** The leaf of frame [f], and the node of the block of order [k] that holds it. *)
Definition leaf (b : BuddySystem) (f : Z) : Z := capacity b + f.
Definition node (b : BuddySystem) (k : nat) (f : Z) : Z := leaf b f / 2 ^ Z.of_nat k.

(** Frame [f] can be handed out. *)
Definition frame_free (b : BuddySystem) (f : Z) : bool :=
  walk (val (map b)) (ht (map b)) (leaf b f).

Definition in_block (i k f : Z) : bool := (i <=? f) && (f <? i + 2 ^ k).

(** [i] is the index of a block of order [k] of the map. *)
Definition block_of (b : BuddySystem) (i k : Z) : Prop :=
  0 <= k <= max_order b /\ 0 <= i /\ (2 ^ k | i) /\ i + 2 ^ k <= capacity b.

(** The block was handed out by [reserve] and not freed since, as far as the
    map shows. *)
Definition live_block (b : BuddySystem) (i k : Z) : Prop :=
  block_of b i k /\
  let h := Z.to_nat k in
  val (map b) (node b h i) = 0 /\
  (h = O \/ hidden (val (map b)) h (node b h i)) /\
  visible (ht (map b)) (val (map b)) h (node b h i).

(** ** Blocks and nodes *)

Section Blocks.
Context (b : BuddySystem) (Hb : buddy_wf b).

Lemma order_ht k : 0 <= k <= max_order b -> Z.of_nat (Z.to_nat k) = k /\ (Z.to_nat k <= ht (map b))%nat.
Proof using Hb.
  pose proof (ht_eq _ (bw_forest _ Hb)). pose proof (bw_order _ Hb). lia.
Qed.

Lemma cap_pos : 1 <= capacity b.
Proof using Hb.
  unfold capacity. pose proof (fo_cnt _ (bw_forest _ Hb)).
  pose proof (pow2_pos (Z.of_nat (ht (map b)))). nia.
Qed.

Lemma lev_leaf f : 0 <= f < capacity b -> nlev (map b) 0 (leaf b f).
Proof using Hb.
  intros Hf. split; [lia|]. unfold leaf, capacity in *. rewrite Nat.sub_0_r.
  rewrite Nat2Z.inj_add, pow2_succ by lia. lia.
Qed.

Lemma lev_node k f : (k <= ht (map b))%nat -> 0 <= f < capacity b -> nlev (map b) k (node b k f).
Proof using Hb. intros Hk Hf. by apply (lev_anc _ _ k 0), lev_leaf. Qed.

Lemma node_eq k f :
  (k <= ht (map b))%nat ->
  node b k f = tree_cnt (map b) * 2 ^ Z.of_nat (ht (map b) - k) + f / 2 ^ Z.of_nat k.
Proof using.
  intros Hk. unfold node, leaf, capacity.
  rewrite (pow2_split (Z.of_nat k) (Z.of_nat (ht (map b)))) by lia.
  replace (Z.of_nat (ht (map b)) - Z.of_nat k) with (Z.of_nat (ht (map b) - k)) by lia.
  rewrite Z.mul_assoc, Z.div_add_l by (pose proof (pow2_pos (Z.of_nat k)); lia). done.
Qed.

(** The node of a block stands for exactly the frames of the block. *)
Lemma node_block k i f :
  block_of b i k -> 0 <= f ->
  (node b (Z.to_nat k) f =? node b (Z.to_nat k) i) = in_block i k f.
Proof using Hb.
  intros (Hk & Hi & [q ->] & Hc) Hf. destruct (order_ht k Hk) as [E Hle].
  rewrite !node_eq by done. rewrite E. pose proof (pow2_pos k ltac:(lia)).
  rewrite Z.div_mul by lia. unfold in_block.
  pose proof (Z.div_mod f (2 ^ k) ltac:(lia)). pose proof (Z.mod_pos_bound f (2 ^ k) ltac:(lia)).
  apply eq_true_iff_eq. rewrite andb_true_iff, Z.eqb_eq, Z.leb_le, Z.ltb_lt. nia.
Qed.

Lemma node_anc k j f : node b k f / 2 ^ Z.of_nat j = node b (k + j) f.
Proof using. unfold node. by rewrite div_pow2_add. Qed.

(** Every node is the node of a block. *)
Lemma node_of_lev k o :
  nlev (map b) k o ->
  let i := (o - tree_cnt (map b) * 2 ^ Z.of_nat (ht (map b) - k)) * 2 ^ Z.of_nat k in
  block_of b i (Z.of_nat k) /\ node b k i = o.
Proof using Hb.
  intros [Hk Ho] i. pose proof (pow2_pos (Z.of_nat k) ltac:(lia)).
  pose proof (ht_eq _ (bw_forest _ Hb)). pose proof (bw_order _ Hb).
  split.
  - split; [lia|]. split; [nia|]. split; [by eexists|]. unfold capacity, i.
    rewrite (pow2_split (Z.of_nat k) (Z.of_nat (ht (map b)))) by lia.
    replace (Z.of_nat (ht (map b)) - Z.of_nat k) with (Z.of_nat (ht (map b) - k)) by lia.
    rewrite Nat2Z.inj_add, pow2_succ in Ho by lia. nia.
  - rewrite node_eq by done. unfold i. rewrite Z.div_mul by lia. lia.
Qed.

Lemma block_start_frame i k : block_of b i k -> 0 <= i < capacity b.
Proof using. intros (? & ? & ? & ?). pose proof (pow2_pos k). lia. Qed.

Lemma in_block_start i k : 0 <= k -> in_block i k i = true.
Proof using. intros. pose proof (pow2_pos k). unfold in_block. lia. Qed.

Lemma in_block_cap i k f : block_of b i k -> in_block i k f = true -> 0 <= f < capacity b.
Proof using. intros (? & ? & ? & ?). unfold in_block. lia. Qed.

(** The frames of a live block are not free. *)
Lemma live_not_free i k f :
  live_block b i k -> in_block i k f = true -> frame_free b f = false.
Proof using Hb.
  intros (Hblk & H0 & _ & Hvis) Hf.
  pose proof (in_block_cap _ _ _ Hblk Hf). destruct (order_ht k (proj1 Hblk)).
  assert (En : node b (Z.to_nat k) f = node b (Z.to_nat k) i).
  { apply Z.eqb_eq. rewrite (node_block _ _ _ Hblk) by lia. done. }
  unfold frame_free.
  rewrite (walk_visible _ _ _ (bw_map _ Hb) (Z.to_nat k)); [|by apply lev_leaf|lia|].
  - apply walk_zero. change (leaf b f / _) with (node b (Z.to_nat k) f). by rewrite En.
  - change (leaf b f / _) with (node b (Z.to_nat k) f). by rewrite En.
Qed.
End Blocks.

(** ** The search of [reserve] *)

Section Search.
Context (F : ArrayForest Z) (HF : forest_ok F) (Hok : map_ok F) (Hht : (ht F <= 18)%nat).

Lemma depth_to_order_at c h o : at_node F c h o -> depth_to_order F (depth c) = Ok (Z.of_nat h).
Proof using HF Hht.
  intros [-> [Hh _]]. pose proof (ht_eq _ HF). pose proof (fo_depth_max _ HF).
  pose proof (fo_depth _ HF). unfold depth_to_order, forest_max_depth.
  cbn [depth]. repeat ok_step. unfold as_u8.
  f_equal. rewrite Z.mod_small; lia.
Qed.

Lemma val_u8 h o : nlev F h o -> 0 <= val F o <= 19.
Proof using HF Hok Hht.
  intros Ho. pose proof (val_bound _ _ _ Hok _ _ Ho). destruct Ho. unfold full in *. lia.
Qed.

(** A node without a block of order [k] is left for the top of the stack. *)
Lemma search_reject fuel c h o c1 st k :
  at_node F c h o -> val F o < full k ->
  search (S fuel) F (Z.of_nat k) c (c1 :: st) = search fuel F (Z.of_nat k) c1 st.
Proof using HF Hok Hht.
  intros Hc Hv. pose proof (val_u8 _ _ (proj2 Hc)) as Hu. unfold full in Hv.
  cbn [search]. rewrite (get_node F HF _ _ _ Hc). cbn [obind]. unfold Buddy_is_reserved.
  case_bool (val F o =? 0) E; [done|].
  rewrite (depth_to_order_at _ _ _ Hc). cbn [obind]. unfold Buddy_order. ok_step.
  by case_bool_lia.
Qed.

Lemma search_found : forall (n k h : nat) c o st fuel,
  at_node F c h o -> h = (k + n)%nat -> full k <= val F o ->
  (2 * n < fuel)%nat -> len st + Z.of_nat n <= BUDDY_MAX_DEPTH ->
  exists c' o', search fuel F (Z.of_nat k) c st = Ok (Some c') /\
    at_node F c' k o' /\ val F o' = full k /\ o' / 2 ^ Z.of_nat n = o /\
    forall j, (j <= n)%nat -> val F (o' / 2 ^ Z.of_nat j) <> 0.
Proof using HF Hok Hht.
  induction n as [|n IH]; intros k h c o st [|fuel] Hc Hh Hv Hfuel Hst; try lia;
    pose proof (proj2 Hc) as Ho; pose proof (val_u8 _ _ Ho) as Hu;
    pose proof (val_bound _ _ _ Hok _ _ Ho) as Hb; unfold full in Hv;
    cbn [search]; rewrite (get_node F HF _ _ _ Hc); cbn [obind]; unfold Buddy_is_reserved;
    (case_bool_lia; rewrite (depth_to_order_at _ _ _ Hc); cbn [obind]; unfold Buddy_order; ok_step;
     case_bool_lia).
  - rewrite Nat.add_0_r in Hh. subst h. unfold full in Hb. case_bool_lia.
    exists c, o. split; [done|]. split; [done|]. unfold full. split; [lia|].
    rewrite div_pow2_0. split; [done|]. intros j Hj.
    replace j with O by lia. rewrite div_pow2_0. lia.
  - case_bool_lia. rewrite Nat.add_succ_r in Hh. subst h.
    destruct (down_node F HF _ _ _ 1 Hc) as (cr & Er & Hcr); [lia|].
    destruct (down_node F HF _ _ _ 0 Hc) as (cl & El & Hcl); [lia|]. rewrite Z.add_0_r in Hcl.
    unfold right, left. rewrite Er, El. cbn [obind].
    unfold BUDDY_MAX_DEPTH, BUDDY_MAX_ORDER in *. case_bool_lia.
    assert (Hcons : forall c', len (c' :: st) = len st + 1) by (intros; unfold len; cbn [length]; lia).
    assert (Hpath : forall o' b, 0 <= b < 2 -> o' / 2 ^ Z.of_nat n = 2 * o + b ->
      (forall j, (j <= n)%nat -> val F (o' / 2 ^ Z.of_nat j) <> 0) ->
      o' / 2 ^ Z.of_nat (S n) = o /\
      forall j, (j <= S n)%nat -> val F (o' / 2 ^ Z.of_nat j) <> 0).
    { intros o' b Hb' Hd Hj. assert (E : o' / 2 ^ Z.of_nat (S n) = o).
      { rewrite div_pow2_succ, Hd, Z.mul_comm, Z.div_add_l, (Z.div_small b) by lia. lia. }
      split; [done|]. intros j Hjn. destruct (decide (j = S n)) as [->|Hne].
      - rewrite E. lia.
      - apply Hj. lia. }
    destruct (Z_le_gt_dec (full k) (val F (2 * o))) as [Hl|Hl].
    + destruct (IH k _ cl _ (cr :: st) fuel Hcl eq_refl Hl) as (c' & o' & E & Hc' & Hv' & Hd & Hp);
        [lia|rewrite Hcons; lia|].
      exists c', o'. split; [exact E|]. split; [done|]. split; [done|].
      apply (Hpath o' 0); [lia|by rewrite Z.add_0_r|done].
    + destruct fuel as [|fuel]; [lia|].
      rewrite (search_reject _ _ _ _ _ _ _ Hcl) by lia.
      assert (Hr : full k <= val F (2 * o + 1)).
      { pose proof (Hok _ _ Ho) as Hn. cbn [node_ok hidden] in Hn. unfold full in *. lia. }
      destruct (IH k _ cr _ st fuel Hcr eq_refl Hr) as (c' & o' & E & Hc' & Hv' & Hd & Hp);
        [lia|lia|].
      exists c', o'. split; [exact E|]. split; [done|]. split; [done|].
      apply (Hpath o' 1); [lia|done|done].
Qed.

(** ** The roots *)

Lemma find_root_spec k : 0 <= k -> forall roots i,
  Forall (fun r => 0 <= r <= 19) roots ->
  (find_root roots i k = Ok None /\ Forall (fun r => r <= k + 1) roots) \/
  exists (j : nat) r, find_root roots i k = Ok (Some (i + Z.of_nat j)) /\
    roots !! j = Some r /\ k + 1 < r.
Proof using.
  clear F HF Hok Hht. intros Hk. induction roots as [|r roots IH]; intros i Hr; cbn [find_root]; [by left|].
  inversion_clear Hr as [|? ? Hr1 Hr2].
  assert (Hrest : find_root (r :: roots) i k = find_root roots (i + 1) k -> r <= k + 1 ->
    (find_root (r :: roots) i k = Ok None /\ Forall (fun r => r <= k + 1) (r :: roots)) \/
    exists (j : nat) r', find_root (r :: roots) i k = Ok (Some (i + Z.of_nat j)) /\
      (r :: roots) !! j = Some r' /\ k + 1 < r').
  { intros -> Hle. destruct (IH (i + 1) Hr2) as [[-> Hall]|(j & r' & -> & Hj & Hlt)].
    - left. split; [done|by constructor].
    - right. exists (S j), r'. split; [|done]. do 2 f_equal. lia. }
  cbn [find_root] in Hrest. unfold Buddy_is_free, Buddy_is_reserved, Buddy_order in *.
  case_bool (r =? 0) E; cbn [negb] in *.
  - apply Hrest; [done|lia].
  - rewrite usub_ok in * by lia. cbn [obind] in *.
    case_bool (k <? r - 1) E'.
    + right. exists O, r. split; [do 2 f_equal; lia|]. split; [done|lia].
    + apply Hrest; [done|lia].
Qed.

Lemma roots_slice :
  exists roots, slice F 0 = Ok roots /\
    (forall (j : nat) r, roots !! j = Some r ->
       Z.of_nat j < tree_cnt F /\ r = val F (tree_cnt F + Z.of_nat j)) /\
    (forall o, nlev F (ht F) o -> exists j : nat, roots !! j = Some (val F o)).
Proof using HF.
  clear Hok Hht. pose proof (fo_depth _ HF). pose proof (fo_cnt _ HF).
  destruct (slice_bounds_ok F 0 HF ltac:(lia)) as (E & Hb1 & Hb2).
  rewrite Z.pow_0_r, Z.mul_1_r, Z.add_0_l, Z.pow_1_r in *.
  unfold slice. rewrite E. cbn [obind]. unfold subslice. case_bool_lia.
  eexists. split; [done|]. rewrite Z.sub_diag. change (Z.to_nat 0) with O. rewrite drop_0.
  replace (Z.to_nat (tree_cnt F * 2 - tree_cnt F - 0)) with (Z.to_nat (tree_cnt F)) by lia.
  assert (Hl : forall o, tree_cnt F <= o < 2 * tree_cnt F -> nlev F (ht F) o).
  { intros o Ho. split; [lia|]. rewrite Nat.sub_diag. cbn. lia. }
  split.
  - intros j r Hj. apply lookup_take_Some in Hj as [Hj Hlt]. split; [lia|].
    symmetry. apply (val_lookup F HF (ht F)); [apply Hl; lia|].
    rewrite <- Hj. f_equal. lia.
  - intros o [_ Ho]. rewrite Nat.sub_diag in Ho. cbn in Ho.
    exists (Z.to_nat (o - tree_cnt F)). rewrite lookup_take_lt by lia.
    destruct (lookup_lt_is_Some_2 (buf F) (Z.to_nat (o - tree_cnt F))) as [x Hx].
    { unfold len in Hb2. lia. }
    rewrite Hx. f_equal. symmetry. apply (val_lookup F HF (ht F)); [apply Hl; lia|done].
Qed.
End Search.

(** ** The effect of an operation *)

(** [b'] is [b] with the block of node [o], of order [k], turned from free to
    reserved or back. *)
Definition block_set (b b' : BuddySystem) (k : nat) (o x : Z) : Prop :=
  max_order b' = max_order b /\ updated (map b) (map b') k o x.

Section Effect.
Context (b b' : BuddySystem) (Hb : buddy_wf b) (k : nat) (o x : Z).
Context (Ho : nlev (map b) k o) (Hset : block_set b b' k o x).

Lemma block_set_wf : buddy_wf b'.
Proof using Hb Hset.
  destruct Hset as [E [HS Hok _ _ _ _]], Hb as [H1 H2 H3 _].
  split; [by apply (same_shape_ok (map b))| |lia|done].
  by rewrite E, (ss_depth _ _ HS).
Qed.

Lemma block_set_cap : capacity b' = capacity b.
Proof using Hset.
  destruct Hset as [_ [HS _ _ _ _ _]]. unfold capacity.
  by rewrite (same_shape_ht _ _ HS), (ss_cnt _ _ HS).
Qed.

Lemma block_set_leaf f : leaf b' f = leaf b f.
Proof using Hset. unfold leaf. by rewrite block_set_cap. Qed.

Lemma block_set_node j f : node b' j f = node b j f.
Proof using Hset. unfold node. by rewrite block_set_leaf. Qed.

Lemma block_set_block_of i j : block_of b' i j <-> block_of b i j.
Proof using Hset. unfold block_of. by rewrite block_set_cap, (proj1 Hset). Qed.

(** Only the frames of the block change state. *)
Lemma block_set_free f :
  visible (ht (map b)) (val (map b)) k o -> x = 0 \/ x = full k -> 0 <= f < capacity b ->
  frame_free b' f = if node b k f =? o then negb (x =? 0) else frame_free b f.
Proof using Hb Ho Hset.
  intros Hvis Hx Hf. pose proof block_set_wf as Hb'. destruct (Hset) as [_ [HS Hok Hval Hsame Hvis' _]].
  unfold frame_free. rewrite block_set_leaf, (same_shape_ht _ _ HS).
  pose proof (fo_cnt _ (bw_forest _ Hb)) as HT.
  assert (Hok' : nodes_ok (tree_cnt (map b)) (ht (map b)) (val (map b')))
    by by rewrite <- (same_shape_ht _ _ HS), <- (ss_cnt _ _ HS).
  rewrite (same_shape_ht _ _ HS) in Hvis'.
  rewrite (walk_update _ _ HT _ _ (bw_map _ Hb) Hok' k o Ho); [|intros h' o' _ H _; by apply Hsame
    |by apply lev_leaf|done|done].
  unfold node. case_bool (leaf b f / 2 ^ Z.of_nat k =? o) E; [|done].
  destruct Hx as [Hx|Hx]; rewrite Hx in *.
  - apply walk_zero. by rewrite E.
  - rewrite walk_full by by rewrite E. symmetry. apply negb_true_iff, Z.eqb_neq.
    unfold full. lia.
Qed.

(** Another live block, neither above nor below [o], stays live. *)
Lemma block_set_live i j :
  live_block b i j ->
  (forall f, 0 <= f < capacity b -> in_block i j f = true -> node b k f <> o) ->
  live_block b' i j.
Proof using Hb Ho Hset.
  intros (Hblk & H0 & Hh & Hvis) Hdis. pose proof (fo_cnt _ (bw_forest _ Hb)) as HT.
  destruct (order_ht b Hb j (proj1 Hblk)) as [Ej Hj]. set (h := Z.to_nat j) in *.
  pose proof (block_start_frame _ _ _ Hblk) as Hfi.
  pose proof (lev_node b Hb h i Hj Hfi) as Hn. set (n := node b h i) in *.
  destruct (Hset) as [_ [HS _ _ Hsame Hvis' _]]. rewrite (same_shape_ht _ _ HS) in Hvis'.
  assert (Hin : in_block i j i = true) by (apply in_block_start; lia).
  (* the node of the live block is not above [o] *)
  assert (Hup : forall l, (k + l <= ht (map b))%nat -> n <> o / 2 ^ Z.of_nat l).
  { intros l Hl E. destruct (node_of_lev b Hb k o Ho) as [Hb1 Hb2]. set (io := _ * _) in *.
    pose proof (lev_unique _ _ HT _ _ _ Hn ltac:(rewrite E; by apply lev_anc)) as Eh.
    apply (Hdis io); [by apply block_start_frame in Hb1| |done].
    rewrite <- (node_block b Hb j i io Hblk) by (apply block_start_frame in Hb1; lia).
    apply Z.eqb_eq. fold h. fold n. by rewrite E, <- Hb2, node_anc, Eh. }
  (* nor below it *)
  assert (Hdown : forall l, (h + l = k)%nat -> n / 2 ^ Z.of_nat l <> o).
  { intros l <- E. apply (Hdis i); [done|done|]. unfold n in E. by rewrite node_anc in E. }
  (* so the value at [n], at its children and the reserved-whole state of its
     ancestors are what they were *)
  assert (Hkid : forall h' a, nlev (map b) (S h') a ->
    (forall l, (k + l <= ht (map b))%nat -> a <> o / 2 ^ Z.of_nat l) ->
    hidden (val (map b')) (S h') a <-> hidden (val (map b)) (S h') a).
  { intros h' a Ha Hna. assert (Hc : forall c, 0 <= c < 2 -> forall l, (k + l <= ht (map b))%nat ->
      2 * a + c <> o / 2 ^ Z.of_nat l).
    { intros c Hc l Hl E. pose proof (lev_child _ _ _ _ c Ha Hc) as Hlc. rewrite E in Hlc.
      pose proof (lev_unique _ _ HT _ _ _ Hlc (lev_anc _ _ l k o Hl Ho)) as Eh.
      apply (Hna (S l)); [destruct Ha; lia|]. rewrite div_pow2_succ, <- E.
      rewrite Z.mul_comm, Z.div_add_l, (Z.div_small c) by lia. lia. }
    unfold hidden. rewrite (Hsame a Hna), (Hsame (2 * a + 1) (Hc 1 ltac:(lia))).
    rewrite <- (Z.add_0_r (2 * a)). rewrite (Hsame _ (Hc 0 ltac:(lia))). done. }
  split; [by apply block_set_block_of|]. cbv zeta. fold h.
  rewrite block_set_node. fold n. split; [by rewrite (Hsame n Hup)|]. split.
  - destruct Hh as [Hh|Hh]; [by left|right]. destruct h as [|h]; [done|].
    apply Hkid; done.
  - rewrite (same_shape_ht _ _ HS). intros l Hl. pose proof (lev_anc _ _ _ _ _ Hl Hn) as Ha.
    destruct (Z.eq_dec (n / 2 ^ Z.of_nat (S l)) (o / 2 ^ Z.of_nat (h + S l - k))) as [E|E].
    + destruct (decide (h + S l <= k)%nat) as [Hle|Hgt].
      * replace (h + S l - k)%nat with O in E by lia. rewrite div_pow2_0 in E. exfalso.
        rewrite E in Ha. pose proof (lev_unique _ _ HT _ _ _ Ha Ho) as Eh.
        by apply (Hdown (S l)).
      * pose proof (Hvis' (h + S l - k - 1)%nat ltac:(lia)) as Hnh.
        replace (S (h + S l - k - 1)) with (h + S l - k)%nat in Hnh by lia.
        replace (k + (h + S l - k))%nat with (h + S l)%nat in Hnh by lia. by rewrite E.
    + rewrite Nat.add_succ_r in *. rewrite Hkid; [by rewrite <- Nat.add_succ_r; apply Hvis; lia|done|].
      intros l' Hl' E'. apply E. rewrite E' in Ha.
      pose proof (lev_unique _ _ HT _ _ _ Ha (lev_anc _ _ l' k o Hl' Ho)).
      replace (S (h + l) - k)%nat with l' by lia. done.
Qed.
End Effect.
