(* ===== verification/BuddyOps.v ===== *)
(** * The operations of the buddy system against their specification

    [reserve], [free] and [free_forced] on a well-formed system: the whole
    operation returns, keeps the invariant, and changes the free frames by
    exactly one block. *)

From stdpp Require Import gmap.
From S2P Require Import Prelude Addr ArrayForest Buddy BuddyTree BuddyMap BuddySpec.

(** The cursor that [cursor_mut] gives for the node of a block. *)
Lemma cursor_block b i k :
  buddy_wf b -> block_of b i k ->
  exists c, cursor (map b) (tree_depth (map b) - 1 - k) (i / 2 ^ k) = Ok c /\
    at_node (map b) c (Z.to_nat k) (node b (Z.to_nat k) i).
Proof.
  intros Hb Hblk. destruct (order_ht b Hb k (proj1 Hblk)) as [E Hle].
  pose proof (ht_eq _ (bw_forest _ Hb)) as Eh. pose proof (bw_order _ Hb).
  pose proof (block_start_frame _ _ _ Hblk) as Hi. pose proof (pow2_pos k ltac:(lia)).
  replace (tree_depth (map b) - 1 - k) with (Z.of_nat (ht (map b) - Z.to_nat k)) by lia.
  assert (Hr : 0 <= i / 2 ^ k < tree_cnt (map b) * 2 ^ Z.of_nat (ht (map b) - Z.to_nat k)).
  { split; [apply Z.div_pos; lia|]. apply Z.div_lt_upper_bound; [lia|].
    unfold capacity in Hi. rewrite (pow2_split k) in Hi by lia.
    replace (Z.of_nat (ht (map b)) - k) with (Z.of_nat (ht (map b) - Z.to_nat k)) in Hi by lia. lia. }
  destruct (cursor_ok _ (Z.of_nat (ht (map b) - Z.to_nat k)) _ (bw_forest _ Hb) ltac:(lia) Hr) as [-> _].
  eexists. split; [done|]. split; [|by apply lev_node].
  f_equal. rewrite node_eq by done. by rewrite E.
Qed.

Lemma order_to_depth_ok b k :
  buddy_wf b -> 0 <= k <= max_order b ->
  order_to_depth (map b) k = Ok (tree_depth (map b) - 1 - k).
Proof.
  intros [HF E _ _] Hk. destruct HF. unfold order_to_depth, forest_max_depth.
  repeat ok_step. done.
Qed.

Lemma buddy_free_ok k : 0 <= k <= 18 -> Buddy_free k = Ok (k + 1).
Proof. intros. unfold Buddy_free. case_bool_lia. by ok_step. Qed.

(** ** [reserve] *)

(** What [reserve] does when it hands out the block [i] of order [k]. *)
Record reserved (b b' : BuddySystem) (i k : Z) : Prop := {
  rs_wf : buddy_wf b';
  rs_cap : capacity b' = capacity b;
  rs_order : max_order b' = max_order b;
  rs_block : block_of b i k;
  rs_was_free : forall f, in_block i k f = true -> frame_free b f = true;
  rs_free : forall f, 0 <= f < capacity b ->
              frame_free b' f = frame_free b f && negb (in_block i k f);
  rs_live : live_block b' i k;
  rs_others : forall i' k', live_block b i' k' -> live_block b' i' k'
}.

(** Some root holds a free block of an order above [k]. *)
Definition root_above (b : BuddySystem) (k : Z) : Prop :=
  exists o, nlev (map b) (ht (map b)) o /\ k + 1 < val (map b) o.

Lemma reserve_cases b k :
  buddy_wf b -> 0 <= k <= max_order b ->
  (reserve b k = Ok (None, b) /\ ~ root_above b k) \/
  (root_above b k /\ exists o b', nlev (map b) (Z.to_nat k) o /\
     val (map b) o = full (Z.to_nat k) /\
     visible (ht (map b)) (val (map b)) (Z.to_nat k) o /\
     block_set b b' (Z.to_nat k) o 0 /\
     reserve b k =
       Ok (Some ((o - tree_cnt (map b) * 2 ^ Z.of_nat (ht (map b) - Z.to_nat k)) * 2 ^ k), b')).
Proof.
  intros Hb Hk. destruct (order_ht b Hb k Hk) as [Ek Hkh]. pose proof (bw_forest _ Hb) as HF.
  pose proof (bw_map _ Hb) as Hok. pose proof (ht_eq _ HF) as Eh. pose proof (bw_order _ Hb) as Eo.
  pose proof (bw_max _ Hb) as Hmax. unfold BUDDY_MAX_ORDER in Hmax.
  assert (Hht : (ht (map b) <= 18)%nat) by lia. pose proof (fo_depth _ HF) as Hdep.
  unfold reserve. case_bool_lia.
  destruct (roots_slice (map b) HF) as (roots & -> & Hr1 & Hr2). cbn [obind].
  assert (Hroot : forall j : nat, Z.of_nat j < tree_cnt (map b) ->
            nlev (map b) (ht (map b)) (tree_cnt (map b) + Z.of_nat j)).
  { intros j Hj. split; [lia|]. rewrite Nat.sub_diag. cbn. lia. }
  destruct (find_root_spec k ltac:(lia) roots 0) as [[-> Hall]|(j & r & -> & Hj & Hlt)].
  { apply Forall_lookup_2. intros j r Hj. destruct (Hr1 _ _ Hj) as [Hj' ->].
    apply (val_u8 _ HF Hok Hht (ht (map b))). by apply Hroot. }
  { left. split; [done|]. intros (o & Ho & Hlt). destruct (Hr2 _ Ho) as [j Hj].
    apply (Forall_lookup_1 _ _ _ _ Hall) in Hj. lia. }
  right. destruct (Hr1 _ _ Hj) as [Hjt ->]. pose proof (Hroot _ Hjt) as Hro.
  split; [by exists (tree_cnt (map b) + Z.of_nat j)|]. rewrite Z.add_0_l. cbn [obind].
  destruct (cursor_ok (map b) 0 (Z.of_nat j) HF ltac:(lia)
    ltac:(rewrite Z.pow_0_r; lia)) as [-> _]. cbn [obind].
  rewrite Z.pow_0_r, Z.mul_1_r.
  destruct (search_found (map b) HF Hok Hht (ht (map b) - Z.to_nat k) (Z.to_nat k) (ht (map b))
              (mkCursor 0 (tree_depth (map b) - 1) (tree_cnt (map b) + Z.of_nat j))
              (tree_cnt (map b) + Z.of_nat j) [] (search_fuel (map b)))
    as (c' & o & Es & Hc' & Hvo & Hd & Hpath).
  { split; [f_equal; lia|done]. } { lia. } { unfold full. lia. }
  { unfold search_fuel. pose proof (fo_len _ HF) as Hl. unfold len in Hl.
    pose proof (fo_cnt _ HF). pose proof (Z.pow_gt_lin_r 2 (tree_depth (map b) - 1)) as Hlin.
    replace (tree_depth (map b)) with (tree_depth (map b) - 1 + 1) in Hl by lia.
    rewrite pow2_succ in Hl by lia. nia. }
  { unfold len, BUDDY_MAX_DEPTH, BUDDY_MAX_ORDER. cbn [length]. lia. }
  rewrite Ek in Es. rewrite Es. cbn [obind]. pose proof (proj2 Hc') as Ho.
  rewrite (idx_at _ _ _ _ HF (at_node_cursor _ HF _ _ _ Hc')). cbn [obind].
  destruct (node_of_lev b Hb _ _ Ho) as [Hblk Hno]. cbv zeta in Hblk, Hno.
  rewrite !Ek in Hblk. rewrite Ek in Hno. set (i := (o - _) * 2 ^ k) in *.
  destruct (cursor_block b i k Hb Hblk) as (c & Ec & Hc).
  pose proof (pow2_pos k ltac:(lia)) as Hp.
  assert (Ei : i / 2 ^ k = o - tree_cnt (map b) * 2 ^ Z.of_nat (ht (map b) - Z.to_nat k)).
  { unfold i. by rewrite Z.div_mul by lia. }
  rewrite Ei, Hno in *.
  replace (depth c') with (tree_depth (map b) - 1 - k)
    by (destruct Hc' as [-> _]; cbn [depth]; lia).
  rewrite Ec. cbn [obind].
  destruct (set_fixup_spec (map b) c (Z.to_nat k) o Buddy_reserved HF Hok Hc) as (F' & E' & Hup).
  { unfold Buddy_reserved. pose proof (lev_pos _ HF _ _ Ho).
    destruct (Z.to_nat k) as [|h] eqn:Eh'; cbn [node_ok hidden].
    - rewrite Z.eqb_refl. by left.
    - right. left. rewrite Z.eqb_refl. destruct (full_children _ _ _ Hok _ _ Ho Hvo).
      pose proof (fo_cnt _ HF). repeat case_bool_lia. done. }
  exists o, (mkBuddySystem F' (max_order b)).
  split; [done|]. split; [done|]. split; [|split; [by split|]].
  - intros l Hl Hhid. rewrite Nat.add_succ_r in Hhid. destruct Hhid as [H0 _].
    apply (Hpath (S l)); [lia|done].
  - destruct (set (map b) c Buddy_reserved) as [m| |]; try discriminate.
    cbn [obind] in E' |- *. rewrite E'. cbn [obind].
    rewrite ushl_ok; [done|lia|]. change (0 <= i < 2 ^ 64).
    pose proof (block_start_frame _ _ _ Hblk). pose proof (level_bound _ (tree_depth (map b) - 1) HF).
    unfold capacity in *. rewrite Eh in *. lia.
Qed.

Lemma reserve_spec b k :
  buddy_wf b -> 0 <= k <= max_order b ->
  (reserve b k = Ok (None, b) /\ ~ root_above b k) \/
  (root_above b k /\ exists i b', reserve b k = Ok (Some i, b') /\ reserved b b' i k).
Proof.
  intros Hb Hk. destruct (reserve_cases b k Hb Hk)
    as [?|(Hra & o & b' & Ho & Hvo & Hvis & Hset & E)]; [by left|right].
  split; [done|]. destruct (order_ht b Hb k Hk) as [Ek Hkh].
  destruct (node_of_lev b Hb _ _ Ho) as [Hblk Hno]. cbv zeta in Hblk, Hno.
  rewrite !Ek in Hblk. rewrite Ek in Hno. set (i := (o - _) * 2 ^ k) in *. exists i, b'.
  split; [exact E|]. clear E.
  assert (Hnode : forall f, 0 <= f -> (node b (Z.to_nat k) f =? o) = in_block i k f).
  { intros f Hf. rewrite <- Hno. by apply node_block. }
  assert (Hwas : forall f, in_block i k f = true -> frame_free b f = true).
  { intros f Hf. pose proof (in_block_cap _ _ _ _ Hblk Hf) as Hfc.
    rewrite <- Hnode in Hf by lia. apply Z.eqb_eq in Hf. unfold frame_free.
    rewrite (walk_visible _ _ _ (bw_map _ Hb) (Z.to_nat k));
      [|by apply lev_leaf|lia|unfold node in Hf; by rewrite Hf].
    apply walk_full. unfold node in Hf. by rewrite Hf. }
  split.
  - by apply (block_set_wf b b' Hb (Z.to_nat k) o 0).
  - by apply (block_set_cap b b' (Z.to_nat k) o 0).
  - apply Hset.
  - done.
  - done.
  - intros f Hf. rewrite (block_set_free b b' Hb _ _ _ Ho Hset f Hvis (or_introl eq_refl) Hf).
    rewrite Hnode by lia. destruct (in_block i k f); cbn; by rewrite ?andb_false_r, ?andb_true_r.
  - split; [by apply (block_set_block_of b b' _ _ _ Hset)|]. cbv zeta.
    rewrite (block_set_node b b' _ _ _ Hset), Hno.
    destruct (Hset) as [_ [HS _ Hv Hsame Hvis' _]]. split; [done|]. split; [|done].
    destruct (Z.to_nat k) as [|h]; [by left|right]. cbn [hidden]. split; [done|].
    pose proof (fo_cnt _ (bw_forest _ Hb)) as HT.
    destruct (full_children _ _ _ (bw_map _ Hb) _ _ Ho Hvo) as [Hl Hr].
    split; rewrite Hsame; try done; intros j Hj Heq.
    + pose proof (lev_unique _ _ HT _ _ _ (lev_left _ _ _ _ Ho)
        ltac:(rewrite Heq; by apply lev_anc)). lia.
    + pose proof (lev_unique _ _ HT _ _ _ (lev_right _ _ _ _ Ho)
        ltac:(rewrite Heq; by apply lev_anc)). lia.
  - intros i' k' Hl. apply (block_set_live b b' Hb _ _ _ Ho Hset); [done|].
    intros f Hf Hin En. pose proof (live_not_free b Hb i' k' f Hl Hin) as Hnf.
    rewrite Hwas in Hnf; [done|]. rewrite <- Hnode by lia. by apply Z.eqb_eq.
Qed.

(** ** [free] *)

(** What [free] does with the live block [i] of order [k]. *)
Record freed (b b' : BuddySystem) (i k : Z) : Prop := {
  fr_wf : buddy_wf b';
  fr_cap : capacity b' = capacity b;
  fr_order : max_order b' = max_order b;
  fr_free : forall f, 0 <= f < capacity b ->
              frame_free b' f = frame_free b f || in_block i k f;
  fr_others : forall i' k', live_block b i' k' ->
                (forall f, in_block i' k' f = true -> in_block i k f = false) ->
                live_block b' i' k';
  fr_not_merged : forall k', k < k' <= max_order b ->
                    val (map b') (node b' (Z.to_nat k') i) <> k' + 1
}.

Lemma free_spec b i k :
  buddy_wf b -> live_block b i k ->
  exists b', free b i k = Ok b' /\ freed b b' i k.
Proof.
  intros Hb (Hblk & H0 & Hh & Hvis). pose proof (proj1 Hblk) as Hk.
  destruct (order_ht b Hb k Hk) as [Ek Hkh]. pose proof (bw_forest _ Hb) as HF.
  pose proof (bw_max _ Hb) as Hmax. unfold BUDDY_MAX_ORDER in Hmax.
  destruct (cursor_block b i k Hb Hblk) as (c & Ec & Hc). pose proof (proj2 Hc) as Ho.
  set (o := node b (Z.to_nat k) i) in *.
  destruct (set_fixup_spec (map b) c (Z.to_nat k) o (k + 1) HF (bw_map _ Hb) Hc) as (F' & E' & Hup).
  { pose proof (lev_pos _ HF _ _ Ho). pose proof (fo_cnt _ HF). destruct Hh as [Eh|Hh].
    - rewrite Eh. cbn [node_ok]. rewrite Z.eqb_refl. lia.
    - destruct (Z.to_nat k) as [|h] eqn:Eh'; [done|]. left. destruct Hh as (_ & Hl & Hr).
      rewrite Z.eqb_refl. repeat case_bool_lia. unfold full in *. repeat split; lia. }
  assert (Hset : block_set b (mkBuddySystem F' (max_order b)) (Z.to_nat k) o (k + 1)) by by split.
  exists (mkBuddySystem F' (max_order b)). split.
  - unfold free. rewrite order_to_depth_ok by done. cbn [obind]. ok_step.
    rewrite Ec. cbn [obind]. rewrite (get_node _ HF _ _ _ Hc). cbn [obind].
    rewrite H0. cbn [Buddy_is_reserved Z.eqb]. rewrite buddy_free_ok by lia. cbn [obind].
    destruct (set (map b) c (k + 1)) as [m| |]; try discriminate. cbn [obind] in E' |- *.
    by rewrite E'.
  - split.
    + by apply (block_set_wf b _ Hb _ _ _ Hset).
    + by apply (block_set_cap b _ _ _ _ Hset).
    + done.
    + intros f Hf. rewrite (block_set_free b _ Hb _ _ _ Ho Hset f Hvis) by (unfold full; lia || done).
      unfold o. rewrite node_block by (done || lia).
      destruct (in_block i k f); [|by rewrite orb_false_r].
      rewrite orb_true_r. apply negb_true_iff, Z.eqb_neq. lia.
    + intros i' k' Hl Hdis. apply (block_set_live b _ Hb _ _ _ Ho Hset); [done|].
      intros f Hf Hin En. pose proof (Hdis _ Hin) as Hn.
      rewrite <- (node_block b Hb) in Hn by (done || lia). apply Z.eqb_neq in Hn. by apply Hn.
    + intros k' Hk'. destruct (order_ht b Hb k' ltac:(lia)) as [Ek' Hkh'].
      rewrite (block_set_node b _ _ _ _ Hset).
      pose proof (up_not_full _ _ _ _ _ (proj2 Hset) (Z.to_nat k' - Z.to_nat k - 1) ltac:(lia)) as Hn.
      unfold o in Hn. rewrite node_anc in Hn.
      replace (Z.to_nat k + S (Z.to_nat k' - Z.to_nat k - 1))%nat with (Z.to_nat k') in Hn by lia.
      unfold full in Hn. by rewrite Ek' in Hn.
Qed.
