(* ===== verification/BuddyInit.v ===== *)
(** * Building the buddy map

    [BuddySystem::new] and [free_forced], which boot code uses to hand its free
    memory over to the buddy system. *)

From stdpp Require Import gmap.
From S2P Require Import Prelude Addr ArrayForest Buddy BuddyTree BuddyMap BuddySpec BuddyOps.

(** No block was reserved whole: the state of a map that [new] and [free_forced]
    alone have touched. *)
Definition pristine (b : BuddySystem) : Prop :=
  forall h o, nlev (map b) h o -> ~ hidden (val (map b)) h o.

(** ** Filling a level *)

Lemma slice_mut_fill F d s e x :
  forest_ok F -> 0 <= d < tree_depth F -> 0 <= s <= e -> e <= tree_cnt F * 2 ^ d ->
  exists F', slice_mut F d (fun blocks => slice_fill blocks s e x) = Ok F' /\
    same_shape F F' /\
    forall o, val F' o =
      if (tree_cnt F * 2 ^ d + s <=? o) && (o <? tree_cnt F * 2 ^ d + e) then x else val F o.
Proof.
  intros HF Hd Hs He. destruct (slice_bounds_ok F d HF Hd) as (E & Hb1 & Hb2).
  unfold slice_mut. rewrite E. cbn [obind]. unfold subslice. case_bool_lia. cbn [obind].
  rewrite pow2_succ in * by lia.
  set (st := tree_cnt F * 2 ^ d - tree_cnt F) in *.
  replace (tree_cnt F * (2 * 2 ^ d) - tree_cnt F) with (st + tree_cnt F * 2 ^ d) in * by (unfold st; lia).
  set (nodes := take _ _).
  assert (Hlen : len nodes = tree_cnt F * 2 ^ d).
  { unfold nodes, len. rewrite length_take, length_drop. unfold len in Hb2. lia. }
  unfold slice_fill. case_bool_lia. cbn [obind]. eexists. split; [done|].
  set (r := replicate _ x). assert (Hr : len r = e - s).
  { unfold r, len. rewrite length_replicate. lia. }
  pose proof (len_nonneg r). assert (Hsp : len (splice nodes s r) = len nodes).
  { unfold len. f_equal. apply length_splice; lia. }
  split; [split; cbn; [done|done|apply length_splice; lia|done]|].
  intros o. unfold val. cbn. case_bool (o <? tree_cnt F) Eo.
  { case_bool_lia. done. }
  rewrite lookup_splice by lia.
  unfold len in Hlen, Hr, Hsp. case_decide as Hdec.
  - rewrite lookup_splice by (unfold len; lia). case_decide as Hdec'.
    + case_bool_lia. unfold r in *. rewrite length_replicate in *.
      by rewrite lookup_replicate_2 by lia.
    + case_bool_lia. unfold nodes. rewrite lookup_take_lt by lia. rewrite lookup_drop.
      do 2 f_equal. lia.
  - by case_bool_lia.
Qed.

(** [o'] of height [h] lies in the tree under [o], a node of height [k]. *)
Definition under (k : nat) (o : Z) (h : nat) (o' : Z) : bool :=
  (h <=? k)%nat && (o' / 2 ^ Z.of_nat (k - h) =? o).

Section Fill.
Context (b : BuddySystem) (Hb : buddy_wf b) (i k : Z) (Hblk : block_of b i k).

(** The offsets that [free_forced] fills on the level of height [h] are the
    nodes of that height under the block's node. *)
Lemma fill_range (h : nat) o' :
  (h <= Z.to_nat k)%nat -> nlev (map b) h o' ->
  let s := tree_cnt (map b) * 2 ^ Z.of_nat (ht (map b) - h) + i / 2 ^ Z.of_nat h in
  (s <=? o') && (o' <? s + 2 ^ Z.of_nat (Z.to_nat k - h)) =
  (o' / 2 ^ Z.of_nat (Z.to_nat k - h) =? node b (Z.to_nat k) i).
Proof using Hb Hblk.
  intros Hh Ho' s. destruct (order_ht b Hb k (proj1 Hblk)) as [Ek Hkh].
  destruct Hblk as (Hk & Hi & [q Eq] & Hc). set (m := (Z.to_nat k - h)%nat).
  pose proof (pow2_pos (Z.of_nat h) ltac:(lia)). pose proof (pow2_pos (Z.of_nat m) ltac:(lia)).
  assert (Es : s = node b (Z.to_nat k) i * 2 ^ Z.of_nat m).
  { unfold s. rewrite node_eq by done. rewrite Ek, Eq.
    assert (E1 : 2 ^ k = 2 ^ Z.of_nat m * 2 ^ Z.of_nat h)
      by (rewrite <- Z.pow_add_r by lia; f_equal; lia).
    assert (E2 : 2 ^ Z.of_nat (ht (map b) - h) =
                 2 ^ Z.of_nat (ht (map b) - Z.to_nat k) * 2 ^ Z.of_nat m)
      by (rewrite <- Z.pow_add_r by lia; f_equal; lia).
    rewrite E2. rewrite (Z.div_mul q) by (pose proof (pow2_pos k); lia).
    rewrite E1, (Z.mul_assoc q), (Z.div_mul (q * _)) by lia. lia. }
  rewrite Es. apply eq_true_iff_eq. rewrite andb_true_iff, Z.eqb_eq, Z.leb_le, Z.ltb_lt.
  pose proof (Z.div_mod o' (2 ^ Z.of_nat m) ltac:(lia)).
  pose proof (Z.mod_pos_bound o' (2 ^ Z.of_nat m) ltac:(lia)). nia.
Qed.

(** One iteration of the loop: the level of height [j]. *)
Lemma fill_levels_step (n j : nat) F :
  same_shape (map b) F -> (j <= Z.to_nat k)%nat ->
  exists F1, same_shape (map b) F1 /\
    (forall h o, nlev (map b) h o ->
       val F1 o = if (h =? j)%nat && under (Z.to_nat k) (node b (Z.to_nat k) i) h o
                  then full h else val F o) /\
    fill_levels (S n) F i (tree_depth (map b) - 1) (tree_depth (map b) - 1 - k)
      (tree_depth (map b) - 1 - Z.of_nat j) =
    fill_levels n F1 i (tree_depth (map b) - 1) (tree_depth (map b) - 1 - k)
      (tree_depth (map b) - 1 - Z.of_nat j + 1).
Proof using Hb Hblk.
  intros HS Hj. pose proof (bw_forest _ Hb) as HF. pose proof (ht_eq _ HF) as Eh.
  destruct (order_ht b Hb k (proj1 Hblk)) as [Ek Hkh]. pose proof (bw_order _ Hb) as Eo.
  pose proof (bw_max _ Hb) as Hmax. unfold BUDDY_MAX_ORDER in Hmax.
  pose proof (fo_cnt _ HF) as HT. pose proof (fo_depth_max _ HF).
  pose proof (same_shape_ok _ _ HF HS) as HF1.
  pose proof (block_start_frame _ _ _ Hblk) as Hi. destruct (Hblk) as (_ & _ & _ & Hc).
  pose proof (pow2_pos (Z.of_nat j) ltac:(lia)) as Hpj.
  assert (Ed : tree_depth (map b) - 1 - Z.of_nat j = Z.of_nat (ht (map b) - j)) by lia.
  pose proof (pow2_le (k - Z.of_nat j) 63 ltac:(lia)) as H63. change (2 ^ 63) with ISIZE in H63.
  pose proof (pow2_pos (k - Z.of_nat j) ltac:(lia)) as Hpk.
  assert (Ecap : capacity b = tree_cnt (map b) * 2 ^ Z.of_nat (ht (map b) - j) * 2 ^ Z.of_nat j).
  { unfold capacity. rewrite (pow2_split (Z.of_nat j)) by lia.
    replace (Z.of_nat (ht (map b)) - Z.of_nat j) with (Z.of_nat (ht (map b) - j)) by lia. lia. }
  assert (Hend : i / 2 ^ Z.of_nat j + 2 ^ (k - Z.of_nat j) <=
                 tree_cnt (map b) * 2 ^ Z.of_nat (ht (map b) - j)).
  { rewrite (pow2_split (Z.of_nat j) k) in Hc by lia.
    pose proof (Z.mul_div_le i (2 ^ Z.of_nat j) Hpj). nia. }
  pose proof (level_bound (map b) (Z.of_nat (ht (map b) - j)) HF ltac:(lia)) as Hlb.
  assert (Hi0 : 0 <= i / 2 ^ Z.of_nat j) by (apply Z.div_pos; lia).
  destruct (slice_mut_fill F (Z.of_nat (ht (map b) - j)) (i / 2 ^ Z.of_nat j)
              (i / 2 ^ Z.of_nat j + 2 ^ (k - Z.of_nat j)) (Z.of_nat j + 1) HF1)
    as (F1 & E1 & HS1 & Hv1).
  { rewrite (ss_depth _ _ HS). lia. } { lia. } { by rewrite (ss_cnt _ _ HS). }
  exists F1. split; [by etrans|]. split.
  - intros h o Ho. rewrite Hv1, (ss_cnt _ _ HS). unfold under.
    destruct (h =? j)%nat eqn:Ehj.
    + apply Nat.eqb_eq in Ehj as ->. rewrite (proj2 (Nat.leb_le _ _) Hj). cbn [andb].
      pose proof (fill_range j o Hj Ho) as Hr. cbv zeta in Hr.
      replace (Z.of_nat (Z.to_nat k - j)) with (k - Z.of_nat j) in * by lia.
      rewrite Z.add_assoc, Hr. done.
    + apply Nat.eqb_neq in Ehj. cbn [andb]. pose proof (pow2_pos (Z.of_nat (ht (map b) - j))).
      case_bool ((tree_cnt (map b) * 2 ^ Z.of_nat (ht (map b) - j) + i / 2 ^ Z.of_nat j <=? o)
        && (o <? tree_cnt (map b) * 2 ^ Z.of_nat (ht (map b) - j) +
                 (i / 2 ^ Z.of_nat j + 2 ^ (k - Z.of_nat j)))) Er; [|done].
      exfalso. apply Ehj. apply (lev_unique _ _ HT h j o Ho). split; [lia|].
      rewrite Nat2Z.inj_add, pow2_succ by lia. lia.
  - cbn [fill_levels]. ok_step. ok_step.
    replace (tree_depth (map b) - 1 - (tree_depth (map b) - 1 - Z.of_nat j)) with (Z.of_nat j) by lia.
    replace (tree_depth (map b) - 1 - Z.of_nat j - (tree_depth (map b) - 1 - k))
      with (k - Z.of_nat j) by lia.
    rewrite ushl_ok by lia. cbn [obind]. ok_step. rewrite Z.mul_1_l. ok_step. unfold as_u8. rewrite (Z.mod_small (Z.of_nat j)) by lia.
    rewrite buddy_free_ok by lia. cbn [obind]. rewrite Ed, E1. done.
Qed.

Lemma fill_levels_spec : forall (j : nat) F,
  same_shape (map b) F -> (j <= Z.to_nat k)%nat ->
  exists F', fill_levels (S j) F i (tree_depth (map b) - 1) (tree_depth (map b) - 1 - k)
               (tree_depth (map b) - 1 - Z.of_nat j) = Ok F' /\
    same_shape (map b) F' /\
    forall h o, nlev (map b) h o ->
      val F' o = if (h <=? j)%nat && under (Z.to_nat k) (node b (Z.to_nat k) i) h o
                 then full h else val F o.
Proof using Hb Hblk.
  induction j as [|j IH]; intros F HS Hj.
  - destruct (fill_levels_step 0 0 F HS Hj) as (F1 & HS1 & Hv & ->).
    exists F1. split; [done|]. split; [done|]. intros h o Ho. rewrite (Hv h o Ho).
    by destruct h.
  - destruct (fill_levels_step (S j) (S j) F HS Hj) as (F1 & HS1 & Hv & ->).
    replace (tree_depth (map b) - 1 - Z.of_nat (S j) + 1)
      with (tree_depth (map b) - 1 - Z.of_nat j) by lia.
    destruct (IH F1 HS1 ltac:(lia)) as (F' & -> & HS' & Hv').
    exists F'. split; [done|]. split; [done|]. intros h o Ho. rewrite (Hv' h o Ho), (Hv h o Ho).
    destruct (under _ _ h o); rewrite ?andb_false_r, ?andb_true_r; [|done].
    destruct (Nat.leb_spec h j), (Nat.eqb_spec h (S j)), (Nat.leb_spec h (S j)); try done; lia.
Qed.
End Fill.

(** ** [free_forced] *)

(** What [free_forced] does with the block [i] of order [k]. *)
Record forced (b b' : BuddySystem) (i k : Z) : Prop := {
  fc_wf : buddy_wf b';
  fc_pristine : pristine b';
  fc_cap : capacity b' = capacity b;
  fc_order : max_order b' = max_order b;
  fc_free : forall f, 0 <= f < capacity b ->
              frame_free b' f = frame_free b f || in_block i k f;
  fc_ptr : buf_ptr (map b') = buf_ptr (map b)
}.

Section Forced.
Context (b : BuddySystem) (Hb : buddy_wf b) (i k : Z) (Hblk : block_of b i k).
Let h0 := Z.to_nat k.
Let o0 := node b h0 i.

Lemma forced_level : nlev (map b) h0 o0.
Proof using Hb Hblk.
  apply lev_node; [done|apply (order_ht b Hb k), Hblk|by apply block_start_frame in Hblk].
Qed.

(** Under the block every node is filled; [F1] is the map before [fixup]. *)
Context (F1 : ArrayForest Z) (HS1 : same_shape (map b) F1).
Context (Hv1 : forall h o, nlev (map b) h o ->
  val F1 o = if under h0 o0 h o then full h else val (map b) o).

Lemma under_self : under h0 o0 h0 o0 = true.
Proof using. unfold under. by rewrite Nat.leb_refl, Nat.sub_diag, div_pow2_0, Z.eqb_refl. Qed.

Lemma under_child h o c :
  nlev (map b) (S h) o -> 0 <= c < 2 -> ~ (S h = S h0 /\ o = o0 / 2) ->
  under h0 o0 h (2 * o + c) = under h0 o0 (S h) o.
Proof using Hb Hblk.
  intros Ho Hc Hne. unfold under.
  assert (Ehalf : (2 * o + c) / 2 = o)
    by (rewrite Z.mul_comm, Z.div_add_l, (Z.div_small c) by lia; lia).
  destruct (Nat.leb_spec h h0), (Nat.leb_spec (S h) h0); cbn [andb]; try lia; [|].
  - replace (h0 - h)%nat with (1 + (h0 - S h))%nat by lia.
    rewrite div_pow2_add, (div_pow2_succ (2 * o + c) 0), div_pow2_0, Ehalf. done.
  - apply Z.eqb_neq. replace (h0 - h)%nat with O by lia. rewrite div_pow2_0.
    intros E. apply Hne. split; [lia|]. by rewrite <- E, Ehalf.
Qed.

Lemma under_left h o :
  nlev (map b) (S h) o -> ~ (S h = S h0 /\ o = o0 / 2) ->
  under h0 o0 h (2 * o) = under h0 o0 (S h) o.
Proof using Hb Hblk.
  intros Ho Hne. rewrite <- (Z.add_0_r (2 * o)). apply under_child; [done|lia|done].
Qed.

Lemma filled_ok h o :
  nlev (map b) h o -> ~ (h = S h0 /\ o = o0 / 2) -> node_ok (val F1) h o.
Proof using Hb Hblk Hv1.
  intros Ho Hne. pose proof (bw_map _ Hb _ _ Ho) as Hok. destruct h as [|h].
  - cbn [node_ok] in *. rewrite (Hv1 _ _ Ho). destruct (under h0 o0 0 o); [right; done|done].
  - cbn [node_ok hidden] in *. rewrite (Hv1 _ _ Ho), (Hv1 _ _ (lev_left _ _ _ _ Ho)),
      (Hv1 _ _ (lev_right _ _ _ _ Ho)).
    rewrite under_left, under_child by (done || lia).
    destruct (under h0 o0 (S h) o); [by left|done].
Qed.

Lemma filled_not_hidden h o :
  pristine b -> nlev (map b) h o -> ~ (h = S h0 /\ o = o0 / 2) -> ~ hidden (val F1) h o.
Proof using Hb Hblk Hv1.
  intros Hpr Ho Hne Hh. destruct h as [|h]; [done|].
  apply (Hpr _ _ Ho). cbn [hidden] in *.
  rewrite (Hv1 _ _ Ho), (Hv1 _ _ (lev_left _ _ _ _ Ho)), (Hv1 _ _ (lev_right _ _ _ _ Ho)) in Hh.
  rewrite under_left, under_child in Hh by (done || lia).
  destruct (under h0 o0 (S h) o); [|done]. unfold full in Hh. lia.
Qed.

Context (b' : BuddySystem) (Hmo : max_order b' = max_order b).
Context (HA : fixed_above F1 (map b') h0 o0).

Lemma forced_shape : same_shape (map b) (map b').
Proof using HA HS1. etrans; [done|apply HA]. Qed.

Lemma forced_val h o :
  nlev (map b) h o -> (forall j, (h0 + S j <= ht (map b))%nat -> o <> o0 / 2 ^ Z.of_nat (S j)) ->
  val (map b') o = if under h0 o0 h o then full h else val (map b) o.
Proof using HA HS1 Hv1.
  intros Ho Hne. rewrite (fa_same _ _ _ _ HA); [by apply Hv1|].
  by rewrite (same_shape_ht _ _ HS1).
Qed.

Lemma forced_visible : visible (ht (map b)) (val (map b')) h0 o0.
Proof using Hb Hblk HA HS1.
  pose proof (same_shape_ok _ _ (bw_forest _ Hb) HS1) as HF1.
  pose proof (fixed_above_visible F1 (map b') h0 o0 HF1) as Hvis.
  rewrite (same_shape_ht _ _ forced_shape) in Hvis. apply Hvis; [|done].
  apply (same_shape_lev _ _ HS1), forced_level.
Qed.

Lemma forced_wf : buddy_wf b'.
Proof using Hb HA HS1 Hmo.
  pose proof forced_shape as HS. destruct Hb as [HF E M _].
  split; [by apply (same_shape_ok (map b))| |lia|apply HA].
  by rewrite Hmo, (ss_depth _ _ HS).
Qed.

Lemma forced_pristine : pristine b -> pristine b'.
Proof using Hb Hblk HA HS1 Hv1 Hmo.
  intros Hpr h o Ho Hhid. pose proof (fo_cnt _ (bw_forest _ Hb)) as HT.
  apply (same_shape_lev _ _ forced_shape) in Ho. destruct h as [|h]; [done|].
  destruct (decide ((h0 <= h)%nat /\ o = o0 / 2 ^ Z.of_nat (S h - h0))) as [[Hle E]|Hne].
  { apply (forced_visible (h - h0)%nat); [destruct Ho; lia|].
    replace (h0 + S (h - h0))%nat with (S h) by lia.
    replace (S (h - h0)) with (S h - h0)%nat by lia. by rewrite <- E. }
  assert (Hup : forall h' o', nlev (map b) h' o' -> (S h = h' \/ S h = S h') ->
    (o' = o \/ exists c, 0 <= c < 2 /\ o' = 2 * o + c /\ S h = S h') ->
    forall j, (h0 + S j <= ht (map b))%nat -> o' <> o0 / 2 ^ Z.of_nat (S j)).
  { intros h' o' Ho' Hh' Hoo j Hj Eo. pose proof (lev_anc _ _ _ _ _ Hj forced_level) as Ha.
    rewrite <- Eo in Ha. pose proof (lev_unique _ _ HT _ _ _ Ho' Ha) as Eh. apply Hne.
    destruct Hoo as [->|(c & Hc & -> & Ehh)].
    - pose proof (lev_unique _ _ HT _ _ _ Ho Ho'). split; [lia|]. rewrite Eo. do 3 f_equal. lia.
    - split; [lia|]. replace (S h - h0)%nat with (S (S j)) by lia.
      rewrite div_pow2_succ, <- Eo, Z.mul_comm, Z.div_add_l, (Z.div_small c) by lia. lia. }
  apply (filled_not_hidden (S h) o Hpr Ho).
  { intros [Eh ->]. apply Hne. split; [lia|]. replace (S h - h0)%nat with 1%nat by lia.
    by rewrite div_pow2_succ, div_pow2_0. }
  pose proof (lev_left _ _ _ _ Ho) as Hl. pose proof (lev_right _ _ _ _ Ho) as Hr.
  cbn [hidden] in *. rewrite (forced_val (S h) o Ho), (forced_val h _ Hl), (forced_val h _ Hr) in Hhid.
  - by rewrite (Hv1 _ _ Ho), (Hv1 _ _ Hl), (Hv1 _ _ Hr).
  - apply (Hup h); [done|by right|]. right. exists 1. split; [lia|done].
  - apply (Hup h); [done|by right|]. right. exists 0. split; [lia|]. split; [lia|done].
  - apply (Hup (S h)); [done|by left|by left].
Qed.

Lemma forced_free f :
  pristine b -> 0 <= f < capacity b ->
  frame_free b' f = frame_free b f || in_block i k f.
Proof using Hb Hblk HA HS1 Hv1 Hmo.
  intros Hpr Hf. pose proof (fo_cnt _ (bw_forest _ Hb)) as HT. pose proof forced_shape as HS.
  assert (Hleaf : leaf b' f = leaf b f)
    by (unfold leaf, capacity; by rewrite (same_shape_ht _ _ HS), (ss_cnt _ _ HS)).
  unfold frame_free. rewrite Hleaf, (same_shape_ht _ _ HS).
  assert (Hok' : nodes_ok (tree_cnt (map b)) (ht (map b)) (val (map b')))
    by (rewrite <- (same_shape_ht _ _ HS), <- (ss_cnt _ _ HS); apply HA).
  assert (Hvis : visible (ht (map b)) (val (map b)) h0 o0).
  { intros j Hj. apply Hpr. apply lev_anc; [done|apply forced_level]. }
  rewrite (walk_update _ _ HT _ _ (bw_map _ Hb) Hok' h0 o0 forced_level);
    [| |by apply lev_leaf|done|apply forced_visible].
  - change (leaf b f / 2 ^ Z.of_nat h0) with (node b h0 f). unfold o0, h0.
    rewrite (node_block b Hb k i f Hblk) by lia. fold h0.
    destruct (in_block i k f) eqn:E; [|by rewrite orb_false_r].
    rewrite orb_true_r. rewrite <- (node_block b Hb k i f Hblk) in E by lia. apply Z.eqb_eq in E.
    apply walk_full. change (leaf b f / 2 ^ Z.of_nat h0) with (node b h0 f).
    unfold h0 at 1. rewrite E. fold h0. fold o0.
    rewrite (forced_val h0 o0 forced_level); [by rewrite under_self|].
    intros j Hj Ej. pose proof (lev_anc _ _ _ _ _ Hj forced_level) as Ha. rewrite <- Ej in Ha.
    pose proof (lev_unique _ _ HT _ _ _ Ha forced_level). lia.
  - intros h' o' Ho' Hn1 Hn2. rewrite (forced_val h' o' Ho').
    + unfold under. destruct (Nat.leb_spec h' h0) as [Hle|Hle]; [|done].
      destruct (decide (h' = h0)) as [->|Hneq].
      * rewrite Nat.sub_diag, div_pow2_0. specialize (Hn1 O). rewrite div_pow2_0 in Hn1.
        case_bool (o' =? o0) E; [|done]. exfalso. apply Hn1; [destruct Ho'; lia|done].
      * case_bool (o' / 2 ^ Z.of_nat (h0 - h') =? o0) E; [|done]. exfalso. apply Hn2; [lia|done].
    + intros j Hj. apply Hn1. lia.
Qed.
End Forced.

Lemma free_forced_spec b i k :
  buddy_wf b -> pristine b -> block_of b i k ->
  exists b', free_forced b i k = Ok b' /\ forced b b' i k.
Proof.
  intros Hb Hpr Hblk. pose proof (bw_forest _ Hb) as HF. pose proof (bw_order _ Hb) as Eo.
  destruct (order_ht b Hb k (proj1 Hblk)) as [Ek Hkh]. destruct (Hblk) as (Hk & _).
  pose proof (fo_depth_max _ HF). pose proof (fo_depth _ HF).
  pose proof (bw_max _ Hb) as Hmax. unfold BUDDY_MAX_ORDER in Hmax.
  destruct (fill_levels_spec b Hb i k Hblk (Z.to_nat k) (map b) (same_shape_refl _) ltac:(lia))
    as (F1 & E1 & HS1 & Hv1). rewrite Ek in E1.
  assert (Hv : forall h o, nlev (map b) h o ->
    val F1 o = if under (Z.to_nat k) (node b (Z.to_nat k) i) h o then full h else val (map b) o).
  { intros h o Ho. rewrite (Hv1 h o Ho). unfold under. by destruct (h <=? Z.to_nat k)%nat. }
  pose proof (same_shape_ok _ _ HF HS1) as HF1.
  destruct (cursor_block b i k Hb Hblk) as (c & Ec & Hc).
  assert (Ec1 : cursor F1 (tree_depth (map b) - 1 - k) (i / 2 ^ k) = Ok c).
  { rewrite <- Ec. unfold cursor, offset_start, forest_max_depth.
    by rewrite (ss_depth _ _ HS1), (ss_cnt _ _ HS1). }
  assert (Hc1 : at_node F1 c (Z.to_nat k) (node b (Z.to_nat k) i)) by by apply (same_shape_at _ _ HS1).
  destruct (fixup_map_spec (ht F1 - Z.to_nat k) (S (Z.to_nat (depth c))) (Z.to_nat k) F1 c
              (node b (Z.to_nat k) i) HF1 Hc1 eq_refl) as (F' & Ef & HA).
  { destruct Hc1 as [-> _]. cbn [depth]. lia. }
  { intros h' o' Ho' Hne. apply (same_shape_lev _ _ HS1) in Ho'.
    by apply (filled_ok b Hb i k Hblk F1 Hv). }
  exists (mkBuddySystem F' (max_order b)). split.
  - unfold free_forced, forest_max_depth. case_bool_lia. ok_step. ok_step.
    replace (Z.to_nat (tree_depth (map b) - 1 - (tree_depth (map b) - 1 - k) + 1))
      with (S (Z.to_nat k)) by lia.
    rewrite E1. cbn [obind]. ok_step. rewrite Ec1. cbn [obind].
    unfold fixup. rewrite Ef. done.
  - set (b' := mkBuddySystem F' (max_order b)).
    pose proof (forced_shape b i k F1 HS1 b' HA) as HS. split.
    + by apply (forced_wf b Hb i k F1 HS1 b').
    + by apply (forced_pristine b Hb i k Hblk F1 HS1 Hv b').
    + unfold capacity. by rewrite (same_shape_ht _ _ HS), (ss_cnt _ _ HS).
    + done.
    + intros f Hf. by apply (forced_free b Hb i k Hblk F1 HS1 Hv b').
    + exact (ss_ptr _ _ HS).
Qed.
