(* ===== verification/BuddyTheorems.v ===== *)
(** * The buddy system: its properties

    The theorems about [src/src/mem/phy/buddy.rs], from the specifications of
    its operations, and the state machine of reservations and frees. *)

From stdpp Require Import gmap relations.
From S2P Require Import Prelude Addr ArrayForest Buddy BuddyTree BuddyMap BuddySpec BuddyOps BuddyInit.

(** ** Checking a map *)

(** [buddy_wf] and [pristine], as executable checks. *)
Definition node_okb (v : Z -> Z) (h : nat) (o : Z) : bool :=
  match h with
  | O => (v o =? 0) || (v o =? 1)
  | S h' =>
      ((v o =? full h) || (v o =? 0)) && (v (2 * o) =? full h') && (v (2 * o + 1) =? full h') ||
      (v o =? Z.max (v (2 * o)) (v (2 * o + 1)))
  end.
Definition level_nodes (F : ArrayForest Z) (h : nat) : list Z :=
  seqZ (tree_cnt F * 2 ^ Z.of_nat (ht F - h)) (tree_cnt F * 2 ^ Z.of_nat (ht F - h)).
Definition all_nodes (F : ArrayForest Z) (P : nat -> Z -> bool) : bool :=
  forallb (fun h => forallb (P h) (level_nodes F h)) (seq 0 (S (ht F))).
Definition buddy_wfb (b : BuddySystem) : bool :=
  let F := map b in
  (1 <=? tree_cnt F) && (1 <=? tree_depth F) && (tree_depth F <? 63) &&
  (len (buf F) =? tree_cnt F * 2 ^ tree_depth F) &&
  (tree_cnt F * 2 ^ (tree_depth F + 1) <? USIZE) &&
  (max_order b =? tree_depth F - 1) && (max_order b <=? BUDDY_MAX_ORDER) &&
  all_nodes F (node_okb (val F)).
Definition hiddenb (v : Z -> Z) (h : nat) (o : Z) : bool :=
  match h with
  | O => false
  | S h' => (v o =? 0) && (v (2 * o) =? full h') && (v (2 * o + 1) =? full h')
  end.
Definition pristineb (b : BuddySystem) : bool :=
  all_nodes (map b) (fun h o => negb (hiddenb (val (map b)) h o)).

Lemma all_nodes_spec F P :
  all_nodes F P = true -> forall h o, nlev F h o -> P h o = true.
Proof.
  unfold all_nodes. rewrite forallb_forall. intros H h o [Hh Ho].
  specialize (H h ltac:(apply in_seq; lia)). rewrite forallb_forall in H. apply H.
  apply list_elem_of_In, elem_of_seqZ. rewrite Nat2Z.inj_add, pow2_succ in Ho by lia. lia.
Qed.

Lemma node_okb_spec v h o : node_okb v h o = true -> node_ok v h o.
Proof. destruct h; unfold node_okb, node_ok, hidden; lia. Qed.

Lemma hiddenb_spec v h o : hiddenb v h o = false -> ~ hidden v h o.
Proof. destruct h; unfold hiddenb, hidden; [tauto|]. lia. Qed.

Lemma buddy_wfb_spec b : buddy_wfb b = true -> buddy_wf b.
Proof.
  unfold buddy_wfb. rewrite !andb_true_iff. intros [H1 H2].
  split; [split; lia|lia|lia|]. intros h o Ho.
  apply node_okb_spec, (all_nodes_spec _ _ H2 h o Ho).
Qed.

Lemma pristineb_spec b : pristineb b = true -> pristine b.
Proof.
  intros H h o Ho. apply hiddenb_spec. pose proof (all_nodes_spec _ _ H h o Ho) as E.
  cbn beta in E. by destruct (hiddenb _ h o).
Qed.

(** ** Sequences of reservations and frees *)

(** A buddy system and the blocks its callers hold: index to order. *)
Abbreviation buddy_state := (BuddySystem * gmap Z Z)%type.

(** A caller frees only blocks it holds, with the order it reserved them at: the
    safety contract of [free]. *)
Inductive buddy_step : buddy_state -> buddy_state -> Prop :=
| step_reserve b l k i b' :
    0 <= k <= max_order b -> reserve b k = Ok (Some i, b') ->
    buddy_step (b, l) (b', <[i := k]> l)
| step_refuse b l k b' :
    0 <= k <= max_order b -> reserve b k = Ok (None, b') ->
    buddy_step (b, l) (b', l)
| step_free b l i k b' :
    l !! i = Some k -> free b i k = Ok b' ->
    buddy_step (b, l) (b', delete i l).

(** Two blocks share no frame. *)
Definition disjoint_blocks (i1 k1 i2 k2 : Z) : Prop :=
  forall f, in_block i1 k1 f = true -> in_block i2 k2 f = true -> False.

Record buddy_inv (s : buddy_state) : Prop := {
  bi_wf : buddy_wf s.1;
  bi_live : forall i k, s.2 !! i = Some k -> live_block s.1 i k;
  bi_disjoint : forall i1 k1 i2 k2, s.2 !! i1 = Some k1 -> s.2 !! i2 = Some k2 -> i1 <> i2 ->
                  disjoint_blocks i1 k1 i2 k2
}.

(** Frame [f] is free or belongs to a caller. *)
Definition accounted (s : buddy_state) (f : Z) : Prop :=
  frame_free s.1 f = true \/ exists i k, s.2 !! i = Some k /\ in_block i k f = true.

Lemma reserve_fresh b l b' i k :
  buddy_inv (b, l) -> reserved b b' i k -> l !! i = None.
Proof.
  intros [Hb Hl _] Hr. destruct (l !! i) as [k'|] eqn:E; [|done].
  pose proof (Hl _ _ E) as Hlive. pose proof (rs_block _ _ _ _ Hr) as Hblk.
  pose proof (live_not_free b Hb i k' i Hlive) as Hnf. cbn [fst snd] in *.
  rewrite (rs_was_free _ _ _ _ Hr) in Hnf; [|apply in_block_start; apply Hblk].
  specialize (Hnf ltac:(apply in_block_start; apply Hlive)). done.
Qed.

Lemma buddy_step_inv s s' : buddy_step s s' -> buddy_inv s -> buddy_inv s'.
Proof.
  intros Hs Hinv. destruct Hs as [b l k i b' Hk E|b l k b' Hk E|b l i k b' Hl E];
    pose proof (bi_wf _ Hinv) as Hb; pose proof (bi_live _ Hinv) as Hlive;
    pose proof (bi_disjoint _ Hinv) as Hdis; cbn [fst snd] in *.
  - destruct (reserve_spec b k Hb Hk) as [[E' _]|(_ & i' & b'' & E' & Hr)];
      rewrite E' in E; [discriminate|]. injection E as -> ->.
    split; cbn [fst snd]; [apply Hr| |].
    + intros i1 k1 H1. apply lookup_insert_Some in H1 as [[<- <-]|[_ H1]]; [apply Hr|].
      by apply Hr, Hlive.
    + assert (Hnew : forall i1 k1, l !! i1 = Some k1 -> disjoint_blocks i k i1 k1).
      { intros i1 k1 H1 f Hf1 Hf2. pose proof (live_not_free b Hb i1 k1 f (Hlive _ _ H1) Hf2) as Hn.
        by rewrite (rs_was_free _ _ _ _ Hr f Hf1) in Hn. }
      intros i1 k1 i2 k2 H1 H2 Hne f Hf1 Hf2.
      apply lookup_insert_Some in H1 as [[<- <-]|[N1 H1]];
        apply lookup_insert_Some in H2 as [[<- <-]|[N2 H2]].
      * done.
      * by apply (Hnew i2 k2 H2 f).
      * by apply (Hnew i1 k1 H1 f).
      * by apply (Hdis i1 k1 i2 k2 H1 H2 Hne f).
  - destruct (reserve_spec b k Hb Hk) as [[E' _]|(_ & i' & b'' & E' & _)];
      rewrite E' in E; [|discriminate]. by injection E as ->.
  - destruct (free_spec b i k Hb (Hlive _ _ Hl)) as (b'' & E' & Hf).
    rewrite E' in E. injection E as ->. split; cbn [fst snd]; [apply Hf| |].
    + intros i1 k1 H1. apply lookup_delete_Some in H1 as [Hne H1].
      apply (fr_others _ _ _ _ Hf); [by apply Hlive|]. intros f Hf1.
      destruct (in_block i k f) eqn:Ef; [|done]. exfalso.
      by apply (Hdis i k i1 k1 Hl H1 Hne f).
    + intros i1 k1 i2 k2 H1 H2. apply lookup_delete_Some in H1 as [_ H1].
      apply lookup_delete_Some in H2 as [_ H2]. by apply Hdis.
Qed.

Lemma buddy_step_accounted s s' f :
  buddy_step s s' -> buddy_inv s -> 0 <= f < capacity s.1 ->
  capacity s'.1 = capacity s.1 /\ (accounted s' f <-> accounted s f).
Proof.
  intros Hs Hinv Hf. destruct Hs as [b l k i b' Hk E|b l k b' Hk E|b l i k b' Hl E];
    pose proof (bi_wf _ Hinv) as Hb; pose proof (bi_live _ Hinv) as Hlive; unfold accounted;
    cbn [fst snd] in *.
  - destruct (reserve_spec b k Hb Hk) as [[E' _]|(_ & i' & b'' & E' & Hr)];
      rewrite E' in E; [discriminate|]. injection E as -> ->.
    split; [apply Hr|]. rewrite (rs_free _ _ _ _ Hr f Hf). pose proof (rs_was_free _ _ _ _ Hr f) as Hw.
    pose proof (reserve_fresh b l b' i k Hinv Hr) as Hfresh.
    split; intros [H|(i1 & k1 & H1 & H2)].
    + apply andb_true_iff in H as [H _]. by left.
    + apply lookup_insert_Some in H1 as [[<- <-]|[_ H1]]; [left; auto|right; eauto].
    + destruct (in_block i k f) eqn:Ef; [right|left; by rewrite H].
      exists i, k. by rewrite lookup_insert_eq.
    + right. exists i1, k1. split; [|done]. rewrite lookup_insert_ne; congruence.
  - destruct (reserve_spec b k Hb Hk) as [[E' _]|(_ & i' & b'' & E' & _)];
      rewrite E' in E; [|discriminate]. by injection E as ->.
  - destruct (free_spec b i k Hb (Hlive _ _ Hl)) as (b'' & E' & Hfr).
    rewrite E' in E. injection E as ->. split; [apply Hfr|]. rewrite (fr_free _ _ _ _ Hfr f Hf).
    split; intros [H|(i1 & k1 & H1 & H2)].
    + apply orb_true_iff in H as [H|H]; [by left|right; eauto].
    + apply lookup_delete_Some in H1 as [_ H1]. right; eauto.
    + left. by rewrite H.
    + destruct (decide (i1 = i)) as [->|Hne].
      * left. assert (k1 = k) as -> by congruence. by rewrite H2, orb_true_r.
      * right. exists i1, k1. by rewrite lookup_delete_ne.
Qed.

Lemma buddy_reach_inv s s' : rtc buddy_step s s' -> buddy_inv s -> buddy_inv s'.
Proof. induction 1; [done|]. eauto using buddy_step_inv. Qed.

(** ** [BuddySystem::new] *)

Lemma zero_map_ok F : (forall o, val F o = 0) -> map_ok F.
Proof. intros H h o _. destruct h; cbn; [by left; apply H|]. right. right. by rewrite !H. Qed.

Lemma val_replicate a n td tc o : val (mkForest a (replicate n 0) td tc) o = 0.
Proof.
  unfold val. cbn. destruct (o <? tc); [done|].
  destruct (replicate n 0 !! _) eqn:E; [|done]. by apply lookup_replicate in E as [-> _].
Qed.

Lemma next_pow2_log n :
  1 <= n <= 2 ^ 34 ->
  0 <= Z.log2_up n <= 34 /\ next_power_of_two n = Ok (2 ^ Z.log2_up n) /\ n <= 2 ^ Z.log2_up n.
Proof.
  intros Hn. pose proof (Z.log2_up_nonneg n) as H0.
  assert (H34 : Z.log2_up n <= 34) by (rewrite <- (Z.log2_up_pow2 34) by lia; apply Z.log2_up_le_mono, Hn).
  split; [lia|]. unfold next_power_of_two. case_bool (n <=? 1) E; [replace n with 1 by lia; by split|].
  split; [|apply Z.log2_up_spec; lia].
  replace (Z.log2 (n - 1) + 1) with (Z.log2_up n) by (rewrite Z.log2_up_eqn, <- Z.sub_1_r by lia; lia).
  apply chk_ok. pose proof (pow2_pos (Z.log2_up n) H0). pose proof (pow2_le (Z.log2_up n) 34 ltac:(lia)).
  change (2 ^ 34) with 17179869184 in *. lia.
Qed.

Lemma div_ceil_spec a m :
  0 <= a -> 0 < m -> exists q, div_ceil a m = Ok q /\ a <= q * m < a + m /\ 0 <= q.
Proof.
  intros Ha Hm. unfold div_ceil. rewrite (proj2 (Z.eqb_neq m 0)) by lia.
  eexists. split; [done|]. pose proof (Z.div_mod a m ltac:(lia)).
  pose proof (Z.mod_pos_bound a m Hm). pose proof (Z.div_pos a m Ha Hm).
  case_bool (a mod m =? 0) E; nia.
Qed.

(** What a fresh buddy system is. *)
Record fresh_buddy (page_cnt : Z) (b : BuddySystem) : Prop := {
  fb_wf : buddy_wf b;
  fb_pristine : pristine b;
  fb_cap : page_cnt <= capacity b < page_cnt + 2 ^ max_order b;
  fb_free : forall f, 0 <= f < capacity b -> frame_free b f = false
}.

(** The top order of the map over [n] frames, its trees, and the bytes of the map. *)
Definition top_order (n : Z) : Z := Z.min (Z.log2_up n) BUDDY_MAX_ORDER.
Definition map_trees (n : Z) : Z := if n mod 2 ^ top_order n =? 0 then n / 2 ^ top_order n else n / 2 ^ top_order n + 1.
Definition map_layout (n : Z) : Layout := mkLayout (map_trees n * 2 ^ (top_order n + 1)) 1.

Lemma map_trees_ok n : 1 <= n <= 2 ^ 34 ->
  0 <= top_order n <= 18 /\ 1 <= map_trees n /\ n <= map_trees n * 2 ^ top_order n < n + 2 ^ top_order n /\
  (top_order n = 18 \/ map_trees n = 1).
Proof.
  intros Hn. destruct (next_pow2_log _ Hn) as (Hp & _ & Hle).
  assert (Hmo : 0 <= top_order n <= 18) by (unfold top_order, BUDDY_MAX_ORDER; lia).
  pose proof (pow2_pos (top_order n) ltac:(lia)) as Hpos.
  destruct (div_ceil_spec n (2 ^ top_order n)) as (tc & Etc & Htc & Htc0); [lia|lia|].
  unfold div_ceil in Etc. rewrite (proj2 (Z.eqb_neq (2 ^ top_order n) 0)) in Etc by lia.
  fold (map_trees n) in Etc. injection Etc as <-. split_and!; [lia|lia|nia|lia|lia|].
  destruct (decide (Z.log2_up n < 18)); [right|left; unfold top_order, BUDDY_MAX_ORDER; lia].
  assert (Et : top_order n = Z.log2_up n) by (unfold top_order, BUDDY_MAX_ORDER; lia). rewrite Et in *. nia.
Qed.

Lemma buddy_new_spec {St} n (alloc : Layout -> St -> outcome (option Z * St)) st a st' :
  1 <= n <= 2 ^ 34 -> alloc (map_layout n) st = Ok (Some a, st') ->
  exists b, buddy_new n alloc st = Ok (Some b, st') /\ fresh_buddy n b /\
    max_order b = top_order n /\ capacity b = map_trees n * 2 ^ top_order n /\ buf_ptr (map b) = a.
Proof.
  intros Hn Halloc. destruct (next_pow2_log _ Hn) as (Hp & Ep & Hle).
  destruct (map_trees_ok n Hn) as (Hmo & Htc1 & Htc & _). unfold map_layout in Halloc.
  unfold buddy_new. rewrite Ep. cbn [obind].
  unfold ilog2. pose proof (pow2_pos (Z.log2_up n)). case_bool_lia. cbn [obind]. rewrite Z.log2_pow2 by lia.
  unfold as_u8. rewrite Z.mod_small by lia. fold (top_order n). set (mo := top_order n) in *.
  ok_step. pose proof (pow2_pos mo ltac:(lia)). pose proof (pow2_le mo 18 ltac:(lia)) as H18.
  change (2 ^ 18) with 262144 in H18. change (2 ^ 34) with 17179869184 in Hn.
  rewrite ushl_ok by (rewrite ?Z.mul_1_l; lia). cbn [obind]. rewrite Z.mul_1_l.
  unfold div_ceil. rewrite (proj2 (Z.eqb_neq (2 ^ mo) 0)) by lia. cbn [obind]. set (tc := map_trees n) in *.
  change (if n mod 2 ^ mo =? 0 then n / 2 ^ mo else n / 2 ^ mo + 1) with tc.
  assert (Epow : 2 ^ (mo + 1) = 2 * 2 ^ mo) by (apply pow2_succ; lia).
  assert (Epow2 : 2 ^ (mo + 1 + 1) = 4 * 2 ^ mo) by (rewrite pow2_succ, Epow; lia).
  unfold forest_new, buf_layout. rewrite ushl_ok by nia. cbn [obind].
  unfold layout_array. case_bool_lia. cbn [obind oexpect layout_size].
  ok_step. rewrite Z.mul_1_l, Z.div_1_r. rewrite Halloc. cbn [obind].
  eexists. split; [done|].
  set (F := mkForest _ _ _ _). assert (Hz : forall o, val F o = 0) by apply val_replicate.
  assert (HF : forest_ok F).
  { split; cbn; [done|lia|lia| |]; [|rewrite Epow2; lia].
    unfold len. rewrite length_replicate. nia. }
  assert (Hwf : buddy_wf (mkBuddySystem F mo))
    by (split; cbn [map max_order]; [done|cbn; lia|unfold BUDDY_MAX_ORDER; lia|by apply zero_map_ok]).
  pose proof (ht_eq _ HF) as Eh. cbn in Eh. replace (mo + 1 - 1) with mo in Eh by lia.
  assert (Hcap : capacity (mkBuddySystem F mo) = tc * 2 ^ mo) by (unfold capacity; cbn [map]; by rewrite Eh).
  split; [|done]. split; rewrite ?Hcap; cbn [map max_order]; [done| |done|].
  - intros h o _ Hh. destruct h; [done|]. cbn in Hh. rewrite !Hz in Hh. unfold full in Hh. lia.
  - intros f Hf. apply walk_zero. apply Hz.
Qed.

(** ** Properties *)

(** C2: [reserve] on a well-formed buddy system always returns.  When some root
    records a free block of an order above the requested one it hands out a
    block of exactly the requested order: aligned, inside the map, all of its
    frames free before and none of them after, every other frame and every live
    block untouched, the invariant kept.  Otherwise it returns [None] and leaves
    the system as it was. *)
Theorem buddy_reserve_correct b k :
  buddy_wf b -> 0 <= k <= max_order b ->
  (root_above b k -> exists i b', reserve b k = Ok (Some i, b') /\ reserved b b' i k) /\
  (~ root_above b k -> reserve b k = Ok (None, b)).
Proof.
  intros Hb Hk. destruct (reserve_spec b k Hb Hk) as [[E Hn]|[Hr H]]; split; tauto.
Qed.

(** C4: [free] of a live block always returns: the block's frames are free
    again, no other frame changes state, the other live blocks stay live and the
    invariant is kept. *)
Theorem buddy_free_correct b i k :
  buddy_wf b -> live_block b i k -> exists b', free b i k = Ok b' /\ freed b b' i k.
Proof. exact (free_spec b i k). Qed.

(** C1: in every state reached from a well-formed system by reservations and by
    frees of held blocks, no operation panics or gets stuck, the blocks held by
    callers are pairwise disjoint, and none of their frames is free. *)
Theorem buddy_reachable_safe b s :
  buddy_wf b -> rtc buddy_step (b, ∅) s ->
  buddy_wf s.1 /\
  (forall k, 0 <= k <= max_order s.1 -> exists r, reserve s.1 k = Ok r) /\
  (forall i k, s.2 !! i = Some k -> exists b', free s.1 i k = Ok b') /\
  (forall i k f, s.2 !! i = Some k -> in_block i k f = true -> frame_free s.1 f = false) /\
  (forall i1 k1 i2 k2, s.2 !! i1 = Some k1 -> s.2 !! i2 = Some k2 -> i1 <> i2 ->
     disjoint_blocks i1 k1 i2 k2).
Proof.
  intros Hb Hs. assert (Hinv : buddy_inv s).
  { apply (buddy_reach_inv _ _ Hs). split; cbn [fst snd]; [done|..]; intros *;
      by rewrite ?lookup_empty. }
  pose proof Hinv as [Hwf Hlive Hdis]. split; [done|]. split; [|split; [|split; [|done]]].
  - intros k Hk. destruct (reserve_spec _ k Hwf Hk) as [[E _]|(_ & i & b' & E & _)]; eauto.
  - intros i k Hl. destruct (free_spec _ i k Hwf (Hlive _ _ Hl)) as (b' & E & _). eauto.
  - intros i k f Hl. by apply live_not_free, Hlive.
Qed.

(** C9: no sequence of reservations and frees loses or invents a frame: a frame
    is free or held by a caller afterwards exactly if it was free at the
    start. *)
Theorem buddy_frames_conserved b s f :
  buddy_wf b -> rtc buddy_step (b, ∅) s -> 0 <= f < capacity b ->
  accounted s f <-> frame_free b f = true.
Proof.
  intros Hb Hs Hf. assert (Hinv : buddy_inv (b, ∅)).
  { split; cbn [fst snd]; [done|..]; intros *; by rewrite ?lookup_empty. }
  assert (Hstart : accounted (b, ∅) f <-> frame_free b f = true).
  { unfold accounted; cbn [fst snd]. split; [|by left].
    intros [H|(i & k & H & _)]; [done|]. by rewrite lookup_empty in H. }
  rewrite <- Hstart. clear Hstart. change (capacity b) with (capacity (b, ∅ : gmap Z Z).1) in Hf.
  induction Hs as [|s1 s2 s3 Hs _ IH]; [done|].
  destruct (buddy_step_accounted _ _ f Hs Hinv Hf) as [Ec Hacc].
  rewrite IH; [done|by rewrite Ec|by eapply buddy_step_inv].
Qed.

(** While the map holds no reserved block, [free_forced] of an aligned block
    inside the map returns, adds exactly the frames of that block to the free
    ones, and keeps the invariant, so that boot code can hand over memory block
    by block. *)
Theorem free_forced_correct b i k :
  buddy_wf b -> pristine b -> block_of b i k ->
  exists b', free_forced b i k = Ok b' /\ forced b b' i k.
Proof. exact (free_forced_spec b i k). Qed.

(** C10: [BuddySystem::new] for up to 2^34 pages, with an allocator that does not
    fail, returns a well-formed system that covers the pages with less than one
    top-order block to spare and in which no frame is free. *)
Theorem buddy_new_correct {St} page_cnt (alloc : Layout -> St -> outcome (option Z * St)) st :
  1 <= page_cnt <= 2 ^ 34 ->
  (forall l, exists a st', alloc l st = Ok (Some a, st')) ->
  exists b st', buddy_new page_cnt alloc st = Ok (Some b, st') /\ fresh_buddy page_cnt b.
Proof.
  intros Hn Halloc. destruct (Halloc (map_layout page_cnt)) as (a & st' & E).
  destruct (buddy_new_spec page_cnt alloc st a st' Hn E) as (b & Eb & Hb & _). by exists b, st'.
Qed.

(** A block of the largest order is never handed out: whatever is free,
    [reserve (max_order)] returns [None], because a root qualifies only when it
    records an order strictly above the requested one. *)
Theorem reserve_max_order_refused b :
  buddy_wf b -> reserve b (max_order b) = Ok (None, b).
Proof.
  intros Hb. pose proof (ht_eq _ (bw_forest _ Hb)). pose proof (bw_order _ Hb).
  destruct (reserve_spec b (max_order b) Hb ltac:(lia)) as [[E _]|[(o & Ho & Hv) _]]; [done|].
  pose proof (val_bound _ _ _ (bw_map _ Hb) _ _ Ho). unfold full in *. lia.
Qed.

(** [free] never merges buddies: after it, no block of a larger order that
    contains the freed block is recorded as free, even when all of its frames
    are. *)
Theorem free_never_merges b i k k' b' :
  buddy_wf b -> live_block b i k -> free b i k = Ok b' -> k < k' <= max_order b ->
  val (map b') (node b' (Z.to_nat k') i) <> k' + 1.
Proof.
  intros Hb Hl E Hk'. destruct (free_spec b i k Hb Hl) as (b'' & E' & Hf).
  rewrite E' in E. injection E as <-. by apply (fr_not_merged _ _ _ _ Hf).
Qed.

(** C11: [free] of a block whose node is not reserved panics with the double-free
    assertion, whatever the rest of the map holds. *)
Theorem double_free_panics b i k :
  buddy_wf b -> block_of b i k -> val (map b) (node b (Z.to_nat k) i) <> 0 ->
  free b i k = Panic.
Proof.
  intros Hb Hblk Hv. destruct (cursor_block b i k Hb Hblk) as (c & Ec & Hc).
  destruct (Hblk) as (Hk & _). pose proof (bw_max _ Hb) as Hmax. unfold BUDDY_MAX_ORDER in Hmax.
  unfold free. rewrite order_to_depth_ok by done. cbn [obind]. ok_step.
  rewrite Ec. cbn [obind]. rewrite (get_node _ (bw_forest _ Hb) _ _ _ Hc). cbn [obind].
  unfold Buddy_is_reserved. by case_bool_lia.
Qed.

(** ** Witnesses *)

(** Eight free frames under one tree, and the same after frame 0 was reserved. *)
Definition demo_free8 : BuddySystem :=
  mkBuddySystem (mkForest 0 [4; 3; 3; 2; 2; 2; 2; 1; 1; 1; 1; 1; 1; 1; 1; 0] 4 1) 3.
Definition demo_held0 : BuddySystem :=
  mkBuddySystem (mkForest 0 [3; 2; 3; 1; 2; 2; 2; 0; 1; 1; 1; 1; 1; 1; 1; 0] 4 1) 3.
Definition demo_empty8 : BuddySystem :=
  mkBuddySystem (mkForest 0 (replicate 16 0) 4 1) 3.

Lemma demo_free8_wf : buddy_wf demo_free8.
Proof. apply buddy_wfb_spec. vm_compute. reflexivity. Qed.
Lemma demo_held0_wf : buddy_wf demo_held0.
Proof. apply buddy_wfb_spec. vm_compute. reflexivity. Qed.
Lemma demo_empty8_wf : buddy_wf demo_empty8.
Proof. apply buddy_wfb_spec. vm_compute. reflexivity. Qed.
Lemma demo_empty8_pristine : pristine demo_empty8.
Proof. apply pristineb_spec. vm_compute. reflexivity. Qed.

Lemma demo_held0_live : live_block demo_held0 0 0.
Proof.
  split; [split; [cbn; lia|]; split; [lia|]; split; [by exists 0|vm_compute; discriminate]|].
  cbn zeta. split; [reflexivity|]. split; [by left|]. change (Z.to_nat 0) with 0%nat.
  change (ht (map demo_held0)) with 3%nat. change (node demo_held0 0 0) with 8.
  intros j Hj. destruct j as [|[|[|j]]]; [| | |lia]; vm_compute; intros [H _]; discriminate H.
Qed.

Lemma demo_step : buddy_step (demo_free8, ∅) (demo_held0, <[0 := 0]> ∅).
Proof. apply step_reserve; [cbn; lia|]. vm_compute. reflexivity. Qed.

Lemma buddy_reserve_correct_witness :
  exists i b', reserve demo_free8 1 = Ok (Some i, b') /\ reserved demo_free8 b' i 1.
Proof.
  apply (buddy_reserve_correct demo_free8 1 demo_free8_wf).
  - cbn. lia.
  - exists 1. split; [split; [lia|vm_compute; by split]|vm_compute; reflexivity].
Defined.

Lemma buddy_free_correct_witness :
  exists b', free demo_held0 0 0 = Ok b' /\ freed demo_held0 b' 0 0.
Proof. exact (buddy_free_correct demo_held0 0 0 demo_held0_wf demo_held0_live). Defined.

Lemma buddy_reachable_safe_witness :
  exists b', free demo_held0 0 0 = Ok b'.
Proof.
  destruct (buddy_reachable_safe demo_free8 (demo_held0, <[0 := 0]> ∅) demo_free8_wf
              (rtc_once _ _ demo_step)) as (_ & _ & H & _).
  apply (H 0 0). apply lookup_insert_eq.
Defined.

Lemma buddy_frames_conserved_witness :
  accounted (demo_held0, <[0 := 0]> ∅) 0 <-> frame_free demo_free8 0 = true.
Proof.
  apply (buddy_frames_conserved demo_free8 (demo_held0, <[0 := 0]> ∅) 0 demo_free8_wf
           (rtc_once _ _ demo_step)).
  vm_compute. split; [discriminate|reflexivity].
Defined.

Lemma free_forced_correct_witness :
  exists b', free_forced demo_empty8 4 2 = Ok b' /\ forced demo_empty8 b' 4 2.
Proof.
  apply (free_forced_correct demo_empty8 4 2 demo_empty8_wf demo_empty8_pristine).
  split; [cbn; lia|]. split; [lia|]. split; [by exists 1|vm_compute; discriminate].
Defined.

Lemma buddy_new_correct_witness :
  exists b st', buddy_new 6 (fun _ (st : unit) => Ok (Some 0, st)) tt = Ok (Some b, st') /\
    fresh_buddy 6 b.
Proof.
  apply (buddy_new_correct 6 (fun _ (st : unit) => Ok (Some 0, st)) tt).
  - vm_compute. split; discriminate.
  - intros l. by exists 0, tt.
Defined.

Lemma reserve_max_order_refused_witness : reserve demo_free8 3 = Ok (None, demo_free8).
Proof. exact (reserve_max_order_refused demo_free8 demo_free8_wf). Defined.

Lemma free_never_merges_witness :
  exists b', free demo_held0 0 0 = Ok b' /\ val (map b') (node b' (Z.to_nat 1) 0) <> 1 + 1.
Proof.
  eexists. split; [vm_compute; reflexivity|].
  apply (free_never_merges demo_held0 0 0 1 _ demo_held0_wf demo_held0_live);
    [vm_compute; reflexivity|cbn; lia].
Defined.

Lemma double_free_panics_witness : free demo_held0 1 0 = Panic.
Proof.
  apply (double_free_panics demo_held0 1 0 demo_held0_wf).
  - split; [cbn; lia|]. split; [lia|]. split; [by exists 1|vm_compute; discriminate].
  - vm_compute. discriminate.
Defined.
