(* ===== verification/Memblock.v ===== *)
(** * The boot memory manager

    [src/src/mem/phy/memblock.rs]: the blocks of memory the boot loader reports,
    kept sorted by base address, the bump allocation from the last one of them,
    and the splitting of a block into power-of-two pieces. *)

From S2P Require Import Prelude Addr.

(** ** Blocks *)

Inductive MemTyp := Free | Reserved.

#[export] Instance MemTyp_eq_dec : EqDecision MemTyp.
Proof. solve_decision. Defined.

Record Memblock := mkMemblock { mb_base : Addr UMASpace; mb_size : Z; mb_typ : MemTyp }.

(** A memory area of the boot information; [typ] is what [MemoryAreaType] the
    [multiboot2] crate reads from it. *)
Inductive MemoryAreaType :=
| Available | AreaReserved | AcpiAvailable | ReservedHibernate | Defective | Custom (n : Z).
Record MemoryArea := mkMemoryArea { start_address : Z; area_size : Z; typ : MemoryAreaType }.

(** [From<&MemoryArea> for Memblock] *)
Definition Memblock_from (m : MemoryArea) : outcome Memblock :=
  let t := match typ m with
           | Available => Free
           | AreaReserved | AcpiAvailable | ReservedHibernate | Defective | Custom _ => Reserved
           end in
  let! base := Addr_new (start_address m) in
  Ok (mkMemblock base (area_size m) t).

(** ** Splitting a block *)

Record AlignedSplit := mkAlignedSplit {
  sp_memblock : Memblock;
  sp_offset : Z;
  sp_max_order : Z
}.

Definition aligned_split (self : Memblock) (min_order max_order : Z) : outcome AlignedSplit :=
  let! min_align := ushl 64 1 min_order in
  match align_ceil (mb_base self) min_align with
  | None => Ok (mkAlignedSplit self (mb_size self) max_order)
  | Some base =>
      let self := mkMemblock base (mb_size self) (mb_typ self) in
      let! e := byte_add (mb_base self) (mb_size self) in
      let! o := align_floor e min_align in
      match o with
      | None => Ok (mkAlignedSplit self (mb_size self) max_order)
      | Some end_ =>
          let! d := addr_sub end_ base in
          match try_usize d with
          | None => Ok (mkAlignedSplit self (mb_size self) max_order)
          | Some x => Ok (mkAlignedSplit (mkMemblock base x (mb_typ self)) 0 max_order)
          end
      end
  end.

(** [Iterator::next] *)
Definition split_next (it : AlignedSplit) : outcome (option Memblock * AlignedSplit) :=
  let m := sp_memblock it in
  if mb_size m <=? sp_offset it then Ok (None, it)
  else
    let offset_order := trailing_zeros (sp_offset it) in
    let! diff := usub 64 (mb_size m) (sp_offset it) in
    let! bits := usub 32 64 (leading_zeros diff) in
    let! diff_order := usub 32 bits 1 in
    let next_order := Z.min (Z.min offset_order diff_order) (sp_max_order it) in
    let! next_size := ushl 64 1 next_order in
    let! base := byte_add (mb_base m) (sp_offset it) in
    let! offset := uadd 64 (sp_offset it) next_size in
    Ok (Some (mkMemblock base next_size (mb_typ m)), mkAlignedSplit m offset (sp_max_order it)).

(** The blocks that a [for] loop over the iterator sees. *)
Fixpoint split_all (fuel : nat) (it : AlignedSplit) : outcome (list Memblock) :=
  match fuel with
  | O => OutOfFuel
  | S fuel =>
      let! ' (r, it) := split_next it in
      match r with
      | None => Ok []
      | Some m => let! rest := split_all fuel it in Ok (m :: rest)
      end
  end.
(** Every piece is at least a byte long. *)
Definition split_fuel (it : AlignedSplit) : nat := S (Z.to_nat (mb_size (sp_memblock it))).

(** ** Sorted arrays of blocks *)

Definition MEMBLOCKS_LEN : Z := 128.

(** [slice::binary_search] by base address on blocks sorted by base: the index of
    the block with that base, or where it belongs. *)
Fixpoint search_base (data : list Memblock) (key : Z) : nat :=
  match data with
  | [] => O
  | m :: rest => if value (mb_base m) <? key then S (search_base rest key) else O
  end.
Definition binary_search (data : list Memblock) (key : Z) : nat + nat :=
  let i := search_base data key in
  match data !! i with
  | Some m => if value (mb_base m) =? key then inl i else inr i
  | None => inr i
  end.

(** [ArrayVec::insert] panics when the array is full. *)
Definition array_insert (data : list Memblock) (i : nat) (m : Memblock) : outcome (list Memblock) :=
  check! len data <? MEMBLOCKS_LEN in
  check! (i <=? length data)%nat in
  Ok (take i data ++ m :: drop i data).
Definition array_remove (data : list Memblock) (i : nat) : list Memblock :=
  take i data ++ drop (S i) data.

Definition set_size (m : Memblock) (size : Z) : Memblock := mkMemblock (mb_base m) size (mb_typ m).
Definition set_base (m : Memblock) (base : Addr UMASpace) : Memblock :=
  mkMemblock base (mb_size m) (mb_typ m).

(** The two merge checks of [Memblocks::insert]. *)
Definition merge_with_prev (data : list Memblock) (pivot : nat) (block : Memblock)
    : outcome (option nat) :=
  match pivot with
  | O => Ok None
  | S i =>
      match data !! i with
      | None => Ok None
      | Some prev =>
          check! value (mb_base prev) <=? value (mb_base block) in
          let! d := addr_sub (mb_base block) (mb_base prev) in
          Ok (if as_usize d =? mb_size prev then Some i else None)
      end
  end.
Definition merge_with_next (data : list Memblock) (pivot : nat) (block : Memblock)
    : outcome (option nat) :=
  match data !! pivot with
  | None => Ok None
  | Some next =>
      check! value (mb_base block) <=? value (mb_base next) in
      let! d := addr_sub (mb_base next) (mb_base block) in
      Ok (if as_usize d =? mb_size block then Some pivot else None)
  end.

Definition memblocks_insert (data : list Memblock) (block : Memblock)
    : outcome (bool * list Memblock) :=
  match binary_search data (value (mb_base block)) with
  | inl _ => Ok (false, data)
  | inr pivot =>
      let! merge_prev := merge_with_prev data pivot block in
      let! merge_next := merge_with_next data pivot block in
      match merge_prev, merge_next with
      | None, None =>
          let! data := array_insert data pivot block in Ok (true, data)
      | None, Some i =>
          let! m := oexpect (data !! i) in
          let! size := uadd 64 (mb_size m) (mb_size block) in
          Ok (true, <[i := set_size (set_base m (mb_base block)) size]> data)
      | Some i, None =>
          let! m := oexpect (data !! i) in
          let! size := uadd 64 (mb_size m) (mb_size block) in
          Ok (true, <[i := set_size m size]> data)
      | Some prev, Some pivot =>
          let! p := oexpect (data !! prev) in
          let! n := oexpect (data !! pivot) in
          let! add := uadd 64 (mb_size n) (mb_size block) in
          let! size := uadd 64 (mb_size p) add in
          Ok (true, array_remove (<[prev := set_size p size]> data) pivot)
      end
  end.

Definition memblocks_remove (data : list Memblock) (base : Addr UMASpace)
    : option Memblock * list Memblock :=
  match binary_search data (value base) with
  | inl i => (data !! i, array_remove data i)
  | inr _ => (None, data)
  end.

(** [ArrayVec::pop] *)
Definition memblocks_pop (data : list Memblock) : option Memblock * list Memblock :=
  (last data, take (length data - 1) data).

(** ** The memblock system *)

Record MemblockSystem := mkMemblockSystem {
  free_blocks : list Memblock;
  reserved_blocks : list Memblock;
  partial_block : option Memblock;
  ms_offset : Z;
  managed_range : AddrRange UMASpace;
  is_frozen : bool
}.

(** The loop of [MemblockSystem::init]; [kend] is [kernel_end_lma()].  A block of
    type [Reserved] is skipped, so that the [reserved_blocks] arm of the code's
    match is never taken. *)
Fixpoint init_blocks (kend : Addr UMASpace) (memory : list MemoryArea)
    (free : list Memblock) (min_addr max_addr : Z) : outcome (list Memblock * Z * Z) :=
  match memory with
  | [] => Ok (free, min_addr, max_addr)
  | a :: rest =>
      let! block := Memblock_from a in
      if decide (mb_typ block = Reserved) then init_blocks kend rest free min_addr max_addr
      else
        let! e := byte_add (mb_base block) (mb_size block) in
        if value e <? value kend then init_blocks kend rest free min_addr max_addr
        else
          let! block :=
            (if value (mb_base block) <? value kend then
               let! d := addr_sub kend (mb_base block) in
               let! size := usub 64 (mb_size block) (as_usize d) in
               Ok (mkMemblock kend size (mb_typ block))
             else Ok block) in
          if mb_size block =? 0 then init_blocks kend rest free min_addr max_addr
          else
            let! e := byte_add (mb_base block) (mb_size block) in
            let! ' (_, free) := memblocks_insert free block in
            init_blocks kend rest free
              (Z.min min_addr (value (mb_base block))) (Z.max max_addr (value e))
  end.

Definition memblock_init (kend : Addr UMASpace) (memory : list MemoryArea)
    : outcome MemblockSystem :=
  let! lo := Addr_new (S := UMASpace) (range_end UMASpace - 1) in
  let! hi := Addr_new (S := UMASpace) (range_start UMASpace) in
  let! ' (free, min_addr, max_addr) := init_blocks kend memory [] (value lo) (value hi) in
  check! min_addr <? max_addr in
  let (partial, free) := memblocks_pop free in
  let! d := addr_sub (S := UMASpace) (mkAddr max_addr) (mkAddr min_addr) in
  Ok (mkMemblockSystem free [] partial 0
        (mkAddrRange (mkAddr min_addr) (as_usize d)) false).

(** [reserve] calls itself after each exhausted block. *)
Fixpoint memblock_reserve_loop (fuel : nat) (s : MemblockSystem) (layout : Layout)
    : outcome (option (Addr UMASpace) * MemblockSystem) :=
  match fuel with
  | O => OutOfFuel
  | S fuel =>
      check! negb (is_frozen s) in
      match partial_block s with
      | None => Ok (None, s)
      | Some p =>
          let! base := next_multiple_of (ms_offset s) (layout_align layout) in
          let! offset := uadd 64 base (layout_size layout) in
          if mb_size p <? offset then
            let! ' (_, res) := memblocks_insert (reserved_blocks s) p in
            let (partial, free) := memblocks_pop (free_blocks s) in
            memblock_reserve_loop fuel
              (mkMemblockSystem free res partial 0 (managed_range s) (is_frozen s)) layout
          else
            let! a := Addr_new base in
            Ok (Some a, mkMemblockSystem (free_blocks s) (reserved_blocks s) (partial_block s)
                          offset (managed_range s) (is_frozen s))
      end
  end.
(** One call per remaining block, and the one that finds none left. *)
Definition memblock_reserve (s : MemblockSystem) (layout : Layout)
    : outcome (option (Addr UMASpace) * MemblockSystem) :=
  memblock_reserve_loop (length (free_blocks s) + 2) s layout.

Definition freeze (s : MemblockSystem) : outcome MemblockSystem :=
  check! negb (is_frozen s) in
  match partial_block s with
  | None => Ok s
  | Some p =>
      let s := mkMemblockSystem (free_blocks s) (reserved_blocks s) None (ms_offset s)
                 (managed_range s) (is_frozen s) in
      let! free :=
        (if ms_offset s =? 0 then
           let! ' (_, free) := memblocks_insert (free_blocks s) p in Ok free
         else Ok (free_blocks s)) in
      let reserved_base := mb_base p in
      let reserved_size := ms_offset s in
      let! free_base := byte_add reserved_base reserved_size in
      let! free_size := usub 64 (mb_size p) reserved_size in
      let! ' (_, free) := memblocks_insert free (mkMemblock free_base free_size Free) in
      let! ' (_, res) := memblocks_insert (reserved_blocks s)
                           (mkMemblock reserved_base reserved_size Reserved) in
      Ok (mkMemblockSystem free res (partial_block s) (ms_offset s) (managed_range s) (is_frozen s))
  end.
