(* ===== verification/MemblockTheorems.v ===== *)
(** * The boot memory manager: theorems

    Sorted arrays of blocks keep their gaps and hold the union of what was
    inserted; [reserve] bumps through the blocks and always returns; [freeze]
    splits the current block; [aligned_split] tiles a block with powers of two. *)

From stdpp Require Import sorting sets.
From S2P Require Import Prelude Addr Memblock.

(** ** Block lists *)

Definition mb_end (m : Memblock) : Z := value (mb_base m) + mb_size m.
Definition mb_in (m : Memblock) (x : Z) : Prop := value (mb_base m) <= x < mb_end m.
Definition covered (data : list Memblock) (x : Z) : Prop := exists m, m ∈ data /\ mb_in m x.

(** A block of the physical address space. *)
Definition block_ok (m : Memblock) : Prop :=
  0 <= value (mb_base m) /\ 0 < mb_size m /\ mb_end m <= range_end UMASpace.
(** The same for a block that may be empty. *)
Definition place_ok (m : Memblock) : Prop :=
  0 <= value (mb_base m) /\ 0 <= mb_size m /\ mb_end m <= range_end UMASpace.
(** [a] ends below the start of [b], with a gap. *)
Definition before (a b : Memblock) : Prop := mb_end a < value (mb_base b).
Definition apart (a b : Memblock) : Prop :=
  mb_end a <= value (mb_base b) \/ mb_end b <= value (mb_base a).

(** What [Memblocks] keeps: blocks in order, with gaps between them. *)
Definition blocks_ok (data : list Memblock) : Prop :=
  StronglySorted before data /\ Forall block_ok data.


(** Unfold the interval predicates and leave the arithmetic to [lia]. *)
Ltac blk := unfold set_size, set_base, block_ok, place_ok, before, apart, mb_in, mb_end in *; cbn [mb_base mb_size mb_typ value] in *;
  rewrite ?UMA_end, ?UMA_start in *.

Lemma blocks_ok_mid l1 m l2 :
  blocks_ok (l1 ++ m :: l2) <->
  blocks_ok (l1 ++ l2) /\ block_ok m /\ Forall (fun a => before a m) l1 /\ Forall (before m) l2.
Proof.
  unfold blocks_ok. rewrite !Forall_app, Forall_cons, !StronglySorted_app, StronglySorted_cons,
    !Forall_forall. setoid_rewrite elem_of_cons. naive_solver.
Qed.

Lemma covered_mid l1 m l2 x : covered (l1 ++ m :: l2) x <-> mb_in m x \/ covered (l1 ++ l2) x.
Proof.
  unfold covered. setoid_rewrite elem_of_app. setoid_rewrite elem_of_cons. naive_solver.
Qed.

(** The address of a block fits the checked differences of addresses. *)
Lemma base_sub_ok (a b : Addr UMASpace) :
  0 <= value a <= range_end UMASpace -> 0 <= value b <= range_end UMASpace ->
  addr_sub a b = Ok (value a - value b).
Proof.
  rewrite UMA_end. intros Ha Hb. apply addr_sub_ok; [exact Ha|exact Hb|lia..].
Qed.

(** ** Insertion *)

(** [binary_search] splits a sorted array at the key. *)
Lemma search_split data key :
  StronglySorted before data -> Forall block_ok data ->
  exists l1 l2, data = l1 ++ l2 /\ search_base data key = length l1 /\
    Forall (fun m => value (mb_base m) < key) l1 /\ Forall (fun m => key <= value (mb_base m)) l2.
Proof.
  induction data as [|m data IH]; cbn [search_base].
  { intros _ _. by exists [], []. }
  intros [Hdata Hm]%StronglySorted_cons [Hok Hoks]%Forall_cons.
  case_bool (value (mb_base m) <? key) E.
  - destruct (IH Hm Hoks) as (l1 & l2 & -> & -> & H1 & H2).
    exists (m :: l1), l2. split_and!; [done..|by constructor|done].
  - exists [], (m :: data). split_and!; [done..|]. constructor; [lia|].
    eapply Forall_impl; [exact Hdata|]. intros b. blk. lia.
Qed.

Lemma search_base_app l1 l2 key :
  Forall (fun m => value (mb_base m) < key) l1 -> Forall (fun m => key <= value (mb_base m)) l2 ->
  search_base (l1 ++ l2) key = length l1.
Proof.
  intros H1 H2. induction H1 as [|m l1 Hm _ IH]; cbn.
  - destruct H2 as [|m l2 Hm _]; [done|]. cbn. by case_bool_lia.
  - rewrite IH. by case_bool_lia.
Qed.

(** Where a new block goes: everything in front ends at or below its base. *)
Lemma insert_split data b :
  blocks_ok data -> block_ok b -> Forall (apart b) data ->
  exists l1 l2, data = l1 ++ l2 /\ binary_search data (value (mb_base b)) = inr (length l1) /\
    Forall (fun m => mb_end m <= value (mb_base b)) l1 /\
    Forall (fun m => mb_end b <= value (mb_base m)) l2.
Proof.
  intros [Hs Hok] Hb Hd. destruct (search_split data (value (mb_base b)) Hs Hok)
    as (l1 & l2 & -> & Ei & H1 & H2). exists l1, l2.
  apply Forall_app in Hok as [Hok1 Hok2]. apply Forall_app in Hd as [Hd1 Hd2].
  assert (F2 : Forall (fun m => mb_end b <= value (mb_base m)) l2).
  { rewrite !Forall_forall in *. intros m Hm. specialize (H2 m Hm). specialize (Hok2 m Hm).
    specialize (Hd2 m Hm). blk. lia. }
  split_and!; [done| |  |done].
  - unfold binary_search. rewrite Ei, lookup_app_r, Nat.sub_diag by lia.
    destruct l2 as [|n l2]; [done|]. cbn [lookup list_lookup]. apply Forall_cons in F2 as [F2 _].
    by case_bool_lia || (blk; case_bool_lia).
  - rewrite !Forall_forall in *. intros m Hm. specialize (H1 m Hm). specialize (Hok1 m Hm).
    specialize (Hd1 m Hm). blk. lia.
Qed.

(** The outcome of the two merge checks at the split point. *)
Lemma merge_prev_ok l1 l2 b :
  blocks_ok (l1 ++ l2) -> place_ok b -> Forall (fun m => mb_end m <= value (mb_base b)) l1 ->
  (merge_with_prev (l1 ++ l2) (length l1) b = Ok None /\ Forall (fun m => before m b) l1) \/
  (exists l p, l1 = l ++ [p] /\ mb_end p = value (mb_base b) /\
     merge_with_prev (l1 ++ l2) (length l1) b = Ok (Some (length l))).
Proof.
  intros Hok Hb H1. destruct l1 as [|p l1 _] using rev_ind; [by left|].
  rewrite <- app_assoc in Hok. cbn [app] in Hok. apply blocks_ok_mid in Hok as (_ & Hp & F & _).
  apply Forall_app in H1 as [H1 [Hpe _]%Forall_cons].
  unfold merge_with_prev. rewrite length_app, Nat.add_1_r; cbn.
  rewrite lookup_app_l, list_lookup_middle by (rewrite ?length_app; cbn; lia).
  replace (value (mb_base p) <=? value (mb_base b)) with true by (blk; lia).
  rewrite base_sub_ok by (blk; lia). cbn [obind]. unfold as_usize.
  rewrite Z.mod_small by (blk; lia). case_bool (value (mb_base b) - value (mb_base p) =? mb_size p) E.
  - right. exists l1, p. split_and!; [done|blk; lia|done].
  - left. split; [done|]. apply Forall_app. split; [|constructor; [blk; lia|done]].
    eapply Forall_impl; [exact F|]. intros m. blk. lia.
Qed.

Lemma merge_next_ok l1 l2 b :
  blocks_ok (l1 ++ l2) -> place_ok b -> Forall (fun m => mb_end b <= value (mb_base m)) l2 ->
  (merge_with_next (l1 ++ l2) (length l1) b = Ok None /\ Forall (before b) l2) \/
  (exists n l, l2 = n :: l /\ mb_end b = value (mb_base n) /\
     merge_with_next (l1 ++ l2) (length l1) b = Ok (Some (length l1))).
Proof.
  intros Hok Hb H2. unfold merge_with_next. rewrite lookup_app_r, Nat.sub_diag by lia.
  destruct l2 as [|n l2]; [by left|]. cbn [lookup list_lookup].
  apply blocks_ok_mid in Hok as (_ & Hn & _ & F). apply Forall_cons in H2 as [Hne H2].
  replace (value (mb_base b) <=? value (mb_base n)) with true by (blk; lia).
  rewrite base_sub_ok by (blk; lia). cbn [obind]. unfold as_usize.
  rewrite Z.mod_small by (blk; lia). case_bool (value (mb_base n) - value (mb_base b) =? mb_size b) E.
  - right. exists n, l2. split_and!; [done|blk; lia|done].
  - left. split; [done|]. constructor; [blk; lia|].
    eapply Forall_impl; [exact F|]. intros m. blk. lia.
Qed.

(** What an insertion does: the array holds the block's addresses as well, in
    order and with gaps. *)
Definition inserted (data : list Memblock) (b : Memblock) (data' : list Memblock) : Prop :=
  blocks_ok data' /\ (length data' <= length data + 1)%nat /\
  forall x, covered data' x <-> covered data x \/ mb_in b x.

(** One block in the place of some of the old ones and the new one. *)
Lemma inserted_mid l1 olds l2 b m :
  blocks_ok (l1 ++ l2) -> block_ok m ->
  Forall (fun a => before a m) l1 -> Forall (before m) l2 ->
  (forall x, mb_in m x <-> mb_in b x \/ covered olds x) ->
  inserted (l1 ++ olds ++ l2) b (l1 ++ m :: l2).
Proof.
  intros Hok Hm F1 F2 Hx. split; [by apply blocks_ok_mid|].
  split; [rewrite !length_app; cbn; lia|]. intros x. rewrite covered_mid, Hx.
  unfold covered. setoid_rewrite elem_of_app. setoid_rewrite elem_of_app. naive_solver.
Qed.

Lemma covered_nil x : covered [] x <-> False.
Proof. unfold covered. split; [|done]. intros (m & Hm & _). by apply not_elem_of_nil in Hm. Qed.
Lemma covered_cons m l x : covered (m :: l) x <-> mb_in m x \/ covered l x.
Proof. apply (covered_mid [] m l). Qed.


(** The four arms of the final [match], each on the list split where it acts. *)
Lemma array_insert_mid l1 l2 b :
  len (l1 ++ l2) < MEMBLOCKS_LEN -> array_insert (l1 ++ l2) (length l1) b = Ok (l1 ++ b :: l2).
Proof.
  intros Hlen. unfold array_insert. rewrite (proj2 (Z.ltb_lt _ _) Hlen).
  rewrite (proj2 (Nat.leb_le _ _)) by (rewrite length_app; lia).
  by rewrite take_app_length, drop_app_length.
Qed.

Lemma set_mid l1 m l2 (m' : Memblock) : <[length l1 := m']> (l1 ++ m :: l2) = l1 ++ m' :: l2.
Proof. by rewrite insert_app_r_alt, Nat.sub_diag by lia. Qed.

Lemma remove_mid l1 (p n : Memblock) l2 : array_remove (l1 ++ p :: n :: l2) (length l1 + 1) = l1 ++ p :: l2.
Proof.
  unfold array_remove. change (p :: n :: l2) with ([p] ++ n :: l2). rewrite app_assoc.
  replace (length l1 + 1)%nat with (length (l1 ++ [p])) by (rewrite length_app; done).
  rewrite take_app_length, drop_app. rewrite drop_ge by lia.
  replace (S (length (l1 ++ [p])) - length (l1 ++ [p]))%nat with 1%nat by lia.
  by rewrite <- app_assoc.
Qed.

Lemma lookup_snd l1 (p n : Memblock) l2 : (l1 ++ p :: n :: l2) !! (length l1 + 1)%nat = Some n.
Proof. rewrite lookup_app_r by lia. by replace (length l1 + 1 - length l1)%nat with 1%nat by lia. Qed.

Lemma insert_spec data b :
  blocks_ok data -> block_ok b -> Forall (apart b) data -> len data < MEMBLOCKS_LEN ->
  exists data', memblocks_insert data b = Ok (true, data') /\ inserted data b data'.
Proof.
  intros Hok Hb Hd Hlen.
  destruct (insert_split data b Hok Hb Hd) as (l1 & l2 & -> & Es & H1 & H2).
  unfold memblocks_insert. rewrite Es. assert (Hpl : place_ok b) by (blk; lia).
  destruct (merge_prev_ok l1 l2 b Hok Hpl H1) as [[Ep F1]|(l1' & p & -> & Hp & Ep)];
    rewrite Ep; cbn [obind]; clear Ep;
    destruct (merge_next_ok _ l2 b Hok Hpl H2) as [[En F2]|(n & l2' & -> & Hn & En)];
    rewrite En; cbn [obind]; clear En.
  - rewrite array_insert_mid by done. eexists. split; [done|].
    apply (inserted_mid l1 []); [done..|]. intros x. rewrite covered_nil. tauto.
  - apply blocks_ok_mid in Hok as (Hok & Hnok & G1 & G2).
    rewrite list_lookup_middle by done. cbn [oexpect obind].
    rewrite uadd_ok by (blk; lia). cbn [obind]. rewrite set_mid. eexists. split; [done|].
    apply (inserted_mid l1 [n]); [done|blk; lia|done| |].
    + eapply Forall_impl; [exact G2|]. intros m. blk. lia.
    + intros x. rewrite covered_cons, covered_nil. blk. lia.
  - rewrite <- app_assoc in *. cbn [app] in *. apply blocks_ok_mid in Hok as (Hok & Hpok & G1 & G2).
    rewrite list_lookup_middle by done. cbn [oexpect obind].
    rewrite uadd_ok by (blk; lia). cbn [obind]. rewrite set_mid. eexists. split; [done|].
    apply (inserted_mid l1' [p]); [done|blk; lia|done| |].
    + eapply Forall_impl; [exact F2|]. intros m. blk. lia.
    + intros x. rewrite covered_cons, covered_nil. blk. lia.
  - rewrite <- app_assoc, length_app in *. cbn [app length] in *.
    apply blocks_ok_mid in Hok as (Hok & Hpok & G1 & _).
    apply blocks_ok_mid in Hok as (Hok & Hnok & _ & G2).
    rewrite list_lookup_middle, lookup_snd by done. cbn [oexpect obind].
    do 2 (rewrite uadd_ok by (blk; lia); cbn [obind]). rewrite set_mid, remove_mid.
    eexists. split; [done|]. apply (inserted_mid l1' [p; n]); [done|blk; lia|done| |].
    + eapply Forall_impl; [exact G2|]. intros m. blk. lia.
    + intros x. rewrite !covered_cons, covered_nil. blk. lia.
Qed.

(** A block that fits in a gap without touching its neighbours, empty or not. *)
Lemma insert_place l1 b l2 :
  blocks_ok (l1 ++ l2) -> place_ok b -> Forall (fun a => before a b) l1 -> Forall (before b) l2 -> len (l1 ++ l2) < MEMBLOCKS_LEN ->
  memblocks_insert (l1 ++ l2) b = Ok (true, l1 ++ b :: l2).
Proof.
  intros Hok Hb F1 F2 Hlen.
  assert (Hoks : Forall block_ok (l1 ++ l2)) by apply Hok. apply Forall_app in Hoks as [Hok1 Hok2].
  assert (Es : search_base (l1 ++ l2) (value (mb_base b)) = length l1).
  { rewrite Forall_forall in *. apply search_base_app; apply Forall_forall; intros m Hm.
    - specialize (F1 m Hm). specialize (Hok1 m Hm). blk. lia.
    - specialize (F2 m Hm). blk. lia. }
  assert (Eb : binary_search (l1 ++ l2) (value (mb_base b)) = inr (length l1)).
  { unfold binary_search. rewrite Es, lookup_app_r, Nat.sub_diag by lia.
    destruct l2 as [|n l2]; [done|]. cbn [lookup list_lookup]. apply Forall_cons in F2 as [F2 _].
    replace (_ =? _) with false; [done|]. symmetry. blk. bool_lia. }
  unfold memblocks_insert. rewrite Eb.
  destruct (merge_prev_ok l1 l2 b Hok Hb) as [[-> _]|(l & p & -> & Hp & _)];
    [eapply Forall_impl; [exact F1|intros m; blk; lia]| |
     apply Forall_app in F1 as [_ [F1 _]%Forall_cons]; blk; lia].
  destruct (merge_next_ok l1 l2 b Hok Hb) as [[-> _]|(n & l & -> & Hn & _)];
    [eapply Forall_impl; [exact F2|intros m; blk; lia]| |
     apply Forall_cons in F2 as [F2 _]; blk; lia].
  cbn [obind]. by rewrite array_insert_mid.
Qed.

Lemma insert_gap l1 b l2 :
  blocks_ok (l1 ++ b :: l2) -> len (l1 ++ l2) < MEMBLOCKS_LEN ->
  memblocks_insert (l1 ++ l2) b = Ok (true, l1 ++ b :: l2).
Proof. intros (Hok & Hb & F1 & F2)%blocks_ok_mid. apply insert_place; try done. blk. lia. Qed.

(** A block at a base that is already taken is refused. *)
Lemma insert_same_base l1 m l2 b :
  blocks_ok (l1 ++ m :: l2) -> value (mb_base m) = value (mb_base b) ->
  memblocks_insert (l1 ++ m :: l2) b = Ok (false, l1 ++ m :: l2).
Proof.
  intros (Hok & Hm & F1 & F2)%blocks_ok_mid E. destruct Hok as [_ [Hok1 Hok2]%Forall_app].
  unfold memblocks_insert, binary_search. rewrite search_base_app.
  - by rewrite list_lookup_middle, E, Z.eqb_refl.
  - rewrite Forall_forall in *. intros a Ha. specialize (F1 a Ha). specialize (Hok1 a Ha). blk. lia.
  - constructor; [lia|]. eapply Forall_impl; [exact F2|]. intros a. blk. lia.
Qed.

(** ** The bump allocator *)

(** Every block the system knows, in address order. *)
Definition all_blocks (s : MemblockSystem) : list Memblock :=
  free_blocks s ++ option_list (partial_block s) ++ reserved_blocks s.

Record sys_ok (s : MemblockSystem) : Prop := {
  so_blocks : blocks_ok (all_blocks s);
  so_len : len (all_blocks s) <= MEMBLOCKS_LEN;
  so_live : is_frozen s = false;
  so_offset : forall p, partial_block s = Some p -> 0 <= ms_offset s <= mb_size p;
  so_last : partial_block s = None -> free_blocks s = []
}.

(** The block has an aligned place for the layout at or above the offset. *)
Definition room (p : Memblock) (off : Z) (l : Layout) : Prop :=
  exists a, (layout_align l | a) /\ off <= a /\ a + layout_size l <= mb_size p.

(** What [reserve] promises: the first block with room, from the current one
    down, gives its first aligned place; [None] when there is none.  The blocks
    themselves never change. *)
Definition reserved_from (s : MemblockSystem) (l : Layout) (r : option (Addr UMASpace))
    (s' : MemblockSystem) : Prop :=
  all_blocks s' = all_blocks s /\ sys_ok s' /\ managed_range s' = managed_range s /\
  match r with
  | Some a =>
      exists p, partial_block s' = Some p /\ (layout_align l | value a) /\
        ms_offset s' = value a + layout_size l /\
        ((partial_block s = Some p /\ free_blocks s' = free_blocks s /\
          ms_offset s <= value a < ms_offset s + layout_align l) \/
         (exists q skipped, partial_block s = Some q /\ ~ room q (ms_offset s) l /\
            free_blocks s = free_blocks s' ++ p :: skipped /\
            Forall (fun m => ~ room m 0 l) skipped /\ value a = 0))
  | None =>
      partial_block s' = None /\ (forall p, partial_block s = Some p -> ~ room p (ms_offset s) l) /\
      Forall (fun m => ~ room m 0 l) (free_blocks s)
  end.

Lemma pop_snoc l (m : Memblock) : memblocks_pop (l ++ [m]) = (Some m, l).
Proof.
  unfold memblocks_pop. rewrite last_snoc, length_app; cbn.
  replace (length l + 1 - 1)%nat with (length l) by lia. by rewrite take_app_length.
Qed.

(** Moving on from an exhausted block. *)
Lemma next_block_ok s p :
  sys_ok s -> partial_block s = Some p ->
  memblocks_insert (reserved_blocks s) p = Ok (true, p :: reserved_blocks s) /\
  let (partial, free) := memblocks_pop (free_blocks s) in
  let s' := mkMemblockSystem free (p :: reserved_blocks s) partial 0 (managed_range s) (is_frozen s) in
  sys_ok s' /\ all_blocks s' = all_blocks s /\ free_blocks s = free ++ option_list partial.
Proof.
  intros [Hok Hlen Hlive Hoff Hlast] Hp. unfold all_blocks in *. rewrite Hp in *.
  change (option_list (Some p)) with [p] in *. cbn [app] in *.
  assert (Hpr : blocks_ok (p :: reserved_blocks s)).
  { destruct Hok as [HS HF]. split; [by apply StronglySorted_app_1_r in HS|by apply Forall_app in HF as [_ HF]]. }
  split.
  { apply (insert_gap [] p (reserved_blocks s)); [done|]. cbn [app]. unfold len in *. rewrite length_app in Hlen.
    rewrite ?length_cons in *. lia. }
  destruct (free_blocks s) as [|q l _] eqn:El using rev_ind.
  - cbn. split_and!; [|done..]. split; cbn; done.
  - rewrite pop_snoc. rewrite <- app_assoc in *. cbn [app] in *.
    split_and!; [|done..].
    split; cbn; unfold all_blocks; cbn; try done.
    intros q' [= <-]. apply blocks_ok_mid in Hok as (_ & Hq & _). blk. lia.
Qed.

(** The first aligned place at or above the offset. *)
Lemma first_place p off l :
  layout_valid l -> 0 <= off <= range_end UMASpace ->
  exists base, next_multiple_of off (layout_align l) = Ok base /\
    uadd 64 base (layout_size l) = Ok (base + layout_size l) /\
    (layout_align l | base) /\ off <= base < off + layout_align l /\
    (room p off l <-> base + layout_size l <= mb_size p).
Proof.
  intros (Hs & Ha & Hmax) Hoff. rewrite UMA_end in Hoff. unfold is_power_of_two in Ha.
  destruct (checked_next_multiple_of_ok off (layout_align l)) as [base Eb]; [lia..|].
  destruct (checked_next_multiple_of_Some off (layout_align l) base ltac:(lia) ltac:(lia) Eb) as [Hd Hb].
  exists base. unfold next_multiple_of. rewrite Eb. split; [done|]. split; [apply uadd_ok; lia|].
  split; [done|]. split; [lia|]. split.
  - intros (a & Hda & Hoa & Hfit). 
    pose proof (multiple_le (layout_align l) base a ltac:(lia) Hd Hda). lia.
  - intros Hfit. exists base. split_and!; [done|lia..].
Qed.

Lemma partial_size s p : sys_ok s -> partial_block s = Some p -> block_ok p.
Proof.
  intros Hs Hp. destruct (so_blocks s Hs) as [_ HF]. unfold all_blocks in HF. rewrite Hp in HF.
  rewrite !Forall_app in HF. destruct HF as (_ & HF & _). by apply Forall_cons in HF as [? _].
Qed.

(** Going on with the next block after one without room. *)
Lemma reserved_from_next s s1 l p r s' :
  0 < layout_align l ->
  partial_block s = Some p -> ~ room p (ms_offset s) l -> ms_offset s1 = 0 ->
  free_blocks s = free_blocks s1 ++ option_list (partial_block s1) ->
  all_blocks s1 = all_blocks s -> managed_range s1 = managed_range s ->
  reserved_from s1 l r s' -> reserved_from s l r s'.
Proof.
  intros Hal Hp Hroom Hoff Hfree Hall Hman (Ha & Hs' & Hm & Hr).
  split; [congruence|]. split; [done|]. split; [congruence|].
  destruct r as [a|].
  - destruct Hr as (p' & Hp' & Hd & Ho & Hcase). exists p'. split_and!; [done..|]. right.
    destruct Hcase as [(Hq & Ef & Hbnd)|(q & sk & Hq & Hnr & Ef & Hsk & Ha0)]; rewrite Hq in Hfree.
    + exists p, []. split_and!; [done..|by rewrite Hfree, Ef|constructor|].
      rewrite Hoff in Hbnd. pose proof (multiple_unique (layout_align l) 0 (value a) 0 Hal Hd (Z.divide_0_r _)). lia.
    + exists p, (sk ++ [q]). rewrite Hoff in Hnr. split_and!; [done..| | |done].
      * rewrite Hfree, Ef, <- app_assoc. done.
      * apply Forall_app. split; [done|]. by constructor.
  - destruct Hr as (Hn & Hq & HF). split; [done|]. split; [intros q E; by simplify_eq|].
    rewrite Hfree. apply Forall_app. split; [done|]. rewrite Hoff in Hq.
    destruct (partial_block s1) as [q|]; constructor; [by apply Hq|constructor].
Qed.

(** A fresh place in the current block. *)
Lemma reserve_here s p base l :
  sys_ok s -> partial_block s = Some p -> (layout_align l | base) -> 0 <= layout_size l ->
  ms_offset s <= base < ms_offset s + layout_align l -> base + layout_size l <= mb_size p ->
  reserved_from s l (Some (mkAddr base))
    (mkMemblockSystem (free_blocks s) (reserved_blocks s) (partial_block s) (base + layout_size l)
       (managed_range s) (is_frozen s)).
Proof.
  intros Hs Hp Hd Hl Hb Hfit. pose proof (so_offset s Hs p Hp) as Hoff. split_and!; try done.
  - destruct Hs. split; cbn; try done. rewrite Hp. intros p' [= <-]. lia.
  - exists p. cbn. split_and!; [done..|]. by left.
Qed.

Lemma reserve_loop_spec l fuel s :
  layout_valid l -> 0 < layout_size l -> sys_ok s -> (length (free_blocks s) + 2 <= fuel)%nat ->
  exists r s', memblock_reserve_loop fuel s l = Ok (r, s') /\ reserved_from s l r s'.
Proof.
  intros Hl Hpos. revert s. induction fuel as [|fuel IH]; intros s Hs Hf; [lia|].
  cbn [memblock_reserve_loop]. replace (negb (is_frozen s)) with true by by rewrite (so_live s Hs).
  destruct (partial_block s) as [p|] eqn:Hp.
  2:{ exists None, s. split; [done|]. split_and!; try done; [by rewrite Hp|].
      by rewrite (so_last s Hs Hp). }
  pose proof (so_offset s Hs p Hp) as Hoff. pose proof (partial_size s p Hs Hp) as Hpok.
  destruct (first_place p (ms_offset s) l Hl) as (base & -> & Eu & Hd & Hb & Hroom); [blk; lia|].
  cbn [obind]. rewrite Eu. cbn [obind]. case_bool (mb_size p <? base + layout_size l) E.
  - destruct (next_block_ok s p Hs Hp) as [-> Hpop]. cbn [obind].
    destruct (memblocks_pop (free_blocks s)) as [partial free].
    destruct Hpop as (Hs' & Hall & Hfree). set (s1 := mkMemblockSystem _ _ _ _ _ _) in *.
    assert (Hal : 0 < layout_align l) by lia.
    assert (Hno : ~ room p (ms_offset s) l) by (rewrite Hroom; lia).
    destruct partial as [q|].
    + destruct (IH _ Hs') as (r & s' & -> & Hr); [cbn; rewrite Hfree, length_app in Hf; cbn in Hf; lia|].
      exists r, s'. split; [done|]. by eapply reserved_from_next; [..|exact Hr].
    + assert (Er : memblock_reserve_loop fuel s1 l = Ok (None, s1)).
      { destruct fuel as [|fuel]; [lia|]. cbn. by rewrite (so_live s Hs). }
      exists None, s1. split; [done|].
      apply (reserved_from_next s s1 l p None s1 Hal Hp Hno eq_refl Hfree Hall eq_refl).
      split_and!; try done.
      by rewrite (so_last _ Hs' eq_refl).
  - rewrite Addr_new_ok by (blk; cbn; lia). cbn [obind].
    eexists _, _. split; [done|]. rewrite <- Hp. apply (reserve_here s p); [done..|lia|lia|lia].
Qed.

(** ** Freezing *)

(** The two parts of the current block. *)
Definition taken_part (s : MemblockSystem) (p : Memblock) : Memblock := mkMemblock (mb_base p) (ms_offset s) Reserved.
Definition free_part (s : MemblockSystem) (p : Memblock) : Memblock :=
  mkMemblock (mkAddr (value (mb_base p) + ms_offset s)) (mb_size p - ms_offset s) (if ms_offset s =? 0 then mb_typ p else Free).

(** Each is one more block of its array, also when it is empty. *)
Lemma freeze_eq s p :
  sys_ok s -> partial_block s = Some p ->
  freeze s = Ok (mkMemblockSystem (free_blocks s ++ [free_part s p]) (taken_part s p :: reserved_blocks s) None
                   (ms_offset s) (managed_range s) false).
Proof.
  intros Hs Hp. pose proof (so_blocks s Hs) as Hok. pose proof (so_len s Hs) as Hlen. pose proof (so_offset s Hs p Hp) as Hoff.
  unfold all_blocks in Hok, Hlen. rewrite Hp in Hok, Hlen. unfold len in Hlen.
  rewrite !length_app in Hlen. change (length (option_list (Some p))) with 1%nat in Hlen.
  change (option_list (Some p)) with [p] in Hok. cbn [app] in Hok.
  pose proof Hok as (_ & Hpok & F1 & F2)%blocks_ok_mid. destruct Hok as [HS HF]. apply Forall_app in HF as [O1 [_ O2]%Forall_cons].
  pose proof (StronglySorted_app_1_l _ _ _ HS) as S1. pose proof (StronglySorted_app_1_r _ _ _ HS) as [_ S2]%StronglySorted_cons.
  assert (Hfree : forall q, place_ok q -> value (mb_base p) <= value (mb_base q) -> memblocks_insert (free_blocks s) q = Ok (true, free_blocks s ++ [q])).
  { intros q Hq Hb. rewrite <- (app_nil_r (free_blocks s)) at 1. apply insert_place; rewrite ?app_nil_r; [done|done| |done|unfold len; lia].
    eapply Forall_impl; [exact F1|]. intros m. blk. lia. }
  assert (Hres : memblocks_insert (reserved_blocks s) (taken_part s p) = Ok (true, taken_part s p :: reserved_blocks s)).
  { pose proof (insert_place [] (taken_part s p) (reserved_blocks s)) as Ei. cbn [app] in Ei.
    apply Ei; [done|unfold taken_part; blk; lia|done| |unfold len; lia].
    eapply Forall_impl; [exact F2|]. intros m. unfold taken_part. blk. lia. }
  unfold freeze. rewrite (so_live s Hs), Hp. cbn [negb ms_offset free_blocks reserved_blocks]. unfold byte_add.
  rewrite uadd_ok by (blk; lia). cbn [obind]. change (range_start UMASpace) with 0.
  replace (0 <=? _) with true by (blk; lia). rewrite usub_ok by (blk; lia). cbn [obind]. unfold free_part.
  destruct (Z.eqb_spec (ms_offset s) 0) as [E|E].
  - rewrite (Hfree p) by (blk; lia). cbn [obind]. rewrite insert_same_base; [|by apply blocks_ok_mid; rewrite app_nil_r|cbn [mb_base value]; lia].
    cbn [obind]. fold (taken_part s p). rewrite Hres. cbn [obind]. rewrite E, Z.add_0_r, Z.sub_0_r. by destruct p as [[]].
  - cbn [obind]. rewrite Hfree by (blk; lia). cbn [obind]. fold (taken_part s p). by rewrite Hres.
Qed.

Lemma freeze_parts_ok s p :
  sys_ok s -> partial_block s = Some p ->
  (ms_offset s < mb_size p -> blocks_ok (free_blocks s ++ [free_part s p])) /\
  (0 < ms_offset s -> blocks_ok (taken_part s p :: reserved_blocks s)).
Proof.
  intros Hs Hp. pose proof (so_blocks s Hs) as Hok. pose proof (so_offset s Hs p Hp) as Hoff. unfold all_blocks in Hok. rewrite Hp in Hok.
  change (option_list (Some p)) with [p] in Hok. cbn [app] in Hok.
  pose proof Hok as (_ & Hpok & F1 & F2)%blocks_ok_mid. destruct Hok as [HS HF]. apply Forall_app in HF as [O1 [_ O2]%Forall_cons].
  pose proof (StronglySorted_app_1_l _ _ _ HS) as S1. pose proof (StronglySorted_app_1_r _ _ _ HS) as [_ S2]%StronglySorted_cons.
  unfold free_part, taken_part. split; intros Hlt.
  - apply blocks_ok_mid. rewrite app_nil_r. split_and!; [done..|blk; lia| |done]. eapply Forall_impl; [exact F1|]. intros m. blk. lia.
  - apply (blocks_ok_mid []). split_and!; [done..|blk; lia|done|]. eapply Forall_impl; [exact F2|]. intros m. blk. lia.
Qed.

(** ** Splitting a block into powers of two *)

Lemma trailing_zeros_divide a : 0 < a -> 0 <= trailing_zeros a /\ (2 ^ trailing_zeros a | a).
Proof.
  destruct a as [|p|p]; [lia| |lia]. intros _. cbn [trailing_zeros].
  induction p as [p _|p [IH0 IH]|]; cbn [pos_trailing_zeros]; [split; [lia|apply Z.divide_1_l]| |split; [lia|apply Z.divide_1_l]].
  split; [lia|]. rewrite Z.add_comm, pow2_succ by done. change (Zpos p~0) with (2 * Zpos p).
  by apply Z.mul_divide_mono_l.
Qed.

Lemma trailing_zeros_max a k : 0 < a -> 0 <= k -> (2 ^ k | a) -> k <= trailing_zeros a.
Proof.
  destruct a as [|p|p]; [lia| |lia]. intros _. cbn [trailing_zeros]. revert k.
  induction p as [p _|p IH|]; intros k Hk Hd; cbn [pos_trailing_zeros].
  - destruct (Z.eq_dec k 0) as [->|]; [lia|]. destruct Hd as [x Hx].
    rewrite <- (Z.sub_add 1 k), pow2_succ in Hx by lia. lia.
  - destruct (Z.eq_dec k 0) as [->|].
    { pose proof (trailing_zeros_divide (Zpos p) ltac:(lia)). cbn in *. lia. }
    assert (k - 1 <= pos_trailing_zeros p); [|lia]. apply IH; [lia|].
    destruct Hd as [x Hx]. exists x. rewrite <- (Z.sub_add 1 k), pow2_succ in Hx by lia. lia.
  - destruct (Z.eq_dec k 0) as [->|]; [lia|]. destruct Hd as [x Hx].
    rewrite <- (Z.sub_add 1 k), pow2_succ in Hx by lia. lia.
Qed.

(** An iterator over a block whose base and size are multiples of [2^lo]. *)
Definition split_ok (lo : Z) (it : AlignedSplit) : Prop :=
  let m := sp_memblock it in
  0 <= lo <= sp_max_order it /\ sp_max_order it < 64 /\ 0 <= value (mb_base m) /\
  value (mb_base m) + mb_size m < USIZE /\ 0 <= sp_offset it <= mb_size m /\
  (2 ^ lo | sp_offset it) /\ (2 ^ lo | mb_size m).

Lemma split_next_ok lo it :
  split_ok lo it -> sp_offset it < mb_size (sp_memblock it) ->
  let m := sp_memblock it in
  exists k it', lo <= k <= sp_max_order it /\ (2 ^ k | sp_offset it) /\
    it' = mkAlignedSplit m (sp_offset it + 2 ^ k) (sp_max_order it) /\ split_ok lo it' /\
    split_next it = Ok (Some (mkMemblock (mkAddr (value (mb_base m) + sp_offset it)) (2 ^ k) (mb_typ m)), it').
Proof.
  destruct it as [[[base] size t] off hi]. unfold split_ok; cbn.
  intros (Hlo & Hhi & Hb & Hmax & Ho & Hdo & Hds) Hlt.
  pose proof (pow2_pos lo ltac:(lia)) as Hplo.
  assert (Hdiff : (2 ^ lo | size - off)) by by apply Z.divide_sub_r.
  assert (Hle : 2 ^ lo <= size - off) by (apply Z.divide_pos_le; [lia|done]).
  assert (Hlog : lo <= Z.log2 (size - off)) by (apply Z.log2_le_pow2; lia).
  pose proof (Z.log2_spec (size - off) ltac:(lia)) as [Hspec _].
  assert (Hl64 : Z.log2 (size - off) < 64) by (apply Z.log2_lt_pow2; lia).
  set (k := Z.min (Z.min (trailing_zeros off) (Z.log2 (size - off))) hi).
  assert (Htz : lo <= trailing_zeros off /\ forall j, 0 <= j <= trailing_zeros off -> (2 ^ j | off)).
  { destruct (Z.eq_dec off 0) as [->|Hne]; [split; [cbn; lia|intros; apply Z.divide_0_r]|].
    split; [apply trailing_zeros_max; [lia..|done]|]. intros j Hj.
    etransitivity; [apply pow2_divide, Hj|by apply trailing_zeros_divide; lia]. }
  assert (Hk : lo <= k <= hi /\ k <= Z.log2 (size - off)) by lia.
  pose proof (pow2_le k (Z.log2 (size - off)) ltac:(lia)). pose proof (pow2_pos k ltac:(lia)).
  exists k, (mkAlignedSplit (mkMemblock (mkAddr base) size t) (off + 2 ^ k) hi). cbn.
  split; [lia|]. split; [apply Htz; lia|]. split; [done|]. split.
  { split_and!; try done; [lia..|]. apply Z.divide_add_r; [done|]. apply pow2_divide. lia. }
  unfold split_next; cbn. case_bool_lia. rewrite usub_ok by lia. cbn [obind].
  unfold leading_zeros. case_bool_lia. rewrite !usub_ok by lia. cbn [obind].
  rewrite usub_ok by lia. cbn [obind].
  replace (64 - (63 - Z.log2 (size - off)) - 1) with (Z.log2 (size - off)) by lia. fold k.
  rewrite ushl_ok, Z.mul_1_l by lia. cbn [obind]. unfold byte_add; cbn.
  rewrite uadd_ok by lia. cbn [obind]. replace (0 <=? base + off) with true by lia.
  cbn [obind]. by rewrite uadd_ok by lia.
Qed.

(** The blocks follow each other without gap from [a] to [b]. *)
Fixpoint tiles (a : Z) (l : list Memblock) (b : Z) : Prop :=
  match l with
  | [] => a = b
  | m :: l => value (mb_base m) = a /\ 0 < mb_size m /\ tiles (a + mb_size m) l b
  end.

Lemma tiles_le a l b : tiles a l b -> a <= b.
Proof. revert a. induction l as [|m l IH]; cbn; intros a; [lia|]. intros (_ & ? & H%IH). lia. Qed.

Lemma tiles_covered a l b x : tiles a l b -> covered l x <-> a <= x < b.
Proof.
  revert a. induction l as [|m l IH]; cbn [tiles]; intros a.
  - intros ->. rewrite covered_nil. lia.
  - intros (<- & Hs & H). rewrite covered_cons, (IH _ H). pose proof (tiles_le _ _ _ H). blk. lia.
Qed.

(** A piece of a block at [base]: a power of two between the two orders, at a
    multiple of its size from [base]. *)
Definition piece_ok (lo hi base : Z) (q : Memblock) : Prop :=
  exists k, lo <= k <= hi /\ mb_size q = 2 ^ k /\ (2 ^ k | value (mb_base q) - base).

Lemma split_all_spec lo fuel it :
  split_ok lo it -> mb_size (sp_memblock it) - sp_offset it < Z.of_nat fuel ->
  let m := sp_memblock it in
  exists pieces, split_all fuel it = Ok pieces /\
    tiles (value (mb_base m) + sp_offset it) pieces (mb_end m) /\
    Forall (piece_ok lo (sp_max_order it) (value (mb_base m))) pieces.
Proof.
  revert it. induction fuel as [|fuel IH]; intros it Hit Hf; [unfold split_ok in Hit; lia|].
  cbn zeta. cbn [split_all]. case_bool (sp_offset it <? mb_size (sp_memblock it)) E.
  - destruct (split_next_ok lo it Hit E) as (k & it' & Hk & Hd & -> & Hit' & ->). cbn [obind].
    pose proof (pow2_pos k ltac:(unfold split_ok in Hit; lia)) as Hpos.
    destruct (IH _ Hit') as (pieces & -> & Ht & HF); [cbn; lia|]. cbn [obind].
    eexists. split; [done|]. cbn in Ht, HF |- *. split.
    + split_and!; [done..|]. by rewrite <- Z.add_assoc.
    + constructor; [|done]. exists k. cbn. split_and!; [lia..|done|].
      by replace (value (mb_base (sp_memblock it)) + sp_offset it - value (mb_base (sp_memblock it)))
        with (sp_offset it) by lia.
  - unfold split_next. case_bool_lia. cbn [obind]. exists []. split; [done|]. cbn.
    destruct Hit as (_ & _ & _ & _ & Ho & _). split; [blk; lia|constructor].
Qed.

(** The fuel of a whole run is enough. *)
Lemma split_all_ends lo it :
  split_ok lo it ->
  let m := sp_memblock it in
  exists pieces, split_all (split_fuel it) it = Ok pieces /\
    tiles (value (mb_base m) + sp_offset it) pieces (mb_end m) /\
    Forall (piece_ok lo (sp_max_order it) (value (mb_base m))) pieces.
Proof.
  intros Hok. apply split_all_spec; [done|]. destruct Hok as (_ & _ & _ & _ & Ho & _).
  unfold split_fuel. lia.
Qed.

(** [aligned_split] rounds the base up and the size down to [2^lo]. *)
Lemma aligned_split_spec m lo hi :
  0 <= lo <= hi -> hi < 64 -> 0 <= value (mb_base m) -> 0 <= mb_size m ->
  value (mb_base m) + mb_size m + 2 ^ lo <= range_end UMASpace ->
  exists base, (2 ^ lo | base) /\ value (mb_base m) <= base < value (mb_base m) + 2 ^ lo /\
    let it := mkAlignedSplit (mkMemblock (mkAddr base) (mb_size m - mb_size m mod 2 ^ lo) (mb_typ m)) 0 hi in
    aligned_split m lo hi = Ok it /\ split_ok lo it.
Proof.
  intros Hlo Hhi Hb Hs Hmax. rewrite UMA_end in Hmax. pose proof (pow2_pos lo ltac:(lia)) as Hp.
  destruct (checked_next_multiple_of_ok (value (mb_base m)) (2 ^ lo)) as [base Eb]; [lia..|].
  destruct (checked_next_multiple_of_Some (value (mb_base m)) (2 ^ lo) base ltac:(lia) ltac:(lia) Eb) as [Hd Hbase].
  exists base. split; [done|]. split; [done|]. pose proof (Z.mod_pos_bound (mb_size m) (2 ^ lo) Hp) as Hmod.
  destruct (round_down_spec (mb_size m) (2 ^ lo) Hp) as [Hds _].
  pose proof (Z.mod_le (mb_size m) (2 ^ lo) Hs Hp) as Hle.
  cbn zeta. split; [|unfold split_ok; cbn; split_and!; [lia..|apply Z.divide_0_r|done]].
  unfold aligned_split. rewrite ushl_ok, Z.mul_1_l by lia. cbn [obind].
  unfold align_ceil. rewrite Eb. change (range_end UMASpace) with 70368744177664. case_bool_lia.
  cbn [mb_base mb_size mb_typ]. unfold byte_add; cbn [value]. rewrite uadd_ok by lia. cbn [obind].
  change (range_start UMASpace) with 0. replace (0 <=? base + mb_size m) with true by lia. cbn [obind].
  unfold align_floor; cbn [value]. rewrite urem_ok by lia. cbn [obind].
  assert (Em : (base + mb_size m) mod 2 ^ lo = mb_size m mod 2 ^ lo).
  { destruct Hd as [x ->]. by rewrite Z.add_comm, Z.mod_add by lia. }
  rewrite Em. rewrite usub_ok by lia. cbn [obind]. change (range_start UMASpace) with 0. case_bool_lia.
  rewrite base_sub_ok by (rewrite UMA_end; cbn; lia). cbn [obind value]. unfold try_usize.
  case_bool_lia.
  by replace (base + mb_size m - mb_size m mod 2 ^ lo - base) with (mb_size m - mb_size m mod 2 ^ lo) by lia.
Qed.

(** ** Initialisation *)

Definition in_area (a : MemoryArea) (x : Z) : Prop :=
  start_address a <= x < start_address a + area_size a.
(** The bytes an area contributes: available, and above the kernel. *)
Definition usable (kend : Addr UMASpace) (a : MemoryArea) (x : Z) : Prop :=
  typ a = Available /\ in_area a x /\ value kend <= x.
Definition area_ok (a : MemoryArea) : Prop :=
  0 <= start_address a < range_end UMASpace /\ 0 <= area_size a /\
  start_address a + area_size a <= range_end UMASpace.
(** Available areas do not overlap. *)
Definition areas_apart (a b : MemoryArea) : Prop :=
  typ a = Available -> typ b = Available -> forall x, in_area a x -> ~ in_area b x.

Lemma apart_of_disjoint b m :
  block_ok b -> block_ok m -> (forall x, mb_in b x -> ~ mb_in m x) -> apart b m.
Proof.
  intros Hb Hm Hx. specialize (Hx (Z.max (value (mb_base b)) (value (mb_base m)))). blk. lia.
Qed.

(** One turn of the loop either skips the area, which contributes nothing, or
    inserts its part above the kernel. *)
Lemma init_area_ok kend a :
  area_ok a -> 0 <= value kend ->
  (forall rest free mn mx, init_blocks kend (a :: rest) free mn mx = init_blocks kend rest free mn mx) /\
    (forall x, ~ usable kend a x) \/
  exists b, block_ok b /\ (forall x, mb_in b x <-> usable kend a x) /\
    forall rest free mn mx, init_blocks kend (a :: rest) free mn mx =
      let! ' (_, free) := memblocks_insert free b in
      init_blocks kend rest free (Z.min mn (value (mb_base b))) (Z.max mx (mb_end b)).
Proof.
  intros (Hs & Hz & He) Hk. cbn [init_blocks]. rewrite UMA_end in *. unfold Memblock_from, usable.
  rewrite Addr_new_ok by (rewrite UMA_start, UMA_end; lia). cbn [obind].
  set (t := match typ a with Available => Free | _ => Reserved end).
  assert (Ht : (t = Free /\ typ a = Available) \/ (t = Reserved /\ typ a <> Available)).
  { subst t. destruct (typ a); naive_solver. }
  cbn [mb_typ mb_base mb_size]. destruct Ht as [[-> Ht]|[-> Ht]]; cbn [decide].
  2:{ left. split; [|tauto]. intros. by rewrite decide_True. }
  unfold byte_add; cbn [value]. rewrite uadd_ok by lia. cbn [obind].
  change (range_start UMASpace) with 0. replace (0 <=? _) with true by lia. cbn [obind value].
  unfold in_area. case_bool (start_address a + area_size a <? value kend) E1.
  { left. split; [done|]. intros x (_ & ? & ?). lia. }
  case_bool (start_address a <? value kend) E2.
  - rewrite base_sub_ok by (rewrite UMA_end; cbn; lia). cbn [obind value]. unfold as_usize.
    rewrite Z.mod_small by lia. rewrite usub_ok by lia. cbn [obind mb_size mb_base].
    case_bool (area_size a - (value kend - start_address a) =? 0) E3.
    { left. split; [done|]. intros x (_ & ? & ?). lia. }
    right. exists (mkMemblock kend (area_size a - (value kend - start_address a)) Free). split; [|split].
    3:{ intros. rewrite uadd_ok by lia. cbn [obind]. replace (0 <=? _) with true by lia. reflexivity. }
    + blk. lia.
    + intros x. blk. naive_solver lia.
  - cbn [obind mb_size mb_base]. case_bool (area_size a =? 0) E3.
    { left. split; [done|]. intros x (_ & ? & ?). lia. }
    right. exists (mkMemblock (mkAddr (start_address a)) (area_size a) Free). split; [|split].
    3:{ intros. rewrite uadd_ok by (cbn; lia). cbn [obind value]. replace (0 <=? _) with true by lia. reflexivity. }
    + blk. lia.
    + intros x. blk. naive_solver lia.
Qed.

(** The extremes the loop has seen: they bound what was inserted, and are the
    initial values or the edges of what was inserted. *)
Definition hull (data : list Memblock) (mn mx mn' mx' : Z) : Prop :=
  mn' <= mn /\ mx <= mx' /\ (forall x, covered data x -> mn' <= x < mx') /\
  (mn' = mn \/ covered data mn') /\ (mx' = mx \/ covered data (mx' - 1)).

Lemma init_blocks_spec kend memory free mn mx :
  0 <= value kend -> Forall area_ok memory -> StronglySorted areas_apart memory ->
  blocks_ok free -> len free + len memory <= MEMBLOCKS_LEN ->
  (forall a x, a ∈ memory -> typ a = Available -> in_area a x -> ~ covered free x) ->
  exists free' mn' mx', init_blocks kend memory free mn mx = Ok (free', mn', mx') /\
    blocks_ok free' /\ len free' <= len free + len memory /\
    (forall x, covered free' x <-> covered free x \/ exists a, a ∈ memory /\ usable kend a x) /\
    (forall mn0 mx0, hull free mn0 mx0 mn mx -> hull free' mn0 mx0 mn' mx').
Proof.
  intros Hk. revert free mn mx. induction memory as [|a memory IH]; intros free mn mx Hok Hap Hfree Hlen Hdis.
  { exists free, mn, mx. split_and!; [done..|unfold len; cbn; lia| |done]. intros x. set_solver. }
  apply Forall_cons in Hok as [Ha Hok]. apply StronglySorted_cons in Hap as [Haa Hap].
  assert (Hl : len (a :: memory) = 1 + len memory) by (unfold len; cbn [length]; lia).
  pose proof (len_nonneg memory) as Hnn.
  destruct (init_area_ok kend a Ha Hk) as [[Hskip Hno]|(b & Hb & Hbx & Hins)].
  - rewrite Hskip. destruct (IH free mn mx Hok Hap Hfree) as (free' & mn' & mx' & E & H1 & H2 & H3 & H4);
      [lia|set_solver|]. exists free', mn', mx'. split_and!; [done..|lia| |done].
    intros x. rewrite H3. setoid_rewrite elem_of_cons. naive_solver.
  - assert (Hbapart : Forall (apart b) free).
    { apply Forall_forall. intros m Hm. apply apart_of_disjoint; [done|by eapply Forall_forall; [apply Hfree|]|].
      intros x (Ht & Hx & _)%Hbx Hmx. apply (Hdis a x); [set_solver|done..|by exists m]. }
    destruct (insert_spec free b Hfree Hb Hbapart) as (free1 & Ei & Hok1 & Hl1 & Hc1); [lia|].
    rewrite Hins, Ei. cbn [obind].
    destruct (IH free1 (Z.min mn (value (mb_base b))) (Z.max mx (mb_end b)) Hok Hap Hok1)
      as (free' & mn' & mx' & E & H1 & H2 & H3 & H4).
    { unfold len in *. lia. }
    { intros a' x Ha' Ht' Hx [Hx'|(Ht & Hx' & _)%Hbx]%Hc1; [by apply (Hdis a' x); [set_solver|..]|].
      eapply Forall_forall in Haa; [|exact Ha']. by apply (Haa Ht Ht' x). }
    exists free', mn', mx'. split; [done|]. split; [done|]. split; [unfold len in *; lia|]. split.
    + intros x. rewrite H3, Hc1, Hbx. setoid_rewrite elem_of_cons. naive_solver.
    + intros mn0 mx0 (G1 & G2 & G3 & G4 & G5). apply H4. unfold hull. setoid_rewrite Hc1.
      split; [lia|]. split; [lia|]. split; [intros x [Hx%G3|Hx]; blk; lia|].
      split; [destruct (Z.min_spec mn (value (mb_base b))) as [[_ ->]|[_ ->]]|
              destruct (Z.max_spec mx (mb_end b)) as [[_ ->]|[_ ->]]].
      * naive_solver.
      * right; right. blk. lia.
      * right; right. blk. lia.
      * naive_solver.
Qed.

(** Initialisation. *)
Lemma memblock_init_spec kend memory :
  0 <= value kend -> Forall area_ok memory -> StronglySorted areas_apart memory ->
  len memory <= MEMBLOCKS_LEN -> (exists a x, a ∈ memory /\ usable kend a x) ->
  exists s, memblock_init kend memory = Ok s /\ sys_ok s /\ reserved_blocks s = [] /\
    ms_offset s = 0 /\
    (forall x, covered (all_blocks s) x <-> exists a, a ∈ memory /\ usable kend a x) /\
    let lo := value (ar_base (managed_range s)) in
    let hi := lo + ar_size (managed_range s) in
    (forall x, covered (all_blocks s) x -> lo <= x < hi) /\
    covered (all_blocks s) lo /\ covered (all_blocks s) (hi - 1).
Proof.
  intros Hk Hok Hap Hlen (a0 & x0 & Ha0 & Hx0).
  destruct (init_blocks_spec kend memory [] 70368744177663 0 Hk Hok Hap) as
    (free & mn & mx & E & Hfree & Hl & Hc & Hh).
  { split; constructor. } { unfold len in *; cbn; lia. }
  { intros a x _ _ _ Hn. by apply covered_nil in Hn. }
  assert (Hc' : forall x, covered free x <-> exists a, a ∈ memory /\ usable kend a x).
  { intros x. rewrite Hc, covered_nil. tauto. }
  assert (Hx : covered free x0) by (apply Hc'; by exists a0).
  destruct (Hh 70368744177663 0) as (G1 & G2 & G3 & G4 & G5).
  { split_and!; [lia..|intros x Hn; by apply covered_nil in Hn|by left|by left]. }
  pose proof (G3 x0 Hx) as Hb. assert (Hpos : forall x, covered free x -> 0 <= x < 70368744177664).
  { intros x (m & Hm & Hmx). eapply Forall_forall in Hm; [|apply Hfree]. blk. lia. }
  assert (Hmn : covered free mn) by (destruct G4 as [->|?]; [|done]; replace 70368744177663 with x0; [done|]; specialize (Hpos x0 Hx); lia).
  assert (Hmx : covered free (mx - 1)) by (destruct G5 as [->|?]; [specialize (Hpos x0 Hx); lia|done]).
  assert (Hpm := Hpos mn Hmn). assert (Hpx := Hpos (mx - 1) Hmx).
  unfold memblock_init. change (range_end UMASpace - 1) with 70368744177663. change (range_start UMASpace) with 0.
  cbn [Addr_new in_space]. rewrite !Addr_new_ok by (rewrite UMA_start, UMA_end; lia). cbn [obind value].
  rewrite E. cbn [obind]. case_bool_lia. destruct free as [|p free _] using rev_ind; [by apply covered_nil in Hx|].
  rewrite pop_snoc, base_sub_ok by (rewrite UMA_end; cbn; lia). cbn [obind value]. unfold as_usize.
  rewrite Z.mod_small by lia. eexists. split; [done|].
  unfold all_blocks; cbn [free_blocks partial_block reserved_blocks ms_offset managed_range ar_base ar_size value].
  change (option_list (Some p)) with [p]. rewrite app_nil_r.
  split; [|split_and!; [done..|by replace (mn + (mx - mn)) with mx by lia|done|by replace (mn + (mx - mn)) with mx by lia]].
  split; unfold all_blocks; cbn; [done| |done| |done].
  - unfold len in *. cbn in Hl. lia.
  - intros p' [= <-]. apply blocks_ok_mid in Hfree as (_ & Hp & _). blk. lia.
Qed.

(** ** The theorems *)

(** C13: inserting a block that overlaps none of the array's blocks never panics
    and succeeds: the array stays sorted with gaps (touching neighbours are
    merged) and covers exactly the old addresses and those of the block. *)
Theorem memblocks_insert_correct data b :
  blocks_ok data -> block_ok b -> Forall (apart b) data -> len data < MEMBLOCKS_LEN ->
  exists data', memblocks_insert data b = Ok (true, data') /\
    blocks_ok data' /\ (length data' <= length data + 1)%nat /\
    forall x, covered data' x <-> covered data x \/ mb_in b x.
Proof. apply insert_spec. Qed.

(** C12: on a memory map of at most 128 areas inside the physical address space
    whose available areas do not overlap, with some available byte above the
    kernel, initialisation returns a system in good order whose blocks are
    exactly the available bytes above the kernel, and whose managed range is the
    smallest range around them. *)
Theorem memblock_init_correct kend memory :
  0 <= value kend -> Forall area_ok memory -> StronglySorted areas_apart memory ->
  len memory <= MEMBLOCKS_LEN -> (exists a x, a ∈ memory /\ usable kend a x) ->
  exists s, memblock_init kend memory = Ok s /\ sys_ok s /\ reserved_blocks s = [] /\
    ms_offset s = 0 /\
    (forall x, covered (all_blocks s) x <-> exists a, a ∈ memory /\ usable kend a x) /\
    let lo := value (ar_base (managed_range s)) in
    let hi := lo + ar_size (managed_range s) in
    (forall x, covered (all_blocks s) x -> lo <= x < hi) /\
    covered (all_blocks s) lo /\ covered (all_blocks s) (hi - 1).
Proof. apply memblock_init_spec. Qed.

(** The address [reserve] returns is an offset into the current block: when
    the block lies above its own size, as every block above the kernel and
    smaller than its base does, the address is not one of the block's. *)
Lemma reserved_offset s l a s' p :
  sys_ok s -> reserved_from s l (Some a) s' -> 0 < layout_size l -> partial_block s' = Some p ->
  0 <= value a /\ value a + layout_size l <= mb_size p /\ (mb_size p <= value (mb_base p) -> ~ mb_in p (value a)).
Proof.
  intros Hs (_ & Hs' & _ & q & Hq & _ & Ho & Hcase) Hpos Hp. rewrite Hp in Hq. injection Hq as <-.
  pose proof (so_offset s' Hs' p Hp) as Hoff. assert (Ha : 0 <= value a).
  { destruct Hcase as [(Hp0 & _ & Hb)|(q & sk & _ & _ & _ & _ & ->)]; [|lia].
    pose proof (so_offset s Hs p Hp0). lia. }
  blk. lia.
Qed.

(** C14: [reserve] always returns.  It finds the first aligned place of the first
    block with room, the current one first and then the free ones from the
    highest down, or returns [None] when no block has room; the blocks are never lost,
    changed or reordered, and later reservations in the block start behind this one.  What it
    returns is the offset of the place in its block, taken as an address: it is not an
    address of a block that lies above its own size, and each block starts again at address 0. *)
Theorem memblock_reserve_correct s l :
  sys_ok s -> layout_valid l -> 0 < layout_size l ->
  exists r s', memblock_reserve s l = Ok (r, s') /\ reserved_from s l r s' /\
    forall a p, r = Some a -> partial_block s' = Some p ->
      0 <= value a /\ value a + layout_size l <= mb_size p /\ (mb_size p <= value (mb_base p) -> ~ mb_in p (value a)).
Proof.
  intros Hs Hl Hpos. destruct (reserve_loop_spec l _ s Hl Hpos Hs (le_n _)) as (r & s' & E & Hr). exists r, s'.
  split; [exact E|]. split; [exact Hr|]. intros a p ->. by apply (reserved_offset s).
Qed.

(** C15: freezing a system always returns.  The used part of the current block becomes
    one more reserved block, and the rest one more free block; no block is current any more.
    The arrays cover what they did and these parts.  When nothing of the block is used, which the code
    has a branch for, an empty block joins the reserved array, and when all of it is used one
    joins the free array; the array that gets a part which is not empty stays in order.
    The system does not record that it is frozen, and freezing it again changes nothing. *)
Theorem freeze_correct s p :
  sys_ok s -> partial_block s = Some p ->
  exists s', freeze s = Ok s' /\ partial_block s' = None /\
    free_blocks s' = free_blocks s ++ [free_part s p] /\ reserved_blocks s' = taken_part s p :: reserved_blocks s /\
    (forall x, covered (free_blocks s') x <->
       covered (free_blocks s) x \/ value (mb_base p) + ms_offset s <= x < mb_end p) /\
    (forall x, covered (reserved_blocks s') x <->
       covered (reserved_blocks s) x \/ value (mb_base p) <= x < value (mb_base p) + ms_offset s) /\
    (if ms_offset s =? mb_size p then mb_size (free_part s p) = 0 else blocks_ok (free_blocks s')) /\
    (if ms_offset s =? 0 then mb_size (taken_part s p) = 0 else blocks_ok (reserved_blocks s')) /\
    is_frozen s' = false /\ freeze s' = Ok s'.
Proof.
  intros Hs Hp. destruct (freeze_parts_ok s p Hs Hp) as [B1 B2]. pose proof (so_offset s Hs p Hp) as Hoff.
  eexists. split; [exact (freeze_eq s p Hs Hp)|]. cbn [free_blocks reserved_blocks partial_block is_frozen]. split_and!; try done.
  - intros x. rewrite covered_mid, app_nil_r. unfold free_part. blk. intuition lia.
  - intros x. rewrite covered_cons. unfold taken_part. blk. intuition lia.
  - destruct (Z.eqb_spec (ms_offset s) (mb_size p)); [cbn; lia|]. apply B1. lia.
  - destruct (Z.eqb_spec (ms_offset s) 0); [cbn; lia|]. apply B2. lia.
Qed.

(** C16: splitting a block between two orders never panics and ends: the pieces
    follow each other without gap from the base rounded up, over the size
    rounded down, and each is a power of two between the orders at a multiple
    of its size from that base. *)
Theorem aligned_split_correct m lo hi :
  0 <= lo <= hi -> hi < 64 -> 0 <= value (mb_base m) -> 0 <= mb_size m ->
  value (mb_base m) + mb_size m + 2 ^ lo <= range_end UMASpace ->
  exists it pieces base, aligned_split m lo hi = Ok it /\
    split_all (split_fuel it) it = Ok pieces /\
    (2 ^ lo | base) /\ value (mb_base m) <= base < value (mb_base m) + 2 ^ lo /\
    tiles base pieces (base + (mb_size m - mb_size m mod 2 ^ lo)) /\
    Forall (piece_ok lo hi base) pieces.
Proof.
  intros Hlo Hhi Hb Hs Hmax.
  destruct (aligned_split_spec m lo hi Hlo Hhi Hb Hs Hmax) as (base & Hd & Hbase & E & Hok).
  eexists. destruct (split_all_ends lo _ Hok) as (pieces & Ep & Ht & HF).
  exists pieces, base. cbn in Ht, HF. rewrite Z.add_0_r in Ht. split; [exact E|]. split; [exact Ep|].
  split; [done|]. split; [done|]. split; [exact Ht|done].
Qed.

(** A block of a whole number of smallest pieces whose base is not aligned is
    split beyond its end: the pieces cover the first address after it. *)
Theorem aligned_split_overrun m lo hi :
  0 <= lo <= hi -> hi < 64 -> 0 <= value (mb_base m) -> 0 < mb_size m ->
  value (mb_base m) + mb_size m + 2 ^ lo <= range_end UMASpace ->
  (2 ^ lo | mb_size m) -> value (mb_base m) mod 2 ^ lo <> 0 ->
  exists it pieces, aligned_split m lo hi = Ok it /\
    split_all (split_fuel it) it = Ok pieces /\ covered pieces (mb_end m).
Proof.
  intros Hlo Hhi Hb Hs Hmax Hds Hmis. pose proof (pow2_pos lo ltac:(lia)) as Hp.
  destruct (aligned_split_spec m lo hi Hlo Hhi Hb ltac:(lia) Hmax) as (base & Hd & Hbase & E & Hok).
  eexists. destruct (split_all_ends lo _ Hok) as (pieces & Ep & Ht & HF).
  exists pieces. split; [done|]. split; [exact Ep|]. apply (tiles_covered _ _ _ _ Ht).
  pose proof (Z.divide_pos_le _ _ Hs Hds) as Hle.
  apply (Z.mod_divide (mb_size m) (2 ^ lo) ltac:(lia)) in Hds. cbn. rewrite Hds. blk.
  assert (base <> value (mb_base m)); [intros Eb|lia].
  apply Hmis. rewrite <- Eb. by apply Z.mod_divide; [lia|].
Qed.

(** The pieces are aligned to the block's base only: a block at [0x3000] gives a
    piece of two pages at an odd page. *)
Lemma aligned_split_misaligned :
  exists it, aligned_split (mkMemblock (mkAddr 0x3000) 0x2000 Free) 12 18 = Ok it /\
    split_all (split_fuel it) it = Ok [mkMemblock (mkAddr 0x3000) 0x2000 Free].
Proof. eexists. split; [vm_compute; reflexivity|vm_compute; reflexivity]. Qed.

(** ** Witnesses *)

Definition demo_low : Memblock := mkMemblock (mkAddr 0x200000) 0x100000 Free.
Definition demo_high : Memblock := mkMemblock (mkAddr 0x800000) 0x300000 Free.
Definition demo_block : Memblock := mkMemblock (mkAddr 0x300000) 0x100000 Free.
Definition demo_system : MemblockSystem :=
  mkMemblockSystem [demo_low] [] (Some demo_high) 0x1000
    (mkAddrRange (mkAddr 0x200000) 0x900000) false.
Definition demo_map : list MemoryArea :=
  [mkMemoryArea 0 0x9fc00 Available; mkMemoryArea 0xf0000 0x10000 AreaReserved;
   mkMemoryArea 0x100000 0x7ee0000 Available].

Lemma demo_system_ok : sys_ok demo_system.
Proof.
  split.
  - split; repeat constructor; vm_compute; congruence.
  - vm_compute. congruence.
  - done.
  - intros p [= <-]. vm_compute. split; congruence.
  - done.
Qed.

Lemma demo_layout_ok : layout_valid (mkLayout 0x3000 0x2000).
Proof. vm_compute. repeat split; congruence. Qed.

Lemma memblocks_insert_correct_witness :
  exists data', memblocks_insert [demo_low; demo_high] demo_block = Ok (true, data') /\
    blocks_ok data' /\ (length data' <= 2 + 1)%nat /\
    forall x, covered data' x <-> covered [demo_low; demo_high] x \/ mb_in demo_block x.
Proof.
  apply (memblocks_insert_correct [demo_low; demo_high] demo_block).
  - split; repeat constructor; vm_compute; congruence.
  - vm_compute. repeat split; congruence.
  - apply Forall_cons. split; [right; vm_compute; congruence|].
    apply Forall_cons. split; [left; vm_compute; congruence|constructor].
  - vm_compute. reflexivity.
Defined.

Lemma memblock_init_correct_witness :
  exists s, memblock_init (mkAddr 0x400000) demo_map = Ok s /\ sys_ok s /\ reserved_blocks s = [] /\
    ms_offset s = 0 /\
    (forall x, covered (all_blocks s) x <-> exists a, a ∈ demo_map /\ usable (mkAddr 0x400000) a x) /\
    let lo := value (ar_base (managed_range s)) in
    let hi := lo + ar_size (managed_range s) in
    (forall x, covered (all_blocks s) x -> lo <= x < hi) /\
    covered (all_blocks s) lo /\ covered (all_blocks s) (hi - 1).
Proof.
  apply (memblock_init_correct (mkAddr 0x400000) demo_map).
  - vm_compute. congruence.
  - repeat constructor; vm_compute; congruence.
  - repeat constructor; unfold areas_apart, in_area; cbn; intros; lia || congruence.
  - vm_compute. congruence.
  - exists (mkMemoryArea 0x100000 0x7ee0000 Available), 0x400000.
    split; [by right; right; left|]. unfold usable, in_area; cbn. split; [done|lia].
Defined.

Lemma memblock_reserve_correct_witness :
  exists a s', memblock_reserve demo_system (mkLayout 0x3000 0x2000) = Ok (Some a, s') /\
    reserved_from demo_system (mkLayout 0x3000 0x2000) (Some a) s' /\ value a = 0x2000 /\ ~ mb_in demo_high (value a).
Proof.
  destruct (memblock_reserve_correct demo_system (mkLayout 0x3000 0x2000) demo_system_ok demo_layout_ok eq_refl) as (r & s' & E & Hr & Hx).
  assert (Er : memblock_reserve demo_system (mkLayout 0x3000 0x2000) =
    Ok (Some (mkAddr 0x2000), mkMemblockSystem [demo_low] [] (Some demo_high) 0x5000 (mkAddrRange (mkAddr 0x200000) 0x900000) false)) by reflexivity.
  rewrite Er in E. injection E as <- <-. eexists _, _. split; [exact Er|]. split; [exact Hr|]. split; [reflexivity|].
  apply (Hx _ demo_high eq_refl eq_refl). vm_compute. congruence.
Defined.

Lemma freeze_correct_witness :
  exists s', freeze demo_system = Ok s' /\ partial_block s' = None /\
    blocks_ok (free_blocks s') /\ blocks_ok (reserved_blocks s') /\
    (forall x, covered (free_blocks s') x <-> covered [demo_low] x \/ 0x800000 + 0x1000 <= x < mb_end demo_high) /\
    (forall x, covered (reserved_blocks s') x <-> covered [] x \/ 0x800000 <= x < 0x800000 + 0x1000).
Proof.
  destruct (freeze_correct demo_system demo_high demo_system_ok eq_refl) as (s' & E & H1 & _ & _ & H2 & H3 & H4 & H5 & _).
  exists s'. split; [exact E|]. split; [exact H1|]. split; [exact H4|]. split; [exact H5|]. split; [exact H2|exact H3].
Defined.

(** A block of which nothing was used leaves an empty reserved block. *)
Lemma freeze_unused_empty :
  exists s', freeze (mkMemblockSystem [demo_low] [] (Some demo_high) 0 (mkAddrRange (mkAddr 0x200000) 0x900000) false) = Ok s' /\
    reserved_blocks s' = [mkMemblock (mkAddr 0x800000) 0 Reserved].
Proof. eexists. split; vm_compute; reflexivity. Qed.

Lemma aligned_split_correct_witness :
  exists it pieces base, aligned_split demo_low 12 18 = Ok it /\
    split_all (split_fuel it) it = Ok pieces /\
    (2 ^ 12 | base) /\ value (mb_base demo_low) <= base < value (mb_base demo_low) + 2 ^ 12 /\
    tiles base pieces (base + (mb_size demo_low - mb_size demo_low mod 2 ^ 12)) /\
    Forall (piece_ok 12 18 base) pieces.
Proof. apply (aligned_split_correct demo_low 12 18); vm_compute; repeat split; congruence. Defined.

Lemma aligned_split_overrun_witness :
  exists it pieces, aligned_split (mkMemblock (mkAddr 0x1800) 0x3000 Free) 12 18 = Ok it /\
    split_all (split_fuel it) it = Ok pieces /\ covered pieces 0x4800.
Proof.
  apply (aligned_split_overrun (mkMemblock (mkAddr 0x1800) 0x3000 Free) 12 18).
  6: by exists 3.
  all: vm_compute; repeat split; congruence.
Defined.
