(* ===== verification/Phy.v ===== *)
(** * Physical memory management

    [src/src/mem/phy.rs] and the [Allocator] trait of [src/src/mem/addr.rs]: the
    record of physical frames over the buddy system, its hand-over from the boot
    memory manager, and the allocators built on both. *)

From S2P Require Import Prelude Addr Buddy Memblock.

(** ** The allocator interface *)

(** [trait Allocator<S>], over the state [St] that an implementation keeps. *)
Class Allocator (S St : Type) := {
  allocate : Layout -> St -> outcome (option (AddrRange S) * St);
  deallocate : Addr S -> Layout -> St -> outcome St
}.

(** ** The boot memory manager

    [BootMemoryManager] wraps the memblock system; none of its borrows overlap,
    so [try_borrow_mut] succeeds. *)

Definition boot_allocate (layout : Layout) (s : MemblockSystem)
    : outcome (option (AddrRange UMASpace) * MemblockSystem) :=
  let! ' (r, s) := memblock_reserve s layout in
  Ok (match r with
      | None => None
      | Some base => Some (mkAddrRange base (layout_size layout))
      end, s).

#[export] Instance BootMemoryManager : Allocator UMASpace MemblockSystem := {
  allocate := boot_allocate;
  deallocate _ _ _ := Panic (* unimplemented!() *)
}.

(** [core::alloc::Allocator for BootMemoryManager]: the pointer, in the remap. *)
Definition boot_allocate_ptr (layout : Layout) (s : MemblockSystem)
    : outcome (option Z * MemblockSystem) :=
  let! ' (r, s) := memblock_reserve s layout in
  match r with
  | None => Ok (None, s)
  | Some paddr => let! vaddr := p2v paddr in Ok (Some (value vaddr), s)
  end.

(** ** The memory behind the pointers of the boot allocator

    [core::alloc::Allocator] is an unsafe trait: a block that it returns has to be
    memory that nothing else uses.  The boot memory manager returns an offset into
    its block, taken as a physical address (the [reserve] of the memblock system),
    so this depends on what the machine has at the low addresses. *)

(** What the machine has: the ranges of physical memory, first byte and end, that are
    plain memory and in no other use, and what the bytes hold at first. *)
Record Ram := mkRam { plain : list (Z * Z); ram_byte : Z -> Z }.

(** The [n] bytes at [a] are taken from the ranges; [None] when they are not all
    there. *)
Fixpoint claim (l : list (Z * Z)) (a n : Z) : option (list (Z * Z)) :=
  match l with
  | [] => None
  | (lo, hi) :: rest =>
      if (lo <=? a) && (a + n <=? hi) then Some ((lo, a) :: (a + n, hi) :: rest)
      else match claim rest a n with
           | None => None
           | Some rest => Some ((lo, hi) :: rest)
           end
  end.

(** The boot allocator for a caller that makes a reference to what it gets.  A block
    that is not plain memory, or is already in use, breaks the contract: what follows
    is undefined, and stands as [Panic]. *)
Definition boot_take (layout : Layout) (st : MemblockSystem * list (Z * Z))
    : outcome (option Z * (MemblockSystem * list (Z * Z))) :=
  let (s, l) := st in
  let! ' (r, s) := boot_allocate_ptr layout s in
  match r with
  | None => Ok (None, (s, l))
  | Some ptr => let! l := oexpect (claim l (ptr - REMAP_OFFSET) (layout_size layout)) in Ok (Some ptr, (s, l))
  end.

(** ** The record of frames *)

(** [Flag] has no flags; its byte is never read. *)
Record Frame := mkFrame { frame_order : Z; frame_flag : Z }.

Definition FRAME_ORDER : Z := PageSize_order PageSize_MIN.
Definition FRAME_SIZE : Z := PageSize_usize PageSize_MIN.

(** [frames] is a borrowed slice: the address it starts at and its items. *)
Record PhysicalMemoryRecord := mkPhysicalMemoryRecord {
  frames_ptr : Z;
  frames : list Frame;
  pm_base : PageAddr UMASpace;
  buddy : BuddySystem
}.

(** The inner loop of [PhysicalMemoryRecord::new] over the pieces of a block. *)
Fixpoint free_pieces (base : Addr UMASpace) (pieces : list Memblock) (b : BuddySystem)
    : outcome BuddySystem :=
  match pieces with
  | [] => Ok b
  | aligned :: rest =>
      let! ok := is_aligned_to (mb_base aligned) FRAME_SIZE in
      check! ok in
      let! d := addr_sub (mb_base aligned) base in
      let idx := as_usize d / FRAME_SIZE in
      let block_order := as_u8 (trailing_zeros (mb_size aligned)) in
      let! order := usub 8 block_order FRAME_ORDER in
      let! b := free_forced b idx order in
      free_pieces base rest b
  end.

Fixpoint free_memblocks (base : Addr UMASpace) (blocks : list Memblock) (b : BuddySystem)
    : outcome BuddySystem :=
  match blocks with
  | [] => Ok b
  | free_block :: rest =>
      let! max := uadd 8 BUDDY_MAX_ORDER FRAME_ORDER in
      let! it := aligned_split free_block FRAME_ORDER max in
      let! pieces := split_all (split_fuel it) it in
      let! b := free_pieces base pieces b in
      free_memblocks base rest b
  end.

(** The slice of [n] frames at [ptr], of memory that nothing was written to yet.  A
    [Frame] is two bytes wide. *)
Definition frame_slice (ram : Ram) (ptr n : Z) : list Frame :=
  (fun i => let a := ptr - REMAP_OFFSET + 2 * Z.of_nat i in mkFrame (ram_byte ram a) (ram_byte ram (a + 1)))
    <$> seq 0 (Z.to_nat n).

(** [PhysicalMemoryRecord::new] *)
Definition record_new (bmm : MemblockSystem) (ram : Ram)
    : outcome (PhysicalMemoryRecord * MemblockSystem) :=
  let! managed_pages := overlapped_pages (managed_range bmm) Small in
  let! frames_layout := oexpect (layout_array 2 1 (pr_len managed_pages)) in
  let! ' (p, st) := boot_take frames_layout (bmm, plain ram) in
  let! frames_ptr := oexpect p in
  let frames := frame_slice ram frames_ptr (pr_len managed_pages) in
  let base := pr_base managed_pages in
  let! ' (r, (bmm, _)) := buddy_new (len frames) boot_take st in
  let! b := oexpect r in
  let! bmm := freeze bmm in
  let! b := free_memblocks (page_base base) (free_blocks bmm) b in
  Ok (mkPhysicalMemoryRecord frames_ptr frames base b, bmm).

Definition frame_idx (r : PhysicalMemoryRecord) (addr : Addr UMASpace) : outcome (option Z) :=
  let! d := addr_sub addr (page_base (pm_base r)) in
  match try_usize d with
  | None => Ok None
  | Some byte_offset =>
      let! idx := ushr 64 byte_offset FRAME_ORDER in
      Ok (if idx <? len (frames r) then Some idx else None)
  end.

(** [self.frames[idx].order = order] *)
Definition set_frame_order (fs : list Frame) (i order : Z) : outcome (list Frame) :=
  let! f := slice_get fs i in slice_set fs i (mkFrame order (frame_flag f)).

Definition allocate_pages (r : PhysicalMemoryRecord) (cnt : Z) (ps : PageSize)
    : outcome (option (PageRange UMASpace) * PhysicalMemoryRecord) :=
  let! frame_cnt := umul 64 cnt (PageSize_usize ps / FRAME_SIZE) in
  let! allocate_cnt := next_power_of_two frame_cnt in
  let! l := ilog2 allocate_cnt in
  let order := as_u8 l in
  if max_order (buddy r) <? order then Ok (None, r)
  else
    let! ' (o, b) := reserve (buddy r) order in
    match o with
    | None => Ok (None, mkPhysicalMemoryRecord (frames_ptr r) (frames r) (pm_base r) b)
    | Some frame_idx =>
        let! fs := set_frame_order (frames r) frame_idx order in
        let! p := checked_page_add (pm_base r) frame_idx in
        let! base := oexpect p in
        let! base := PageAddr_new (page_base base) ps in
        let! s := usub 8 (PageSize_order ps) FRAME_ORDER in
        let! n := ushr 64 allocate_cnt s in
        Ok (Some (mkPageRange base n), mkPhysicalMemoryRecord (frames_ptr r) fs (pm_base r) b)
    end.

Definition deallocate_pages (r : PhysicalMemoryRecord) (pages : PageRange UMASpace)
    : outcome PhysicalMemoryRecord :=
  let! o := frame_idx r (page_base (pr_base pages)) in
  let! frame_idx := oexpect o in
  let! f := slice_get (frames r) frame_idx in
  let! b := free (buddy r) frame_idx (frame_order f) in
  let! fs := set_frame_order (frames r) frame_idx 0 in
  Ok (mkPhysicalMemoryRecord (frames_ptr r) fs (pm_base r) b).

(** ** The physical memory manager

    [PMM], a [Once]: absent until [phy::init] has run.  Access before that panics
    ([expect], and [get_unchecked] in the [dev] profile). *)

Definition PMM := option PhysicalMemoryRecord.

Definition phy_init (bmm : MemblockSystem) (ram : Ram) (pmm : PMM)
    : outcome (PMM * MemblockSystem) :=
  match pmm with
  | Some _ => Ok (pmm, bmm)
  | None => let! ' (r, bmm) := record_new bmm ram in Ok (Some r, bmm)
  end.

Definition pmm_allocate_pages (cnt : Z) (ps : PageSize) (pmm : PMM)
    : outcome (option (PageRange UMASpace) * PMM) :=
  let! r := oexpect pmm in
  let! ' (o, r) := allocate_pages r cnt ps in Ok (o, Some r).

Definition pmm_deallocate_pages (pages : PageRange UMASpace) (pmm : PMM) : outcome PMM :=
  let! r := oexpect pmm in
  let! r := deallocate_pages r pages in Ok (Some r).

Definition pmm_allocate (layout : Layout) (pmm : PMM)
    : outcome (option (AddrRange UMASpace) * PMM) :=
  let! _ := oexpect pmm in
  match PageSize_fit layout with
  | None => Ok (None, pmm)
  | Some page =>
      let! ' (o, pmm) := pmm_allocate_pages 1 page pmm in
      match o with
      | None => Ok (None, pmm)
      | Some r => let! a := PageRange_into r in Ok (Some a, pmm)
      end
  end.

Definition pmm_deallocate (addr : Addr UMASpace) (layout : Layout) (pmm : PMM) : outcome PMM :=
  let! _ := oexpect pmm in
  let! page := oexpect (PageSize_fit layout) in
  let! base := PageAddr_new addr page in
  pmm_deallocate_pages (mkPageRange base 1) pmm.

#[export] Instance PhysicalMemoryManager : Allocator UMASpace PMM := {
  allocate := pmm_allocate;
  deallocate := pmm_deallocate
}.
