(* ===== verification/PhyTheorems.v ===== *)
(** * Physical memory management: theorems

    Page allocation over a well-formed record: what [allocate_pages] and
    [deallocate_pages] do on every branch, and the hand-over of the boot memory
    manager's free blocks to the buddy system. *)

From S2P Require Import Prelude Addr ArrayForest Buddy BuddyTree BuddyMap BuddySpec BuddyOps BuddyInit.
From S2P Require Import BuddyTheorems Memblock MemblockTheorems Phy.

(** ** Well-formed records *)

Record record_ok (r : PhysicalMemoryRecord) : Prop := {
  ro_buddy : buddy_wf (buddy r);
  ro_small : page_size (pm_base r) = Small;
  ro_base : 0 <= value (page_base (pm_base r));
  ro_end : value (page_base (pm_base r)) + len (frames r) * FRAME_SIZE <= range_end UMASpace;
  ro_cap : len (frames r) <= capacity (buddy r);
  ro_free : forall f, 0 <= f < capacity (buddy r) ->
              frame_free (buddy r) f = true -> f < len (frames r)
}.

(** The pages are the block [i] of order [k], with the order on record. *)
Record holds (r : PhysicalMemoryRecord) (pages : PageRange UMASpace) (i k : Z) : Prop := {
  ho_addr : value (page_base (pr_base pages)) = value (page_base (pm_base r)) + i * FRAME_SIZE;
  ho_size : pr_len pages * PageSize_usize (page_size (pr_base pages)) = 2 ^ k * FRAME_SIZE;
  ho_live : live_block (buddy r) i k;
  ho_in : i + 2 ^ k <= len (frames r);
  ho_order : exists f, frames r !! Z.to_nat i = Some f /\ frame_order f = k
}.

(** The records of all frames but [i] are the same. *)
Definition same_frames_but (fs fs' : list Frame) (i : Z) : Prop :=
  length fs' = length fs /\ forall j, j <> Z.to_nat i -> fs' !! j = fs !! j.

Lemma FRAME_SIZE_eq : FRAME_SIZE = 4096.
Proof. reflexivity. Qed.

Lemma set_frame_order_ok fs i k :
  0 <= i < len fs ->
  exists fs' f, set_frame_order fs i k = Ok fs' /\ same_frames_but fs fs' i /\
    fs' !! Z.to_nat i = Some f /\ frame_order f = k.
Proof.
  intros Hi. destruct (slice_get_in_range fs i Hi) as (f & Ef & _).
  unfold set_frame_order. rewrite Ef. cbn [obind]. rewrite slice_set_ok by done.
  eexists _, _. split; [done|]. split; [split|split].
  - by rewrite length_insert.
  - intros j Hj. by apply list_lookup_insert_ne.
  - apply list_lookup_insert_eq. unfold len in Hi. lia.
  - done.
Qed.

(** The number of frames asked for, as a power of two. *)
Lemma frame_count_ok cnt ps :
  1 <= cnt -> cnt * (PageSize_usize ps / FRAME_SIZE) <= 2 ^ 63 ->
  exists k, k = Z.log2_up (cnt * (PageSize_usize ps / FRAME_SIZE)) /\
    PageSize_order ps - FRAME_ORDER <= k <= 63 /\
    cnt <= 2 ^ (k - (PageSize_order ps - FRAME_ORDER)) /\
    umul 64 cnt (PageSize_usize ps / FRAME_SIZE) = Ok (cnt * (PageSize_usize ps / FRAME_SIZE)) /\
    next_power_of_two (cnt * (PageSize_usize ps / FRAME_SIZE)) = Ok (2 ^ k).
Proof.
  intros Hcnt Hmax.
  assert (Hs : exists s, PageSize_order ps - FRAME_ORDER = s /\ 0 <= s <= 18 /\
                 PageSize_usize ps / FRAME_SIZE = 2 ^ s).
  { exists (PageSize_order ps - FRAME_ORDER). destruct ps; vm_compute; repeat split; congruence. }
  destruct Hs as (s & -> & Hs & Es). rewrite Es in *. pose proof (pow2_pos s ltac:(lia)) as Hp.
  set (n := cnt * 2 ^ s) in *. assert (Hn : 2 ^ s <= n) by (unfold n; nia).
  exists (Z.log2_up n).
  assert (Hlog : s <= Z.log2_up n <= 63).
  { split.
    - rewrite <- (Z.log2_up_pow2 s) by lia. by apply Z.log2_up_le_mono.
    - rewrite <- (Z.log2_up_pow2 63) by lia. apply Z.log2_up_le_mono; lia. }
  assert (Hle : n <= 2 ^ Z.log2_up n).
  { destruct (Z.eq_dec n 1) as [->|]; [done|]. apply Z.log2_up_spec. lia. }
  split; [done|]. split; [done|]. split.
  { apply (Z.mul_le_mono_pos_r cnt _ (2 ^ s) Hp). by rewrite <- pow2_split by lia. }
  split; [apply umul_ok; lia|]. unfold next_power_of_two. case_bool (n <=? 1) E.
  - assert (n = 1) as -> by lia. done.
  - replace (Z.log2 (n - 1) + 1) with (Z.log2_up n) by (rewrite Z.log2_up_eqn, <- Z.sub_1_r by lia; lia).
    apply chk_ok. pose proof (pow2_le (Z.log2_up n) 63 ltac:(lia)). lia.
Qed.


(** ** Allocation *)

Lemma chunk_aligned ps base i k :
  PageSize_order ps - FRAME_ORDER <= k -> (PageSize_usize ps | base) -> (2 ^ k | i) ->
  (PageSize_usize ps | base + i * FRAME_SIZE).
Proof.
  intros Hk Hb Hi. apply Z.divide_add_r; [done|].
  replace (PageSize_usize ps) with (2 ^ (PageSize_order ps - FRAME_ORDER) * FRAME_SIZE)
    by by destruct ps. apply Z.mul_divide_mono_r. etransitivity; [|exact Hi].
  apply pow2_divide. destruct ps; vm_compute in Hk |- *; split; congruence.
Qed.

(** A reserved block is inside the frames on record. *)
Lemma reserved_in r b' i k :
  record_ok r -> reserved (buddy r) b' i k -> 0 <= i /\ i + 2 ^ k <= len (frames r).
Proof.
  intros Hr Hres. destruct (rs_block _ _ _ _ Hres) as (Hk & Hi & _ & Hcap). split; [done|].
  pose proof (pow2_pos k ltac:(lia)). assert (Hlast : in_block i k (i + 2 ^ k - 1) = true) by (unfold in_block; lia).
  pose proof (ro_free r Hr (i + 2 ^ k - 1) ltac:(lia) (rs_was_free _ _ _ _ Hres _ Hlast)). lia.
Qed.

Lemma record_ok_reserved r b' fs' i k :
  record_ok r -> reserved (buddy r) b' i k -> length fs' = length (frames r) ->
  record_ok (mkPhysicalMemoryRecord (frames_ptr r) fs' (pm_base r) b').
Proof.
  intros Hr Hres Hl. destruct Hr as [H1 H2 H3 H4 H5 H6]. split; cbn; try done.
  - by apply (rs_wf _ _ _ _ Hres).
  - unfold len in *. by rewrite Hl.
  - unfold len in *. by rewrite Hl, (rs_cap _ _ _ _ Hres).
  - unfold len in *. rewrite Hl, (rs_cap _ _ _ _ Hres). intros f Hf.
    rewrite (rs_free _ _ _ _ Hres) by done. intros [Hff _]%andb_true_iff. by apply H6.
Qed.

(** The outcome of an allocation that finds the block [i] of order [k]. *)
Record granted (r r' : PhysicalMemoryRecord) (cnt : Z) (ps : PageSize)
    (pages : PageRange UMASpace) (i k : Z) : Prop := {
  gr_ok : record_ok r';
  gr_base : pm_base r' = pm_base r;
  gr_holds : holds r' pages i k;
  gr_size : page_size (pr_base pages) = ps;
  gr_aligned : (PageSize_usize ps | value (page_base (pr_base pages)));
  gr_cnt : cnt <= pr_len pages;
  gr_reserved : reserved (buddy r) (buddy r') i k;
  gr_frames : same_frames_but (frames r) (frames r') i
}.

Lemma as_u8_small x : 0 <= x < 256 -> as_u8 x = x.
Proof. intros. unfold as_u8. by apply Z.mod_small. Qed.

(** The range handed out for the reserved block [i] of order [k]. *)
Lemma granted_mk r b' fs f cnt ps i k :
  let s := PageSize_order ps - FRAME_ORDER in
  let pages := mkPageRange (mkPageAddr (mkAddr (value (page_base (pm_base r)) + i * FRAME_SIZE)) ps) (2 ^ (k - s)) in
  record_ok r -> reserved (buddy r) b' i k -> s <= k -> cnt <= 2 ^ (k - s) ->
  (PageSize_usize ps | value (page_base (pr_base pages))) ->
  same_frames_but (frames r) fs i -> fs !! Z.to_nat i = Some f -> frame_order f = k ->
  granted r (mkPhysicalMemoryRecord (frames_ptr r) fs (pm_base r) b') cnt ps pages i k.
Proof.
  intros s pages Hr Hres Hs Hcnt Hal Hsame Hf Hk.
  destruct (reserved_in r b' i k Hr Hres) as [Hi Hin].
  assert (Hs0 : 0 <= s) by by destruct ps.
  split; cbn; try done.
  - apply (record_ok_reserved r b' fs i k); [done..|apply Hsame].
  - split; cbn; [done| |apply (rs_live _ _ _ _ Hres)|unfold len; by rewrite (proj1 Hsame)|by exists f].
    rewrite (pow2_split s k), <- Z.mul_assoc by lia. f_equal. subst s. by destruct ps.
Qed.

Lemma allocated_len ps k :
  PageSize_order ps - FRAME_ORDER <= k ->
  (let! s := usub 8 (PageSize_order ps) FRAME_ORDER in ushr 64 (2 ^ k) s) =
  Ok (2 ^ (k - (PageSize_order ps - FRAME_ORDER))).
Proof.
  intros Hk. rewrite usub_ok by by destruct ps. cbn [obind].
  assert (Hs : 0 <= PageSize_order ps - FRAME_ORDER <= 18) by by destruct ps.
  rewrite ushr_ok by lia. rewrite (pow2_split (PageSize_order ps - FRAME_ORDER) k) by lia.
  rewrite Z.div_mul; [done|]. pose proof (pow2_pos (PageSize_order ps - FRAME_ORDER) ltac:(lia)). lia.
Qed.

Lemma PageAddr_new_panic {S : Type} (a : Addr S) ps :
  value a mod PageSize_usize ps <> 0 -> PageAddr_new a ps = Panic.
Proof.
  intros Hd. unfold PageAddr_new, PageSize_align. pose proof (PageSize_usize_pos ps). ok_step.
  by case_bool_lia.
Qed.

Lemma allocate_pages_spec r cnt ps :
  record_ok r -> 1 <= cnt -> cnt * (PageSize_usize ps / FRAME_SIZE) <= 2 ^ 63 ->
  (allocate_pages r cnt ps = Ok (None, r) /\
   let k := Z.log2_up (cnt * (PageSize_usize ps / FRAME_SIZE)) in
   (max_order (buddy r) < k \/ ~ root_above (buddy r) k)) \/
  (exists i k b', PageSize_order ps - FRAME_ORDER <= k /\ reserved (buddy r) b' i k /\
     if value (page_base (pm_base r)) mod PageSize_usize ps =? 0
     then exists pages r', allocate_pages r cnt ps = Ok (Some pages, r') /\ granted r r' cnt ps pages i k
     else allocate_pages r cnt ps = Panic).
Proof.
  intros Hr Hcnt Hmax. destruct (frame_count_ok cnt ps Hcnt Hmax) as (k & Ek & Hk & Hfit & Em & En).
  assert (Hs : 0 <= PageSize_order ps - FRAME_ORDER) by by destruct ps.
  unfold allocate_pages. rewrite Em. cbn [obind]. rewrite En. cbn [obind]. unfold ilog2.
  pose proof (pow2_pos k ltac:(lia)) as Hpos. case_bool_lia. cbn [obind].
  rewrite Z.log2_pow2, as_u8_small by lia. case_bool (max_order (buddy r) <? k) Eo.
  { left. cbn zeta. rewrite <- Ek. split; [done|by left]. }
  destruct (reserve_spec (buddy r) k (ro_buddy r Hr) ltac:(lia)) as [[-> Hno]|[_ (i & b' & -> & Hres)]]; cbn [obind].
  { left. cbn zeta. rewrite <- Ek. split; [by destruct r|by right]. }
  right. exists i, k, b'. split; [lia|]. split; [done|].
  destruct (reserved_in r b' i k Hr Hres) as [Hi Hin].
  destruct (set_frame_order_ok (frames r) i k ltac:(lia)) as (fs & f & -> & Hsame & Hf & Hfk). cbn [obind].
  pose proof (ro_end r Hr) as Hend. pose proof (ro_base r Hr) as Hbase. rewrite UMA_end, FRAME_SIZE_eq in *.
  unfold checked_page_add. rewrite (ro_small r Hr). change (PageSize_usize Small) with 4096.
  rewrite umul_ok by lia. cbn [obind]. unfold checked_byte_add, checked_add, in_space, fits.
  change (range_start UMASpace) with 0. change (range_end UMASpace) with 70368744177664.
  do 2 case_bool_lia. cbn [oexpect obind page_base].
  assert (Hps := PageSize_usize_pos ps).
  case_bool (value (page_base (pm_base r)) mod PageSize_usize ps =? 0) Hal.
  - apply Z.mod_divide in Hal; [|lia].
    assert (Hdiv := chunk_aligned ps _ i k ltac:(lia) Hal (proj1 (proj2 (proj2 (rs_block _ _ _ _ Hres))))).
    rewrite FRAME_SIZE_eq in Hdiv. rewrite PageAddr_new_ok by done. cbn [obind].
    rewrite <- obind_assoc, allocated_len by lia. cbn [obind]. eexists _, _. split; [done|].
    by apply (granted_mk r b' fs f cnt ps i k); [..|lia|lia| | | |].
  - rewrite PageAddr_new_panic; [done|]. intros Hdiv%Z.mod_divide; [|lia]. apply Hal.
    apply Z.mod_divide; [lia|]. eapply Z.divide_add_cancel_r; [|rewrite Z.add_comm; exact Hdiv].
    rewrite <- (Z.add_0_l (i * 4096)).
    apply (chunk_aligned ps 0 i k); [lia|apply Z.divide_0_r|apply (rs_block _ _ _ _ Hres)].
Qed.

(** Ranges held by others keep their block through a reservation. *)
Lemma holds_reserved r r' cnt ps pages i k pages' i' k' :
  record_ok r -> granted r r' cnt ps pages i k -> holds r pages' i' k' ->
  holds r' pages' i' k' /\ (forall f, in_block i' k' f = true -> in_block i k f = false).
Proof.
  intros Hr Hg [H1 H2 H3 H4 H5]. pose proof (gr_reserved _ _ _ _ _ _ _ Hg) as Hres.
  pose proof (ro_buddy r Hr) as Hb.
  assert (Hdis : forall f, in_block i' k' f = true -> in_block i k f = false).
  { intros f Hf. destruct (in_block i k f) eqn:E; [|done].
    pose proof (rs_was_free _ _ _ _ Hres f E). pose proof (live_not_free _ Hb _ _ _ H3 Hf). congruence. }
  split; [|done]. split; [by rewrite (gr_base _ _ _ _ _ _ _ Hg)|done| | |].
  - by apply (rs_others _ _ _ _ Hres).
  - unfold len in *. by rewrite (proj1 (gr_frames _ _ _ _ _ _ _ Hg)).
  - destruct H5 as (f & Hf & Hk). exists f. split; [|done].
    rewrite (proj2 (gr_frames _ _ _ _ _ _ _ Hg)); [done|].
    destruct H3 as ((Hk' & Hi' & _) & _). destruct (rs_block _ _ _ _ Hres) as (Hk0 & Hi0 & _).
    intros E. pose proof (Hdis i' (in_block_start i' k' ltac:(lia))) as Hn.
    replace i' with i in Hn by lia. by rewrite in_block_start in Hn by lia.
Qed.

(** ** Deallocation *)

(** What [deallocate_pages] does with the block [i] of order [k]. *)
Record returned (r r' : PhysicalMemoryRecord) (i k : Z) : Prop := {
  rt_ok : record_ok r';
  rt_base : pm_base r' = pm_base r;
  rt_freed : freed (buddy r) (buddy r') i k;
  rt_frames : same_frames_but (frames r) (frames r') i
}.

Lemma frame_idx_ok r i :
  record_ok r -> 0 <= i < len (frames r) ->
  frame_idx r (mkAddr (value (page_base (pm_base r)) + i * FRAME_SIZE)) = Ok (Some i).
Proof.
  intros Hr Hi. pose proof (ro_base r Hr). pose proof (ro_end r Hr) as Hend.
  rewrite UMA_end, FRAME_SIZE_eq in *. unfold frame_idx.
  rewrite base_sub_ok by (rewrite UMA_end; cbn; lia). cbn [obind value]. unfold try_usize.
  case_bool_lia. rewrite ushr_ok by (cbn; lia). cbn [obind]. change (2 ^ FRAME_ORDER) with 4096.
  replace (value (page_base (pm_base r)) + i * 4096 - value (page_base (pm_base r))) with (i * 4096) by lia.
  rewrite Z.div_mul by lia. by case_bool_lia.
Qed.

Lemma deallocate_pages_spec r pages i k :
  record_ok r -> holds r pages i k ->
  exists r', deallocate_pages r pages = Ok r' /\ returned r r' i k.
Proof.
  intros Hr [Ha Hsz Hlive Hin (f & Hf & Hk)]. pose proof Hlive as ((Hk0 & Hi & _ & Hcap) & _).
  pose proof (pow2_pos k ltac:(lia)) as Hpos.
  unfold deallocate_pages. replace (page_base (pr_base pages)) with
    (@mkAddr UMASpace (value (page_base (pm_base r)) + i * FRAME_SIZE)) by (rewrite <- Ha; by destruct (page_base (pr_base pages))).
  rewrite frame_idx_ok by (try done; lia). cbn [obind oexpect].
  rewrite (slice_get_ok _ _ f) by (try done; lia). cbn [obind]. rewrite Hk.
  destruct (free_spec (buddy r) i k (ro_buddy r Hr) Hlive) as (b' & -> & Hfr). cbn [obind].
  destruct (set_frame_order_ok (frames r) i 0 ltac:(lia)) as (fs & f' & -> & Hsame & _). cbn [obind].
  eexists. split; [done|]. split; cbn; try done.
  destruct Hr as [H1 H2 H3 H4 H5 H6]. unfold len in *.
  split; cbn; unfold len; rewrite ?(proj1 Hsame), ?(fr_cap _ _ _ _ Hfr); try done.
  - by apply (fr_wf _ _ _ _ Hfr).
  - intros g Hg. rewrite (fr_free _ _ _ _ Hfr) by done. intros [Hg'|Hg']%orb_true_iff; [by apply H6|].
    unfold in_block in Hg'. lia.
Qed.

(** Ranges that share no frame with the returned one stay held. *)
Lemma holds_returned r r' i k pages' i' k' :
  returned r r' i k -> holds r pages' i' k' -> 0 <= i -> 0 <= k ->
  (forall f, in_block i' k' f = true -> in_block i k f = false) -> holds r' pages' i' k'.
Proof.
  intros [_ Hbase Hfr Hsame] [H1 H2 H3 H4 (f & Hf & Hk)] Hi Hk0 Hdis.
  split; [by rewrite Hbase|done|by apply (fr_others _ _ _ _ Hfr)|unfold len in *; by rewrite (proj1 Hsame)|].
  exists f. split; [|done]. rewrite (proj2 Hsame); [done|].
  destruct H3 as ((Hk' & Hi' & _) & _). intros E.
  pose proof (Hdis i' (in_block_start i' k' ltac:(lia))) as Hn.
  replace i' with i in Hn by lia. by rewrite in_block_start in Hn by lia.
Qed.

(** ** Hand-over from the boot memory manager *)

Lemma trailing_zeros_pow2 k : 0 <= k -> trailing_zeros (2 ^ k) = k.
Proof.
  intros Hk. pose proof (pow2_pos k Hk) as Hp.
  pose proof (trailing_zeros_max (2 ^ k) k Hp Hk (Z.divide_refl _)) as Hge.
  destruct (trailing_zeros_divide (2 ^ k) Hp) as [H0 Hd].
  apply Z.divide_pos_le in Hd; [|done]. apply Z.pow_le_mono_r_iff in Hd; lia.
Qed.

(** The piece is a block of the buddy system over the frames from [base] on. *)
Definition piece_fits (b : BuddySystem) (base : Z) (q : Memblock) : Prop :=
  exists i k, value (mb_base q) = base + i * FRAME_SIZE /\ mb_size q = 2 ^ (k + FRAME_ORDER) /\
    block_of b i k.

(** The frames of [l] were added to the free ones, and nothing else changed. *)
Record handed (b b' : BuddySystem) (base : Z) (l : list Memblock) : Prop := {
  hd_wf : buddy_wf b';
  hd_pristine : pristine b';
  hd_cap : capacity b' = capacity b;
  hd_order : max_order b' = max_order b;
  hd_free : forall f, 0 <= f < capacity b ->
    frame_free b' f = true <-> frame_free b f = true \/ covered l (base + f * FRAME_SIZE);
  hd_ptr : buf_ptr (map b') = buf_ptr (map b)
}.

Lemma handed_nil b base : buddy_wf b -> pristine b -> handed b b base [].
Proof. intros Hb Hp. split; try done. intros f _. rewrite covered_nil. tauto. Qed.

Lemma handed_app b b1 b2 base l1 l2 :
  handed b b1 base l1 -> handed b1 b2 base l2 -> handed b b2 base (l1 ++ l2).
Proof.
  intros H1 H2. split; try apply H2.
  - by rewrite (hd_cap _ _ _ _ H2), (hd_cap _ _ _ _ H1).
  - by rewrite (hd_order _ _ _ _ H2), (hd_order _ _ _ _ H1).
  - intros f Hf. rewrite (hd_free _ _ _ _ H2), (hd_free _ _ _ _ H1) by (rewrite ?(hd_cap _ _ _ _ H1); done).
    unfold covered. setoid_rewrite elem_of_app. naive_solver.
  - by rewrite (hd_ptr _ _ _ _ H2), (hd_ptr _ _ _ _ H1).
Qed.

Lemma block_of_same b b' i k :
  capacity b' = capacity b -> max_order b' = max_order b -> block_of b i k -> block_of b' i k.
Proof. unfold block_of. by intros -> ->. Qed.

Lemma piece_freed b base q :
  buddy_wf b -> pristine b -> (FRAME_SIZE | base) -> 0 <= base -> piece_fits b base q ->
  block_ok q ->
  exists b', handed b b' base [q] /\
    forall rest, free_pieces (mkAddr base) (q :: rest) b = free_pieces (mkAddr base) rest b'.
Proof.
  intros Hb Hpr Hal Hbase (i & k & Hq & Hsz & Hblk) Hok.
  destruct (free_forced_spec b i k Hb Hpr Hblk) as (b' & E & [F1 F2 F3 F4 F5 F6]).
  pose proof Hblk as (Hk & Hi & _ & Hcap). pose proof (bw_max _ Hb) as Hmax. unfold BUDDY_MAX_ORDER in Hmax.
  exists b'. split.
  - split; try done. intros f Hf. rewrite F5, orb_true_iff by done. unfold in_block.
    rewrite andb_true_iff, Z.leb_le, Z.ltb_lt, covered_cons, covered_nil. unfold mb_in, mb_end.
    rewrite Hq, Hsz, Z.pow_add_r by (cbn; lia). change (2 ^ FRAME_ORDER) with 4096.
    rewrite FRAME_SIZE_eq. intuition lia.
  - intros rest. cbn [free_pieces]. unfold is_aligned_to. rewrite FRAME_SIZE_eq in *. ok_step.
    assert (Hd : (4096 | value (mb_base q))) by (rewrite Hq; by apply multiple_add).
    rewrite (proj2 (Z.mod_divide _ 4096 ltac:(lia)) Hd). cbn [Z.eqb obind].
    assert (Hqb : 0 <= value (mb_base q) <= range_end UMASpace) by (unfold block_ok, mb_end in Hok; lia).
    rewrite base_sub_ok by (cbn; rewrite Hq in Hqb; cbn in *; lia). cbn [obind value].
    rewrite Hq. replace (base + i * 4096 - base) with (i * 4096) by lia. rewrite UMA_end in Hqb.
    unfold as_usize. rewrite Z.mod_small by lia. rewrite Z.div_mul by lia.
    rewrite Hsz, trailing_zeros_pow2, as_u8_small by (cbn; lia). rewrite usub_ok by (cbn; lia).
    cbn [obind]. replace (k + FRAME_ORDER - FRAME_ORDER) with k by lia. by rewrite E.
Qed.

Lemma free_pieces_spec base l : forall b,
  buddy_wf b -> pristine b -> (FRAME_SIZE | base) -> 0 <= base ->
  Forall (piece_fits b base) l -> Forall block_ok l ->
  exists b', free_pieces (mkAddr base) l b = Ok b' /\ handed b b' base l.
Proof.
  induction l as [|q l IH]; intros b Hb Hpr Hal Hbase Hfit Hok.
  { exists b. split; [done|]. by apply handed_nil. }
  apply Forall_cons in Hfit as [Hq Hfit]. apply Forall_cons in Hok as [Hqok Hok].
  destruct (piece_freed b base q Hb Hpr Hal Hbase Hq Hqok) as (b1 & H1 & ->).
  destruct (IH b1) as (b' & -> & H2); [apply H1..|done|done| |done|].
  { eapply Forall_impl; [exact Hfit|]. intros m (i & k & E1 & E2 & Hblk). exists i, k.
    split_and!; [done..|]. eapply block_of_same; [apply H1..|done]. }
  exists b'. split; [done|]. by apply (handed_app b b1 b' base [q] l).
Qed.

(** A free block whose position relative to the first frame suits every piece
    that [aligned_split] can cut from it. *)
Definition block_fits (b : BuddySystem) (base : Z) (m : Memblock) : Prop :=
  base <= value (mb_base m) /\ 0 < mb_size m /\
  mb_end m <= base + capacity b * FRAME_SIZE /\ mb_end m + FRAME_SIZE <= range_end UMASpace /\
  (FRAME_SIZE | value (mb_base m)) /\ (FRAME_SIZE | mb_size m) /\
  forall k, 0 <= k <= BUDDY_MAX_ORDER -> 2 ^ (k + FRAME_ORDER) <= mb_size m ->
    (2 ^ (k + FRAME_ORDER) | value (mb_base m) - base).

(** The shapes of map that [BuddySystem::new] builds. *)
Definition full_height (b : BuddySystem) : Prop :=
  max_order b = BUDDY_MAX_ORDER \/ capacity b <= 2 ^ max_order b.

Lemma tiles_inside l : forall a b q, tiles a l b -> q ∈ l ->
  a <= value (mb_base q) /\ 0 < mb_size q /\ value (mb_base q) + mb_size q <= b.
Proof.
  induction l as [|m l IH]; intros a b q Ht Hq; [by apply not_elem_of_nil in Hq|].
  destruct Ht as (Hm & Hs & Ht). apply elem_of_cons in Hq as [->|Hq].
  - pose proof (tiles_le _ _ _ Ht). lia.
  - specialize (IH _ _ _ Ht Hq). lia.
Qed.

Lemma piece_fits_block b base m q :
  full_height b -> 0 <= base -> block_fits b base m ->
  piece_ok FRAME_ORDER 30 (value (mb_base m)) q ->
  value (mb_base m) <= value (mb_base q) -> value (mb_base q) + mb_size q <= mb_end m ->
  0 <= max_order b -> piece_fits b base q /\ block_ok q.
Proof.
  intros Hfull Hb0 (Hlo & Hpos & Hhi & Hmax & Hal & _ & Hpow) (k & Hk & Hsz & Hd) Hq1 Hq2 Hmo.
  change FRAME_ORDER with 12 in *. rewrite FRAME_SIZE_eq in *.
  set (j := k - 12). assert (Ek : k = j + 12) by lia. rewrite Ek in *. clearbody j. clear k Ek.
  assert (Hj : 2 ^ (j + 12) <= mb_size m) by (unfold mb_end in *; lia).
  specialize (Hpow j ltac:(unfold BUDDY_MAX_ORDER; lia) Hj).
  pose proof (pow2_pos j ltac:(lia)) as Hpj. rewrite Z.pow_add_r in * by lia. change (2 ^ 12) with 4096 in *.
  assert (Hdq : (2 ^ j * 4096 | value (mb_base q) - base)).
  { replace (value (mb_base q) - base) with
      ((value (mb_base q) - value (mb_base m)) + (value (mb_base m) - base)) by lia.
    by apply Z.divide_add_r. }
  destruct Hdq as [x Hx]. split; [|unfold block_ok, mb_end in *; lia].
  exists (x * 2 ^ j), j. rewrite FRAME_SIZE_eq. split; [lia|]. split.
  { rewrite Z.pow_add_r by (cbn; lia). done. }
  unfold mb_end in *. assert (Hx0 : 0 <= x) by nia.
  split; [|split; [nia|split; [by exists x|nia]]].
  split; [lia|]. destruct Hfull as [->|Hcap]; [unfold BUDDY_MAX_ORDER; lia|].
  apply (Z.pow_le_mono_r_iff 2); [lia..|]. nia.
Qed.

Lemma block_freed b base m :
  buddy_wf b -> pristine b -> full_height b -> (FRAME_SIZE | base) -> 0 <= base ->
  block_fits b base m ->
  exists b', handed b b' base [m] /\
    forall rest, free_memblocks (mkAddr base) (m :: rest) b = free_memblocks (mkAddr base) rest b'.
Proof.
  intros Hb Hpr Hfull Hal Hbase Hfit.
  pose proof Hfit as (Hlo & Hpos & Hhi & Hmax & Halm & Hals & _).
  destruct (aligned_split_spec m FRAME_ORDER 30) as (bs & Hdb & Hbs & E & Hok);
    [by vm_compute|done|lia|lia|exact Hmax|].
  change (2 ^ FRAME_ORDER) with FRAME_SIZE in *.
  assert (Hs0 : mb_size m mod FRAME_SIZE = 0) by (apply Z.mod_divide; done).
  assert (bs = value (mb_base m)) as ->.
  { apply (multiple_unique FRAME_SIZE (value (mb_base m))); [done..|lia]. }
  rewrite Hs0, Z.sub_0_r in *.
  replace (mkMemblock (mkAddr (value (mb_base m))) (mb_size m) (mb_typ m)) with m in *
    by by destruct m as [[]]. 
  destruct (split_all_ends _ _ Hok) as (pieces & Ep & Ht & HF). cbn [sp_memblock sp_offset sp_max_order] in *.
  rewrite Z.add_0_r in Ht.
  assert (Hp : Forall (fun q => piece_fits b base q /\ block_ok q) pieces).
  { rewrite Forall_forall in *. intros q Hq. destruct (tiles_inside _ _ _ _ Ht Hq) as (? & ? & ?).
    apply (piece_fits_block b base m q); try done; [by apply HF|].
    pose proof (bw_order _ Hb). pose proof (fo_depth _ (bw_forest _ Hb)). lia. }
  apply Forall_and in Hp as [Hp1 Hp2].
  destruct (free_pieces_spec base pieces b Hb Hpr Hal Hbase Hp1 Hp2) as (b' & E' & Hh).
  exists b'. split.
  - destruct Hh as [G1 G2 G3 G4 G5 G6]. split; try done. intros f Hf. rewrite G5 by done.
    rewrite (tiles_covered _ _ _ _ Ht), covered_cons, covered_nil. unfold mb_in. tauto.
  - intros rest. cbn [free_memblocks]. change (uadd 8 BUDDY_MAX_ORDER FRAME_ORDER) with (Ok 30).
    cbn [obind]. rewrite E. cbn [obind]. rewrite Ep. cbn [obind]. by rewrite E'.
Qed.

Lemma free_memblocks_spec base l : forall b,
  buddy_wf b -> pristine b -> full_height b -> (FRAME_SIZE | base) -> 0 <= base ->
  Forall (block_fits b base) l ->
  exists b', free_memblocks (mkAddr base) l b = Ok b' /\ handed b b' base l.
Proof.
  induction l as [|m l IH]; intros b Hb Hpr Hfull Hal Hbase Hfit.
  { exists b. split; [done|]. by apply handed_nil. }
  apply Forall_cons in Hfit as [Hm Hfit].
  destruct (block_freed b base m Hb Hpr Hfull Hal Hbase Hm) as (b1 & H1 & ->).
  assert (Hsame : capacity b1 = capacity b /\ max_order b1 = max_order b) by (split; apply H1).
  destruct (IH b1) as (b' & -> & H2); [apply H1..| |done|done| |].
  { unfold full_height. by rewrite (proj1 Hsame), (proj2 Hsame). }
  { eapply Forall_impl; [exact Hfit|]. intros q. unfold block_fits. by rewrite (proj1 Hsame). }
  exists b'. split; [done|]. by apply (handed_app b b1 b' base [m] l).
Qed.

(** ** The theorems *)

(** C18: with the first frame aligned to the page size asked for, [allocate_pages]
    never panics.  It hands out an aligned range of at least [cnt] pages whose
    frames were all free and now belong to one block, with the order on record
    and every other held range untouched and disjoint; or it returns [None],
    with nothing changed, when the order is too large or no root records a
    larger block. *)
Theorem allocate_pages_correct r cnt ps :
  record_ok r -> 1 <= cnt -> cnt * (PageSize_usize ps / FRAME_SIZE) <= 2 ^ 63 ->
  (PageSize_usize ps | value (page_base (pm_base r))) ->
  let k := Z.log2_up (cnt * (PageSize_usize ps / FRAME_SIZE)) in
  (allocate_pages r cnt ps = Ok (None, r) /\ (max_order (buddy r) < k \/ ~ root_above (buddy r) k)) \/
  (exists pages r' i k, allocate_pages r cnt ps = Ok (Some pages, r') /\ granted r r' cnt ps pages i k /\
     forall pages' i' k', holds r pages' i' k' ->
       holds r' pages' i' k' /\ (forall f, in_block i' k' f = true -> in_block i k f = false)).
Proof.
  intros Hr Hcnt Hmax Hal. cbn zeta.
  destruct (allocate_pages_spec r cnt ps Hr Hcnt Hmax) as [Hn|(i & k & b' & _ & _ & Hif)]; [by left|right].
  apply Z.mod_divide in Hal; [|pose proof (PageSize_usize_pos ps); lia]. rewrite Hal in Hif.
  destruct Hif as (pages & r' & E & Hg). exists pages, r', i, k. split; [done|]. split; [done|].
  intros pages' i' k' Hh. by eapply holds_reserved.
Qed.

(** [deallocate_pages] of a held range never panics: the order on record is
    the block's, exactly its frames become free, and every range that shares no
    frame with it stays held. *)
Theorem deallocate_pages_correct r pages i k :
  record_ok r -> holds r pages i k ->
  exists r', deallocate_pages r pages = Ok r' /\ returned r r' i k /\
    forall pages' i' k', holds r pages' i' k' ->
      (forall f, in_block i' k' f = true -> in_block i k f = false) -> holds r' pages' i' k'.
Proof.
  intros Hr Hh. destruct (deallocate_pages_spec r pages i k Hr Hh) as (r' & E & Hret).
  exists r'. split; [done|]. split; [done|]. intros pages' i' k' Hh' Hdis.
  destruct (ho_live _ _ _ _ Hh) as ((Hk & Hi & _) & _). by apply (holds_returned r r' i k); [..|lia|].
Qed.

(** C19: allocating pages and giving them back leaves the free frames as they
    were. *)
Theorem allocate_deallocate_roundtrip r cnt ps pages r' :
  record_ok r -> 1 <= cnt -> cnt * (PageSize_usize ps / FRAME_SIZE) <= 2 ^ 63 ->
  allocate_pages r cnt ps = Ok (Some pages, r') ->
  exists r'', deallocate_pages r' pages = Ok r'' /\ record_ok r'' /\
    forall f, 0 <= f < capacity (buddy r) -> frame_free (buddy r'') f = frame_free (buddy r) f.
Proof.
  intros Hr Hcnt Hmax E.
  destruct (allocate_pages_spec r cnt ps Hr Hcnt Hmax) as [[E' _]|(i & k & b' & _ & _ & Hif)]; [congruence|].
  destruct (_ =? 0); [|congruence]. destruct Hif as (pages1 & r1 & E' & Hg). rewrite E in E'.
  injection E' as <- <-. pose proof (gr_reserved _ _ _ _ _ _ _ Hg) as Hres.
  destruct (deallocate_pages_spec r' pages i k (gr_ok _ _ _ _ _ _ _ Hg) (gr_holds _ _ _ _ _ _ _ Hg))
    as (r'' & Ed & Hret).
  exists r''. split; [done|]. split; [apply Hret|]. intros f Hf.
  rewrite (fr_free _ _ _ _ (rt_freed _ _ _ _ Hret)) by by rewrite (rs_cap _ _ _ _ Hres).
  rewrite (rs_free _ _ _ _ Hres) by done. destruct (in_block i k f) eqn:Eb.
  - rewrite (rs_was_free _ _ _ _ Hres f Eb). done.
  - by rewrite orb_false_r, andb_true_r.
Qed.

(** A request for a single small page, as for a page table, panics whenever
    the buddy system could serve it but the first frame on record is not aligned
    to a large page: the layout is given a large page, and the address of the
    block fails the alignment assertion. *)
Theorem small_page_allocation_panics r :
  record_ok r -> value (page_base (pm_base r)) mod PageSize_usize Large <> 0 ->
  9 <= max_order (buddy r) -> root_above (buddy r) 9 ->
  pmm_allocate (PageSize_layout Small) (Some r) = Panic.
Proof.
  intros Hr Hmis Hmo Hroot. unfold pmm_allocate.
  change (PageSize_fit (PageSize_layout Small)) with (Some Large). cbn [obind oexpect].
  unfold pmm_allocate_pages. cbn [obind oexpect].
  destruct (allocate_pages_spec r 1 Large Hr) as [[_ Hno]|(i & k & b' & _ & _ & Hif)];
    [done|by vm_compute| |].
  - cbn zeta in Hno. change (Z.log2_up (1 * (PageSize_usize Large / FRAME_SIZE))) with 9 in Hno.
    destruct Hno; [lia|done].
  - rewrite (proj2 (Z.eqb_neq _ 0) Hmis) in Hif. by rewrite Hif.
Qed.

(** C21: handing over the boot memory manager's free blocks never panics and frees
    exactly their frames, provided each block starts and ends on a frame boundary
    and lies, relative to the first frame, at a multiple of every power of two
    that fits in it. *)
Theorem free_memblocks_correct base l b :
  buddy_wf b -> pristine b -> full_height b -> (FRAME_SIZE | base) -> 0 <= base ->
  Forall (block_fits b base) l ->
  exists b', free_memblocks (mkAddr base) l b = Ok b' /\ handed b b' base l.
Proof. apply free_memblocks_spec. Qed.

(** The memory below the one of the video adapter, where no byte was written yet. *)
Definition low_memory : Ram := mkRam [(0, 0xa0000)] (fun _ => 0).

(** The hand-over itself does not meet those conditions: after booting with
    sixteen pages of memory above the kernel, the first frame belongs to a
    reserved block and is nevertheless handed out. *)
Theorem handover_frees_reserved :
  exists s r bmm b',
    memblock_init (mkAddr 0x100000) [mkMemoryArea 0x1000 0x10f000 Available] = Ok s /\
    record_new s low_memory = Ok (r, bmm) /\
    covered (reserved_blocks bmm) (value (page_base (pm_base r))) /\
    reserve (buddy r) 1 = Ok (Some 0, b').
Proof.
  eexists _, _, _, _. split; [vm_compute; reflexivity|]. split; [vm_compute; reflexivity|].
  split; [|vm_compute; reflexivity].
  eexists. split; [by left|]. split; vm_compute; congruence.
Qed.

(** ** Witnesses *)

Definition demo_record (b : BuddySystem) (n : nat) (base : Z) : PhysicalMemoryRecord :=
  mkPhysicalMemoryRecord 0 (replicate n (mkFrame 0 0)) (mkPageAddr (mkAddr base) Small) b.

Lemma demo_record_ok b n base :
  buddy_wfb b = true -> 0 <= base -> base + Z.of_nat n * FRAME_SIZE <= range_end UMASpace ->
  capacity b = Z.of_nat n -> record_ok (demo_record b n base).
Proof.
  intros Hb Hbase Hend Hcap. assert (Hl : len (replicate n (mkFrame 0 0)) = Z.of_nat n)
    by (unfold len; by rewrite length_replicate).
  split; cbn [demo_record frames pm_base page_base page_size value buddy]; rewrite ?Hl; try done.
  - by apply buddy_wfb_spec.
  - lia.
  - intros f Hf _. lia.
Qed.

Lemma demo_record8_ok : record_ok (demo_record demo_free8 8 0x400000).
Proof. apply demo_record_ok; vm_compute; congruence. Qed.

(** A record with frame 0 held, and the range that holds it. *)
Definition demo_range : PageRange UMASpace := mkPageRange (mkPageAddr (mkAddr 0x400000) Small) 1.

Lemma demo_held_ok : record_ok (demo_record demo_held0 8 0x400000).
Proof. apply demo_record_ok; vm_compute; congruence. Qed.

Lemma demo_holds : holds (demo_record demo_held0 8 0x400000) demo_range 0 0.
Proof.
  split; [vm_compute; reflexivity..|exact demo_held0_live|vm_compute; congruence|].
  eexists. split; vm_compute; reflexivity.
Qed.

Lemma allocate_pages_correct_witness :
  let r := demo_record demo_free8 8 0x400000 in
  (allocate_pages r 2 Small = Ok (None, r) /\ (3 < 1 \/ ~ root_above (buddy r) 1)) \/
  (exists pages r' i k, allocate_pages r 2 Small = Ok (Some pages, r') /\ granted r r' 2 Small pages i k /\
     forall pages' i' k', holds r pages' i' k' ->
       holds r' pages' i' k' /\ (forall f, in_block i' k' f = true -> in_block i k f = false)).
Proof.
  apply (allocate_pages_correct (demo_record demo_free8 8 0x400000) 2 Small demo_record8_ok);
    [vm_compute; congruence..|]. exists 0x400. vm_compute. reflexivity.
Defined.

Lemma deallocate_pages_correct_witness :
  exists r', deallocate_pages (demo_record demo_held0 8 0x400000) demo_range = Ok r' /\
    returned (demo_record demo_held0 8 0x400000) r' 0 0.
Proof.
  destruct (deallocate_pages_correct (demo_record demo_held0 8 0x400000) demo_range 0 0
              demo_held_ok demo_holds) as (r' & E & Hr & _).
  exists r'. split; [exact E|exact Hr].
Defined.

Lemma allocate_deallocate_roundtrip_witness :
  exists pages r', allocate_pages (demo_record demo_free8 8 0x400000) 2 Small = Ok (Some pages, r') /\
    exists r'', deallocate_pages r' pages = Ok r'' /\ record_ok r'' /\
      forall f, 0 <= f < 8 -> frame_free (buddy r'') f = frame_free demo_free8 f.
Proof.
  eexists _, _. split; [vm_compute; reflexivity|].
  apply (allocate_deallocate_roundtrip (demo_record demo_free8 8 0x400000) 2 Small _ _ demo_record8_ok);
    [vm_compute; congruence|vm_compute; congruence|vm_compute; reflexivity].
Defined.

(** A full buddy system of [2^h] frames under one tree. *)
Definition demo_full (h : nat) : BuddySystem :=
  mkBuddySystem
    (mkForest 0 (concat ((fun d => replicate (2 ^ d) (Z.of_nat (S h - d))) <$> seq 0 (S h)) ++ [0]) (Z.of_nat (S h)) 1)
    (Z.of_nat h).

Lemma small_page_allocation_panics_witness :
  pmm_allocate (PageSize_layout Small) (Some (demo_record (demo_full 10) 1024 0x101000)) = Panic.
Proof.
  apply (small_page_allocation_panics (demo_record (demo_full 10) 1024 0x101000)).
  - apply demo_record_ok; vm_compute; congruence.
  - vm_compute. congruence.
  - vm_compute. congruence.
  - exists 1. split; [split; [lia|vm_compute; by split]|vm_compute; reflexivity].
Defined.

Lemma free_memblocks_correct_witness :
  exists b', free_memblocks (mkAddr 0x400000) [mkMemblock (mkAddr 0x404000) 0x4000 Free] demo_empty8 = Ok b' /\
    handed demo_empty8 b' 0x400000 [mkMemblock (mkAddr 0x404000) 0x4000 Free].
Proof.
  apply (free_memblocks_correct 0x400000 [mkMemblock (mkAddr 0x404000) 0x4000 Free] demo_empty8
           demo_empty8_wf demo_empty8_pristine); [right; vm_compute; congruence|by exists 0x400|lia|].
  apply Forall_cons. split; [|constructor].
  split_and!; [vm_compute; congruence..|by exists 0x404|by exists 4|].
  intros k Hk Hle. change (value (mb_base _) - 0x400000) with (2 ^ (2 + FRAME_ORDER)).
  apply pow2_divide. cbn [mb_size] in Hle. change 16384 with (2 ^ (2 + FRAME_ORDER)) in Hle.
  change FRAME_ORDER with 12 in *. apply Z.pow_le_mono_r_iff in Hle; lia.
Defined.
