(* ===== verification/Entry.v ===== *)
(** * Paging entries

    [src/src/mem/paging/entry.rs], the levels of [src/src/mem/paging.rs] and the
    table constants of [src/src/mem/paging/table.rs].  An [EntryRef] is a level
    and the raw entry it points to; the operations here act on the raw value. *)

From S2P Require Import Prelude Addr.

(** ** Levels *)

Inductive Level := CR3 | PML4 | PDPT | PD | PT.

#[export] Instance Level_eq_dec : EqDecision Level.
Proof. solve_decision. Defined.

(** The bits of a virtual address that index a table of the level. *)
Definition page_table_idx_range (l : Level) : outcome (Z * Z) :=
  match l with
  | CR3 => Panic
  | PML4 => Ok (39, 48)
  | PDPT => Ok (30, 39)
  | PD => Ok (21, 30)
  | PT => Ok (12, 21)
  end.

Definition page_idx_range (l : Level) : outcome (Z * Z) :=
  match l with
  | CR3 | PML4 => Panic
  | PDPT => Ok (0, 30)
  | PD => Ok (0, 21)
  | PT => Ok (0, 12)
  end.

Definition level_page_size (l : Level) : outcome PageSize :=
  match l with
  | PT => Ok Small
  | PD => Ok Large
  | PDPT => Ok Huge
  | _ => Panic
  end.

Definition from_page_size (ps : PageSize) : Level :=
  match ps with Small => PT | Large => PD | Huge => PDPT end.

Definition next_level (l : Level) : option Level :=
  match l with
  | CR3 => Some PML4
  | PML4 => Some PDPT
  | PDPT => Some PD
  | PD => Some PT
  | PT => None
  end.

Definition prev_level (l : Level) : option Level :=
  match l with
  | CR3 => None
  | PML4 => Some CR3
  | PDPT => Some PML4
  | PD => Some PDPT
  | PT => Some PD
  end.

Definition TABLE_SIZE : Z := 4 * KiB.
Definition TABLE_LEN : Z := TABLE_SIZE / 8.
Definition TABLE_ALIGNMENT : Z := TABLE_SIZE.

(** ** Flags *)

Inductive Flag := Present | ReadWrite | UserSuper | FPageSize | Global.

#[export] Instance Flag_eq_dec : EqDecision Flag.
Proof. solve_decision. Defined.

Definition pml4_idx (flag : Flag) (present_bit : bool) : option Z :=
  match present_bit, flag with
  | false, Present => Some 0
  | false, _ => None
  | true, Present => Some 0
  | true, ReadWrite => Some 1
  | true, UserSuper => Some 2
  | true, _ => None
  end.

Definition pdpt_idx (flag : Flag) (present_bit page_size_bit : bool) : option Z :=
  match present_bit, page_size_bit, flag with
  | false, _, Present => Some 0
  | false, _, _ => None
  | true, true, Present => Some 0
  | true, true, ReadWrite => Some 1
  | true, true, UserSuper => Some 2
  | true, true, FPageSize => Some 7
  | true, true, Global => Some 8
  | true, false, Present => Some 0
  | true, false, ReadWrite => Some 1
  | true, false, UserSuper => Some 2
  | true, false, FPageSize => Some 7
  | true, false, _ => None
  end.

Definition pd_idx (flag : Flag) (present_bit page_size_bit : bool) : option Z :=
  match present_bit, page_size_bit, flag with
  | false, _, Present => Some 0
  | false, _, _ => None
  | true, true, Present => Some 0
  | true, true, ReadWrite => Some 1
  | true, true, UserSuper => Some 2
  | true, true, FPageSize => Some 7
  | true, true, Global => Some 8
  | true, false, Present => Some 0
  | true, false, ReadWrite => Some 1
  | true, false, UserSuper => Some 2
  | true, false, FPageSize => Some 7
  | true, false, _ => None
  end.

Definition pt_idx (flag : Flag) (present_bit : bool) : option Z :=
  match present_bit, flag with
  | false, Present => Some 0
  | false, _ => None
  | true, Present => Some 0
  | true, ReadWrite => Some 1
  | true, UserSuper => Some 2
  | true, Global => Some 8
  | true, _ => None
  end.

(** [Flag::idx] *)
Definition flag_idx (flag : Flag) (l : Level) (present_bit page_size_bit : bool) : option Z :=
  match l with
  | CR3 => None
  | PML4 => pml4_idx flag present_bit
  | PDPT => pdpt_idx flag present_bit page_size_bit
  | PD => pd_idx flag present_bit page_size_bit
  | PT => pt_idx flag present_bit
  end.

Definition get_flag_idx (l : Level) (raw : Z) (flag : Flag) : option Z :=
  let bit o := match o with Some i => Z.testbit raw i | None => false end in
  let present_bit := bit (flag_idx Present l false false) in
  let page_size_bit := bit (flag_idx FPageSize l present_bit false) in
  flag_idx flag l present_bit page_size_bit.

(** [EntryRef::flag] *)
Definition entry_flag (l : Level) (raw : Z) (flag : Flag) : option bool :=
  match get_flag_idx l raw flag with
  | None => None
  | Some i => Some (Z.testbit raw i)
  end.

(** ** Targets *)

Inductive EntryTarget :=
| TNone
| TTable (l : Level) (a : Addr UMASpace)
| TPage (l : Level) (a : Addr UMASpace).

Definition entry_target (l : Level) (raw : Z) : outcome EntryTarget :=
  if negb (default true (entry_flag l raw Present)) then Ok TNone
  else
    let is_page := entry_flag l raw FPageSize in
    let mask := match l, is_page with
                | PDPT, Some true | PD, Some true => 0x0000FFFFFFFFE000
                | _, _ => 0x0000FFFFFFFFF000
                end in
    let! addr := Addr_new (Z.land raw mask) in
    match l, is_page with
    | PT, None | PDPT, Some true | PD, Some true => Ok (TPage l addr)
    | CR3, None | PML4, None | PDPT, Some false | PD, Some false =>
        let! next := oexpect (next_level l) in Ok (TTable next addr)
    | _, _ => Panic
    end.

(** [!x] on a [usize]. *)
Definition unot (x : Z) : Z := Z.lxor x (USIZE - 1).

(** [EntryRef::set_addr]: whether the address was set, and the raw entry. *)
Definition set_addr (l : Level) (raw : Z) (addr : Addr UMASpace) : outcome (bool * Z) :=
  let! target := entry_target l raw in
  let set align :=
    let! aligned := is_aligned_to addr align in
    if negb aligned then Ok (false, raw)
    else
      let! top := ushl 64 1 48 in
      let! m := usub 64 top align in
      let mask := unot m in
      Ok (true, Z.lor (Z.land raw mask) (value addr)) in
  match l, target with
  | _, TNone => Ok (false, raw)
  | _, TTable _ _ => set TABLE_ALIGNMENT
  | PDPT, TPage _ _ => set (1 * GiB)
  | PD, TPage _ _ => set (2 * MiB)
  | PT, TPage _ _ => set (4 * KiB)
  | _, _ => Panic
  end.

Definition has_flag (flags : list Flag) (f : Flag) : bool := bool_decide (f ∈ flags).

(** The loop of [reinit] that collects the bits of the flags. *)
Fixpoint flag_bits (l : Level) (present_bit page_size_bit : bool) (flags : list Flag) (data : Z)
    : option Z :=
  match flags with
  | [] => Some data
  | f :: rest =>
      match flag_idx f l present_bit page_size_bit with
      | None => None
      | Some i => flag_bits l present_bit page_size_bit rest (Z.setbit data i)
      end
  end.

(** [EntryRef::reinit]: whether it returned [Some], and the raw entry. *)
Definition reinit (l : Level) (raw : Z) (addr : Addr UMASpace) (flags : list Flag)
    : outcome (bool * Z) :=
  let present_bit := has_flag flags Present in
  let page_size_bit := has_flag flags FPageSize in
  match flag_bits l present_bit page_size_bit flags 0 with
  | None => Ok (false, raw)
  | Some data => set_addr l data addr
  end.

(** The loop of [set_flags]: [None] when a flag has no bit at this level. *)
Fixpoint set_bits (l : Level) (flags : list Flag) (v : bool) (raw : Z) : option Z :=
  match flags with
  | [] => Some raw
  | f :: rest =>
      match get_flag_idx l raw f with
      | None => None
      | Some i => set_bits l rest v (if v then Z.setbit raw i else Z.clearbit raw i)
      end
  end.

Definition set_flags (l : Level) (raw : Z) (flags : list Flag) (v : bool) : bool * Z :=
  if has_flag flags Present || has_flag flags FPageSize then (false, raw)
  else match set_bits l flags v raw with
       | None => (false, raw)
       | Some raw' => (true, raw')
       end.

(** [EntryRef::init] on the raw entry, and [uninit]. *)
Definition entry_init (l : Level) (raw : Z) (addr : Addr UMASpace) (flags : list Flag)
    : outcome (bool * Z) := reinit l raw addr flags.
Definition uninit : Z := 0.

(** ** Bit lemmas *)

(** A field of [n] bits from bit [k] on. *)
Lemma land_field x k n :
  0 <= k -> 0 <= n -> Z.land x (2 ^ k * (2 ^ n - 1)) = 2 ^ k * ((x / 2 ^ k) mod 2 ^ n).
Proof.
  intros Hk Hn. replace (2 ^ n - 1) with (Z.ones n) by (rewrite Z.ones_equiv; lia).
  rewrite <- Z.land_ones by done. rewrite !(Z.mul_comm (2 ^ k)), <- !Z.shiftl_mul_pow2 by done.
  rewrite <- Z.shiftr_div_pow2 by done. apply Z.bits_inj'. intros i Hi.
  rewrite Z.land_spec, !Z.shiftl_spec by done. destruct (Z.ltb_spec i k).
  - rewrite !(Z.testbit_neg_r _ (i - k)) by lia. by rewrite andb_false_r.
  - rewrite Z.land_spec, Z.shiftr_spec by lia. by replace (i - k + k) with i by lia.
Qed.

Lemma testbit_small x n i : 0 <= x < 2 ^ n -> 0 <= n <= i -> Z.testbit x i = false.
Proof. intros Hx Hi. rewrite <- (Z.mod_small x (2 ^ n)) by done. apply Z.mod_pow2_bits_high. lia. Qed.

Lemma testbit_multiple x n i : (2 ^ n | x) -> 0 <= i < n -> Z.testbit x i = false.
Proof. intros [q ->] Hi. apply Z.mul_pow2_bits_low. lia. Qed.

(** Clearing bits. *)
Lemma land_unot x m : 0 <= x < USIZE -> Z.land x (unot m) = x - Z.land x m.
Proof.
  intros Hx. rewrite Z.sub_nocarry_ldiff.
  - apply Z.bits_inj'. intros i Hi. unfold unot. rewrite Z.land_spec, Z.lxor_spec, Z.ldiff_spec, Z.land_spec.
    change (USIZE - 1) with (Z.ones 64).
    destruct (Z.testbit x i) eqn:E; [|done]. destruct (Z.ltb_spec i 64).
    + rewrite Z.ones_spec_low by lia. by destruct (Z.testbit m i).
    + rewrite (testbit_small x 64 i) in E by (try lia; exact Hx). done.
  - apply Z.bits_inj'. intros i Hi. rewrite Z.ldiff_spec, Z.land_spec, Z.bits_0.
    by destruct (Z.testbit x i), (Z.testbit m i).
Qed.

(** Flags below bit 12 and an address above it. *)
Section FlagsAndAddress.
Context (d a : Z) (Hd : 0 <= d < 4096) (Ha : (4096 | a)).

Lemma lor_flags : Z.lor d a = d + a.
Proof using Hd Ha.
  assert (E : Z.land d a = 0).
  { apply Z.bits_inj'. intros i Hi. rewrite Z.land_spec, Z.bits_0. destruct (Z.ltb_spec i 12).
    - by rewrite (testbit_multiple a 12 i), andb_false_r by (try lia; done).
    - by rewrite (testbit_small d 12 i) by (try lia; exact Hd). }
  by rewrite <- Z.lxor_lor, Z.add_nocarry_lxor.
Qed.

Lemma flag_bit i : 0 <= i < 12 -> Z.testbit (d + a) i = Z.testbit d i.
Proof using Hd Ha.
  intros Hi. rewrite <- (Z.mod_pow2_bits_low (d + a) 12 i), <- (Z.mod_pow2_bits_low d 12 i) by lia.
  f_equal. destruct Ha as [q ->]. change 4096 with (2 ^ 12). by rewrite Z.mod_add by lia.
Qed.

Lemma addr_field k : 12 <= k <= 48 -> 0 <= a < 2 ^ 48 -> (2 ^ k | a) ->
  Z.land (d + a) (2 ^ k * (2 ^ (48 - k) - 1)) = a.
Proof using Hd.
  intros Hk Hlt [q Hq]. rewrite land_field by lia. pose proof (pow2_pos k ltac:(lia)) as Hp.
  pose proof (pow2_le 12 k ltac:(lia)) as Hle. change (2 ^ 12) with 4096 in Hle.
  rewrite Hq, Z.div_add by lia. rewrite (Z.div_small d) by lia. rewrite Z.add_0_l, Z.mod_small; [lia|].
  rewrite (pow2_split k 48) in Hlt by lia. nia.
Qed.
End FlagsAndAddress.

(** ** What an entry means *)

(** Flags that [reinit] accepts at a level and that make the entry present. *)
Definition valid_flags (l : Level) (flags : list Flag) : Prop :=
  match l with
  | CR3 => flags = []
  | _ => Present ∈ flags /\
         Forall (fun f => is_Some (flag_idx f l true (has_flag flags FPageSize))) flags
  end.

(** Whether an entry with these flags refers to a page. *)
Definition refers_page (l : Level) (flags : list Flag) : bool :=
  match l with
  | CR3 | PML4 => false
  | PDPT | PD => has_flag flags FPageSize
  | PT => true
  end.

(** The alignment that the target needs. *)
Definition target_align (l : Level) (page : bool) : Z :=
  match l, page with
  | PDPT, true => GiB
  | PD, true => 2 * MiB
  | _, _ => TABLE_ALIGNMENT
  end.

Definition target_of (l : Level) (page : bool) (a : Addr UMASpace) : EntryTarget :=
  if page then TPage l a
  else match next_level l with Some n => TTable n a | None => TNone end.

Lemma flag_bits_spec l p s flags : forall d data,
  flag_bits l p s flags d = Some data -> 0 <= d < 512 ->
  0 <= data < 512 /\
  forall i, 0 <= i -> Z.testbit data i = Z.testbit d i || existsb (fun f => bool_decide (flag_idx f l p s = Some i)) flags.
Proof.
  induction flags as [|f flags IH]; intros d data; cbn [flag_bits existsb].
  { intros [= <-] Hd. split; [done|]. intros i _. by rewrite orb_false_r. }
  destruct (flag_idx f l p s) as [j|] eqn:Ej; [|done]. intros H Hd.
  assert (Hj : 0 <= j <= 8).
  { destruct l, p, s, f; cbn in Ej; simplify_eq; lia. }
  assert (Hset : 0 <= Z.setbit d j < 512).
  { unfold Z.setbit. split; [apply Z.lor_nonneg; split; [lia|apply Z.shiftl_nonneg; lia]|].
    destruct (Z.eq_dec (Z.lor d (Z.shiftl 1 j)) 0) as [->|Hne]; [lia|].
    assert (Hpos : 0 <= Z.lor d (Z.shiftl 1 j)) by (apply Z.lor_nonneg; split; [lia|apply Z.shiftl_nonneg; lia]).
    change 512 with (2 ^ 9). apply Z.log2_lt_pow2; [lia|].
    rewrite Z.log2_lor by (try apply Z.shiftl_nonneg; lia). rewrite Z.log2_shiftl by lia.
    apply Z.max_lub_lt; [|change (Z.log2 1) with 0; lia].
    destruct (Z.eq_dec d 0) as [->|]; [done|]. apply Z.log2_lt_pow2; [lia|exact (proj2 Hd)]. }
  destruct (IH _ _ H Hset) as [Hdata Hbits]. split; [done|]. intros i Hi. rewrite Hbits by done.
  rewrite Z.setbit_eqb by lia. rewrite (orb_comm (j =? i)), <- orb_assoc. do 2 f_equal.
  apply eq_true_iff_eq. rewrite Z.eqb_eq, bool_decide_eq_true. naive_solver.
Qed.

(** Different flags have different bits. *)
Lemma flag_idx_inj l p s f g i : flag_idx f l p s = Some i -> flag_idx g l p s = Some i -> f = g.
Proof. destruct l, p, s, f, g; cbn; intros; simplify_eq; done. Qed.

Lemma valid_bits l flags :
  valid_flags l flags ->
  exists data, flag_bits l (has_flag flags Present) (has_flag flags FPageSize) flags 0 = Some data /\
    0 <= data < 512 /\
    (l <> CR3 -> forall f i, flag_idx f l true (has_flag flags FPageSize) = Some i ->
       0 <= i < 12 /\ Z.testbit data i = has_flag flags f).
Proof.
  intros Hv. destruct (decide (l = CR3)) as [->|Hl].
  { cbn in Hv. subst. exists 0. by split_and!. }
  assert (Hv' : Present ∈ flags /\
    Forall (fun f => is_Some (flag_idx f l true (has_flag flags FPageSize))) flags) by by destruct l.
  destruct Hv' as [Hp Hall]. set (s := has_flag flags FPageSize) in *.
  unfold has_flag at 1. rewrite bool_decide_true by done.
  assert (Hsome : forall fl d, Forall (fun f => is_Some (flag_idx f l true s)) fl ->
            exists data, flag_bits l true s fl d = Some data).
  { induction fl as [|f fl IH]; intros d Hf; [by eexists|]. apply Forall_cons in Hf as [[i Hi] Hf].
    cbn. rewrite Hi. by apply IH. }
  destruct (Hsome flags 0 Hall) as [data Ed]. exists data. split; [done|].
  destruct (flag_bits_spec l true s flags 0 data Ed ltac:(lia)) as [Hd Hbits]. split; [done|].
  intros _ f i Hi. assert (Hi8 : 0 <= i < 12) by (destruct l, s, f; cbn in Hi; simplify_eq; lia).
  split; [done|]. rewrite Hbits by lia. rewrite Z.bits_0, orb_false_l. apply eq_true_iff_eq.
  rewrite existsb_exists. unfold has_flag. rewrite bool_decide_eq_true. split.
  - intros (g & Hg & E%bool_decide_eq_true). by rewrite (flag_idx_inj _ _ _ _ _ _ Hi E), list_elem_of_In.
  - intros Hf. exists f. split; [by apply list_elem_of_In|]. by apply bool_decide_eq_true.
Qed.

(** The bits that the flag accessors read, for an entry made of flags and an
    address. *)
Lemma get_flag_idx_made l flags data a f :
  l <> CR3 -> 0 <= data < 4096 -> (4096 | a) -> Present ∈ flags ->
  (forall f i, flag_idx f l true (has_flag flags FPageSize) = Some i ->
     0 <= i < 12 /\ Z.testbit data i = has_flag flags f) ->
  get_flag_idx l (data + a) f = flag_idx f l true (has_flag flags FPageSize).
Proof.
  intros Hl Hd Ha Hp Hb. unfold get_flag_idx.
  assert (E0 : Z.testbit (data + a) 0 = true).
  { rewrite flag_bit by (try done; lia). destruct (Hb Present 0) as [_ ->]; [by destruct l, (has_flag flags FPageSize)|].
    unfold has_flag. by rewrite bool_decide_true. }
  destruct l; [done|cbn [flag_idx pml4_idx]|cbn [flag_idx pdpt_idx]|cbn [flag_idx pd_idx]|cbn [flag_idx pt_idx]];
    rewrite E0; try done.
  all: cbn [pdpt_idx pd_idx]; rewrite flag_bit by (try done; lia);
    destruct (Hb FPageSize 7) as [_ ->]; [by destruct (has_flag flags FPageSize)|done].
Qed.

Lemma entry_flag_made l flags data a f :
  l <> CR3 -> 0 <= data < 4096 -> (4096 | a) -> Present ∈ flags ->
  (forall f i, flag_idx f l true (has_flag flags FPageSize) = Some i ->
     0 <= i < 12 /\ Z.testbit data i = has_flag flags f) ->
  entry_flag l (data + a) f =
    match flag_idx f l true (has_flag flags FPageSize) with
    | Some _ => Some (has_flag flags f)
    | None => None
    end.
Proof.
  intros Hl Hd Ha Hp Hb. unfold entry_flag. rewrite (get_flag_idx_made l flags) by done.
  destruct (flag_idx f l true (has_flag flags FPageSize)) as [i|] eqn:Ei; [|done].
  destruct (Hb f i Ei) as [Hi E]. by rewrite flag_bit, E by done.
Qed.

(** The target of an entry made of flags and an aligned address. *)
Lemma entry_target_made l flags data a :
  valid_flags l flags -> 0 <= data < 4096 -> 0 <= a < range_end UMASpace ->
  (target_align l (refers_page l flags) | a) -> (l = CR3 -> data = 0) ->
  (l <> CR3 -> forall f i, flag_idx f l true (has_flag flags FPageSize) = Some i ->
     0 <= i < 12 /\ Z.testbit data i = has_flag flags f) ->
  entry_target l (data + a) = Ok (target_of l (refers_page l flags) (mkAddr a)).
Proof.
  intros Hv Hd Hr Hal Hc Hb. change (range_end UMASpace) with 70368744177664 in Hr.
  assert (Ha : (4096 | a)).
  { etransitivity; [|exact Hal]. unfold target_align. destruct l, (refers_page _ flags); try done;
      [exists (2 ^ 18)|exists (2 ^ 9)]; reflexivity. }
  assert (Hnew : Addr_new (S := UMASpace) a = Ok (mkAddr a)) by (apply Addr_new_ok; exact Hr).
  assert (F12 : Z.land (data + a) 0x0000FFFFFFFFF000 = a).
  { apply (addr_field data a Hd 12); [lia|change (2 ^ 48) with 281474976710656; lia|exact Ha]. }
  destruct (decide (l = CR3)) as [->|Hl].
  { unfold entry_target. cbn [entry_flag get_flag_idx flag_idx default negb].
    change (0x0000FFFFFFFFF000) with 281474976706560 in F12. rewrite F12, Hnew. done. }
  assert (Hp : Present ∈ flags) by (destruct l; [done|apply Hv..]).
  unfold entry_target. rewrite !(entry_flag_made l flags data a) by (try done; by apply Hb).
  assert (HP : has_flag flags Present = true) by (unfold has_flag; by rewrite bool_decide_true).
  rewrite HP. destruct l; [done|..]; cbn [refers_page target_align] in *.
  - cbn. change 0x0000FFFFFFFFF000 with 281474976706560 in F12. by rewrite F12, Hnew.
  - destruct (has_flag flags FPageSize) eqn:Es; cbn [flag_idx pdpt_idx default negb].
    + change 0x0000FFFFFFFFE000 with (2 ^ 13 * (2 ^ (48 - 13) - 1)).
      rewrite (addr_field data a Hd 13), Hnew; [done|lia|change (2 ^ 48) with 281474976710656; lia|].
      etransitivity; [|exact Hal]. exists (2 ^ 17). reflexivity.
    + change 0x0000FFFFFFFFF000 with 281474976706560 in F12. by rewrite F12, Hnew.
  - destruct (has_flag flags FPageSize) eqn:Es; cbn [flag_idx pd_idx default negb].
    + change 0x0000FFFFFFFFE000 with (2 ^ 13 * (2 ^ (48 - 13) - 1)).
      rewrite (addr_field data a Hd 13), Hnew; [done|lia|change (2 ^ 48) with 281474976710656; lia|].
      etransitivity; [|exact Hal]. exists (2 ^ 8). reflexivity.
    + change 0x0000FFFFFFFFF000 with 281474976706560 in F12. by rewrite F12, Hnew.
  - cbn. change 0x0000FFFFFFFFF000 with 281474976706560 in F12. by rewrite F12, Hnew.
Qed.

(** An entry made by [reinit]: flags below, an aligned address above. *)
Record made (l : Level) (flags : list Flag) (a raw : Z) : Prop := {
  md_flags : valid_flags l flags;
  md_addr : 0 <= a < range_end UMASpace;
  md_align : (target_align l (refers_page l flags) | a);
  md_raw : exists data, raw = data + a /\ 0 <= data < 4096 /\ (l = CR3 -> data = 0) /\
    (l <> CR3 -> forall f i, flag_idx f l true (has_flag flags FPageSize) = Some i ->
       0 <= i < 12 /\ Z.testbit data i = has_flag flags f)
}.

Lemma made_target l flags a raw :
  made l flags a raw -> entry_target l raw = Ok (target_of l (refers_page l flags) (mkAddr a)).
Proof. intros [Hv Ha Hal (data & -> & Hd & Hc & Hb)]. by apply entry_target_made. Qed.

Lemma target_align_pow l page : exists k, 12 <= k <= 30 /\ target_align l page = 2 ^ k.
Proof.
  destruct l, page; first [ exists 12; split; [lia|reflexivity] | exists 21; split; [lia|reflexivity]
                          | exists 30; split; [lia|reflexivity] ].
Qed.

(** [set_addr] puts an aligned address in the place of the old one, and refuses
    any other. *)
Lemma set_addr_made l flags a raw b :
  made l flags a raw -> 0 <= value b < range_end UMASpace ->
  exists raw', set_addr l raw b = Ok (value b mod target_align l (refers_page l flags) =? 0, raw') /\
    if value b mod target_align l (refers_page l flags) =? 0 then made l flags (value b) raw' else raw' = raw.
Proof.
  intros Hm Hb. pose proof (made_target _ _ _ _ Hm) as Et. unfold set_addr. rewrite Et. cbn [obind].
  set (al := target_align l (refers_page l flags)).
  assert (Hset : exists raw', (let! aligned := is_aligned_to b al in
      if negb aligned then Ok (false, raw)
      else let! top := ushl 64 1 48 in let! m := usub 64 top al in
           Ok (true, Z.lor (Z.land raw (unot m)) (value b))) = Ok (value b mod al =? 0, raw') /\
      if value b mod al =? 0 then made l flags (value b) raw' else raw' = raw).
  { destruct (target_align_pow l (refers_page l flags)) as (k & Hk & Ek). fold al in Ek.
    pose proof (pow2_pos k ltac:(lia)) as Hp. pose proof (pow2_le k 30 ltac:(lia)) as H30. change (2 ^ 30) with 1073741824 in H30.
    unfold is_aligned_to. rewrite urem_ok by lia. cbn [obind].
    case_bool (value b mod al =? 0) E; cbn [negb]; [|by eexists].
    apply Z.mod_divide in E; [|lia]. change (ushl 64 1 48) with (Ok 281474976710656). cbn [obind].
    rewrite usub_ok by lia. cbn [obind]. eexists. split; [done|].
    destruct Hm as [Hv Ha Hal (data & -> & Hd & Hc & Hbits)]. fold al in Hal. rewrite UMA_end in *.
    split; [done|by rewrite UMA_end|done|]. exists data. split; [|done].
    replace (281474976710656 - al) with (2 ^ k * (2 ^ (48 - k) - 1)).
    2:{ rewrite Z.mul_sub_distr_l, <- Z.pow_add_r by lia. replace (k + (48 - k)) with 48 by lia.
        rewrite Ek, Z.mul_1_r. done. }
    rewrite Ek in Hal, E. rewrite land_unot, addr_field by (try done; change (2 ^ 48) with 281474976710656; lia).
    replace (data + a - a) with data by lia. apply lor_flags; [done|].
    etransitivity; [|exact E]. change 4096 with (2 ^ 12). apply pow2_divide. lia. }
  unfold target_of, refers_page, target_align in *. destruct l; cbn [next_level] in *; try exact Hset;
    destruct (has_flag flags FPageSize); exact Hset.
Qed.

Lemma reinit_spec l raw b flags :
  valid_flags l flags -> 0 <= value b < range_end UMASpace ->
  exists raw', reinit l raw b flags = Ok (value b mod target_align l (refers_page l flags) =? 0, raw') /\
    made l flags (if value b mod target_align l (refers_page l flags) =? 0 then value b else 0) raw'.
Proof.
  intros Hv Hb. destruct (valid_bits l flags Hv) as (data & Ed & Hd & Hbits).
  assert (Hm : made l flags 0 data).
  { split; [done|rewrite UMA_end; lia|apply Z.divide_0_r|]. exists data. split_and!; [lia..| |done].
    intros ->. cbn in Hv. subst. by injection Ed as <-. }
  destruct (set_addr_made l flags 0 data b Hm Hb) as (raw' & E & Hr).
  exists raw'. unfold reinit. rewrite Ed. split; [exact E|].
  destruct (_ =? 0); [done|by subst].
Qed.

Lemma made_flag l flags a raw f :
  made l flags a raw -> l <> CR3 ->
  entry_flag l raw f = match flag_idx f l true (has_flag flags FPageSize) with
                       | Some _ => Some (has_flag flags f)
                       | None => None
                       end.
Proof.
  intros [Hv Ha Hal (data & -> & Hd & _ & Hb)] Hl. apply entry_flag_made; try done; [| |by apply Hb].
  - destruct (target_align_pow l (refers_page l flags)) as (k & Hk & Ek). rewrite Ek in Hal.
    etransitivity; [|exact Hal]. change 4096 with (2 ^ 12). apply pow2_divide. lia.
  - by destruct l; [done|apply Hv..].
Qed.

(** ** The theorems *)

(** C28: [reinit] with flags that make the entry present at its level and an
    address aligned to its target succeeds whatever the entry held: the entry
    then refers to that page or table, and reads back exactly the flags given. *)
Theorem reinit_correct l raw b flags :
  valid_flags l flags -> 0 <= value b < range_end UMASpace ->
  (target_align l (refers_page l flags) | value b) ->
  exists raw', reinit l raw b flags = Ok (true, raw') /\
    entry_target l raw' = Ok (target_of l (refers_page l flags) b) /\
    (l <> CR3 -> forall f, entry_flag l raw' f =
       match flag_idx f l true (has_flag flags FPageSize) with
       | Some _ => Some (has_flag flags f)
       | None => None
       end).
Proof.
  intros Hv Hb Hal. destruct (reinit_spec l raw b flags Hv Hb) as (raw' & E & Hm).
  destruct (target_align_pow l (refers_page l flags)) as (k & Hk & Ek).
  assert (Hne : target_align l (refers_page l flags) <> 0) by (rewrite Ek; pose proof (pow2_pos k); lia).
  rewrite (proj2 (Z.mod_divide (value b) _ Hne) Hal) in E, Hm. cbn [Z.eqb] in E, Hm.
  exists raw'. split; [done|]. split.
  - rewrite (made_target _ _ _ _ Hm). by destruct b.
  - intros Hl f. by apply made_flag with (a := value b).
Qed.

(** [reinit] with an address that is not aligned to its target returns [None]
    but has overwritten the entry already: it is present and refers to physical
    address 0. *)
Theorem reinit_misaligned l raw b flags :
  valid_flags l flags -> 0 <= value b < range_end UMASpace ->
  value b mod target_align l (refers_page l flags) <> 0 ->
  exists raw', reinit l raw b flags = Ok (false, raw') /\
    entry_target l raw' = Ok (target_of l (refers_page l flags) (mkAddr 0)).
Proof.
  intros Hv Hb Hmis. destruct (reinit_spec l raw b flags Hv Hb) as (raw' & E & Hm).
  rewrite (proj2 (Z.eqb_neq _ 0) Hmis) in E, Hm. exists raw'. split; [done|by apply made_target].
Qed.

(** ** Witnesses *)

Definition demo_flags : list Flag := [Present; FPageSize; Global; ReadWrite].

Lemma demo_flags_valid : valid_flags PD demo_flags.
Proof. split; [by left|]. repeat constructor; by eexists. Qed.

Lemma reinit_correct_witness :
  exists raw', reinit PD 0 (mkAddr 0x600000) demo_flags = Ok (true, raw') /\
    entry_target PD raw' = Ok (TPage PD (mkAddr 0x600000)) /\
    (PD <> CR3 -> forall f, entry_flag PD raw' f =
       match flag_idx f PD true true with Some _ => Some (has_flag demo_flags f) | None => None end).
Proof.
  apply (reinit_correct PD 0 (mkAddr 0x600000) demo_flags demo_flags_valid);
    [vm_compute; split; congruence|by exists 3].
Defined.

Lemma reinit_misaligned_witness :
  exists raw', reinit PD 0 (mkAddr 0x601000) demo_flags = Ok (false, raw') /\
    entry_target PD raw' = Ok (TPage PD (mkAddr 0)).
Proof.
  apply (reinit_misaligned PD 0 (mkAddr 0x601000) demo_flags demo_flags_valid);
    vm_compute; repeat split; congruence.
Defined.
