(* ===== verification/Paging.v ===== *)
(** * Page tables

    [src/src/mem/paging.rs] and [src/src/mem/paging/table.rs]: the walker over the
    four-level tables, mapping a page and translating an address.  Tables live
    in physical memory, which the code reaches through the linear remap; a raw
    entry is an eight-byte word of it, or the [cr3] field of the memory map. *)

From stdpp Require Import gmap.
From S2P Require Import Prelude Addr Phy Entry.

(** ** State *)

(** What a [&mut RawEntry] points to. *)
Inductive Loc := LCr3 | LMem (a : Z).

(** The [X86_64MemoryMap] and the words of physical memory. *)
Record Machine := mkMachine { cr3 : Z; mem : Z -> Z }.

Definition read (st : Machine) (l : Loc) : Z :=
  match l with LCr3 => cr3 st | LMem a => mem st a end.
Definition write (st : Machine) (l : Loc) (v : Z) : Machine :=
  match l with
  | LCr3 => mkMachine v (mem st)
  | LMem a => mkMachine (cr3 st) (fun x => if x =? a then v else mem st x)
  end.

Record EntryRef := mkEntryRef { er_level : Level; er_loc : Loc }.

Definition target (st : Machine) (e : EntryRef) : outcome EntryTarget :=
  entry_target (er_level e) (read st (er_loc e)).

(** [reinit] through a reference. *)
Definition reinit_ref (st : Machine) (e : EntryRef) (a : Addr UMASpace) (flags : list Flag)
    : outcome (bool * Machine) :=
  let! ' (r, raw) := reinit (er_level e) (read st (er_loc e)) a flags in
  Ok (r, write st (er_loc e) raw).

Definition DEFAULT_PAGE_TABLE_FLAGS : list Flag := [Present; ReadWrite].

(** [TableRef::index] and [TableRef::index_with_vaddr] on the table at [a]. *)
Definition index (l : Level) (a : Addr UMASpace) (idx : Z) : outcome EntryRef :=
  check! idx <? TABLE_LEN in Ok (mkEntryRef l (LMem (value a + 8 * idx))).
Definition index_with_vaddr {V : Type} `{VirtSpace V} (l : Level) (a : Addr UMASpace) (v : Addr V)
    : outcome EntryRef :=
  let! ' (lo, hi) := page_table_idx_range l in
  let! idx := index_range v lo hi in
  index l a idx.

(** ** The walker *)

Section Walker.
Context {V A : Type} `{VirtSpace V} `{Allocator UMASpace A}.
Implicit Types (st : Machine) (e : EntryRef) (v : Addr V) (al : A).

Definition down_with_table v (table_paddr : Addr UMASpace) (table_level : Level) : outcome EntryRef :=
  let! _ := p2v table_paddr in index_with_vaddr table_level table_paddr v.

(** [LinearWalker::try_down]: the entry below, if the current one refers to a
    table. *)
Definition try_down st e v : outcome (option EntryRef) :=
  match next_level (er_level e) with
  | None => Ok None
  | Some _ =>
      let! t := target st e in
      match t with
      | TTable l a => let! e' := down_with_table v a l in Ok (Some e')
      | _ => Ok None
      end
  end.

(** [LinearWalker::down]: creates the table below where there is none. *)
Definition walker_down st al e v : outcome (EntryRef * Machine * A) :=
  match next_level (er_level e) with
  | None => Ok (e, st, al)
  | Some table_level =>
      let! t := target st e in
      match t with
      | TNone | TPage _ _ =>
          let! ' (r, al) := allocate (PageSize_layout Small) al in
          let! range := oexpect r in
          let table_paddr := ar_base range in
          let! ' (_, st) := reinit_ref st e table_paddr DEFAULT_PAGE_TABLE_FLAGS in
          let! e' := down_with_table v table_paddr table_level in
          Ok (e', st, al)
      | TTable l a => let! e' := down_with_table v a l in Ok (e', st, al)
      end
  end.

(** The loop of [map]. *)
Fixpoint down_to (fuel : nat) st al e v (target_level : Level) : outcome (EntryRef * Machine * A) :=
  match fuel with
  | O => OutOfFuel
  | S fuel =>
      if decide (er_level e = target_level) then Ok (e, st, al)
      else let! ' (e, st, al) := walker_down st al e v in down_to fuel st al e v target_level
  end.

(** There are five levels. *)
Definition WALK_FUEL : nat := 5.

(** [X86_64MemoryMap::map]; the result of the last [reinit] is not looked at.
    The kernel map lock is taken and released without effect on the state. *)
Definition map_page st al (vpage : PageAddr V) (ppage : PageAddr UMASpace) (flags : list Flag)
    : outcome (option unit * Machine * A) :=
  check! bool_decide (page_size vpage = page_size ppage) in
  let target_level := from_page_size (page_size vpage) in
  let! ' (e, st, al) := down_to WALK_FUEL st al (mkEntryRef CR3 LCr3) (page_base vpage) target_level in
  let! ' (_, st) := reinit_ref st e (page_base ppage) flags in
  Ok (Some tt, st, al).

(** [while walker.try_down().is_some() {}] and the final [match] of
    [translate]. *)
Fixpoint translate_from (fuel : nat) st e v : outcome (option (Addr UMASpace)) :=
  match fuel with
  | O => OutOfFuel
  | S fuel =>
      let! o := try_down st e v in
      match o with
      | Some e' => translate_from fuel st e' v
      | None =>
          let! t := target st e in
          match t with
          | TNone => Ok None
          | TPage _ a => Ok (Some a)
          | TTable _ _ => Panic
          end
      end
  end.

Definition translate st v : outcome (option (Addr UMASpace)) :=
  translate_from WALK_FUEL st (mkEntryRef CR3 LCr3) v.
End Walker.

(** ** Well-formed tables *)

(** The place of a level in the hierarchy. *)
Definition level_no (l : Level) : nat :=
  match l with CR3 => 0 | PML4 => 1 | PDPT => 2 | PD => 3 | PT => 4 end.

(** A table's worth of physical memory. *)
Definition table_place (a : Z) : Prop :=
  0 <= a /\ a + TABLE_SIZE <= range_end UMASpace /\ (TABLE_SIZE | a).

(** An entry that can be read, and whose table, if any, is one of [T]. *)
Definition entry_ok (T : gmap Z Level) (l : Level) (raw : Z) : Prop :=
  match entry_target l raw with
  | Ok (TTable l' a) => T !! value a = Some l'
  | Ok _ => True
  | _ => False
  end.

(** Every table reachable from [cr3] is in [T], at one level. *)
Record tables_ok (st : Machine) (T : gmap Z Level) : Prop := {
  to_cr3 : exists a, entry_target CR3 (cr3 st) = Ok (TTable PML4 a) /\ T !! value a = Some PML4;
  to_place : forall a l, T !! a = Some l -> l <> CR3 /\ table_place a;
  to_entries : forall a l i, T !! a = Some l -> 0 <= i < TABLE_LEN -> entry_ok T l (mem st (a + 8 * i))
}.

(** The reference points to an entry of the table tree. *)
Definition ref_ok (T : gmap Z Level) (e : EntryRef) : Prop :=
  match er_level e with
  | CR3 => er_loc e = LCr3
  | l => exists a i, T !! a = Some l /\ 0 <= i < TABLE_LEN /\ er_loc e = LMem (a + 8 * i)
  end.
