(* ===== verification/PagingTheorems.v ===== *)
(** * Walking the page tables

    What the walker meets in well-formed tables, and the tables it makes, with any allocator
    that satisfies the [TableAllocator] interface; the boot memory manager is one. *)

From stdpp Require Import gmap.
From S2P Require Import Prelude Addr Memblock MemblockTheorems Phy Entry Paging.

(** ** The interface to the allocator *)

(** Memory that is not part of a table of [T] is the same. *)
Definition same_outside (T : gmap Z Level) (st st' : Machine) : Prop :=
  forall a i, T !! a = None -> table_place a -> 0 <= i < TABLE_LEN ->
    mem st' (a + 8 * i) = mem st (a + 8 * i).

(** What mapping needs from an allocator: [spare n al st T] says that [n] more
    requests for a table succeed, each with zeroed memory outside [T], and that
    the allocator keeps its promise while only tables change. *)
Class TableAllocator (A : Type) `{Allocator UMASpace A} := {
  spare : nat -> A -> Machine -> gmap Z Level -> Prop;
  spare_alloc : forall n al st T, spare (S n) al st T ->
    exists r al', allocate (PageSize_layout Small) al = Ok (Some r, al') /\
      table_place (value (ar_base r)) /\ T !! value (ar_base r) = None /\
      (forall i, 0 <= i < TABLE_LEN -> mem st (value (ar_base r) + 8 * i) = 0) /\
      forall l, spare n al' st (<[value (ar_base r) := l]> T);
  spare_frame : forall n al st st' T, same_outside T st st' -> spare n al st T -> spare n al st' T;
  spare_less : forall n al st T, spare (S n) al st T -> spare n al st T
}.

Lemma spare_le {A} `{TableAllocator A} m n (al : A) st T :
  (m <= n)%nat -> spare n al st T -> spare m al st T.
Proof. induction 1 as [|n _ IH]; [done|]. intros Hs. by apply IH, spare_less. Qed.

(** ** Locations *)

Lemma TABLE_SIZE_eq : TABLE_SIZE = 4096.
Proof. reflexivity. Qed.
Lemma TABLE_LEN_eq : TABLE_LEN = 512.
Proof. reflexivity. Qed.

(** Entries of different tables are different words. *)
Lemma slot_inj a b i j :
  (TABLE_SIZE | a) -> (TABLE_SIZE | b) -> 0 <= i < TABLE_LEN -> 0 <= j < TABLE_LEN ->
  a + 8 * i = b + 8 * j -> a = b /\ i = j.
Proof.
  rewrite TABLE_SIZE_eq, TABLE_LEN_eq. intros [x ->] [y ->] Hi Hj E. assert (x = y) by lia. lia.
Qed.

Definition level_lo (l : Level) : Z :=
  match l with CR3 => 48 | PML4 => 39 | PDPT => 30 | PD => 21 | PT => 12 end.
(** The index of an address in a table of the level. *)
Definition vidx (l : Level) (x : Z) : Z := (x / 2 ^ level_lo l) mod 512.

Lemma vidx_bound l x : 0 <= vidx l x < TABLE_LEN.
Proof. unfold vidx. rewrite TABLE_LEN_eq. by apply Z.mod_pos_bound. Qed.

Lemma index_range_ok {V} `{VirtSpace V} (v : Addr V) lo :
  0 <= lo <= 39 -> index_range v lo (lo + 9) = Ok ((value v / 2 ^ lo) mod 512).
Proof.
  intros Hlo. unfold index_range. case_bool_lia.
  pose proof (pow2_pos (lo + 9) ltac:(lia)) as Hp. pose proof (pow2_le (lo + 9) 48 ltac:(lia)) as Hle.
  change (2 ^ 48) with 281474976710656 in Hle.
  rewrite ushl_ok, Z.mul_1_l by lia. cbn [obind]. rewrite usub_ok by lia. cbn [obind].
  replace (2 ^ (lo + 9) - 1) with (Z.ones (lo + 9)) by (rewrite Z.ones_equiv; lia).
  rewrite Z.land_ones, ushr_ok by lia. f_equal. change 512 with (2 ^ 9).
  rewrite Z.pow_add_r by lia. rewrite Z.rem_mul_r by (try apply Z.pow_nonzero; lia).
  rewrite Z.add_comm, Z.mul_comm, Z.div_add_l by (apply Z.pow_nonzero; lia).
  rewrite (Z.div_small (value v mod 2 ^ lo)); [lia|]. apply Z.mod_pos_bound, pow2_pos. lia.
Qed.

Lemma down_with_table_ok {V} `{VirtSpace V} (v : Addr V) a l :
  table_place (value a) -> l <> CR3 ->
  down_with_table v a l = Ok (mkEntryRef l (LMem (value a + 8 * vidx l (value v)))).
Proof.
  intros (H0 & Hend & _) Hl. rewrite UMA_end, TABLE_SIZE_eq in Hend. unfold down_with_table, p2v.
  change REMAP_OFFSET with 0xFFFF888000000000. rewrite uadd_ok by lia. cbn [obind].
  rewrite Addr_new_ok by (cbn; lia). cbn [obind]. unfold index_with_vaddr.
  assert (Hr : page_table_idx_range l = Ok (level_lo l, level_lo l + 9)) by by destruct l.
  assert (Hlo : 0 <= level_lo l <= 39) by by destruct l.
  rewrite Hr. cbn [obind]. rewrite index_range_ok by done. cbn [obind]. unfold index.
  fold (vidx l (value v)). pose proof (vidx_bound l (value v)). by case_bool_lia.
Qed.

(** ** Updates of the table tree *)

Lemma entry_target_zero l : l <> CR3 -> entry_target l 0 = Ok TNone.
Proof. by destruct l. Qed.

Lemma entry_ok_mono T T' l raw : T ⊆ T' -> entry_ok T l raw -> entry_ok T' l raw.
Proof.
  unfold entry_ok. intros HT. destruct (entry_target l raw) as [[]| |]; try done.
  intros Ha. by apply (lookup_weaken _ _ _ _ Ha).
Qed.

Lemma tables_ok_fresh st T a l :
  tables_ok st T -> table_place a -> T !! a = None -> l <> CR3 ->
  (forall i, 0 <= i < TABLE_LEN -> mem st (a + 8 * i) = 0) -> tables_ok st (<[a := l]> T).
Proof.
  intros [(r & Hr & HrT) Hp He] Ha Hn Hl Hz.
  assert (HT : T ⊆ <[a := l]> T) by by apply insert_subseteq.
  split.
  - exists r. split; [done|]. by apply (lookup_weaken _ _ _ _ HrT HT).
  - intros b l' [[<- <-]|[_ Hb]]%lookup_insert_Some; [done|by apply Hp].
  - intros b l' i [[<- <-]|[_ Hb]]%lookup_insert_Some Hi.
    + rewrite Hz by done. unfold entry_ok. by rewrite entry_target_zero.
    + eapply entry_ok_mono; [exact HT|by apply He].
Qed.

(** Writing an entry below the root. *)
Lemma tables_ok_write st T e raw :
  tables_ok st T -> ref_ok T e -> er_level e <> CR3 -> entry_ok T (er_level e) raw ->
  tables_ok (write st (er_loc e) raw) T.
Proof.
  intros [Hr Hp He] Href Hl Hraw. destruct e as [l loc]. cbn [er_level er_loc] in *.
  assert (Href' : exists a i, T !! a = Some l /\ 0 <= i < TABLE_LEN /\ loc = LMem (a + 8 * i)) by by destruct l.
  destruct Href' as (a & i & Ha & Hi & ->). split; cbn; [done..|].
  intros b l' j Hb Hj. case_bool (b + 8 * j =? a + 8 * i) E; [|by apply He].
  destruct (slot_inj b a j i) as [-> ->]; try done; [by apply (Hp b l')|by apply (Hp a l)|]. congruence.
Qed.

Lemma same_outside_write st T e raw :
  tables_ok st T -> ref_ok T e -> same_outside T st (write st (er_loc e) raw).
Proof.
  intros [_ Hp _] Href a i Ha Hpl Hi. destruct e as [l loc]. unfold ref_ok in Href; cbn in *.
  assert (Hcase : loc = LCr3 \/ exists b j, T !! b = Some l /\ 0 <= j < TABLE_LEN /\ loc = LMem (b + 8 * j))
    by (destruct l; [by left|by right..]).
  destruct Hcase as [->|(b & j & Hb & Hj & ->)]; cbn; [done|].
  case_bool (a + 8 * i =? b + 8 * j) E; [|done].
  destruct (slot_inj a b i j) as [-> _]; try done; [apply Hpl|by apply (Hp b l)|]. congruence.
Qed.

(** The entry a reference points to. *)
Lemma target_ref_ok st T e :
  tables_ok st T -> ref_ok T e -> entry_ok T (er_level e) (read st (er_loc e)).
Proof.
  intros [(r & Hr & HrT) Hp He] Href. destruct e as [l loc]. unfold ref_ok in Href; cbn [er_level er_loc] in *.
  destruct l; [subst; cbn [read]; unfold entry_ok; by rewrite Hr|..];
    destruct Href as (a & i & Ha & Hi & ->); by apply He.
Qed.

(** Entries refer to tables of the next level. *)
Lemma entry_target_next l raw l' a : entry_target l raw = Ok (TTable l' a) -> next_level l = Some l'.
Proof.
  unfold entry_target. destruct (negb _); [done|]. intros H. inv_ok_step H.
  destruct l, (entry_flag _ raw FPageSize) as [[]|]; cbn in H |- *; congruence.
Qed.

Lemma next_level_no l l' : next_level l = Some l' -> level_no l' = S (level_no l) /\ l' <> CR3.
Proof. destruct l; cbn; intros [= <-]; done. Qed.

Lemma read_write_other st e e' T raw :
  tables_ok st T -> ref_ok T e -> ref_ok T e' -> er_level e <> er_level e' ->
  read (write st (er_loc e) raw) (er_loc e') = read st (er_loc e').
Proof.
  intros [_ Hp _] He He' Hne. destruct e as [l loc], e' as [l' loc']. unfold ref_ok in *; cbn in *.
  assert (H1 : (l = CR3 /\ loc = LCr3) \/ exists a i, T !! a = Some l /\ 0 <= i < TABLE_LEN /\ loc = LMem (a + 8 * i))
    by (destruct l; [by left|by right..]).
  assert (H2 : (l' = CR3 /\ loc' = LCr3) \/ exists a i, T !! a = Some l' /\ 0 <= i < TABLE_LEN /\ loc' = LMem (a + 8 * i))
    by (destruct l'; [by left|by right..]).
  destruct H1 as [[-> ->]|(a & i & Ha & Hi & ->)], H2 as [[-> ->]|(b & j & Hb & Hj & ->)]; cbn; try done.
  case_bool (b + 8 * j =? a + 8 * i) E; [|done].
  destruct (slot_inj b a j i) as [-> _]; try done; [by apply (Hp b l')|by apply (Hp a l)|congruence].
Qed.

Lemma ref_ok_mono T T' e : T ⊆ T' -> ref_ok T e -> ref_ok T' e.
Proof.
  unfold ref_ok. intros HT. destruct (er_level e); [done|..];
    intros (a & i & Ha & Hi & E); exists a, i; (split; [by apply (lookup_weaken _ _ _ _ Ha)|done]).
Qed.

Lemma read_write_same st l raw : read (write st l raw) l = raw.
Proof. destruct l; cbn; [done|]. by rewrite Z.eqb_refl. Qed.

Lemma ref_ok_slot T a l i :
  T !! a = Some l -> l <> CR3 -> 0 <= i < TABLE_LEN -> ref_ok T (mkEntryRef l (LMem (a + 8 * i))).
Proof. intros Ha Hl Hi. unfold ref_ok; cbn. destruct l; [done|by exists a, i..]. Qed.

(** ** Walking down *)

Section Walk.
Context {V A : Type} `{VirtSpace V} `{TableAllocator A} (v : Addr V).

Lemma try_down_read st st' e :
  read st' (er_loc e) = read st (er_loc e) -> try_down st' e v = try_down st e v.
Proof using. intros E. unfold try_down, target. by rewrite E. Qed.

Lemma try_down_table st T e l a :
  tables_ok st T -> ref_ok T e -> target st e = Ok (TTable l a) ->
  let e' := mkEntryRef l (LMem (value a + 8 * vidx l (value v))) in
  down_with_table v a l = Ok e' /\ try_down st e v = Ok (Some e') /\ ref_ok T e'.
Proof using.
  intros Ht Hr Et e'. pose proof (target_ref_ok st T e Ht Hr) as Hok. unfold entry_ok in Hok.
  unfold target in Et. rewrite Et in Hok. destruct (to_place st T Ht _ _ Hok) as [Hl Hpl].
  pose proof (entry_target_next _ _ _ _ Et) as Hn. pose proof (down_with_table_ok v a l Hpl Hl) as Ed.
  split; [done|]. split.
  - unfold try_down, target. rewrite Hn, Et. cbn [obind]. by rewrite Ed.
  - apply ref_ok_slot; [done..|apply vidx_bound].
Qed.

Lemma table_flags_valid l : l <> CR3 -> is_Some (next_level l) ->
  valid_flags l DEFAULT_PAGE_TABLE_FLAGS /\ refers_page l DEFAULT_PAGE_TABLE_FLAGS = false.
Proof using.
  intros Hl [n Hn]. destruct l; try done; split; try done; (split; [by left|]); repeat constructor; by eexists.
Qed.

Lemma try_down_inv st T e e1 :
  tables_ok st T -> ref_ok T e -> try_down st e v = Ok (Some e1) ->
  exists l a, target st e = Ok (TTable l a) /\ e1 = mkEntryRef l (LMem (value a + 8 * vidx l (value v))).
Proof using.
  intros Ht Hr E. pose proof (target_ref_ok st T e Ht Hr) as Hok. unfold entry_ok in Hok. fold (target st e) in Hok.
  destruct (target st e) as [[|l a|k a]| |] eqn:Et; try done; try (unfold try_down in E; rewrite Et in E; by destruct (next_level _)).
  destruct (try_down_table st T e l a Ht Hr Et) as (_ & E' & _). rewrite E' in E. injection E as <-. by exists l, a.
Qed.

(** The word [raw] for the entry [e] refers to the fresh table at [a], which has no
    entries. *)
Record new_table (st : Machine) (T : gmap Z Level) (e : EntryRef) (l : Level) (a : Addr UMASpace) (raw : Z) : Prop := {
  nt_place : table_place (value a);
  nt_fresh : T !! value a = None;
  nt_zero i : 0 <= i < TABLE_LEN -> mem st (value a + 8 * i) = 0;
  nt_next : next_level (er_level e) = Some l;
  nt_target : entry_target (er_level e) raw = Ok (TTable l a);
  nt_level : er_level e <> CR3
}.

Lemma new_table_ok st T e l a raw :
  tables_ok st T -> ref_ok T e -> new_table st T e l a raw ->
  tables_ok (write st (er_loc e) raw) (<[value a := l]> T) /\ T ⊆ <[value a := l]> T /\
  same_outside (<[value a := l]> T) st (write st (er_loc e) raw).
Proof using.
  intros Ht Hr [N1 N2 N3 N4 N5 N6]. destruct (next_level_no _ _ N4) as [_ Hl].
  assert (Hsub : T ⊆ <[value a := l]> T) by by apply insert_subseteq. pose proof (ref_ok_mono _ _ _ Hsub Hr) as Hr'.
  pose proof (tables_ok_fresh st T (value a) l Ht N1 N2 Hl N3) as Ht'.
  split; [|split; [done|by apply same_outside_write]]. apply tables_ok_write; [done..|].
  unfold entry_ok. rewrite N5. apply lookup_insert_eq.
Qed.

(** Where there is no table, [walker_down] makes one. *)
Lemma down_makes_table st al T e n l :
  next_level (er_level e) = Some l -> er_level e <> CR3 -> tables_ok st T -> ref_ok T e ->
  spare (S n) al st T -> (target st e = Ok TNone \/ exists k a, target st e = Ok (TPage k a)) ->
  exists r raw al', let a := ar_base r in allocate (PageSize_layout Small) al = Ok (Some r, al') /\
    new_table st T e l a raw /\
    walker_down st al e v = Ok (mkEntryRef l (LMem (value a + 8 * vidx l (value v))), write st (er_loc e) raw, al') /\
    spare n al' (write st (er_loc e) raw) (<[value a := l]> T).
Proof using.
  intros Hn Hl Ht Hr Hsp Htgt. destruct (next_level_no _ _ Hn) as [_ Hl'].
  destruct (spare_alloc n al st T Hsp) as (r & al' & Ea & Hpl & HT & Hz & Hsp'). set (a := ar_base r) in *.
  destruct (table_flags_valid (er_level e) Hl ltac:(by eexists)) as [Hv Hp].
  assert (Hrange : 0 <= value a < range_end UMASpace).
  { destruct Hpl as (? & Hend & _). rewrite UMA_end, TABLE_SIZE_eq in *. lia. }
  destruct (reinit_spec (er_level e) (read st (er_loc e)) a DEFAULT_PAGE_TABLE_FLAGS Hv Hrange) as (raw & Er & Hm).
  rewrite Hp in Er, Hm.
  assert (Hal : value a mod target_align (er_level e) false = 0).
  { replace (target_align (er_level e) false) with TABLE_SIZE by by destruct (er_level e).
    apply Z.mod_divide; [done|apply Hpl]. }
  rewrite Hal in Er, Hm. cbn [Z.eqb] in Er, Hm. apply made_target in Hm. rewrite Hp in Hm.
  assert (Hnt : new_table st T e l a raw).
  { split; try done. rewrite Hm. unfold target_of. rewrite Hn. by destruct a. }
  exists r, raw, al'. fold a. split; [done|]. split; [done|]. split.
  - unfold walker_down. rewrite Hn. destruct Htgt as [->|(k & b & ->)]; cbn [obind];
      rewrite Ea; cbn [obind oexpect]; fold a; unfold reinit_ref; rewrite Er; cbn [obind];
      rewrite (down_with_table_ok v a l Hpl Hl'); reflexivity.
  - destruct (new_table_ok _ _ _ _ _ _ Ht Hr Hnt) as (_ & _ & Hs). by apply (spare_frame _ _ st).
Qed.

(** The entries that [n] steps of the walker visit. *)
Fixpoint path (T : gmap Z Level) (st : Machine) (e : EntryRef) (n : nat) (e' : EntryRef) : Prop :=
  match n with
  | O => e = e'
  | S n => ref_ok T e /\ exists e1, try_down st e v = Ok (Some e1) /\
             level_no (er_level e1) = S (level_no (er_level e)) /\ path T st e1 n e'
  end.

Lemma path_level T st e n e' : path T st e n e' -> (level_no (er_level e') = level_no (er_level e) + n)%nat.
Proof using.
  revert e. induction n as [|n IH]; intros e; cbn [path]; [intros ->; lia|].
  intros (_ & e1 & _ & Hl & Hp). rewrite (IH _ Hp), Hl. lia.
Qed.

Lemma level_no_inj l l' : level_no l = level_no l' -> l = l'.
Proof using. by destruct l, l'. Qed.

(** Writing the last entry does not disturb the way to it. *)
Lemma path_write T st e n e' raw :
  tables_ok st T -> ref_ok T e' -> path T st e n e' -> path T (write st (er_loc e') raw) e n e'.
Proof using.
  intros Ht Hr'. revert e. induction n as [|n IH]; intros e Hp; [done|].
  pose proof (path_level _ _ _ _ _ Hp) as Hlev. destruct Hp as (Hr & e1 & Ed & Hl & Hp).
  split; [done|]. exists e1. split_and!; [|done|by apply IH].
  rewrite <- Ed. apply try_down_read. apply (read_write_other st e' e T); try done.
  intros E. rewrite E in Hlev. lia.
Qed.

Lemma translate_path T st e n e' fuel r :
  path T st e n e' -> (n < fuel)%nat -> (forall fuel, (0 < fuel)%nat -> translate_from fuel st e' v = r) ->
  translate_from fuel st e v = r.
Proof using.
  revert e fuel. induction n as [|n IH]; intros e fuel Hp Hf Hr; cbn [path] in Hp; [subst; by apply Hr|].
  destruct fuel as [|fuel]; [lia|]. destruct Hp as (_ & e1 & Ed & _ & Hp).
  cbn [translate_from]. rewrite Ed. cbn [obind]. apply IH; [done|lia|done].
Qed.

Lemma translate_page st e k a fuel :
  target st e = Ok (TPage k a) -> (0 < fuel)%nat -> translate_from fuel st e v = Ok (Some a).
Proof using.
  intros Et Hf. destruct fuel as [|fuel]; [lia|]. cbn [translate_from]. unfold try_down.
  destruct (next_level (er_level e)); cbn [obind]; rewrite Et; done.
Qed.

End Walk.

(** ** Addresses of one page *)

(** Addresses with the same indices down to the level take the same way. *)
Lemma path_ext {V W} `{VirtSpace V} `{VirtSpace W} (v : Addr V) (x : Addr W) T st e' n : forall e,
  tables_ok st T -> path v T st e n e' ->
  (forall l, l <> CR3 -> (level_no l <= level_no (er_level e'))%nat -> vidx l (value x) = vidx l (value v)) ->
  path x T st e n e'.
Proof.
  induction n as [|n IH]; intros e Ht Hp Hx; [done|].
  destruct Hp as (Hr & e1 & Ed & Hl & Hp). pose proof (path_level _ _ _ _ _ _ Hp) as Hlev.
  split; [done|]. exists e1. split_and!; [|done|by apply IH].
  destruct (try_down_inv v st T e e1 Ht Hr Ed) as (l & a & Et & ->).
  destruct (try_down_table x st T e l a Ht Hr Et) as (_ & E2 & _).
  rewrite E2, Hx; [done| |cbn in Hlev; lia].
  apply entry_target_next, next_level_no in Et. apply Et.
Qed.

(** ** The boot memory manager as an allocator of tables *)

(** The current block has [n] more zeroed tables to give, none of them in use. *)
Definition boot_spare (n : nat) (s : MemblockSystem) (st : Machine) (T : gmap Z Level) : Prop :=
  sys_ok s /\ exists p o, partial_block s = Some p /\ (TABLE_SIZE | o) /\
    ms_offset s <= o < ms_offset s + TABLE_SIZE /\ o + Z.of_nat n * TABLE_SIZE <= mb_size p /\
    (forall a i, (TABLE_SIZE | a) -> o <= a < o + Z.of_nat n * TABLE_SIZE -> 0 <= i < TABLE_LEN ->
       mem st (a + 8 * i) = 0) /\
    (forall a, o <= a < o + Z.of_nat n * TABLE_SIZE -> T !! a = None).

Lemma boot_spare_less n s st T : boot_spare (S n) s st T -> boot_spare n s st T.
Proof.
  intros (Hs & p & o & Hp & Hal & Ho & Hsz & Hz & HT). split; [done|]. exists p, o.
  rewrite TABLE_SIZE_eq in *. split_and!; try done; try lia.
  - intros a i Ha Hr Hi. apply Hz; [done|lia|done].
  - intros a Hr. apply HT. lia.
Qed.

Lemma boot_spare_frame n s st st' T : same_outside T st st' -> boot_spare n s st T -> boot_spare n s st' T.
Proof.
  intros Hsame (Hs & p & o & Hp & Hal & Ho & Hsz & Hz & HT). split; [done|]. exists p, o.
  pose proof (partial_size s p Hs Hp) as Hpok. pose proof (so_offset s Hs p Hp) as Hoff.
  split_and!; try done; try lia. intros a i Ha Hr Hi. rewrite <- (Hz a i) by done. apply Hsame; [by apply HT| |done].
  unfold block_ok, mb_end in Hpok. rewrite TABLE_SIZE_eq in *.
  assert (a + 4096 <= o + Z.of_nat n * 4096).
  { apply (multiple_le 4096); [lia|by rewrite <- (Z.mul_1_l 4096) at 2; apply multiple_add|by apply multiple_add|lia]. }
  split; [lia|]. rewrite TABLE_SIZE_eq. split; [lia|done].
Qed.

Lemma boot_spare_alloc n s st T : boot_spare (S n) s st T ->
  exists r s', allocate (PageSize_layout Small) s = Ok (Some r, s') /\
    table_place (value (ar_base r)) /\ T !! value (ar_base r) = None /\
    (forall i, 0 <= i < TABLE_LEN -> mem st (value (ar_base r) + 8 * i) = 0) /\
    forall l, boot_spare n s' st (<[value (ar_base r) := l]> T).
Proof.
  intros (Hs & p & o & Hp & Hal & Ho & Hsz & Hz & HT).
  pose proof (partial_size s p Hs Hp) as Hpok. pose proof (so_offset s Hs p Hp) as Hoff.
  rewrite TABLE_SIZE_eq in *.
  destruct (reserve_loop_spec (PageSize_layout Small) (length (free_blocks s) + 2) s)
    as (r & s' & E & Hr); [by vm_compute|done|done|done|].
  destruct Hr as (_ & Hs' & _ & Hr). change (layout_align (PageSize_layout Small)) with 4096 in Hr.
  assert (Hroom : room p (ms_offset s) (PageSize_layout Small)).
  { exists o. split_and!; [done|lia|]. change (layout_size (PageSize_layout Small)) with 4096. lia. }
  destruct r as [a|]; [|destruct Hr as (_ & Hno & _); by destruct (Hno p Hp)].
  destruct Hr as (p' & Hp' & Hd & Hoff' & [(Hp1 & _ & Hb)|(q & sk & Hq & Hno & _)]); [|by simplify_eq].
  assert (value a = o) as Ea.
  { apply (multiple_unique 4096 (ms_offset s)); [lia|done|done|lia|lia]. }
  assert (p' = p) as -> by congruence. change (layout_size (PageSize_layout Small)) with 4096 in Hoff'.
  eexists (mkAddrRange a 4096), s'. split.
  { cbn [allocate BootMemoryManager]. unfold boot_allocate, memblock_reserve. rewrite E. reflexivity. }
  cbn [ar_base]. rewrite Ea. unfold block_ok, mb_end in Hpok. split_and!.
  - split; [lia|]. rewrite TABLE_SIZE_eq. split; [lia|done].
  - apply HT. lia.
  - intros i Hi. apply Hz; [done|lia|done].
  - intros l. split; [done|]. exists p, (o + 4096). rewrite TABLE_SIZE_eq. split_and!; try done; try lia.
    + rewrite <- (Z.mul_1_l 4096). by apply multiple_add.
    + intros b i Hba Hbr Hi. apply Hz; [done|lia|done].
    + intros b Hbr. apply lookup_insert_None. split; [apply HT; lia|lia].
Qed.

#[export] Instance boot_table_allocator : TableAllocator MemblockSystem := {
  spare := boot_spare;
  spare_alloc := boot_spare_alloc;
  spare_frame := boot_spare_frame;
  spare_less := boot_spare_less
}.

(** ** Concrete machines *)

(** A root table at [0x1000] and nothing mapped; the rest of memory holds [w]. *)
Definition demo_machine (w : Z) : Machine :=
  mkMachine 0x1000 (fun x => if (0x1000 <=? x) && (x <? 0x2000) then 0 else w).
Definition demo_boot : MemblockSystem :=
  mkMemblockSystem [] [] (Some (mkMemblock (mkAddr 0x100000) 0x80000 Free)) 0x2000
    (mkAddrRange (mkAddr 0x100000) 0x80000) false.
Definition demo_vpage : PageAddr DataStackSpace := mkPageAddr (mkAddr 0xFFFFC90000200000) Small.
Definition demo_ppage : PageAddr UMASpace := mkPageAddr (mkAddr 0x345000) Small.
Definition demo_other : Addr DataStackSpace := mkAddr 0xFFFFC90000400000.

(** Mapping does not clear the tables it creates.  When the allocator hands
    out memory with old contents, an address that was not mapped, and that was
    not asked to be mapped, translates afterwards. *)
Theorem map_keeps_stale_entries :
  translate (demo_machine 0x777083) demo_other = Ok None /\
  (let! ' (r, st', _) := map_page (demo_machine 0x777083) demo_boot demo_vpage demo_ppage [Present] in
   let! a := translate st' demo_other in Ok (r, a)) = Ok (Some tt, Some (mkAddr 0x776000)).
Proof. split; vm_compute; reflexivity. Qed.

(** A page entry cannot have these flags: nothing is mapped, and [map] reports
    success. *)
Lemma map_ignores_bad_flags :
  (let! ' (r, st', _) := map_page (demo_machine 0) demo_boot demo_vpage demo_ppage [Present; FPageSize] in
   let! a := translate st' (page_base demo_vpage) in Ok (r, a)) = Ok (Some tt, None).
Proof. vm_compute. reflexivity. Qed.

Lemma demo_tables_ok : tables_ok (demo_machine 0) {[0x1000 := PML4]}.
Proof.
  split.
  - exists (mkAddr 0x1000). split; [vm_compute; reflexivity|]. apply lookup_singleton_eq.
  - intros a l [<- <-]%lookup_singleton_Some. split; [done|].
    split; [lia|]. split; [vm_compute; congruence|by exists 1].
  - intros a l i [<- <-]%lookup_singleton_Some Hi. cbn [mem demo_machine].
    destruct ((_ <=? _) && _); done.
Qed.

Lemma demo_boot_spare : spare 4 demo_boot (demo_machine 0) {[0x1000 := PML4]}.
Proof.
  split.
  - split; [split; repeat constructor; vm_compute; congruence|vm_compute; congruence|done|
            intros p [= <-]; vm_compute; split; congruence|done].
  - eexists _, 0x2000. split_and!; [reflexivity|by exists 2|done|done|vm_compute; congruence| |].
    + intros a i _ _ _. cbn [mem demo_machine]. by destruct ((_ <=? _) && _).
    + intros a Ha. apply lookup_singleton_None. lia.
Qed.

