(* ===== verification/PageAlloc.v ===== *)
(** * Page allocators

    [src/src/mem/alloc/page.rs] and the helpers of [src/src/mem/alloc.rs]: the
    allocators that hand out whole pages of the physical memory manager, as
    physical ranges and as pointers into the remap. *)

From stdpp Require Export gmap.
From S2P Require Import Prelude Addr Phy.

(** [core::alloc::Allocator], over the state an implementation keeps: a pointer
    and the length of the block, or [AllocError]. *)
Class CoreAllocator (St : Type) := {
  allocate_ptr : Layout -> St -> outcome (option (Z * Z) * St);
  deallocate_ptr : Z -> Layout -> St -> outcome St
}.

(** [NonNull::<u8>::dangling()] *)
Definition dangling : Z := 1.

Definition allocate_if_zst (layout : Layout) : option (Z * Z) :=
  if negb (layout_size layout =? 0) then None else Some (dangling, 0).
Definition deallocate_if_zst (ptr : Z) (layout : Layout) : bool :=
  (layout_size layout =? 0) && (ptr =? dangling).

(** The number of small pages that hold [size] bytes. *)
Definition page_count (size : Z) : outcome Z :=
  let! n := next_multiple_of size (PageSize_usize PageSize_MIN) in
  udiv n (PageSize_usize PageSize_MIN).

(** The derived order of [PageSize]. *)
Definition PageSize_ge (a b : PageSize) : bool := PageSize_order b <=? PageSize_order a.

(** ** [PageAllocator] as an allocator of physical ranges *)

Definition page_allocate (layout : Layout) (pmm : PMM) : outcome (option (AddrRange UMASpace) * PMM) :=
  if layout_size layout =? 0 then
    let! e := AddrRange_empty in Ok (Some e, pmm)
  else
    let! r := urem (PageSize_align PageSize_MIN) (layout_align layout) in
    check! r =? 0 in
    let! page_cnt := page_count (layout_size layout) in
    let! ' (o, pmm) := pmm_allocate_pages page_cnt PageSize_MIN pmm in
    match o with
    | None => Ok (None, pmm)
    | Some prange =>
        check! page_cnt <=? pr_len prange in
        check! PageSize_ge (page_size (pr_base prange)) PageSize_MIN in
        let! a := PageRange_into prange in Ok (Some a, pmm)
    end.

Definition page_deallocate (addr : Addr UMASpace) (layout : Layout) (pmm : PMM) : outcome PMM :=
  if layout_size layout =? 0 then Ok pmm
  else
    let! page_cnt := page_count (layout_size layout) in
    let! size := umul 64 page_cnt (PageSize_usize PageSize_MIN) in
    let! prange := AddrRange_new addr size in
    let! o := try_from_range prange PageSize_MIN in
    let! prange := oexpect o in
    pmm_deallocate_pages prange pmm.

(** The physical memory manager allocates ranges from the same state, so this one is
    named where it is used. *)
Definition PageAllocator_ranges : Allocator UMASpace PMM :=
  {| allocate := page_allocate; deallocate := page_deallocate |}.

(** ** [PageAllocator] as an allocator of pointers *)

Definition page_allocate_ptr (layout : Layout) (pmm : PMM) : outcome (option (Z * Z) * PMM) :=
  match allocate_if_zst layout with
  | Some ptr => Ok (Some ptr, pmm)
  | None =>
      let! ' (o, pmm) := page_allocate layout pmm in
      match o with
      | None => Ok (None, pmm)
      | Some phy => let! v := p2v (ar_base phy) in Ok (Some (value v, ar_size phy), pmm)
      end
  end.

Definition page_deallocate_ptr (ptr : Z) (layout : Layout) (pmm : PMM) : outcome PMM :=
  check! in_space PhysicalRemapSpace ptr in
  let! v := Addr_new (S := PhysicalRemapSpace) ptr in
  let! p := v2p v in
  page_deallocate p layout pmm.

#[export] Instance PageAllocator : CoreAllocator PMM := {
  allocate_ptr := page_allocate_ptr;
  deallocate_ptr := page_deallocate_ptr
}.

(** ** [PhysicalPageManager] *)

Definition ppm_allocate (layout : Layout) (pmm : PMM) : outcome (option (Z * Z) * PMM) :=
  match allocate_if_zst layout with
  | Some ptr => Ok (Some ptr, pmm)
  | None =>
      let! r := urem (PageSize_align PageSize_MIN) (layout_align layout) in
      check! r =? 0 in
      match checked_next_multiple_of (layout_size layout) (PageSize_usize PageSize_MIN) with
      | None => Ok (None, pmm)
      | Some n =>
          let! page_cnt := udiv n (PageSize_usize PageSize_MIN) in
          let! ' (o, pmm) := pmm_allocate_pages page_cnt PageSize_MIN pmm in
          match o with
          | None => Ok (None, pmm)
          | Some prange =>
              check! page_cnt <=? pr_len prange in
              check! PageSize_ge (page_size (pr_base prange)) PageSize_MIN in
              let! v := p2v (page_base (pr_base prange)) in
              let! size := umul 64 (PageSize_usize PageSize_MIN) (pr_len prange) in
              Ok (Some (value v, size), pmm)
          end
      end
  end.

Definition ppm_deallocate (ptr : Z) (layout : Layout) (pmm : PMM) : outcome PMM :=
  if deallocate_if_zst ptr layout then Ok pmm
  else
    let! page_cnt := page_count (layout_size layout) in
    check! in_space PhysicalRemapSpace ptr in
    let! v := Addr_new (S := PhysicalRemapSpace) ptr in
    let! pbase := v2p v in
    let! size := umul 64 page_cnt (PageSize_usize PageSize_MIN) in
    let! prange := AddrRange_new pbase size in
    let! o := try_from_range prange PageSize_MIN in
    let! prange := oexpect o in
    pmm_deallocate_pages prange pmm.

(** ** What the heap asks of a page allocator

    An abstract view of the blocks that are out, by base: a block that is handed
    out is page-aligned and meets none of them, and each can be given back. *)
Definition page_layout (l : Layout) : Prop :=
  layout_valid l /\ 0 < layout_size l /\ layout_align l <= 4096.

Class PageSource (St : Type) `{CoreAllocator St} := {
  out : St -> gmap Z Layout -> Prop;
  source_allocate s blocks layout :
    out s blocks -> page_layout layout ->
    exists o s', allocate_ptr layout s = Ok (o, s') /\
      match o with
      | None => out s' blocks
      | Some (p, n) =>
          layout_size layout <= n /\ (4096 | p) /\ 0 < p /\ blocks !! p = None /\
          (forall q l, blocks !! q = Some l ->
             p + layout_size layout <= q \/ q + layout_size l <= p) /\
          out s' (<[p := layout]> blocks)
      end;
  source_deallocate s blocks p layout :
    out s blocks -> blocks !! p = Some layout ->
    exists s', deallocate_ptr p layout s = Ok s' /\ out s' (delete p blocks);
  source_bound s blocks p layout :
    out s blocks -> blocks !! p = Some layout -> p + layout_size layout <= USIZE;
  (** The bytes that may be handed out. *)
  source_bytes : Z -> Prop;
  source_within s blocks p layout y :
    out s blocks -> blocks !! p = Some layout -> p <= y < p + layout_size layout -> source_bytes y
}.
