(* ===== verification/PageAllocTheorems.v ===== *)
(** * The page allocator: correctness

    [PageAllocator] hands out the pages of the physical memory manager through the
    remap, and so provides what the heap asks of a page allocator. *)

From S2P Require Import Prelude Addr Buddy BuddySpec BuddyOps BuddyTheorems Phy PhyTheorems PageAlloc.
Open Scope Z_scope.

(** ** Requests in pages *)

Lemma page_count_ok size :
  0 < size <= ISIZE ->
  exists n, page_count size = Ok n /\ 1 <= n <= 2 ^ 52 /\ size <= n * 4096 < size + 4096.
Proof.
  intros Hs. unfold page_count, next_multiple_of. change (PageSize_usize PageSize_MIN) with 4096.
  destruct (checked_next_multiple_of_ok size 4096 ltac:(lia) ltac:(lia) ltac:(lia)) as [m E]. rewrite E.
  destruct (checked_next_multiple_of_Some size 4096 m ltac:(lia) ltac:(lia) E) as [[n ->] Hn].
  cbn [oexpect obind]. rewrite udiv_ok, Z.div_mul by lia. exists n. split; [done|]. lia.
Qed.

Lemma page_align_ok layout : page_layout layout ->
  urem (PageSize_align PageSize_MIN) (layout_align layout) = Ok 0.
Proof.
  intros ((_ & Ha & _) & _ & Hle). unfold is_power_of_two in Ha.
  case_bool ((0 <? layout_align layout) && (2 ^ Z.log2 (layout_align layout) =? layout_align layout)) E; [|done].
  destruct E as [Hpos E]. rewrite urem_ok by lia. f_equal. apply Z.mod_divide; [lia|].
  rewrite <- E. change (PageSize_align PageSize_MIN) with (2 ^ 12). apply pow2_divide.
  split; [apply Z.log2_nonneg|]. by apply (Z.log2_le_mono _ 4096).
Qed.

(** The pointer of a frame. *)
Definition frame_ptr (r : PhysicalMemoryRecord) (i : Z) : Z :=
  value (page_base (pm_base r)) + i * FRAME_SIZE + REMAP_OFFSET.

(** The range of small pages at the frame [i]. *)
Definition frame_range (r : PhysicalMemoryRecord) (i n : Z) : PageRange UMASpace :=
  mkPageRange (mkPageAddr (mkAddr (value (page_base (pm_base r)) + i * FRAME_SIZE)) Small) n.

Lemma holds_frame_range r pages i k :
  holds r pages i k -> page_size (pr_base pages) = Small -> pages = frame_range r i (2 ^ k).
Proof.
  intros [Ha Hs _ _ _] Hps. destruct pages as [[[a] ps] n]. cbn in *. subst ps a. unfold frame_range. f_equal.
  change (n * 4096 = 2 ^ k * 4096) in Hs. lia.
Qed.

(** The bounds of a held range. *)
Lemma holds_bounds r pages i k :
  record_ok r -> holds r pages i k ->
  0 <= i /\ 0 <= k /\ 0 < 2 ^ k /\
  0 <= value (page_base (pm_base r)) + i * 4096 /\
  value (page_base (pm_base r)) + (i + 2 ^ k) * 4096 <= range_end UMASpace.
Proof.
  intros Hr [_ _ ((Hk & Hi & _) & _) Hin _]. pose proof (ro_base r Hr). pose proof (ro_end r Hr) as He.
  rewrite FRAME_SIZE_eq in He. pose proof (pow2_pos k ltac:(lia)). split_and!; lia || nia.
Qed.

(** The first frame on record lies on a page boundary. *)
Definition page_based (r : PhysicalMemoryRecord) : Prop := (4096 | value (page_base (pm_base r))).

Lemma page_allocate_ptr_spec r layout :
  record_ok r -> page_based r -> page_layout layout ->
  page_allocate_ptr layout (Some r) = Ok (None, Some r) \/
  exists cnt r' i k, page_allocate_ptr layout (Some r) = Ok (Some (frame_ptr r i, 2 ^ k * 4096), Some r') /\
    granted r r' cnt Small (frame_range r i (2 ^ k)) i k /\ layout_size layout <= 2 ^ k * 4096.
Proof.
  intros Hr Hb Hl. pose proof Hl as ((_ & Ha & Hmax) & Hpos & _). unfold page_allocate_ptr, allocate_if_zst, page_allocate.
  rewrite (proj2 (Z.eqb_neq (layout_size layout) 0)) by lia. cbn [negb]. rewrite page_align_ok by done. cbn [obind Z.eqb].
  assert (Hap : 0 < layout_align layout).
  { unfold is_power_of_two in Ha. by destruct (0 <? layout_align layout) eqn:E; [apply Z.ltb_lt in E|]. }
  destruct (page_count_ok (layout_size layout) ltac:(lia)) as (cnt & -> & Hcnt & Hsz). cbn [obind].
  unfold pmm_allocate_pages. cbn [oexpect obind]. change PageSize_MIN with Small.
  destruct (allocate_pages_spec r cnt Small Hr ltac:(lia)) as [[-> _]|(i & k & b' & _ & _ & Hif)].
  { change (PageSize_usize Small / FRAME_SIZE) with 1. lia. }
  { by left. }
  right. rewrite (proj2 (Z.mod_divide _ (PageSize_usize Small) ltac:(done)) Hb) in Hif.
  destruct Hif as (pages & r' & -> & Hg). cbn [obind]. rewrite (proj2 (Z.leb_le _ _) (gr_cnt _ _ _ _ _ _ _ Hg)).
  rewrite (gr_size _ _ _ _ _ _ _ Hg). cbn [obind].
  pose proof (holds_frame_range _ _ _ _ (gr_holds _ _ _ _ _ _ _ Hg) (gr_size _ _ _ _ _ _ _ Hg)) as Hp.
  pose proof (gr_base _ _ _ _ _ _ _ Hg) as Hbase. unfold frame_range in Hp. rewrite Hbase in Hp.
  pose proof (holds_bounds _ _ _ _ (gr_ok _ _ _ _ _ _ _ Hg) (gr_holds _ _ _ _ _ _ _ Hg)) as (Hi & Hk & Hk2 & Hlo & Hhi).
  rewrite Hbase, UMA_end in *. exists cnt, r', i, k. pose proof (gr_cnt _ _ _ _ _ _ _ Hg) as Hc. subst pages.
  cbn [pr_len] in Hc. split; [|split; [done|lia]].
  unfold PageRange_into. cbn [pr_base pr_len page_size page_base PageSize_usize].
  change (PageSize_usize Small) with 4096. rewrite umul_ok by (change (2 ^ 64) with USIZE; lia).
  change (PageSize_ge Small Small) with true. cbn [obind ar_base ar_size]. destruct (remap_ok (value (page_base (pm_base r)) + i * FRAME_SIZE)) as (-> & _).
  { rewrite UMA_end, FRAME_SIZE_eq. nia. }
  reflexivity.
Qed.

Lemma page_deallocate_ptr_spec r layout i k :
  record_ok r -> page_based r -> page_layout layout -> holds r (frame_range r i (2 ^ k)) i k ->
  layout_size layout <= 2 ^ k * 4096 ->
  exists r', page_deallocate_ptr (frame_ptr r i) layout (Some r) = Ok (Some r') /\ returned r r' i k.
Proof.
  intros Hr Hb Hl Hh Hsz. pose proof Hl as ((_ & Ha & Hmax) & Hpos & _).
  destruct (holds_bounds _ _ _ _ Hr Hh) as (Hi & Hk & Hk2 & Hlo & Hhi). rewrite UMA_end in Hhi.
  destruct (deallocate_pages_spec r _ i k Hr Hh) as (r' & E & Hret). exists r'. split; [|done].
  set (a := value (page_base (pm_base r)) + i * FRAME_SIZE).
  assert (Ea : a = value (page_base (pm_base r)) + i * 4096) by done.
  destruct (remap_ok a) as (_ & Hin & Ev); [rewrite UMA_end; nia|].
  unfold page_deallocate_ptr, frame_ptr. fold a. rewrite Hin. unfold Addr_new. rewrite Hin. cbn [obind]. rewrite Ev. cbn [obind].
  unfold page_deallocate. rewrite (proj2 (Z.eqb_neq (layout_size layout) 0)) by lia.
  assert (Hap : 0 < layout_align layout).
  { unfold is_power_of_two in Ha. by destruct (0 <? layout_align layout) eqn:E'; [apply Z.ltb_lt in E'|]. }
  destruct (page_count_ok (layout_size layout) ltac:(lia)) as (n & -> & Hn & Hns). cbn [obind].
  change (PageSize_usize PageSize_MIN) with 4096. rewrite umul_ok by (change (2 ^ 64) with USIZE; lia). cbn [obind].
  unfold AddrRange_new. cbn [value]. rewrite uadd_ok by (change (2 ^ 64) with USIZE; lia). cbn [obind].
  rewrite (proj2 (Z.leb_le _ (range_end UMASpace))) by (rewrite UMA_end; lia). cbn [obind].
  unfold try_from_range, is_aligned_to. cbn [ar_base ar_size value]. change PageSize_MIN with Small.
  change (PageSize_align Small) with 4096. rewrite urem_ok by lia. cbn [obind].
  assert (Hd : (4096 | a)) by (rewrite Ea; by apply multiple_add).
  rewrite (proj2 (Z.mod_divide a 4096 ltac:(lia)) Hd). cbn [Z.eqb negb].
  rewrite PageAddr_new_ok by exact Hd. cbn [obind]. rewrite Z.mod_mul by lia. cbn [Z.eqb negb obind oexpect].
  rewrite Z.div_mul by lia. unfold pmm_deallocate_pages. cbn [oexpect obind].
  change (deallocate_pages r (mkPageRange (mkPageAddr (mkAddr a) Small) n))
    with (deallocate_pages r (frame_range r i (2 ^ k))). by rewrite E.
Qed.

(** ** The page allocator as the source of the heap *)

(** The block at [p] is the block [i] of order [k]. *)
Record held (r : PhysicalMemoryRecord) (p : Z) (l : Layout) (i k : Z) : Prop := {
  hd_ptr : p = frame_ptr r i;
  hd_layout : page_layout l;
  hd_size : layout_size l <= 2 ^ k * 4096;
  hd_holds : holds r (frame_range r i (2 ^ k)) i k
}.

(** The blocks that are out are held ranges that share no frame. *)
Record pmm_out_in (r : PhysicalMemoryRecord) (blocks : gmap Z Layout) : Prop := {
  po_ok : record_ok r;
  po_based : page_based r;
  po_holds p l : blocks !! p = Some l -> exists i k, held r p l i k;
  po_disjoint p l i k q l' i' k' : blocks !! p = Some l -> blocks !! q = Some l' -> p <> q ->
    held r p l i k -> held r q l' i' k' ->
    forall f, in_block i' k' f = true -> in_block i k f = false
}.

Definition pmm_out (pmm : PMM) (blocks : gmap Z Layout) : Prop :=
  exists r, pmm = Some r /\ pmm_out_in r blocks.

(** Blocks that share no frame are apart in memory. *)
Lemma in_block_apart i k i' k' :
  0 < 2 ^ k -> 0 < 2 ^ k' -> (forall f, in_block i' k' f = true -> in_block i k f = false) ->
  i + 2 ^ k <= i' \/ i' + 2 ^ k' <= i.
Proof.
  intros Hk Hk' Hd. destruct (decide (i + 2 ^ k <= i' \/ i' + 2 ^ k' <= i)) as [|Hn]; [done|exfalso].
  specialize (Hd (Z.max i i')). unfold in_block in Hd.
  rewrite !andb_true_iff, andb_false_iff, !Z.leb_le, !Z.ltb_lt, Z.leb_gt, Z.ltb_ge in Hd. lia.
Qed.

Lemma in_block_disjoint_sym i k i' k' :
  (forall f, in_block i' k' f = true -> in_block i k f = false) ->
  forall f, in_block i k f = true -> in_block i' k' f = false.
Proof. intros Hd f Hf. destruct (in_block i' k' f) eqn:E; [|done]. rewrite (Hd f E) in Hf. done. Qed.

Lemma frame_ptr_inj r i j : frame_ptr r i = frame_ptr r j -> i = j.
Proof. unfold frame_ptr. rewrite FRAME_SIZE_eq. lia. Qed.

(** The frame and the order of a block are determined by its pointer. *)
Lemma held_unique r p l l' i k i' k' : held r p l i k -> held r p l' i' k' -> i = i' /\ k = k'.
Proof.
  intros [-> _ _ [_ _ _ _ (f & Hf & <-)]] [E _ _ [_ _ _ _ (f' & Hf' & <-)]].
  apply frame_ptr_inj in E as <-. by simplify_eq.
Qed.

Lemma held_move r r' p l i k :
  pm_base r' = pm_base r -> held r p l i k -> holds r' (frame_range r i (2 ^ k)) i k -> held r' p l i k.
Proof. intros Hb [H1 H2 H3 _] Hh. split; [|done|done|]; unfold frame_ptr, frame_range in *; by rewrite Hb. Qed.

(** The bytes of two blocks that share no frame. *)
Lemma held_apart r p l i k q l' i' k' :
  record_ok r -> held r p l i k -> held r q l' i' k' ->
  (forall f, in_block i' k' f = true -> in_block i k f = false) ->
  p + layout_size l <= q \/ q + layout_size l' <= p.
Proof.
  intros Hr [-> _ Hs Hh] [-> _ Hs' Hh'] Hd.
  destruct (holds_bounds _ _ _ _ Hr Hh) as (_ & _ & Hk & _), (holds_bounds _ _ _ _ Hr Hh') as (_ & _ & Hk' & _).
  destruct (in_block_apart i k i' k' Hk Hk' Hd); unfold frame_ptr; rewrite FRAME_SIZE_eq; lia.
Qed.

(** A new block is disjoint from those that are out, which stay held. *)
Lemma pmm_out_granted r r' cnt blocks layout i k :
  pmm_out_in r blocks -> granted r r' cnt Small (frame_range r i (2 ^ k)) i k ->
  page_layout layout -> layout_size layout <= 2 ^ k * 4096 ->
  blocks !! frame_ptr r i = None /\
  (forall q l, blocks !! q = Some l ->
     frame_ptr r i + layout_size layout <= q \/ q + layout_size l <= frame_ptr r i) /\
  pmm_out_in r' (<[frame_ptr r i := layout]> blocks).
Proof.
  intros [Hr Hb Hh Hd] Hg Hl Hsz. pose proof (gr_base _ _ _ _ _ _ _ Hg) as Hbase.
  pose proof (gr_holds _ _ _ _ _ _ _ Hg) as Hnew. pose proof (gr_ok _ _ _ _ _ _ _ Hg) as Hr'.
  assert (Hp : held r' (frame_ptr r i) layout i k).
  { split; [|done|done|]; unfold frame_ptr, frame_range in *; by rewrite Hbase. }
  assert (Hold : forall q l, blocks !! q = Some l -> exists i' k', held r q l i' k' /\ held r' q l i' k' /\
            forall f, in_block i' k' f = true -> in_block i k f = false).
  { intros q l Hq. destruct (Hh q l Hq) as (i' & k' & Hheld). exists i', k'.
    destruct (holds_reserved _ _ _ _ _ _ _ _ _ _ Hr Hg (hd_holds _ _ _ _ _ Hheld)) as [Hh' Hdis].
    split; [done|]. split; [by eapply held_move|done]. }
  assert (Hap : forall q l, blocks !! q = Some l ->
            frame_ptr r i + layout_size layout <= q \/ q + layout_size l <= frame_ptr r i).
  { intros q l Hq. destruct (Hold q l Hq) as (i' & k' & _ & Hq' & Hdis). by eapply held_apart. }
  assert (Hfresh : blocks !! frame_ptr r i = None).
  { destruct (blocks !! frame_ptr r i) as [l|] eqn:E; [|done]. destruct (Hh _ _ E) as (i' & k' & [_ (_ & Hlp & _) _ _]).
    destruct Hl as (_ & ? & _). destruct (Hap _ _ E); lia. }
  split; [done|]. split; [done|]. split; [done|unfold page_based; by rewrite Hbase| |].
  - intros q l [(<- & <-)|(_ & Hq)]%lookup_insert_Some; [eauto|]. destruct (Hold q l Hq) as (i' & k' & _ & ? & _). eauto.
  - intros p l i1 k1 q l' i2 k2 [(<- & <-)|(Hp1 & Hpl)]%lookup_insert_Some [(<- & <-)|(Hq1 & Hql)]%lookup_insert_Some Hne Hh1 Hh2.
    + done.
    + destruct (Hold _ _ Hql) as (i' & k' & _ & Hq' & Hdis).
      destruct (held_unique _ _ _ _ _ _ _ _ Hh2 Hq') as [-> ->], (held_unique _ _ _ _ _ _ _ _ Hh1 Hp) as [-> ->]. done.
    + destruct (Hold _ _ Hpl) as (i' & k' & _ & Hq' & Hdis).
      destruct (held_unique _ _ _ _ _ _ _ _ Hh1 Hq') as [-> ->], (held_unique _ _ _ _ _ _ _ _ Hh2 Hp) as [-> ->].
      by apply in_block_disjoint_sym.
    + destruct (Hold _ _ Hpl) as (i1' & k1' & Ho1 & Hn1 & _), (Hold _ _ Hql) as (i2' & k2' & Ho2 & Hn2 & _).
      destruct (held_unique _ _ _ _ _ _ _ _ Hh1 Hn1) as [-> ->], (held_unique _ _ _ _ _ _ _ _ Hh2 Hn2) as [-> ->].
      by eapply (Hd p l _ _ q l').
Qed.

(** Giving a block back leaves the others held. *)
Lemma pmm_out_returned r r' blocks p l i k :
  pmm_out_in r blocks -> blocks !! p = Some l -> held r p l i k -> returned r r' i k ->
  pmm_out_in r' (delete p blocks).
Proof.
  intros [Hr Hb Hh Hd] Hp Hheld Hret. pose proof (rt_base _ _ _ _ Hret) as Hbase.
  destruct (holds_bounds _ _ _ _ Hr (hd_holds _ _ _ _ _ Hheld)) as (Hi & Hk & _).
  assert (Hold : forall q l', delete p blocks !! q = Some l' -> exists i' k', held r q l' i' k' /\ held r' q l' i' k').
  { intros q l' [Hne Hq]%lookup_delete_Some. destruct (Hh q l' Hq) as (i' & k' & Hq'). exists i', k'. split; [done|].
    eapply held_move; [done|done|]. eapply holds_returned; [done|apply Hq'|done|done|].
    by eapply (Hd p l i k q l'). }
  split; [apply Hret|unfold page_based; by rewrite Hbase| |].
  - intros q l' Hq. destruct (Hold q l' Hq) as (i' & k' & _ & ?). eauto.
  - intros q l1 i1 k1 q' l2 i2 k2 Hq Hq' Hne Hh1 Hh2.
    destruct (Hold _ _ Hq) as (i1' & k1' & Ho1 & Hn1), (Hold _ _ Hq') as (i2' & k2' & Ho2 & Hn2).
    destruct (held_unique _ _ _ _ _ _ _ _ Hh1 Hn1) as [-> ->], (held_unique _ _ _ _ _ _ _ _ Hh2 Hn2) as [-> ->].
    apply lookup_delete_Some in Hq as [_ Hq], Hq' as [_ Hq']. by eapply (Hd q l1 _ _ q' l2).
Qed.

Lemma frame_ptr_pos r i : record_ok r -> 0 <= i -> 0 < frame_ptr r i.
Proof.
  intros Hr Hi. pose proof (ro_base r Hr). unfold frame_ptr. rewrite FRAME_SIZE_eq.
  change REMAP_OFFSET with 0xFFFF888000000000. lia.
Qed.

(** One request and one return, with what they do to the frames. *)
Lemma allocate_step r blocks layout :
  pmm_out_in r blocks -> page_layout layout ->
  page_allocate_ptr layout (Some r) = Ok (None, Some r) \/
  exists cnt r' i k, page_allocate_ptr layout (Some r) = Ok (Some (frame_ptr r i, 2 ^ k * 4096), Some r') /\
    granted r r' cnt Small (frame_range r i (2 ^ k)) i k /\
    (layout_size layout <= 2 ^ k * 4096 /\ (4096 | frame_ptr r i) /\ 0 < frame_ptr r i /\ blocks !! frame_ptr r i = None /\
     (forall q l, blocks !! q = Some l ->
        frame_ptr r i + layout_size layout <= q \/ q + layout_size l <= frame_ptr r i) /\
     pmm_out_in r' (<[frame_ptr r i := layout]> blocks)).
Proof.
  intros Ho Hl. destruct (page_allocate_ptr_spec r layout (po_ok _ _ Ho) (po_based _ _ Ho) Hl)
    as [E|(cnt & r' & i & k & E & Hg & Hsz)]; [by left|right].
  exists cnt, r', i, k. split; [exact E|]. split; [done|]. destruct (pmm_out_granted _ _ _ _ _ _ _ Ho Hg Hl Hsz) as (Hf & Hap & Ho').
  pose proof (gr_holds _ _ _ _ _ _ _ Hg) as Hh. destruct (holds_bounds _ _ _ _ (gr_ok _ _ _ _ _ _ _ Hg) Hh) as (Hi & _).
  split_and!; [done| |apply (frame_ptr_pos r i (po_ok _ _ Ho) Hi)|done|done|done].
  unfold frame_ptr. rewrite FRAME_SIZE_eq. apply Z.divide_add_r; [|by exists 0xFFFF888000000].
  apply multiple_add, (po_based _ _ Ho).
Qed.

Lemma deallocate_step r blocks p layout :
  pmm_out_in r blocks -> blocks !! p = Some layout ->
  exists r' i k, page_deallocate_ptr p layout (Some r) = Ok (Some r') /\ held r p layout i k /\ returned r r' i k /\
    pmm_out_in r' (delete p blocks).
Proof.
  intros Ho Hp. destruct (po_holds _ _ Ho _ _ Hp) as (i & k & Hh).
  destruct (page_deallocate_ptr_spec r layout i k (po_ok _ _ Ho) (po_based _ _ Ho)) as (r' & E & Hret); [apply Hh..|].
  exists r', i, k. rewrite (hd_ptr _ _ _ _ _ Hh) at 1. split; [done|]. split; [done|]. split; [done|].
  by eapply pmm_out_returned.
Qed.

Lemma pmm_source_allocate pmm blocks layout :
  pmm_out pmm blocks -> page_layout layout ->
  exists o pmm', page_allocate_ptr layout pmm = Ok (o, pmm') /\
    match o with
    | None => pmm_out pmm' blocks
    | Some (p, n) =>
        layout_size layout <= n /\ (4096 | p) /\ 0 < p /\ blocks !! p = None /\
        (forall q l, blocks !! q = Some l -> p + layout_size layout <= q \/ q + layout_size l <= p) /\
        pmm_out pmm' (<[p := layout]> blocks)
    end.
Proof.
  intros (r & -> & Ho) Hl. destruct (allocate_step r blocks layout Ho Hl) as [E|(cnt & r' & i & k & E & _ & Hb)];
    eexists _, _; (split; [exact E|]); [by exists r|]. destruct Hb as (H1 & H2 & H3 & H4 & H5 & H6). split_and!; try done. by exists r'.
Qed.

Lemma pmm_source_deallocate pmm blocks p layout :
  pmm_out pmm blocks -> blocks !! p = Some layout ->
  exists pmm', page_deallocate_ptr p layout pmm = Ok pmm' /\ pmm_out pmm' (delete p blocks).
Proof.
  intros (r & -> & Ho) Hp. destruct (deallocate_step r blocks p layout Ho Hp) as (r' & i & k & E & _ & _ & Ho').
  exists (Some r'). split; [done|]. by exists r'.
Qed.

(** A block ends inside the address space. *)
Lemma pmm_source_bound pmm blocks p layout :
  pmm_out pmm blocks -> blocks !! p = Some layout -> p + layout_size layout <= USIZE.
Proof.
  intros (r & -> & Ho) Hp. destruct (po_holds _ _ Ho _ _ Hp) as (i & k & [-> _ Hs Hh]).
  destruct (holds_bounds _ _ _ _ (po_ok _ _ Ho) Hh) as (_ & _ & _ & _ & Hhi). rewrite UMA_end in Hhi.
  unfold frame_ptr. rewrite FRAME_SIZE_eq. change REMAP_OFFSET with 0xFFFF888000000000. change USIZE with 18446744073709551616. lia.
Qed.

#[export] Instance PageAllocator_source : PageSource PMM := {
  out := pmm_out;
  source_allocate := pmm_source_allocate;
  source_deallocate := pmm_source_deallocate;
  source_bound := pmm_source_bound;
  source_bytes _ := True;
  source_within _ _ _ _ _ _ _ _ := I
}.

(** ** The frames that may be handed out

    Frames that are neither free nor part of a block never become either: the
    allocator stays inside the memory it was given. *)

Section Avail.
(** The first frame, and the frames that were free at the start. *)
Context (base : Z) (avail : Z -> Prop).

Record avail_out_in (r : PhysicalMemoryRecord) (blocks : gmap Z Layout) : Prop := {
  av_out : pmm_out_in r blocks;
  av_base : value (page_base (pm_base r)) = base;
  av_free f : 0 <= f < capacity (buddy r) -> frame_free (buddy r) f = true -> avail f;
  av_held p l i k f : blocks !! p = Some l -> held r p l i k -> in_block i k f = true -> avail f
}.

Definition avail_out (pmm : PMM) (blocks : gmap Z Layout) : Prop :=
  exists r, pmm = Some r /\ avail_out_in r blocks.

Definition avail_byte (y : Z) : Prop := avail ((y - REMAP_OFFSET - base) / 4096).

Lemma avail_new r :
  record_ok r -> page_based r -> value (page_base (pm_base r)) = base ->
  (forall f, 0 <= f < capacity (buddy r) -> frame_free (buddy r) f = true -> avail f) -> avail_out (Some r) ∅.
Proof.
  intros H1 H2 H3 H4. exists r. split; [done|]. split; [|done|done|intros p l i k f; by rewrite lookup_empty].
  split; [done|done|intros p l; by rewrite lookup_empty|intros p l i k q l' i' k'; by rewrite lookup_empty].
Qed.

(** A block that stays out keeps its frames. *)
Lemma avail_held_kept r r' blocks p l i k f :
  avail_out_in r blocks -> pm_base r' = pm_base r -> blocks !! p = Some l ->
  (forall i' k', held r p l i' k' -> holds r' (frame_range r i' (2 ^ k')) i' k') ->
  held r' p l i k -> in_block i k f = true -> avail f.
Proof.
  intros Ha Hb Hp Hk Hh Hf. destruct (po_holds _ _ (av_out _ _ Ha) _ _ Hp) as (i' & k' & Hh').
  pose proof (held_move _ _ _ _ _ _ Hb Hh' (Hk i' k' Hh')) as Hm.
  destruct (held_unique _ _ _ _ _ _ _ _ Hh Hm) as [-> ->]. by eapply (av_held _ _ Ha).
Qed.

Lemma avail_granted r r' cnt blocks layout i k :
  avail_out_in r blocks -> granted r r' cnt Small (frame_range r i (2 ^ k)) i k -> blocks !! frame_ptr r i = None ->
  pmm_out_in r' (<[frame_ptr r i := layout]> blocks) -> avail_out_in r' (<[frame_ptr r i := layout]> blocks).
Proof.
  intros Ha Hg Hfr Ho. pose proof (gr_base _ _ _ _ _ _ _ Hg) as Hb. pose proof (gr_reserved _ _ _ _ _ _ _ Hg) as Hres.
  pose proof (po_ok _ _ (av_out _ _ Ha)) as Hr.
  assert (Hnew : forall f, in_block i k f = true -> avail f).
  { intros f Hf. apply (av_free _ _ Ha); [|by apply (rs_was_free _ _ _ _ Hres)].
    by eapply in_block_cap; [apply (rs_block _ _ _ _ Hres)|]. }
  split; [done|by rewrite Hb, (av_base _ _ Ha)| |].
  - intros f Hf. rewrite (rs_cap _ _ _ _ Hres) in Hf. rewrite (rs_free _ _ _ _ Hres f Hf). intros [E _]%andb_true_iff. by apply (av_free _ _ Ha).
  - intros p l i' k' f [(<- & <-)|(_ & Hp)]%lookup_insert_Some Hh Hf.
    + assert (i' = i) as ->. { apply (frame_ptr_inj r'). rewrite <- (hd_ptr _ _ _ _ _ Hh). unfold frame_ptr. by rewrite Hb. }
      destruct (ho_order _ _ _ _ (hd_holds _ _ _ _ _ Hh)) as (x & Hx & <-), (ho_order _ _ _ _ (gr_holds _ _ _ _ _ _ _ Hg)) as (y & Hy & Ey).
      rewrite Hx in Hy. injection Hy as ->. rewrite Ey in Hf. by apply Hnew.
    + eapply (avail_held_kept r r' blocks p l i' k' f Ha Hb Hp); [|done|done].
      intros i1 k1 H1. by apply (holds_reserved _ _ _ _ _ _ _ _ _ _ Hr Hg (hd_holds _ _ _ _ _ H1)).
Qed.

Lemma avail_returned r r' blocks p l i k :
  avail_out_in r blocks -> blocks !! p = Some l -> held r p l i k -> returned r r' i k ->
  pmm_out_in r' (delete p blocks) -> avail_out_in r' (delete p blocks).
Proof.
  intros Ha Hp Hh Hret Ho. pose proof (rt_base _ _ _ _ Hret) as Hb. pose proof (rt_freed _ _ _ _ Hret) as Hfr.
  destruct (holds_bounds _ _ _ _ (po_ok _ _ (av_out _ _ Ha)) (hd_holds _ _ _ _ _ Hh)) as (Hi & Hk & _).
  split; [done|by rewrite Hb, (av_base _ _ Ha)| |].
  - intros f Hf. rewrite (fr_cap _ _ _ _ Hfr) in Hf. rewrite (fr_free _ _ _ _ Hfr f Hf).
    intros [E|E]%orb_true_iff; [by apply (av_free _ _ Ha)|by eapply (av_held _ _ Ha)].
  - intros q l' i' k' f [Hne Hq]%lookup_delete_Some Hh' Hf.
    eapply (avail_held_kept r r' blocks q l' i' k' f Ha Hb Hq); [|done|done].
    intros i1 k1 H1. eapply holds_returned; [done|apply H1|done|done|]. by eapply (po_disjoint _ _ (av_out _ _ Ha) p l i k q l').
Qed.

Lemma avail_source_allocate pmm blocks layout :
  avail_out pmm blocks -> page_layout layout ->
  exists o pmm', page_allocate_ptr layout pmm = Ok (o, pmm') /\
    match o with
    | None => avail_out pmm' blocks
    | Some (p, n) =>
        layout_size layout <= n /\ (4096 | p) /\ 0 < p /\ blocks !! p = None /\
        (forall q l, blocks !! q = Some l -> p + layout_size layout <= q \/ q + layout_size l <= p) /\
        avail_out pmm' (<[p := layout]> blocks)
    end.
Proof.
  intros (r & -> & Ha) Hl. destruct (allocate_step r blocks layout (av_out _ _ Ha) Hl) as [E|(cnt & r' & i & k & E & Hg & Hb)];
    eexists _, _; (split; [exact E|]); [by exists r|]. destruct Hb as (H1 & H2 & H3 & H4 & H5 & H6). split_and!; try done.
  exists r'. split; [done|]. by eapply avail_granted.
Qed.

Lemma avail_source_deallocate pmm blocks p layout :
  avail_out pmm blocks -> blocks !! p = Some layout ->
  exists pmm', page_deallocate_ptr p layout pmm = Ok pmm' /\ avail_out pmm' (delete p blocks).
Proof.
  intros (r & -> & Ha) Hp. destruct (deallocate_step r blocks p layout (av_out _ _ Ha) Hp) as (r' & i & k & E & Hh & Hret & Ho).
  exists (Some r'). split; [done|]. exists r'. split; [done|]. by eapply avail_returned.
Qed.

Lemma avail_source_bound pmm blocks p layout :
  avail_out pmm blocks -> blocks !! p = Some layout -> p + layout_size layout <= USIZE.
Proof. intros (r & -> & Ha). apply (pmm_source_bound (Some r)). exists r. split; [done|apply Ha]. Qed.

Lemma avail_source_within pmm blocks p layout y :
  avail_out pmm blocks -> blocks !! p = Some layout -> p <= y < p + layout_size layout -> avail_byte y.
Proof.
  intros (r & -> & Ha) Hp Hy. destruct (po_holds _ _ (av_out _ _ Ha) _ _ Hp) as (i & k & Hh).
  apply (av_held _ _ Ha _ _ _ _ _ Hp Hh). destruct Hh as [-> _ Hs _]. unfold frame_ptr in Hy.
  rewrite (av_base _ _ Ha), FRAME_SIZE_eq in Hy. unfold in_block. apply andb_true_iff. rewrite Z.leb_le, Z.ltb_lt. Z.div_mod_to_equations. lia.
Qed.

Definition avail_source : PageSource PMM := {|
  out := avail_out;
  source_allocate := avail_source_allocate;
  source_deallocate := avail_source_deallocate;
  source_bound := avail_source_bound;
  source_bytes := avail_byte;
  source_within := avail_source_within
|}.
End Avail.


(** ** The theorems *)

(** C17: over the blocks that are out, a set of ranges of memory that do not meet,
    the page allocator never panics: a request takes a page-aligned range of at
    least its size that meets none of them, and adds it to the set, or leaves the
    set alone; giving a block back takes it out of the set. *)
Theorem page_allocator_refines pmm blocks :
  pmm_out pmm blocks ->
  (forall layout, page_layout layout ->
     exists o pmm', page_allocate_ptr layout pmm = Ok (o, pmm') /\
       match o with
       | None => pmm_out pmm' blocks
       | Some (p, n) =>
           layout_size layout <= n /\ (4096 | p) /\ 0 < p /\ blocks !! p = None /\
           (forall q l, blocks !! q = Some l -> p + layout_size layout <= q \/ q + layout_size l <= p) /\
           pmm_out pmm' (<[p := layout]> blocks)
       end) /\
  (forall p layout, blocks !! p = Some layout ->
     exists pmm', page_deallocate_ptr p layout pmm = Ok pmm' /\ pmm_out pmm' (delete p blocks)).
Proof.
  intros Ho. split; intros; [by apply pmm_source_allocate|by apply pmm_source_deallocate].
Qed.

(** A request for no bytes yields a pointer that the same allocator refuses to
    take back. *)
Theorem page_allocator_zst pmm layout :
  layout_size layout = 0 ->
  page_allocate_ptr layout pmm = Ok (Some (dangling, 0), pmm) /\ page_deallocate_ptr dangling layout pmm = Panic.
Proof. intros Hz. unfold page_allocate_ptr, allocate_if_zst. by rewrite Hz. Qed.

(** ** Witnesses *)

Definition demo_pmm : PMM := Some (demo_record demo_free8 8 0x400000).

Lemma demo_pmm_out : pmm_out demo_pmm ∅.
Proof.
  exists (demo_record demo_free8 8 0x400000). split; [done|]. split; [apply demo_record8_ok|by exists 0x400|..].
  - intros p l. by rewrite lookup_empty.
  - intros p l i k q l' i' k'. by rewrite lookup_empty.
Qed.

Lemma page_allocator_refines_witness :
  exists p n pmm', page_allocate_ptr (mkLayout 5000 8) demo_pmm = Ok (Some (p, n), pmm') /\
    (4096 | p) /\ pmm_out pmm' {[ p := mkLayout 5000 8 ]}.
Proof.
  destruct (page_allocator_refines demo_pmm ∅ demo_pmm_out) as [Ha _].
  destruct (Ha (mkLayout 5000 8)) as (o & pmm' & E & Ho); [by split_and!|].
  destruct o as [[p n]|]; [|exfalso; vm_compute in E; discriminate].
  destruct Ho as (_ & Hd & _ & _ & _ & Hout). exists p, n, pmm'. by split_and!.
Defined.

Lemma page_allocator_zst_witness :
  page_allocate_ptr (mkLayout 0 8) demo_pmm = Ok (Some (dangling, 0), demo_pmm) /\
  page_deallocate_ptr dangling (mkLayout 0 8) demo_pmm = Panic.
Proof. by apply (page_allocator_zst demo_pmm (mkLayout 0 8)). Defined.
