(* ===== verification/PhyBoot.v ===== *)
(** * The hand-over of physical memory: correctness

    [PhysicalMemoryRecord::new] over a boot memory manager that meets the conditions
    it relies on without testing them. *)

From stdpp Require Import sets.
From S2P Require Import Prelude Addr ArrayForest Buddy BuddyMap BuddySpec BuddyTheorems Memblock MemblockTheorems Phy PhyTheorems PageAllocTheorems.
Open Scope Z_scope.

(** ** The frames of the managed range *)

Definition boot_base (s : MemblockSystem) : Z := value (ar_base (managed_range s)) / 4096 * 4096.
Definition frame_cnt (s : MemblockSystem) : Z :=
  (value (ar_base (managed_range s)) + ar_size (managed_range s) - boot_base s + 4095) / 4096.

(** The blocks lie inside the managed range, and a frame is left above it. *)
Record managed_ok (s : MemblockSystem) : Prop := {
  mg_size : 0 < ar_size (managed_range s);
  mg_lo : 0 <= value (ar_base (managed_range s));
  mg_hi : value (ar_base (managed_range s)) + ar_size (managed_range s) + 4096 <= range_end UMASpace;
  mg_covers : forall x, covered (all_blocks s) x ->
    value (ar_base (managed_range s)) <= x < value (ar_base (managed_range s)) + ar_size (managed_range s)
}.

Lemma frame_cnt_ok s : managed_ok s ->
  let hi := value (ar_base (managed_range s)) + ar_size (managed_range s) in
  (0 <= boot_base s <= value (ar_base (managed_range s)) /\ value (ar_base (managed_range s)) < boot_base s + 4096) /\ (4096 | boot_base s) /\
  hi <= boot_base s + frame_cnt s * 4096 < hi + 4096 /\ 1 <= frame_cnt s <= 2 ^ 34.
Proof.
  intros [H1 H2 H3 _] hi. rewrite UMA_end in H3. unfold frame_cnt. fold hi. assert (Hb : (4096 | boot_base s)) by apply Z.divide_factor_r.
  assert (Hr : (0 <= boot_base s <= value (ar_base (managed_range s)) /\ value (ar_base (managed_range s)) < boot_base s + 4096)).
  { unfold boot_base. Z.div_mod_to_equations. lia. }
  change (2 ^ 34) with 17179869184. fold hi in H3. assert (0 < hi - boot_base s) by lia. split; [done|]. split; [done|].
  Z.div_mod_to_equations. lia.
Qed.

Lemma overlapped_small s : managed_ok s ->
  overlapped_pages (managed_range s) Small = Ok (mkPageRange (mkPageAddr (mkAddr (boot_base s)) Small) (frame_cnt s)).
Proof.
  intros Hs. pose proof (frame_cnt_ok s Hs) as (Hb & Hd & Hn & _). cbn zeta in Hn. destruct Hs as [H1 H2 H3 _]. rewrite UMA_end in H3.
  unfold overlapped_pages. change (PageSize_usize Small) with 4096.
  destruct (align_floor_ok (ar_base (managed_range s)) 4096) as (x & Ex & Hdx & Hx & Hxs); [rewrite ?UMA_start, ?UMA_end; try lia; try apply Z.divide_0_r..|].
  assert (x = boot_base s) as ->.
  { destruct Hd as [y Hy], Hdx as [z ->]. rewrite Hy in *. lia. }
  rewrite Ex. cbn [obind oexpect]. rewrite base_sub_ok by (cbn [value]; rewrite UMA_end; lia). cbn [obind value].
  unfold as_usize. rewrite Z.mod_small by lia. rewrite uadd_ok by lia. cbn [obind]. rewrite PageAddr_new_ok by exact Hd. cbn [obind].
  unfold div_ceil. cbn [Z.eqb obind]. do 2 f_equal. set (r := ar_size _ + _).
  replace (frame_cnt s) with ((r + 4095) / 4096) by (unfold frame_cnt, r; f_equal; lia).
  destruct (Z.eqb_spec (r mod 4096) 0); Z.div_mod_to_equations; lia.
Qed.

(** ** Taking bytes of the current block *)

Lemma reserve_bytes s p n :
  sys_ok s -> partial_block s = Some p -> 0 < n -> ms_offset s + n <= mb_size p -> n <= 2 ^ 62 ->
  exists s', boot_allocate_ptr (mkLayout n 1) s = Ok (Some (ms_offset s + REMAP_OFFSET), s') /\ sys_ok s' /\
    partial_block s' = Some p /\ ms_offset s' = ms_offset s + n /\ free_blocks s' = free_blocks s /\
    managed_range s' = managed_range s.
Proof.
  intros Hs Hp Hn Hfit Hmax. assert (Hl : layout_valid (mkLayout n 1)).
  { split_and!; [cbn; lia|done|]. change (2 ^ 62) with 4611686018427387904 in Hmax. cbn. lia. }
  destruct (reserve_loop_spec (mkLayout n 1) (length (free_blocks s) + 2) s Hl Hn Hs) as (r & s' & E & Hall & Hs' & Hm & Hr); [lia|].
  assert (Hroom : room p (ms_offset s) (mkLayout n 1)) by (exists (ms_offset s); split_and!; [apply Z.divide_1_l|lia|done]).
  destruct r as [a|]; [|destruct Hr as (_ & Hno & _); by destruct (Hno p Hp)].
  destruct Hr as (p' & Hp' & _ & Hoff & [(Hp1 & Hf & Ha)|(q & sk & Hq & Hno & _)]); [|by simplify_eq].
  assert (p' = p) as -> by congruence. cbn [layout_align layout_size] in *.
  assert (Ea : a = mkAddr (ms_offset s)) by (destruct a as [x]; cbn [value] in *; f_equal; lia). subst a. cbn [value] in *.
  exists s'. split; [|done]. unfold boot_allocate_ptr, memblock_reserve. rewrite E. cbn [obind].
  pose proof (partial_size s p Hs Hp) as Hpok. pose proof (so_offset s Hs p Hp). unfold block_ok, mb_end in Hpok.
  destruct (remap_ok (ms_offset s)) as (-> & _); [lia|]. done.
Qed.

(** ** Taking memory that nothing else uses *)

Definition has_range (l : list (Z * Z)) (a n : Z) : Prop := exists lo hi, (lo, hi) ∈ l /\ lo <= a /\ a + n <= hi.

Lemma claim_ok l a n : has_range l a n -> exists l', claim l a n = Some l'.
Proof.
  intros (lo & hi & Hin & Hlo & Hhi). induction l as [|[x y] l IH]; [by apply not_elem_of_nil in Hin|]. cbn [claim].
  case_bool (x <=? a) E1; cbn [andb]; [case_bool (a + n <=? y) E2; [by eexists|]|];
    (apply elem_of_cons in Hin as [[= -> ->]|Hin]; [lia|]); destruct (IH Hin) as [l' ->]; by eexists.
Qed.

(** The bytes behind the ones that are taken are still there. *)
Lemma claim_rest l a n m l' : claim l a n = Some l' -> 0 <= n -> has_range l a (n + m) -> has_range l' (a + n) m.
Proof.
  intros E Hn (lo & hi & Hin & Hlo & Hhi). revert l' E. induction l as [|[x y] l IH]; intros l' E; [by apply not_elem_of_nil in Hin|].
  cbn [claim] in E. destruct ((x <=? a) && (a + n <=? y)).
  - injection E as <-. apply elem_of_cons in Hin as [[= <- <-]|Hin].
    + exists (a + n), hi. split; [by right; left|lia].
    + exists lo, hi. split; [by do 2 right|lia].
  - destruct (claim l a n) as [l1|]; [|done]. injection E as <-. apply elem_of_cons in Hin as [[= -> ->]|Hin].
    + exists x, y. split; [by left|lia].
    + destruct (IH Hin l1 eq_refl) as (lo' & hi' & H1 & H2). exists lo', hi'. split; [by right|done].
Qed.

Lemma take_bytes s p l n :
  sys_ok s -> partial_block s = Some p -> 0 < n -> ms_offset s + n <= mb_size p -> n <= 2 ^ 62 -> has_range l (ms_offset s) n ->
  exists s' l', boot_take (mkLayout n 1) (s, l) = Ok (Some (ms_offset s + REMAP_OFFSET), (s', l')) /\
    claim l (ms_offset s) n = Some l' /\ sys_ok s' /\ partial_block s' = Some p /\ ms_offset s' = ms_offset s + n /\
    free_blocks s' = free_blocks s /\ managed_range s' = managed_range s.
Proof.
  intros Hs Hp Hn Hfit Hmax Hr. destruct (reserve_bytes s p n Hs Hp Hn Hfit Hmax) as (s' & E & Hs').
  destruct (claim_ok l _ n Hr) as [l' El]. exists s', l'. split; [|done]. unfold boot_take. rewrite E. cbn [obind layout_size].
  replace (ms_offset s + REMAP_OFFSET - REMAP_OFFSET) with (ms_offset s) by lia. by rewrite El.
Qed.

(** ** The hand-over *)

Section Handover.
Context (ram : Ram) (s : MemblockSystem) (p : Memblock).

(** The frame records and the map of the buddy system. *)
Definition record_bytes : Z := 2 * frame_cnt s + layout_size (map_layout (frame_cnt s)).
(** What is left of the current block behind them. *)
Definition rest_block : Memblock :=
  mkMemblock (mkAddr (value (mb_base p) + (ms_offset s + record_bytes))) (mb_size p - (ms_offset s + record_bytes)) Free.
(** The memory that the buddy system gets. *)
Definition left_blocks : list Memblock := free_blocks s ++ [rest_block].

(** A block on frame boundaries whose place suits every piece cut from it. *)
Definition suits (m : Memblock) : Prop :=
  (4096 | value (mb_base m)) /\ (4096 | mb_size m) /\
  forall k, 0 <= k <= 18 -> 2 ^ (k + 12) <= mb_size m -> (2 ^ (k + 12) | value (mb_base m) - boot_base s).

(** What the hand-over relies on, without a test in the code.  The records lie at the
    offset of the block that is in use, taken as a physical address: that has to be
    plain memory, below the memory that is handed over. *)
Record handover_ok : Prop := {
  hv_sys : sys_ok s;
  hv_managed : managed_ok s;
  hv_cur : partial_block s = Some p;
  hv_room : ms_offset s + record_bytes < mb_size p;
  hv_suits : Forall suits left_blocks;
  hv_plain : has_range (plain ram) (ms_offset s) record_bytes;
  hv_below : ms_offset s + record_bytes <= value (ar_base (managed_range s))
}.

Context (Hh : handover_ok).

Lemma record_bytes_pos : 0 < 2 * frame_cnt s /\ 0 < layout_size (map_layout (frame_cnt s)) /\
  2 * frame_cnt s <= 2 ^ 62 /\ layout_size (map_layout (frame_cnt s)) <= 2 ^ 62.
Proof using Hh.
  destruct (frame_cnt_ok s (hv_managed Hh)) as (_ & _ & _ & Hn). destruct (map_trees_ok _ Hn) as (Hmo & Ht & Htn & _).
  cbn [map_layout layout_size]. pose proof (pow2_pos (top_order (frame_cnt s)) ltac:(lia)) as Hpos.
  pose proof (pow2_le (top_order (frame_cnt s)) 18 ltac:(lia)) as Hle. rewrite pow2_succ by lia.
  change (2 ^ 34) with 17179869184 in Hn. change (2 ^ 62) with 4611686018427387904. change (2 ^ 18) with 262144 in Hle. nia.
Qed.

(** The two reservations and the freeze. *)
Lemma handover_blocks :
  exists st1 s2 l2 s3, boot_take (mkLayout (2 * frame_cnt s) 1) (s, plain ram) = Ok (Some (ms_offset s + REMAP_OFFSET), st1) /\
    boot_take (map_layout (frame_cnt s)) st1 = Ok (Some (ms_offset s + 2 * frame_cnt s + REMAP_OFFSET), (s2, l2)) /\
    freeze s2 = Ok s3 /\ free_blocks s3 = left_blocks /\ blocks_ok left_blocks /\
    forall x, covered left_blocks x -> covered (all_blocks s) x.
Proof using Hh.
  destruct record_bytes_pos as (H1 & H2 & H3 & H4). pose proof (hv_room Hh) as Hroom. unfold record_bytes in Hroom.
  pose proof (hv_sys Hh) as Hs. pose proof (so_offset s Hs p (hv_cur Hh)) as Hoff.
  pose proof (hv_plain Hh) as Hpl. unfold record_bytes in Hpl.
  destruct (take_bytes s p (plain ram) (2 * frame_cnt s) Hs (hv_cur Hh) H1) as (s1 & l1 & E1 & C1 & Hs1 & Hp1 & Ho1 & Hf1 & Hm1); [lia|lia| |].
  { destruct Hpl as (lo & hi & ? & ? & ?). exists lo, hi. split; [done|lia]. }
  apply (claim_rest _ _ _ _ _ C1) in Hpl; [|lia]. rewrite <- Ho1 in Hpl.
  destruct (take_bytes s1 p l1 (layout_size (map_layout (frame_cnt s))) Hs1 Hp1 H2) as (s2 & l2 & E2 & _ & Hs2 & Hp2 & Ho2 & Hf2 & Hm2); [lia|lia|done|].
  pose proof (freeze_eq s2 p Hs2 Hp2) as E3. pose proof (proj1 (freeze_parts_ok s2 p Hs2 Hp2) ltac:(lia)) as B1.
  assert (Er : free_blocks s2 ++ [free_part s2 p] = left_blocks).
  { unfold left_blocks, rest_block, free_part, record_bytes. rewrite Hf2, Hf1, (proj2 (Z.eqb_neq (ms_offset s2) 0)) by lia.
    rewrite Ho2, Ho1. by rewrite <- (Z.add_assoc (ms_offset s)). }
  rewrite Er, Ho1 in *. eexists (s1, l1), s2, l2, _. split; [exact E1|]. split; [exact E2|]. split; [exact E3|]. split; [done|]. split; [done|].
  intros x. unfold left_blocks, all_blocks. rewrite (hv_cur Hh). change (option_list (Some p)) with [p].
  intros (m & [Hm|Hm]%elem_of_app & Hx); [exists m; split; [set_solver|done]|].
  apply list_elem_of_singleton in Hm as ->. exists p. split; [set_solver|]. unfold mb_in, mb_end, rest_block, record_bytes in *.
  cbn [mb_base mb_size value] in Hx. lia.
Qed.

(** The conditions in terms of the buddy system. *)
Lemma left_fit b : frame_cnt s <= capacity b -> blocks_ok left_blocks ->
  (forall x, covered left_blocks x -> covered (all_blocks s) x) -> Forall (block_fits b (boot_base s)) left_blocks.
Proof using Hh.
  intros Hc [_ Hok] Hcov. pose proof (hv_managed Hh) as Hm. destruct (frame_cnt_ok s Hm) as (Hb & _ & Hn & _). cbn zeta in Hn.
  pose proof (mg_hi _ Hm) as Hhi. apply Forall_forall. intros m Hin. rewrite Forall_forall in Hok.
  pose proof (hv_suits Hh) as Hs. rewrite Forall_forall in Hs. destruct (Hs m Hin) as (S1 & S2 & S3). pose proof (Hok m Hin) as (K1 & K2 & K3).
  assert (Hx : forall x, mb_in m x -> boot_base s <= x < value (ar_base (managed_range s)) + ar_size (managed_range s)).
  { intros x Hx. assert (Hcx : covered left_blocks x) by (exists m; done). pose proof (mg_covers _ Hm x (Hcov x Hcx)). lia. }
  unfold mb_in, mb_end in *. pose proof (Hx (value (mb_base m)) ltac:(lia)). pose proof (Hx (value (mb_base m) + mb_size m - 1) ltac:(lia)).
  rewrite UMA_end in *. unfold block_fits. rewrite FRAME_SIZE_eq. unfold mb_end. split_and!; try done; rewrite ?UMA_end; lia.
Qed.
End Handover.

Lemma full_height_new n b : 1 <= n <= 2 ^ 34 -> max_order b = top_order n -> capacity b = map_trees n * 2 ^ top_order n -> full_height b.
Proof.
  intros Hn Hm Hc. destruct (map_trees_ok n Hn) as (_ & _ & _ & [Ht|Ht]); [by left; rewrite Hm|right].
  rewrite Hc, Hm, Ht. lia.
Qed.

(** The bytes that a record occupies: its frames and the map of its buddy system. *)
Definition record_byte (r : PhysicalMemoryRecord) (y : Z) : Prop :=
  frames_ptr r <= y < frames_ptr r + 2 * len (frames r) \/
  buf_ptr (map (buddy r)) <= y < buf_ptr (map (buddy r)) + len (buf (map (buddy r))).

Lemma buf_len b : buddy_wf b -> len (buf (map b)) = 2 * capacity b.
Proof.
  intros Hb. pose proof (bw_forest _ Hb) as HF. rewrite (fo_len _ HF). unfold capacity. rewrite (ht_eq _ HF). pose proof (fo_depth _ HF).
  replace (tree_depth (map b)) with (tree_depth (map b) - 1 + 1) at 1 by lia. rewrite pow2_succ by lia. lia.
Qed.

(** What [record_new] makes of the boot memory manager [s], whose block in use is [p]. *)
Record recorded (s : MemblockSystem) (p : Memblock) (r : PhysicalMemoryRecord) : Prop := {
  rc_ok : record_ok r;
  rc_based : page_based r;
  rc_base : value (page_base (pm_base r)) = boot_base s;
  rc_free f : 0 <= f < capacity (buddy r) ->
    frame_free (buddy r) f = true <-> covered (left_blocks s p) (boot_base s + f * FRAME_SIZE);
  rc_place y : record_byte r y <-> ms_offset s <= y - REMAP_OFFSET < ms_offset s + record_bytes s
}.

Lemma record_new_spec ram s p :
  handover_ok ram s p -> exists r s', record_new s ram = Ok (r, s') /\ recorded s p r.
Proof.
  intros Hh. pose proof (hv_managed _ _ _ Hh) as Hm. destruct (frame_cnt_ok s Hm) as (Hb & Hd & Hn & Hcnt). cbn zeta in Hn.
  destruct (handover_blocks ram s p Hh) as (st1 & s2 & l2 & s3 & E1 & E2 & E3 & Hleft & Hok & Hcov).
  destruct (record_bytes_pos ram s p Hh) as (_ & _ & Hmax & _).
  set (ptr := ms_offset s + REMAP_OFFSET) in *. assert (Hlen : len (frame_slice ram ptr (frame_cnt s)) = frame_cnt s).
  { unfold len, frame_slice. rewrite length_fmap, length_seq. lia. }
  destruct (buddy_new_spec (frame_cnt s) boot_take st1 _ _ Hcnt E2) as (b & Eb & [F1 F2 F3 F4] & Hmo & Hcap & Hptr).
  pose proof (full_height_new _ _ Hcnt Hmo Hcap) as Hfull. pose proof (left_fit ram s p Hh b ltac:(lia) Hok Hcov) as Hfit.
  destruct (free_memblocks_spec (boot_base s) (left_blocks s p) b F1 F2 Hfull) as (b' & E4 & [G1 G2 G3 G4 G5 G6]); [done|lia|done|].
  eexists _, s3. split.
  { unfold record_new. rewrite overlapped_small by done. cbn [obind pr_len pr_base page_base]. unfold layout_array.
    change (2 ^ 62) with 4611686018427387904 in Hmax. rewrite (proj2 (Z.leb_le (2 * frame_cnt s) (ISIZE - 1))) by lia.
    cbn [oexpect obind]. rewrite E1. cbn [obind oexpect]. rewrite Hlen, Eb. cbn [obind oexpect]. rewrite E3. cbn [obind].
    rewrite Hleft, E4. reflexivity. }
  assert (Hfree : forall f, 0 <= f < capacity b -> frame_free b' f = true <-> covered (left_blocks s p) (boot_base s + f * FRAME_SIZE)).
  { intros f Hf. rewrite G5, F4 by done. split; [intros [?|?]; done|by right]. }
  pose proof (mg_hi _ Hm) as Hhi. pose proof (buf_len b' G1) as Hbuf. rewrite G3 in *.
  split; cbn [frames_ptr frames pm_base buddy page_base value page_size]; [|exact Hd|done|by rewrite G3|].
  - split; cbn [frames pm_base buddy page_base value page_size]; rewrite ?Hlen, ?FRAME_SIZE_eq, ?G3; [done|done|lia|lia|lia|].
    intros f Hf Hff. apply Hfree in Hff; [|done]. pose proof (mg_covers _ Hm _ (Hcov _ Hff)) as Hx. rewrite FRAME_SIZE_eq in Hx. lia.
  - intros y. unfold record_byte. cbn [frames_ptr frames buddy]. rewrite Hlen, G6, Hptr, Hbuf, Hcap. unfold record_bytes, ptr.
    cbn [map_layout layout_size]. pose proof (map_trees_ok _ Hcnt) as (? & ? & _). rewrite pow2_succ by lia.
    pose proof (pow2_pos (top_order (frame_cnt s)) ltac:(lia)). nia.
Qed.

(** ** The memory of the record *)

(** A frame of the memory that is left belongs to it as a whole. *)
Lemma left_frame ram s p x :
  handover_ok ram s p -> covered (left_blocks s p) (boot_base s + (x - boot_base s) / 4096 * 4096) -> covered (left_blocks s p) x.
Proof.
  intros Hh (m & Hm & Hx). exists m. split; [done|]. pose proof (hv_suits _ _ _ Hh) as Hs. rewrite Forall_forall in Hs.
  destruct (Hs m Hm) as ([a Ha] & [b Hb] & _). destruct (frame_cnt_ok s (hv_managed _ _ _ Hh)) as (_ & [c Hc] & _).
  unfold mb_in, mb_end in *. rewrite Ha, Hb, Hc in *. Z.div_mod_to_equations. lia.
Qed.

(** It is part of the blocks of the boot memory manager, and lies above the record. *)
Lemma left_covered ram s p x : handover_ok ram s p -> covered (left_blocks s p) x -> covered (all_blocks s) x.
Proof. intros Hh. destruct (handover_blocks ram s p Hh) as (_ & _ & _ & _ & _ & _ & _ & _ & _ & Hcov). apply Hcov. Qed.

Lemma left_above ram s p r x y :
  handover_ok ram s p -> recorded s p r -> covered (left_blocks s p) x -> record_byte r y -> y - REMAP_OFFSET < x.
Proof.
  intros Hh Hr Hx Hy. apply (rc_place _ _ _ Hr) in Hy. pose proof (mg_covers _ (hv_managed _ _ _ Hh) x (left_covered ram s p x Hh Hx)).
  pose proof (hv_below _ _ _ Hh). lia.
Qed.

Lemma record_plain ram s p r y :
  handover_ok ram s p -> recorded s p r -> record_byte r y -> has_range (plain ram) (y - REMAP_OFFSET) 1.
Proof.
  intros Hh Hr Hy%(rc_place _ _ _ Hr). destruct (hv_plain _ _ _ Hh) as (lo & hi & H1 & H2 & H3). exists lo, hi. split; [done|lia].
Qed.

(** Its pages stay inside the blocks of the boot memory manager. *)
Lemma recorded_avail s p r :
  recorded s p r -> avail_out (boot_base s) (fun f => covered (left_blocks s p) (boot_base s + f * 4096)) (Some r) ∅.
Proof. intros [H1 H2 H3 H4 _]. apply avail_new; [done|done|done|]. intros f Hf. by apply H4. Qed.

Lemma avail_byte_left ram s p y :
  handover_ok ram s p -> avail_byte (boot_base s) (fun f => covered (left_blocks s p) (boot_base s + f * 4096)) y ->
  covered (left_blocks s p) (y - REMAP_OFFSET).
Proof. intros Hh Hy. by apply (left_frame ram s p). Qed.

(** ** The theorem *)

(** C20: when the memory that is left behind the frame records lies on frame
    boundaries, each block at a multiple of every power of two that fits in it from the
    first frame on, and the low physical addresses where the records go are plain memory
    in no other use, building the record never panics; the record is in good order, its free frames
    are exactly those of the memory that is left, and the frame records and the map
    of the buddy system lie in that plain memory, with no byte of a free frame among
    them. *)
Theorem record_new_correct ram s p :
  handover_ok ram s p ->
  exists r s', record_new s ram = Ok (r, s') /\ record_ok r /\ page_based r /\
    (forall f, 0 <= f < capacity (buddy r) ->
       frame_free (buddy r) f = true <-> covered (left_blocks s p) (boot_base s + f * FRAME_SIZE)) /\
    forall y, record_byte r y -> has_range (plain ram) (y - REMAP_OFFSET) 1 /\
      forall f, 0 <= f < capacity (buddy r) -> frame_free (buddy r) f = true -> y - REMAP_OFFSET < boot_base s + f * FRAME_SIZE.
Proof.
  intros Hh. destruct (record_new_spec ram s p Hh) as (r & s' & E & Hr). pose proof Hr as [H1 H2 _ H3 _].
  exists r, s'. split_and!; try done. intros y Hy. split; [by apply (record_plain ram s p r)|].
  intros f Hf Hff. apply (left_above ram s p r); try done. by apply H3.
Qed.

(** On a machine with two gigabytes the frame records reach from address 0 over the
    memory of the video adapter: they do not fit in the memory below it. *)
Lemma record_new_over_video :
  exists s, memblock_init (mkAddr 0x400800) [mkMemoryArea 0x100000 0x7ff00000 Available] = Ok s /\
    2 * frame_cnt s > 0xa0000 /\ record_new s low_memory = Panic.
Proof. eexists. split; [vm_compute; reflexivity|]. split; vm_compute; reflexivity. Qed.

(** ** Witness *)

(** 1024 frames: a block of 512 and, at the end, one of two frames, the first of
    which holds the records. *)
Definition demo_last : Memblock := mkMemblock (mkAddr 0x7fe000) 0x2000 Free.
Definition demo_boot_system : MemblockSystem :=
  mkMemblockSystem [mkMemblock (mkAddr 0x400000) 0x200000 Free] [] (Some demo_last) 0
    (mkAddrRange (mkAddr 0x400000) 0x400000) false.

Lemma demo_handover : handover_ok low_memory demo_boot_system demo_last.
Proof.
  split.
  - split; [split; repeat constructor; vm_compute; congruence|vm_compute; congruence|done|intros p [= <-]; by vm_compute|done].
  - split; [done|done|by vm_compute|]. intros x (m & [->|[->|[]%elem_of_nil]%elem_of_cons]%elem_of_cons & Hx);
      unfold mb_in, mb_end in Hx; cbn in *; lia.
  - done.
  - by vm_compute.
  - apply Forall_cons. split; [|apply Forall_singleton].
    + split_and!; [by exists 0x400|by exists 0x200|]. intros k Hk _. change (value _ - _) with 0. apply Z.divide_0_r.
    + change (rest_block demo_boot_system demo_last) with (mkMemblock (mkAddr 0x7ff000) 0x1000 Free).
      split_and!; [by exists 0x7ff|by exists 1|]. intros k Hk Hle. cbn [mb_size] in Hle. change 0x1000 with (2 ^ 12) in Hle.
      apply Z.pow_le_mono_r_iff in Hle; [|lia..]. assert (k = 0) as -> by lia. by exists 0x3ff.
  - exists 0, 0xa0000. split; [by left|]. by vm_compute.
  - by vm_compute.
Qed.

Lemma record_new_correct_witness :
  exists r s', record_new demo_boot_system low_memory = Ok (r, s') /\ record_ok r /\ frames_ptr r = REMAP_OFFSET /\
    frame_free (buddy r) 0 = true /\ frame_free (buddy r) 1022 = false /\ frame_free (buddy r) 1023 = true.
Proof.
  destruct (record_new_correct low_memory demo_boot_system demo_last demo_handover) as (r & s' & E & Hr & _ & Hf).
  exists r, s'. split; [exact E|]. split; [exact Hr|]. vm_compute in E. injection E as <- <-. by vm_compute.
Defined.
