(* ===== verification/PagingInit.v ===== *)
(** * Building memory maps

    The rest of [src/src/mem/paging.rs]: the kernel's first page tables
    ([X86_64MemoryManager::init]), the memory map of a process
    ([X86_64MemoryMap::new]) and its [Drop]. *)

From S2P Require Import Prelude Addr Memblock Phy Entry Paging PageAlloc.
Open Scope Z_scope.

(** ** The first tables *)

Definition KERNEL_PAGE_FLAGS : list Flag := [Present; FPageSize; Global; ReadWrite].
Definition REMAP_PAGE_FLAGS : list Flag := [Present; FPageSize; Global; ReadWrite].

(** The physical address of a static of the kernel image. *)
Definition static_paddr (vaddr : Z) : outcome (Addr UMASpace) :=
  let! v := Addr_new (S := KernelImageSpace) vaddr in KernelImageSpace_v2p v.

(** [index_range] of the first address of a space, at the root level. *)
Definition pml4_index {V : Type} `{VirtSpace V} (vaddr : Z) : outcome Z :=
  let! v := Addr_new (S := V) vaddr in
  let! ' (lo, hi) := page_table_idx_range PML4 in
  index_range v lo hi.

Section Init.
(** Where the linker put [PML4_TABLE], [PDPT_TABLES] and [KERNEL_PD_TABLE], and
    [kernel_end_vma()]. *)
Context (pml4_vaddr pdpt_vaddr pd_vaddr kernel_end : Z).

(** The [while] loop of [init_kernel_pdpt]. *)
Fixpoint init_kernel_pages (fuel : nat) (st : Machine) (pd : Addr UMASpace) (v : Addr KernelImageSpace)
    : outcome Machine :=
  if value v <? kernel_end then
    match fuel with
    | O => OutOfFuel
    | S fuel =>
        let! p := KernelImageSpace_v2p v in
        let! e := index_with_vaddr PD pd v in
        let! ' (_, st) := reinit_ref st e p KERNEL_PAGE_FLAGS in
        let! size := level_page_size PD in
        let! v := byte_add v (PageSize_usize size) in
        init_kernel_pages fuel st pd v
    end
  else Ok st.

(** One page for each turn. *)
Definition kernel_pages_fuel : nat := S (Z.to_nat (kernel_end - range_start KernelImageSpace)).

Definition init_kernel_pdpt (st : Machine) (pdpt : Addr UMASpace) : outcome Machine :=
  let! kernel_space_start := Addr_new (S := KernelImageSpace) (range_start KernelImageSpace) in
  let! e := index_with_vaddr PDPT pdpt kernel_space_start in
  let! pd := static_paddr pd_vaddr in
  let! ' (ok, st) := reinit_ref st e pd DEFAULT_PAGE_TABLE_FLAGS in
  check! ok in
  init_kernel_pages kernel_pages_fuel st pd kernel_space_start.

(** The loop of [init_physical_remap_pdpt] over the entries [idx..idx+n]. *)
Fixpoint init_remap_entries (n : nat) (idx : Z) (st : Machine) (pdpt : Addr UMASpace) (remap_start : Z)
    : outcome Machine :=
  match n with
  | O => Ok st
  | S n =>
      let! size := level_page_size PDPT in
      let! off := umul 64 idx (PageSize_usize size) in
      let! a := uadd 64 remap_start off in
      let! remap_paddr := Addr_new a in
      let! e := index PDPT pdpt idx in
      let! ' (_, st) := reinit_ref st e remap_paddr REMAP_PAGE_FLAGS in
      init_remap_entries n (idx + 1) st pdpt remap_start
  end.

Definition init_physical_remap_pdpt (st : Machine) (pdpt : Addr UMASpace) (remap_idx : Z) : outcome Machine :=
  let! size := level_page_size PDPT in
  let! per_table := umul 64 (PageSize_usize size) TABLE_LEN in
  let! remap_start := umul 64 remap_idx per_table in
  init_remap_entries (Z.to_nat TABLE_LEN) 0 st pdpt remap_start.

(** The body of the loop over the preallocated tables. *)
Definition init_pdpt (st : Machine) (managed_size i : Z) : outcome Machine :=
  let! idx := uadd 64 i 256 in
  let! kernel_page_idx := pml4_index (V := KernelImageSpace) (range_start KernelImageSpace) in
  let! remap_page_start := pml4_index (V := PhysicalRemapSpace) (range_start PhysicalRemapSpace) in
  let! e1 := usub 64 (range_end PhysicalRemapSpace) 1 in
  let! e2 := uadd 64 (range_start PhysicalRemapSpace) managed_size in
  let! e2 := usub 64 e2 1 in
  let! remap_page_end := pml4_index (V := PhysicalRemapSpace) (Z.min e1 e2) in
  let! pdpt := static_paddr (pdpt_vaddr + i * TABLE_SIZE) in
  let! st :=
    if idx =? kernel_page_idx then init_kernel_pdpt st pdpt
    else if (remap_page_start <=? idx) && (idx <=? remap_page_end) then
      let! k := usub 64 idx remap_page_start in
      init_physical_remap_pdpt st pdpt k
    else Ok st in
  let! pml4 := static_paddr pml4_vaddr in
  let! e := index PML4 pml4 idx in
  let! ' (_, st) := reinit_ref st e pdpt DEFAULT_PAGE_TABLE_FLAGS in
  Ok st.

Fixpoint init_pdpts (n : nat) (i : Z) (st : Machine) (managed_size : Z) : outcome Machine :=
  match n with
  | O => Ok st
  | S n => let! st := init_pdpt st managed_size i in init_pdpts n (i + 1) st managed_size
  end.

(** [X86_64MemoryManager::init]; the new map is loaded into [cr3]. *)
Definition paging_init (managed_size : Z) (st : Machine) : outcome Machine :=
  let! st := init_pdpts 256 0 st managed_size in
  let! pml4 := static_paddr pml4_vaddr in
  let! ' (ok, raw) := entry_init CR3 0 pml4 [] in
  check! ok in
  Ok (mkMachine raw (mem st)).
End Init.

(** [X86_64MemoryManager::swap] *)
Definition mm_swap (st : Machine) (new_cr3 : Z) : Z * Machine := (cr3 st, mkMachine new_cr3 (mem st)).

(** [X86_64MemoryMap::unmap] is [todo!()]. *)
Definition unmap {V : Type} (st : Machine) (vaddr : Addr V) : outcome Machine := Panic.

(** ** Maps of processes *)

(** [Layout::new::<RawTable>()] *)
Definition table_layout : Layout := mkLayout TABLE_SIZE TABLE_ALIGNMENT.

(** [Into<TableRef>]: the root table of a map. *)
Definition root_table (st : Machine) : outcome (Addr UMASpace) :=
  let! t := target st (mkEntryRef CR3 LCr3) in
  match t with
  | TTable _ a => let! _ := p2v a in Ok a
  | _ => Panic
  end.

(** [allocate_zeroed] clears the block that [allocate] returned. *)
Definition zero_fill (m : Z -> Z) (a n : Z) : Z -> Z :=
  fun x => if (a <=? x) && (x <? a + n) then 0 else m x.

(** [raw.0[256..].copy_from_slice(..)] *)
Definition copy_upper (m : Z -> Z) (dst src : Z) : Z -> Z :=
  fun x => if (dst + 8 * 256 <=? x) && (x <? dst + TABLE_SIZE) then m (src + (x - dst)) else m x.

(** [X86_64MemoryMap::new]: the word for [cr3] of the new map. *)
Definition memory_map_new (st : Machine) (pmm : PMM) : outcome (Z * Machine * PMM) :=
  let! ' (o, pmm) := page_allocate_ptr table_layout pmm in
  let! ' (ptr, n) := oexpect o in
  let! table_vaddr := Addr_new (S := PhysicalRemapSpace) ptr in
  let! table_paddr := v2p table_vaddr in
  let m := zero_fill (mem st) (value table_paddr) n in
  let! cur := root_table (mkMachine (cr3 st) m) in
  let m := copy_upper m (value table_paddr) (value cur) in
  let! ' (ok, raw) := entry_init CR3 0 table_paddr [] in
  check! ok in
  Ok (raw, mkMachine (cr3 st) m, pmm).

(** [drop_entry_target] and its loop over the entries of a table; five levels
    bound the recursion. *)
Fixpoint drop_entries (f : Z -> PMM -> outcome PMM) (n : nat) (raws : nat -> Z) (i : nat) (pmm : PMM) : outcome PMM :=
  match n with
  | O => Ok pmm
  | S n => let! pmm := f (raws i) pmm in drop_entries f n raws (S i) pmm
  end.

Fixpoint drop_entry_target (fuel : nat) (m : Z -> Z) (l : Level) (raw : Z) (pmm : PMM) : outcome PMM :=
  let! t := entry_target l raw in
  match t with
  | TTable l' a =>
      match fuel with
      | O => OutOfFuel
      | S fuel =>
          let! v := p2v a in
          let! pmm := drop_entries (drop_entry_target fuel m l') 512
                        (fun i => m (value a + 8 * Z.of_nat i)) 0 pmm in
          page_deallocate_ptr (value v) table_layout pmm
      end
  | _ => Ok pmm
  end.

(** [Drop for X86_64MemoryMap]: the lower half of the root table, then the root
    table itself. *)
Definition memory_map_drop (st : Machine) (pmm : PMM) : outcome PMM :=
  let! root := root_table st in
  let! v := p2v root in
  let! pmm := drop_entries (drop_entry_target WALK_FUEL (mem st) PML4) 256
                (fun i => mem st (value root + 8 * Z.of_nat i)) 0 pmm in
  page_deallocate_ptr (value v) table_layout pmm.
