(* ===== verification/PagingInitTheorems.v ===== *)
(** * Building memory maps: correctness

    The first tables map the kernel image and the remap of physical memory where
    the address arithmetic of [Addr] says they are, and the map of a process
    shares the kernel's half. *)

From S2P Require Import Prelude Addr Phy Entry Paging PagingTheorems PageAlloc PageAllocTheorems PagingInit.
Open Scope Z_scope.

(** ** Writing and following entries *)

Lemma reinit_ref_made st l a x flags :
  valid_flags l flags -> 0 <= x < range_end UMASpace -> (target_align l (refers_page l flags) | x) ->
  exists st', reinit_ref st (mkEntryRef l (LMem a)) (mkAddr x) flags = Ok (true, st') /\
    made l flags x (mem st' a) /\ (forall y, y <> a -> mem st' y = mem st y).
Proof.
  intros Hv Hx Hal. unfold reinit_ref. cbn [er_level er_loc read].
  destruct (reinit_spec l (mem st a) (mkAddr x) flags Hv Hx) as (raw & E & Hm). cbn [value] in *.
  assert (Hm0 : x mod target_align l (refers_page l flags) = 0).
  { destruct (target_align_pow l (refers_page l flags)) as (k & Hk & Ek). rewrite Ek in *.
    apply Z.mod_divide; [by apply Z.pow_nonzero; lia|done]. }
  rewrite Hm0 in *.
  rewrite E. cbn [obind]. eexists. split; [done|]. cbn [write mem]. rewrite Z.eqb_refl. split; [done|].
  intros y Hy. by rewrite (proj2 (Z.eqb_neq y a)).
Qed.

Lemma kernel_flags_valid : valid_flags PD KERNEL_PAGE_FLAGS /\ valid_flags PDPT REMAP_PAGE_FLAGS.
Proof. split; (split; [apply list_elem_of_here|]); repeat constructor; by eexists. Qed.

Lemma default_flags_valid l : l = PML4 \/ l = PDPT -> valid_flags l DEFAULT_PAGE_TABLE_FLAGS.
Proof. intros [->| ->]; (split; [apply list_elem_of_here|]); repeat constructor; by eexists. Qed.

(** One step of a walk. *)
Lemma translate_down {V} `{VirtSpace V} fuel st e (v : Addr V) l a :
  target st e = Ok (TTable l a) -> next_level (er_level e) = Some l -> table_place (value a) -> l <> CR3 ->
  translate_from (S fuel) st e v = translate_from fuel st (mkEntryRef l (LMem (value a + 8 * vidx l (value v)))) v.
Proof.
  intros Et Hn Hp Hl. cbn [translate_from]. unfold try_down. rewrite Hn, Et. cbn [obind].
  by rewrite (down_with_table_ok v a l Hp Hl).
Qed.

(** An empty entry ends a walk. *)
Lemma translate_empty {V} `{VirtSpace V} fuel st e (v : Addr V) :
  target st e = Ok TNone -> translate_from (S fuel) st e v = Ok None.
Proof.
  intros Et. cbn [translate_from]. unfold try_down. rewrite Et. cbn [obind].
  by destruct (next_level (er_level e)).
Qed.

(** The indices of an address of the upper half. *)
Lemma upper_split x :
  0xFFFF800000000000 <= x < USIZE ->
  exists i j k r, 0 <= i < 256 /\ 0 <= j < 512 /\ 0 <= k < 512 /\ 0 <= r < 2097152 /\
    x = 0xFFFF800000000000 + i * 549755813888 + j * 1073741824 + k * 2097152 + r /\
    vidx PML4 x = 256 + i /\ vidx PDPT x = j /\ vidx PD x = k.
Proof.
  change USIZE with 18446744073709551616. intros Hx. set (q := x - 0xFFFF800000000000).
  exists (q / 549755813888), (q / 1073741824 mod 512), (q / 2097152 mod 512), (q mod 2097152). unfold vidx.
  change (2 ^ level_lo PML4) with 549755813888. change (2 ^ level_lo PDPT) with 1073741824. change (2 ^ level_lo PD) with 2097152.
  replace x with (0xFFFF800000000000 + q) by lia. assert (0 <= q < 140737488355328) by lia. clearbody q. clear x Hx.
  split_and!; Z.div_mod_to_equations; lia.
Qed.

(** ** The loops over the entries of one table *)

Lemma index_ok l a i : 0 <= i < 512 -> index l (mkAddr a) i = Ok (mkEntryRef l (LMem (a + 8 * i))).
Proof. intros Hi. unfold index. rewrite TABLE_LEN_eq. by case_bool_lia. Qed.

Lemma index_with_vaddr_ok {V} `{VirtSpace V} (v : Addr V) l a :
  l <> CR3 -> index_with_vaddr l (mkAddr a) v = Ok (mkEntryRef l (LMem (a + 8 * vidx l (value v)))).
Proof.
  intros Hl. unfold index_with_vaddr.
  assert (Hr : page_table_idx_range l = Ok (level_lo l, level_lo l + 9)) by by destruct l.
  rewrite Hr. cbn [obind]. rewrite index_range_ok by by destruct l. cbn [obind].
  apply index_ok. apply (vidx_bound l (value v)).
Qed.

(** Entries [idx..512] of a remap table are written, and nothing else. *)
Lemma init_remap_entries_ok a start n : forall idx st,
  0 <= idx -> idx + Z.of_nat n = 512 -> 0 <= start -> (GiB | start) -> start + 512 * GiB <= range_end UMASpace ->
  exists st', init_remap_entries n idx st (mkAddr a) start = Ok st' /\
    (forall j, idx <= j < 512 -> made PDPT REMAP_PAGE_FLAGS (start + j * GiB) (mem st' (a + 8 * j))) /\
    (forall y, (forall j, idx <= j < 512 -> y <> a + 8 * j) -> mem st' y = mem st y).
Proof.
  rewrite UMA_end. change GiB with 1073741824. induction n as [|n IH]; intros idx st Hi Hn Hs0 Hal Hs1.
  { exists st. split_and!; [done|lia|done]. }
  cbn [init_remap_entries]. change (level_page_size PDPT) with (Ok Huge). cbn [obind].
  change (PageSize_usize Huge) with 1073741824.
  rewrite umul_ok by lia. cbn [obind]. rewrite uadd_ok by lia. cbn [obind].
  rewrite Addr_new_ok by (rewrite UMA_start, UMA_end; lia). cbn [obind]. rewrite index_ok by lia. cbn [obind].
  destruct (reinit_ref_made st PDPT (a + 8 * idx) (start + idx * 1073741824) REMAP_PAGE_FLAGS) as (st1 & -> & Hm & Hf).
  { apply kernel_flags_valid. }
  { rewrite UMA_end. lia. }
  { apply multiple_add. exact Hal. }
  cbn [obind]. destruct (IH (idx + 1) st1) as (st' & E & Hj & Hy); [lia..|done|lia|].
  exists st'. split; [done|]. split.
  - intros j Hr. destruct (decide (j = idx)) as [->|Hne]; [|apply Hj; lia].
    rewrite Hy by lia. done.
  - intros y Hr. rewrite Hy by (intros j ?; apply Hr; lia). apply Hf, Hr. lia.
Qed.

(** ** Where the tables lie *)

Abbreviation KSTART := 0xFFFFFFFF80000000 (only parsing).
Abbreviation RSTART := 0xFFFF888000000000 (only parsing).

Section Init.
Context (pml4_vaddr pdpt_vaddr pd_vaddr kernel_end : Z).

(** Physical addresses of the static tables. *)
Definition P4 : Z := pml4_vaddr - KSTART.
Definition D (i : Z) : Z := pdpt_vaddr + i * 4096 - KSTART.
Definition K : Z := pd_vaddr - KSTART.

(** What the linker guarantees: tables lie on page boundaries of the kernel image
    and apart from each other, and the image is smaller than a gigabyte. *)
Record statics_ok : Prop := {
  st_aligned : (4096 | P4) /\ (4096 | D 0) /\ (4096 | K);
  st_low : 0 <= P4 /\ 0 <= D 0 /\ 0 <= K;
  st_high : pml4_vaddr + 4096 <= range_end KernelImageSpace /\ pdpt_vaddr + 256 * 4096 <= range_end KernelImageSpace /\
            pd_vaddr + 4096 <= range_end KernelImageSpace;
  st_apart : (P4 + 4096 <= D 0 \/ D 256 <= P4) /\ (K + 4096 <= D 0 \/ D 256 <= K) /\
             (P4 + 4096 <= K \/ K + 4096 <= P4);
  st_end : KSTART <= kernel_end <= KSTART + GiB
}.

Context (Hs : statics_ok).

Lemma kernel_range : range_start KernelImageSpace = KSTART /\ range_end KernelImageSpace = 0xFFFFFFFFFF600000.
Proof. done. Qed.

Lemma static_paddr_ok x : KSTART <= x < range_end KernelImageSpace -> static_paddr x = Ok (mkAddr (x - KSTART)).
Proof.
  intros Hx. destruct kernel_range as [E1 E2]. rewrite E2 in Hx. unfold static_paddr. rewrite Addr_new_ok by (rewrite ?E1, ?E2; lia). cbn [obind].
  unfold KernelImageSpace_v2p. rewrite in_space_ok by (cbn [value]; rewrite ?E1, ?E2; lia). cbn [value].
  rewrite E1. rewrite usub_ok by lia. cbn [obind]. apply Addr_new_ok. rewrite UMA_start, UMA_end. lia.
Qed.

Lemma D_step i : D i = D 0 + i * 4096.
Proof. unfold D. lia. Qed.

Lemma D_aligned i : (4096 | D i).
Proof. rewrite D_step. apply multiple_add. apply Hs. Qed.

Lemma table_places i : 0 <= i < 256 -> table_place P4 /\ table_place (D i) /\ table_place K.
Proof.
  intros Hi. destruct Hs as [(A1 & A2 & A3) (B1 & B2 & B3) (C1 & C2 & C3) _ _].
  destruct kernel_range as [_ E2]. rewrite E2 in *. unfold table_place. rewrite TABLE_SIZE_eq, UMA_end.
  pose proof (D_step i). pose proof (D_aligned i). unfold P4, D, K in *. split_and!; done || lia.
Qed.

(** ** The words of each table *)

(** The words of the tables below the root that turn [i] writes. *)
Definition own_table (s i y : Z) : Prop :=
  (273 <= 256 + i <= 273 + (s - 1) / (512 * GiB) /\ exists j, 0 <= j < 512 /\ y = D i + 8 * j) \/
  (i = 255 /\ y = D i + 8 * 510) \/
  (i = 255 /\ exists j, 0 <= j /\ KSTART + j * (2 * MiB) < kernel_end /\ y = K + 8 * j).

Definition own (s i y : Z) : Prop := y = P4 + 8 * (256 + i) \/ own_table s i y.

(** They lie in the table of the turn or in the page directory. *)
Lemma own_table_place s i y :
  own_table s i y -> (exists j, 0 <= j < 512 /\ y = D i + 8 * j) \/ (i = 255 /\ exists j, 0 <= j < 512 /\ y = K + 8 * j).
Proof using Hs.
  pose proof (st_end Hs) as He. change GiB with 1073741824 in He.
  intros [(_ & H)|[(-> & ->)|(-> & j & Hj & Hk & ->)]]; [by left|left; exists 510; lia|right].
  split; [done|]. exists j. change MiB with 1048576 in Hk. lia.
Qed.

Lemma own_unique s i i' y : 0 <= i < 256 -> 0 <= i' < 256 -> own s i y -> own s i' y -> i = i'.
Proof using Hs.
  intros Hi Hi' H1 H2. pose proof Hs as [_ _ _ (A1 & A2 & A3) _]. pose proof (D_step i). pose proof (D_step i').
  pose proof (D_step 256). destruct H1 as [->|H1%own_table_place], H2 as [H2|H2%own_table_place];
    [lia|destruct H2 as [(k & Hk & E)|(-> & k & Hk & E)]; lia|destruct H1 as [(k & Hk & E)|(-> & k & Hk & E)]; lia|].
  destruct H1 as [(j & Hj & ->)|(-> & j & Hj & ->)], H2 as [(k & Hk & E)|(-> & k & Hk & E)]; lia.
Qed.

(** What the tables hold after turn [i]. *)
Record pdpt_done (managed_size i : Z) (m : Z -> Z) : Prop := {
  pd_root : made PML4 DEFAULT_PAGE_TABLE_FLAGS (D i) (m (P4 + 8 * (256 + i)));
  pd_remap : 273 <= 256 + i <= 273 + (managed_size - 1) / (512 * GiB) ->
    forall j, 0 <= j < 512 ->
      made PDPT REMAP_PAGE_FLAGS ((256 + i - 273) * (512 * GiB) + j * GiB) (m (D i + 8 * j));
  pd_kernel : i = 255 -> made PDPT DEFAULT_PAGE_TABLE_FLAGS K (m (D i + 8 * 510));
  pd_pages : i = 255 -> forall j, 0 <= j -> KSTART + j * (2 * MiB) < kernel_end ->
    made PD KERNEL_PAGE_FLAGS (j * (2 * MiB)) (m (K + 8 * j))
}.

Lemma pdpt_done_frame s i m m' :
  (forall y, own s i y -> m' y = m y) -> pdpt_done s i m -> pdpt_done s i m'.
Proof using.
  intros Hf [H1 H2 H3 H4]. split.
  - rewrite Hf by by left. done.
  - intros Hr j Hj. rewrite Hf by (right; left; eauto). by apply H2.
  - intros E. rewrite Hf by (right; right; by left). by apply H3.
  - intros E j Hj Hk. rewrite Hf by (right; right; right; eauto). by apply H4.
Qed.

(** ** The kernel image *)

Lemma kernel_vidx_pd k : 0 <= k < 512 -> vidx PD (KSTART + k * (2 * MiB)) = k.
Proof.
  intros Hk. unfold vidx. change (level_lo PD) with 21. change (2 * MiB) with (2 ^ 21).
  rewrite Z.div_add by done. change (KSTART / 2 ^ 21) with (17179869182 * 512).
  rewrite Z.add_comm, Z.mod_add by done. apply Z.mod_small. lia.
Qed.

(** The loop writes one entry for each two megabytes of the image, from the
    [j]-th on. *)
Lemma init_kernel_pages_ok fuel : forall j st,
  0 <= j <= 512 -> kernel_end - (KSTART + j * (2 * MiB)) <= Z.of_nat fuel ->
  exists st', init_kernel_pages kernel_end fuel st (mkAddr K) (mkAddr (KSTART + j * (2 * MiB))) = Ok st' /\
    (forall k, j <= k -> KSTART + k * (2 * MiB) < kernel_end ->
       made PD KERNEL_PAGE_FLAGS (k * (2 * MiB)) (mem st' (K + 8 * k))) /\
    (forall y, (forall k, j <= k -> KSTART + k * (2 * MiB) < kernel_end -> y <> K + 8 * k) -> mem st' y = mem st y).
Proof using Hs.
  destruct Hs as [_ _ _ _ He]. change GiB with 1073741824 in He. destruct kernel_range as [E1 E2].
  induction fuel as [|fuel IH]; intros j st Hj Hf; cbn [init_kernel_pages value];
    pose proof (kernel_vidx_pd j) as Hv; change (2 * MiB) with 2097152 in *.
  { case_bool_lia. exists st. split_and!; [done|intros; lia|done]. }
  destruct (Z.ltb_spec (KSTART + j * 2097152) kernel_end) as [Hlt|Hge].
  2: { exists st. split_and!; [done|intros; lia|done]. }
  unfold KernelImageSpace_v2p. rewrite in_space_ok by (cbn [value]; rewrite ?E1, ?E2; lia). cbn [value].
  rewrite E1, usub_ok by lia. cbn [obind].
  rewrite Addr_new_ok by (rewrite UMA_start, UMA_end; lia). cbn [obind].
  rewrite index_with_vaddr_ok by done. cbn [obind value]. rewrite Hv by lia.
  replace (KSTART + j * 2097152 - KSTART) with (j * 2097152) by lia.
  destruct (reinit_ref_made st PD (K + 8 * j) (j * 2097152) KERNEL_PAGE_FLAGS) as (st1 & -> & Hm & Hy).
  { apply kernel_flags_valid. }
  { rewrite UMA_end. lia. }
  { apply Z.divide_factor_r. }
  cbn [obind]. change (level_page_size PD) with (Ok Large). cbn [obind].
  change (PageSize_usize Large) with 2097152.
  destruct (IH (j + 1) st1) as (st' & E & Hk & Hy'); [lia..|].
  exists st'. split.
  - rewrite byte_add_ok by (cbn [value]; rewrite ?E1, ?E2; lia). cbn [obind value].
    replace (KSTART + j * 2097152 + 2097152) with (KSTART + (j + 1) * 2097152) by lia. exact E.
  - split.
    + intros k Hr Hl. destruct (decide (k = j)) as [->|Hne]; [rewrite Hy' by lia; done|apply Hk; lia].
    + intros y Hr. rewrite Hy' by (intros k ? ?; apply Hr; [lia|done]). apply Hy, Hr; [lia|done].
Qed.

Lemma init_kernel_pdpt_ok st :
  exists st', init_kernel_pdpt pd_vaddr kernel_end st (mkAddr (D 255)) = Ok st' /\
    made PDPT DEFAULT_PAGE_TABLE_FLAGS K (mem st' (D 255 + 8 * 510)) /\
    (forall k, 0 <= k -> KSTART + k * (2 * MiB) < kernel_end ->
       made PD KERNEL_PAGE_FLAGS (k * (2 * MiB)) (mem st' (K + 8 * k))) /\
    (forall y, y <> D 255 + 8 * 510 -> (forall k, 0 <= k -> KSTART + k * (2 * MiB) < kernel_end -> y <> K + 8 * k) ->
       mem st' y = mem st y).
Proof using Hs.
  pose proof Hs as [(_ & _ & HaK) (_ & HD0 & HK0) (_ & _ & HK1) (_ & Hap & _) _]. destruct kernel_range as [E1 E2].
  rewrite E2 in HK1. pose proof (D_step 255) as HD. pose proof (D_step 256) as HD'.
  unfold init_kernel_pdpt. rewrite E1. change (Addr_new (S := KernelImageSpace) KSTART) with (Ok (mkAddr (S := KernelImageSpace) KSTART)).
  cbn [obind]. rewrite index_with_vaddr_ok by done. change (vidx PDPT (value (mkAddr (S := KernelImageSpace) KSTART))) with 510. cbn [obind].
  rewrite static_paddr_ok by (rewrite E2; unfold K in *; lia). cbn [obind]. fold K.
  destruct (reinit_ref_made st PDPT (D 255 + 8 * 510) K DEFAULT_PAGE_TABLE_FLAGS) as (st1 & -> & Hm & Hy).
  { apply default_flags_valid. by right. }
  { rewrite UMA_end. unfold K in *. lia. }
  { exact HaK. }
  cbn [obind]. destruct (init_kernel_pages_ok (kernel_pages_fuel kernel_end) 0 st1) as (st' & E & Hk & Hy'); [lia| |].
  { unfold kernel_pages_fuel. rewrite E1. lia. }
  exists st'. split; [exact E|]. split_and!; [|done|].
  - rewrite Hy'; [done|]. intros k Hk0 Hl. pose proof (st_end Hs) as He. change GiB with 1073741824 in He. change MiB with 1048576 in Hl. lia.
  - intros y H1 H2. rewrite Hy' by done. by apply Hy.
Qed.

(** ** One turn of the loop *)

Lemma init_physical_remap_pdpt_ok st a k :
  0 <= k < 128 ->
  exists st', init_physical_remap_pdpt st (mkAddr a) k = Ok st' /\
    (forall j, 0 <= j < 512 -> made PDPT REMAP_PAGE_FLAGS (k * (512 * GiB) + j * GiB) (mem st' (a + 8 * j))) /\
    (forall y, (forall j, 0 <= j < 512 -> y <> a + 8 * j) -> mem st' y = mem st y).
Proof using.
  intros Hk. unfold init_physical_remap_pdpt. change (level_page_size PDPT) with (Ok Huge). cbn [obind].
  rewrite TABLE_LEN_eq. change (umul 64 (PageSize_usize Huge) 512) with (Ok 549755813888). cbn [obind].
  rewrite umul_ok by lia. cbn [obind]. change (512 * GiB) with 549755813888.
  apply init_remap_entries_ok; [lia|reflexivity|lia| |rewrite UMA_end; change GiB with 1073741824; lia].
  exists (k * 512). change GiB with 1073741824. lia.
Qed.

Lemma remap_pml4_index p :
  0 <= p < range_end UMASpace -> pml4_index (V := PhysicalRemapSpace) (RSTART + p) = Ok (273 + p / (512 * GiB)).
Proof using.
  rewrite UMA_end. intros Hp. unfold pml4_index. rewrite Addr_new_ok by (cbn; lia). cbn [obind].
  change (page_table_idx_range PML4) with (Ok (39, 39 + 9)). cbn [obind]. rewrite index_range_ok by done. f_equal.
  cbn [value]. change (512 * GiB) with (2 ^ 39).
  replace (RSTART + p) with (p + 33554193 * 2 ^ 39) by lia. rewrite Z.div_add by done.
  assert (0 <= p / 2 ^ 39 < 128) by (split; [apply Z.div_pos; lia|apply Z.div_lt_upper_bound; lia]).
  replace (p / 2 ^ 39 + 33554193) with (273 + p / 2 ^ 39 + 65535 * 512) by lia.
  rewrite Z.mod_add by done. apply Z.mod_small. lia.
Qed.

Lemma root_not_own_table s i : 0 <= i < 256 -> ~ own_table s i (P4 + 8 * (256 + i)).
Proof using Hs.
  intros Hi. pose proof Hs as [_ _ _ (A1 & A2 & A3) _]. pose proof (D_step i). pose proof (D_step 256).
  intros [(j & Hj & E)|(_ & j & Hj & E)]%own_table_place; lia.
Qed.

(** The branch on the index. *)
Definition init_branch (st : Machine) (s i : Z) : outcome Machine :=
  if 256 + i =? 511 then init_kernel_pdpt pd_vaddr kernel_end st (mkAddr (D i))
  else if (273 <=? 256 + i) && (256 + i <=? 273 + (s - 1) / (512 * GiB)) then
    init_physical_remap_pdpt st (mkAddr (D i)) (256 + i - 273)
  else Ok st.

(** What it leaves in the table and, for the kernel, in the page directory. *)
Definition branch_done (s i : Z) (m : Z -> Z) : Prop :=
  (273 <= 256 + i <= 273 + (s - 1) / (512 * GiB) -> forall j, 0 <= j < 512 ->
      made PDPT REMAP_PAGE_FLAGS ((256 + i - 273) * (512 * GiB) + j * GiB) (m (D i + 8 * j))) /\
  (i = 255 -> made PDPT DEFAULT_PAGE_TABLE_FLAGS K (m (D i + 8 * 510))) /\
  (i = 255 -> forall j, 0 <= j -> KSTART + j * (2 * MiB) < kernel_end ->
    made PD KERNEL_PAGE_FLAGS (j * (2 * MiB)) (m (K + 8 * j))).

Lemma init_branch_ok s i st :
  0 <= i < 256 -> 0 < s <= range_end UMASpace ->
  exists st', init_branch st s i = Ok st' /\ branch_done s i (mem st') /\
    (forall y, ~ own_table s i y -> mem st' y = mem st y).
Proof using Hs.
  rewrite UMA_end. intros Hi Hm. unfold init_branch, branch_done, own_table.
  assert (Hq : 0 <= (s - 1) / (512 * GiB) < 128).
  { split; [apply Z.div_pos|apply Z.div_lt_upper_bound]; change (512 * GiB) with 549755813888; lia. }
  destruct (Z.eqb_spec (256 + i) 511) as [Ei|Ei].
  - assert (i = 255) as -> by lia. destruct (init_kernel_pdpt_ok st) as (st' & E & H1 & H2 & H3).
    exists st'. split; [exact E|]. split; [split_and!; [lia|done|done]|].
    intros y Hy. apply H3; [intros ->|intros k Hk Hl ->]; apply Hy; [right; by left|right; right; eauto].
  - destruct (Z.leb_spec 273 (256 + i)) as [H1|H1], (Z.leb_spec (256 + i) (273 + (s - 1) / (512 * GiB))) as [H2|H2]; cbn [andb].
    2-4: exists st; split; [done|]; split; [split_and!; lia|done].
    destruct (init_physical_remap_pdpt_ok st (D i) (256 + i - 273)) as (st' & E & Hj & Hy); [lia|].
    exists st'. split; [exact E|]. split; [split_and!; [done|lia|lia]|].
    intros y Hn. apply Hy. intros j Hj0 ->. apply Hn. left. split; [done|eauto].
Qed.

Lemma init_pdpt_branch st s i :
  0 <= i < 256 -> 0 < s <= range_end UMASpace ->
  init_pdpt pml4_vaddr pdpt_vaddr pd_vaddr kernel_end st s i =
    let! st := init_branch st s i in
    let! ' (_, st) := reinit_ref st (mkEntryRef PML4 (LMem (P4 + 8 * (256 + i)))) (mkAddr (D i)) DEFAULT_PAGE_TABLE_FLAGS in
    Ok st.
Proof using Hs.
  intros Hi Hm. pose proof Hs as [_ (B1 & B2 & _) (C1 & C2 & _) _ _]. destruct kernel_range as [_ E2]. rewrite E2 in *.
  unfold init_pdpt. rewrite uadd_ok by lia. cbn [obind].
  change (pml4_index (V := KernelImageSpace) (range_start KernelImageSpace)) with (Ok 511).
  change (pml4_index (V := PhysicalRemapSpace) (range_start PhysicalRemapSpace)) with (Ok 273). cbn [obind].
  change (usub 64 (range_end PhysicalRemapSpace) 1) with (Ok (RSTART + 70368744177663)). cbn [obind].
  change (range_start PhysicalRemapSpace) with RSTART. pose proof Hm as Hm'. rewrite UMA_end in Hm'.
  rewrite uadd_ok by lia. cbn [obind]. rewrite usub_ok by lia. cbn [obind].
  rewrite Z.min_r by lia. replace (RSTART + s - 1) with (RSTART + (s - 1)) by lia.
  rewrite remap_pml4_index by lia. cbn [obind]. rewrite TABLE_SIZE_eq.
  rewrite static_paddr_ok by (rewrite E2; unfold D in *; lia). cbn [obind]. fold (D i).
  replace (i + 256) with (256 + i) by lia.
  assert (Eb : (if 256 + i =? 511 then init_kernel_pdpt pd_vaddr kernel_end st (mkAddr (D i)) else
    if (273 <=? 256 + i) && (256 + i <=? 273 + (s - 1) / (512 * GiB)) then
      let! k := usub 64 (256 + i) 273 in init_physical_remap_pdpt st (mkAddr (D i)) k else Ok st) = init_branch st s i).
  { unfold init_branch. destruct (_ =? _); [done|]. destruct (Z.leb_spec 273 (256 + i)); [|done].
    cbn [andb]. by rewrite usub_ok by lia. }
  rewrite Eb. destruct (init_branch st s i) as [st1| |]; cbn [obind]; try done.
  rewrite static_paddr_ok by (rewrite E2; unfold P4 in *; lia). cbn [obind]. fold P4. by rewrite index_ok by lia.
Qed.

Lemma init_pdpt_ok s i st :
  0 <= i < 256 -> 0 < s <= range_end UMASpace ->
  exists st', init_pdpt pml4_vaddr pdpt_vaddr pd_vaddr kernel_end st s i = Ok st' /\
    pdpt_done s i (mem st') /\ (forall y, ~ own s i y -> mem st' y = mem st y).
Proof using Hs.
  intros Hi Hm. rewrite init_pdpt_branch by done.
  destruct (init_branch_ok s i st Hi Hm) as (st1 & -> & Hb & Hf). cbn [obind].
  destruct (table_places i Hi) as (_ & (Hp1 & Hp2 & Hp3) & _). rewrite TABLE_SIZE_eq in *.
  destruct (reinit_ref_made st1 PML4 (P4 + 8 * (256 + i)) (D i) DEFAULT_PAGE_TABLE_FLAGS) as (st2 & -> & Hr & Hy).
  { apply default_flags_valid. by left. }
  { lia. }
  { exact Hp3. }
  cbn [obind]. exists st2. split; [done|]. pose proof (root_not_own_table s i Hi) as Hroot.
  assert (Hsame : forall y, own_table s i y -> mem st2 y = mem st1 y).
  { intros y Ho. apply Hy. intros ->. by apply Hroot. }
  destruct Hb as (H1 & H2 & H3). split; [split|].
  - exact Hr.
  - intros Hrg j Hj. rewrite Hsame by (left; eauto). by apply H1.
  - intros E. rewrite Hsame by (right; by left). by apply H2.
  - intros E j Hj Hl. rewrite Hsame by (right; right; eauto). by apply H3.
  - intros y Hn. rewrite Hy by (intros ->; apply Hn; by left). apply Hf. intros Ho. apply Hn. by right.
Qed.

(** ** The whole loop *)

Lemma init_pdpts_ok s n : forall i st,
  0 <= i -> i + Z.of_nat n <= 256 -> 0 < s <= range_end UMASpace ->
  exists st', init_pdpts pml4_vaddr pdpt_vaddr pd_vaddr kernel_end n i st s = Ok st' /\
    (forall k, i <= k < i + Z.of_nat n -> pdpt_done s k (mem st')) /\
    (forall y, (forall k, i <= k < i + Z.of_nat n -> ~ own s k y) -> mem st' y = mem st y).
Proof using Hs.
  induction n as [|n IH]; intros i st Hi Hn Hm; cbn [init_pdpts].
  { exists st. split_and!; [done|lia|done]. }
  destruct (init_pdpt_ok s i st) as (st1 & -> & Hd & Hf); [lia|done|]. cbn [obind].
  destruct (IH (i + 1) st1) as (st' & E & Hd' & Hf'); [lia|lia|done|]. exists st'. split; [done|]. split.
  - intros k Hk. destruct (decide (k = i)) as [->|Hne]; [|apply Hd'; lia].
    apply (pdpt_done_frame s i (mem st1)); [|done]. intros y Hy. apply Hf'. intros k' Hk' Hy'.
    assert (i = k') by (apply (own_unique s i k' y); [lia|lia|done|done]). lia.
  - intros y Hy. rewrite Hf' by (intros k ?; apply Hy; lia). apply Hf, Hy. lia.
Qed.

(** Words that no turn writes. *)
Lemma own_D s i' i j :
  0 <= i' < 256 -> 0 <= i < 256 -> 0 <= j < 512 -> own s i' (D i + 8 * j) ->
  273 <= 256 + i <= 273 + (s - 1) / (512 * GiB) \/ (i = 255 /\ j = 510).
Proof using Hs.
  intros Hi' Hi Hj Ho. pose proof Hs as [_ _ _ (A1 & A2 & A3) He]. change GiB with 1073741824 in He. pose proof (D_step i). pose proof (D_step i').
  pose proof (D_step 256). destruct Ho as [E|[(Hr & k & Hk & E)|[(-> & E)|(-> & k & Hk & Hl & E)]]]; [lia|left|right; lia|].
  - by assert (i = i') as -> by lia.
  - change MiB with 1048576 in Hl. lia.
Qed.

Lemma own_K s i' k : 0 <= i' < 256 -> 0 <= k < 512 -> own s i' (K + 8 * k) -> KSTART + k * (2 * MiB) < kernel_end.
Proof using Hs.
  intros Hi' Hk Ho. pose proof Hs as [_ _ _ (A1 & A2 & A3) _]. pose proof (D_step i'). pose proof (D_step 256).
  destruct Ho as [E|[(_ & j & Hj & E)|[(-> & E)|(-> & j & Hj & Hl & E)]]]; [lia..|].
  by assert (k = j) as -> by lia.
Qed.

Lemma own_P4 s i' k : 0 <= i' < 256 -> 0 <= k < 256 -> ~ own s i' (P4 + 8 * k).
Proof using Hs.
  intros Hi' Hk [E|Ho%own_table_place]; [lia|]. pose proof Hs as [_ _ _ (A1 & A2 & A3) _]. pose proof (D_step i'). pose proof (D_step 256).
  destruct Ho as [(j & Hj & E)|(-> & j & Hj & E)]; lia.
Qed.

(** ** The first address space *)

(** The statics are zero at boot. *)
Definition statics_zero (m : Z -> Z) : Prop :=
  (forall j, 0 <= j < 512 -> m (P4 + 8 * j) = 0 /\ m (K + 8 * j) = 0) /\
  (forall i j, 0 <= i < 256 -> 0 <= j < 512 -> m (D i + 8 * j) = 0).

(** What the first tables should map: the kernel image by large pages, and
    physical memory, in steps of a whole table, by huge pages. *)
Definition first_map (s x : Z) : option Z :=
  if (KSTART <=? x) && (KSTART + (x - KSTART) / (2 * MiB) * (2 * MiB) <? kernel_end)
  then Some ((x - KSTART) / (2 * MiB) * (2 * MiB))
  else if (RSTART <=? x) && ((x - RSTART) / (512 * GiB) <=? (s - 1) / (512 * GiB))
  then Some ((x - RSTART) / GiB * GiB)
  else None.

(** What the tables hold after the loop, and the walk that they allow. *)
Record built (s : Z) (st : Machine) : Prop := {
  bt_cr3 : made CR3 [] P4 (cr3 st);
  bt_done : forall i, 0 <= i < 256 -> pdpt_done s i (mem st);
  bt_zero : forall i j, 0 <= i < 256 -> 0 <= j < 512 ->
    ~ 273 <= 256 + i <= 273 + (s - 1) / (512 * GiB) -> ~ (i = 255 /\ j = 510) -> mem st (D i + 8 * j) = 0;
  bt_zero_pd : forall k, 0 <= k < 512 -> kernel_end <= KSTART + k * (2 * MiB) -> mem st (K + 8 * k) = 0;
  bt_zero_root : forall k, 0 <= k < 256 -> mem st (P4 + 8 * k) = 0
}.

Lemma paging_init_built s st :
  statics_zero (mem st) -> 0 < s <= range_end UMASpace ->
  exists st', paging_init pml4_vaddr pdpt_vaddr pd_vaddr kernel_end s st = Ok st' /\ built s st' /\
    (forall y, (forall i, 0 <= i < 256 -> ~ own s i y) -> mem st' y = mem st y).
Proof using Hs.
  intros [Hz1 Hz2] Hm. unfold paging_init. destruct (init_pdpts_ok s 256 0 st) as (st1 & -> & Hd & Hf); [lia|lia|done|].
  change (0 + Z.of_nat 256) with 256 in *. cbn [obind].
  pose proof Hs as [(HaP & _) (HP & _) (HP' & _) _ _]. destruct kernel_range as [_ E2]. rewrite E2 in *.
  rewrite static_paddr_ok by (rewrite E2; unfold P4 in *; lia). cbn [obind]. fold P4.
  assert (HPU : 0 <= P4 < range_end UMASpace) by (rewrite UMA_end; unfold P4 in *; lia).
  destruct (reinit_spec CR3 0 (mkAddr P4) [] eq_refl HPU) as (raw & Er & Hraw). cbn [value] in Er, Hraw.
  assert (Hmod : P4 mod target_align CR3 (refers_page CR3 []) = 0) by (apply Z.mod_divide; [done|exact HaP]).
  rewrite Hmod in Er, Hraw. unfold entry_init. rewrite Er. cbn [obind Z.eqb]. eexists. split; [done|]. split; [split|exact Hf]; cbn [cr3 mem].
  - exact Hraw.
  - exact Hd.
  - intros i j Hi Hj H1 H2. rewrite Hf; [by apply Hz2|]. intros i' Hi' [?|?]%own_D; done.
  - intros k Hk He. rewrite Hf; [by apply Hz1|]. intros i' Hi' ?%own_K; [lia|done..].
  - intros k Hk. rewrite Hf; [apply Hz1; lia|]. intros i' Hi'. by apply own_P4.
Qed.

(** The entries that a walk over the built tables meets. *)
Section Walk.
Context {V : Type} `{VirtSpace V} (s : Z) (st : Machine) (v : Addr V) (Hb : built s st).

Lemma walk_root : translate st v = translate_from 4 st (mkEntryRef PML4 (LMem (P4 + 8 * vidx PML4 (value v)))) v.
Proof using Hs Hb.
  unfold translate, WALK_FUEL. apply (translate_down 4 st _ v PML4 (mkAddr P4)); [|done|apply (table_places 0); lia|done].
  apply (made_target CR3 [] P4), Hb.
Qed.

Lemma walk_pdpt i :
  0 <= i < 256 -> vidx PML4 (value v) = 256 + i ->
  translate st v = translate_from 3 st (mkEntryRef PDPT (LMem (D i + 8 * vidx PDPT (value v)))) v.
Proof using Hs Hb.
  intros Hi E. rewrite walk_root, E. apply (translate_down 3 st _ v PDPT (mkAddr (D i))); [|done|by apply table_places|done].
  apply (made_target PML4 DEFAULT_PAGE_TABLE_FLAGS), (bt_done s st Hb i Hi).
Qed.

(** Within the gigabyte of the kernel image. *)
Lemma walk_kernel k :
  0 <= k < 512 -> vidx PML4 (value v) = 511 -> vidx PDPT (value v) = 510 -> vidx PD (value v) = k ->
  translate st v = Ok (if KSTART + k * (2 * MiB) <? kernel_end then Some (mkAddr (k * (2 * MiB))) else None).
Proof using Hs Hb.
  intros Hk E4 E3 E2. pose proof (bt_done s st Hb 255 ltac:(lia)) as Hd.
  rewrite (walk_pdpt 255), E3 by (done || lia).
  rewrite (translate_down 2 st _ v PD (mkAddr K)), E2;
    [|apply (made_target PDPT DEFAULT_PAGE_TABLE_FLAGS), (pd_kernel _ _ _ Hd eq_refl)|done|by apply (table_places 0)|done].
  destruct (Z.ltb_spec (KSTART + k * (2 * MiB)) kernel_end) as [Hl|Hl].
  - apply (translate_page v st _ PD); [|lia]. apply (made_target PD KERNEL_PAGE_FLAGS), (pd_pages _ _ _ Hd eq_refl); [lia|done].
  - apply translate_empty. unfold target. cbn [er_level er_loc read value]. by rewrite (bt_zero_pd s st Hb).
Qed.

(** Everywhere else in the upper half. *)
Lemma walk_other i j :
  0 <= i < 256 -> 0 <= j < 512 -> vidx PML4 (value v) = 256 + i -> vidx PDPT (value v) = j -> ~ (i = 255 /\ j = 510) ->
  translate st v = Ok (if (273 <=? 256 + i) && (256 + i <=? 273 + (s - 1) / (512 * GiB))
                       then Some (mkAddr ((256 + i - 273) * (512 * GiB) + j * GiB)) else None).
Proof using Hs Hb.
  intros Hi Hj E4 E3 Hn. pose proof (bt_done s st Hb i Hi) as Hd. rewrite (walk_pdpt i Hi E4), E3.
  case_bool ((273 <=? 256 + i) && (256 + i <=? 273 + (s - 1) / (512 * GiB))) Hr.
  - apply (translate_page v st _ PDPT); [|lia]. apply (made_target PDPT REMAP_PAGE_FLAGS), (pd_remap _ _ _ Hd); [|done]. lia.
  - apply translate_empty. unfold target. cbn [er_level er_loc read value]. rewrite (bt_zero s st Hb); [done..| |done]. lia.
Qed.

Lemma walk_upper : 0 < s <= range_end UMASpace -> 0xFFFF800000000000 <= value v < USIZE ->
  translate st v = Ok (option_map mkAddr (first_map s (value v))).
Proof using Hs Hb.
  rewrite UMA_end. intros Hs0 Hv. destruct (upper_split _ Hv) as (i & j & k & r & Hi & Hj & Hk & Hr & Ex & E4 & E3 & E2).
  pose proof (st_end Hs) as He. unfold first_map.
  assert (Hq : 0 <= (s - 1) / (512 * GiB) < 128).
  { split; [apply Z.div_pos|apply Z.div_lt_upper_bound]; change (512 * GiB) with 549755813888; lia. }
  assert (Ek : i = 255 /\ j = 510 -> (value v - KSTART) / 2097152 = k) by (intros [-> ->]; rewrite Ex; Z.div_mod_to_equations; lia).
  assert (El : RSTART <= value v -> (value v - RSTART) / 549755813888 = i - 17) by (rewrite Ex; Z.div_mod_to_equations; lia).
  assert (Eg : RSTART <= value v -> (value v - RSTART) / 1073741824 = (i - 17) * 512 + j) by (rewrite Ex; Z.div_mod_to_equations; lia).
  destruct (decide (i = 255 /\ j = 510)) as [Hij|Hij].
  - rewrite (walk_kernel k Hk) by (done || lia). change (512 * GiB) with 549755813888 in *. change (2 * MiB) with 2097152 in *.
    rewrite Ek, El by (done || lia). rewrite (proj2 (Z.leb_le KSTART (value v))) by lia. cbn [andb].
    destruct (_ <? _); [done|]. rewrite (proj2 (Z.leb_gt (i - 17) _)) by lia. by rewrite andb_false_r.
  - rewrite (walk_other i j Hi Hj E4 E3 Hij). change (512 * GiB) with 549755813888 in *. change (2 * MiB) with 2097152 in *. change GiB with 1073741824 in *.
    assert (Hno : (KSTART <=? value v) && (KSTART + (value v - KSTART) / 2097152 * 2097152 <? kernel_end) = false).
    { destruct (Z.leb_spec KSTART (value v)); [|done]. apply Z.ltb_ge. Z.div_mod_to_equations. lia. }
    rewrite Hno. destruct (Z.leb_spec RSTART (value v)) as [Hv'|Hv']; cbn [andb].
    + rewrite El, Eg by done.
      assert (Eb : (273 <=? 256 + i) && (256 + i <=? 273 + (s - 1) / 549755813888) = (i - 17 <=? (s - 1) / 549755813888)) by lia.
      rewrite Eb. clear - Hs0. destruct (i - 17 <=? (s - 1) / 549755813888); [|reflexivity]. cbn [option_map]. do 3 f_equal. lia.
    + rewrite (proj2 (Z.leb_gt 273 (256 + i))) by lia. done.
Qed.

Lemma walk_lower : 0 <= value v < 2 ^ 47 -> translate st v = Ok None.
Proof using Hs Hb.
  change (2 ^ 47) with 140737488355328. intros Hv. rewrite walk_root. apply translate_empty.
  unfold target. cbn [er_level er_loc read value]. rewrite (bt_zero_root s st Hb); [done|].
  unfold vidx. change (2 ^ level_lo PML4) with 549755813888. Z.div_mod_to_equations. lia.
Qed.
End Walk.
End Init.

(** ** The address arithmetic agrees *)

Lemma first_map_kernel kernel_end s (v : Addr KernelImageSpace) p :
  KernelImageSpace_v2p v = Ok p -> value v < kernel_end ->
  first_map kernel_end s (value v) = Some (value p / (2 * MiB) * (2 * MiB)).
Proof.
  unfold KernelImageSpace_v2p. intros E Hv. destruct (in_space KernelImageSpace (value v)) eqn:Es; [|done].
  destruct (Z.leb_spec KSTART (value v)) as [Hl|Hl];
    [|unfold in_space in Es; change (range_start KernelImageSpace) with KSTART in Es; lia].
  change (range_start KernelImageSpace) with KSTART in E. unfold in_space in Es.
  change (range_end KernelImageSpace) with 0xFFFFFFFFFF600000 in Es.
  rewrite usub_ok in E by lia. cbn [obind] in E. rewrite Addr_new_ok in E by (rewrite UMA_start, UMA_end; lia).
  injection E as <-. cbn [value]. unfold first_map. change (2 * MiB) with 2097152.
  rewrite (proj2 (Z.leb_le KSTART (value v)) Hl). cbn [andb].
  rewrite (proj2 (Z.ltb_lt (KSTART + (value v - KSTART) / 2097152 * 2097152) kernel_end)); [done|].
  Z.div_mod_to_equations. lia.
Qed.

(** A byte [x] of physical memory in the remap: its tables are whole, and there is one
    per 512 GiB of the size that is managed. *)
Definition remap_of (s x : Z) : option Z :=
  if x / (512 * GiB) <=? (s - 1) / (512 * GiB) then Some (x / GiB * GiB) else None.

Lemma remap_of_in s x : x / (512 * GiB) <= (s - 1) / (512 * GiB) -> remap_of s x = Some (x / GiB * GiB).
Proof. intros Hx. unfold remap_of. by rewrite (proj2 (Z.leb_le _ _) Hx). Qed.

Lemma first_map_remap kernel_end s x :
  kernel_end <= KSTART + GiB -> 0 <= x < range_end UMASpace -> first_map kernel_end s (x + REMAP_OFFSET) = remap_of s x.
Proof.
  rewrite UMA_end. intros He Hx. change REMAP_OFFSET with RSTART. unfold first_map.
  rewrite (proj2 (Z.leb_gt KSTART (x + RSTART))) by lia. cbn [andb].
  rewrite (proj2 (Z.leb_le RSTART (x + RSTART))) by lia. cbn [andb].
  by replace (x + RSTART - RSTART) with x by lia.
Qed.

(** Memory is remapped from zero on for as many bytes as the managed range has,
    wherever it starts: the top of a range of 512 GiB that starts above zero is not
    mapped. *)
Lemma remap_misses_top kernel_end :
  kernel_end <= KSTART + GiB -> first_map kernel_end (512 * GiB) (512 * GiB + REMAP_OFFSET) = None.
Proof. intros He. unfold first_map. change (KSTART <=? _) with false. done. Qed.

Section Built.
Context (pml4_vaddr pdpt_vaddr pd_vaddr kernel_end : Z) (Hs : statics_ok pml4_vaddr pdpt_vaddr pd_vaddr kernel_end).
Context (s : Z) (st : Machine) (Hb : built pml4_vaddr pdpt_vaddr pd_vaddr kernel_end s st) (Hm : 0 < s <= range_end UMASpace).

Lemma built_kernel v p :
  KernelImageSpace_v2p v = Ok p -> value v < kernel_end ->
  translate st v = Ok (Some (mkAddr (value p / (2 * MiB) * (2 * MiB)))).
Proof using Hs Hb Hm.
  intros Ev Hv. rewrite (walk_upper _ _ _ _ Hs s st v Hb Hm); [by rewrite (first_map_kernel kernel_end s v p Ev Hv)|].
  unfold KernelImageSpace_v2p in Ev. destruct (in_space KernelImageSpace (value v)) eqn:Es; [|done].
  unfold in_space in Es. change (range_start KernelImageSpace) with KSTART in Es.
  change (range_end KernelImageSpace) with 0xFFFFFFFFFF600000 in Es. change USIZE with 18446744073709551616. lia.
Qed.

Lemma built_remap p v :
  p2v p = Ok v -> 0 <= value p < range_end UMASpace -> translate st v = Ok (option_map mkAddr (remap_of s (value p))).
Proof using Hs Hb Hm.
  destruct p as [x]. cbn [value]. intros Ev Hx. destruct (remap_ok x Hx) as (E' & _). rewrite Ev in E'. injection E' as ->.
  rewrite (walk_upper _ _ _ _ Hs s st _ Hb Hm); cbn [value].
  - by rewrite first_map_remap; [|apply (st_end _ _ _ _ Hs)|].
  - rewrite UMA_end in Hx. change REMAP_OFFSET with RSTART. change USIZE with 18446744073709551616. lia.
Qed.
End Built.

(** ** The theorem *)

(** C24: with tables that lie on page boundaries of the kernel image, apart from
    each other and zero, [init] succeeds, and the address space that it builds is
    exactly the intended one: in the upper half an address translates to what
    [first_map] says, which is [KernelImageSpace::v2p] rounded down to a large page
    for an address of the image and the inverse of [p2v] rounded down to a huge page
    for the remap of managed memory; in the lower half nothing is mapped. *)
Theorem paging_init_correct pml4_vaddr pdpt_vaddr pd_vaddr kernel_end s st :
  statics_ok pml4_vaddr pdpt_vaddr pd_vaddr kernel_end ->
  statics_zero pml4_vaddr pdpt_vaddr pd_vaddr (mem st) -> 0 < s <= range_end UMASpace ->
  exists st', paging_init pml4_vaddr pdpt_vaddr pd_vaddr kernel_end s st = Ok st' /\
    (forall (V : Type) (HV : VirtSpace V) (v : Addr V), 0xFFFF800000000000 <= value v < USIZE ->
       translate st' v = Ok (option_map mkAddr (first_map kernel_end s (value v)))) /\
    (forall (V : Type) (HV : VirtSpace V) (v : Addr V), 0 <= value v < 2 ^ 47 -> translate st' v = Ok None) /\
    (forall v p, KernelImageSpace_v2p v = Ok p -> value v < kernel_end ->
       translate st' v = Ok (Some (mkAddr (value p / (2 * MiB) * (2 * MiB))))) /\
    (forall p v, p2v p = Ok v -> 0 <= value p < s -> translate st' v = Ok (Some (mkAddr (value p / GiB * GiB)))).
Proof.
  intros Hs Hz Hm. destruct (paging_init_built _ _ _ _ Hs s st Hz Hm) as (st' & E & Hb & _). exists st'. split; [exact E|].
  split_and!.
  - intros V ? v Hv. by apply (walk_upper _ _ _ _ Hs).
  - intros V ? v Hv. by apply (walk_lower _ _ _ _ Hs s).
  - intros v p. by apply (built_kernel _ _ _ _ Hs s).
  - intros p v Ev Hp. rewrite (built_remap _ _ _ _ Hs s st' Hb Hm p v Ev) by lia. by rewrite remap_of_in by (apply Z.div_le_mono; [done|lia]).
Qed.

(** ** Witness *)

Definition demo_p4 : Z := KSTART + 0x200000.
Definition demo_pdpts : Z := KSTART + 0x201000.
Definition demo_pd : Z := KSTART + 0x301000.
Definition demo_kernel_end : Z := KSTART + 0x400800.
Definition demo_blank : Machine := mkMachine 0 (fun _ => 0).

Lemma demo_statics_ok : statics_ok demo_p4 demo_pdpts demo_pd demo_kernel_end.
Proof.
  split.
  - split_and!; [by exists 0x200|by exists 0x201|by exists 0x301].
  - by vm_compute.
  - by vm_compute.
  - split_and!; [left|right|left]; by vm_compute.
  - by vm_compute.
Qed.

Lemma paging_init_correct_witness :
  exists st', paging_init demo_p4 demo_pdpts demo_pd demo_kernel_end GiB demo_blank = Ok st' /\
    translate st' (mkAddr (S := KernelImageSpace) (KSTART + 0x300123)) = Ok (Some (mkAddr 0x200000)) /\
    translate st' (mkAddr (S := PhysicalRemapSpace) (RSTART + 0x40000123)) = Ok (Some (mkAddr 0x40000000)) /\
    translate st' (mkAddr (S := PhysicalRemapSpace) (RSTART + 0x8000000000)) = Ok None.
Proof.
  destruct (paging_init_correct demo_p4 demo_pdpts demo_pd demo_kernel_end GiB demo_blank demo_statics_ok)
    as (st' & E & Hu & _); [by split|by vm_compute|]. exists st'. split; [exact E|].
  split_and!; rewrite Hu by (split; by vm_compute); vm_compute; reflexivity.
Defined.
