(* ===== verification/PagingMapTheorems.v ===== *)
(** * Maps of processes: correctness

    A new memory map shares the kernel's half of the current one and maps nothing
    below, and dropping a map gives back each table of its lower half once. *)

From S2P Require Import Prelude Addr Buddy BuddySpec BuddyOps BuddyTheorems Phy PhyTheorems Entry Paging PagingTheorems.
From S2P Require Import PageAlloc PageAllocTheorems PagingInit PagingInitTheorems.
Open Scope Z_scope.

(** ** Walks that meet the same words *)

(** The words of the tables of [T] are the same. *)
Definition same_tables (T : gmap Z Level) (m m' : Z -> Z) : Prop :=
  forall a l i, T !! a = Some l -> 0 <= i < TABLE_LEN -> m' (a + 8 * i) = m (a + 8 * i).

Lemma translate_agree {V} `{VirtSpace V} (v : Addr V) T st st' fuel : forall e e',
  tables_ok st T -> same_tables T (mem st) (mem st') ->
  er_level e' = er_level e -> read st' (er_loc e') = read st (er_loc e) ->
  entry_ok T (er_level e) (read st (er_loc e)) ->
  translate_from fuel st' e' v = translate_from fuel st e v.
Proof.
  induction fuel as [|fuel IH]; intros e e' Ht Hsame El Er Hok; [done|].
  assert (Et : target st' e' = target st e) by (unfold target; by rewrite El, Er).
  cbn [translate_from]. unfold try_down. rewrite Et, El. unfold target. unfold entry_ok in Hok.
  destruct (entry_target (er_level e) (read st (er_loc e))) as [[|l a|k a]| |] eqn:Etg; try done; [by destruct (next_level (er_level e))| |by destruct (next_level (er_level e))].
  apply entry_target_next in Etg as Hn. rewrite Hn. cbn [obind].
  destruct (to_place st T Ht _ _ Hok) as [Hl Hp]. rewrite (down_with_table_ok v a l Hp Hl). cbn [obind].
  pose proof (vidx_bound l (value v)) as Hi. apply IH; try done; cbn [er_level er_loc read].
  - by apply (Hsame (value a) l).
  - by apply (to_entries st T Ht).
Qed.

(** ** A new map *)

(** No frame of the record at [a] is free. *)
Definition in_use (r : PhysicalMemoryRecord) (a : Z) : Prop :=
  forall f, 0 <= f < capacity (buddy r) -> a = value (page_base (pm_base r)) + f * FRAME_SIZE -> frame_free (buddy r) f = false.

(** A granted block lies apart from every page in use. *)
Lemma granted_apart r r' cnt i k a :
  page_based r -> granted r r' cnt Small (frame_range r i (2 ^ k)) i k -> in_use r a -> (4096 | a) ->
  let a0 := value (page_base (pm_base r)) + i * 4096 in
  a + 4096 <= a0 \/ a0 + 2 ^ k * 4096 <= a.
Proof.
  intros [b Eb] Hg Hu [c ->] a0. unfold a0. rewrite Eb in *. destruct (decide (c < b + i \/ b + i + 2 ^ k <= c)) as [|Hn]; [lia|exfalso].
  unfold in_use in Hu. rewrite FRAME_SIZE_eq, Eb in Hu. pose proof (rs_block _ _ _ _ (gr_reserved _ _ _ _ _ _ _ Hg)) as (_ & Hi & _ & Hcap).
  specialize (Hu (c - b) ltac:(lia) ltac:(lia)).
  rewrite (rs_was_free _ _ _ _ (gr_reserved _ _ _ _ _ _ _ Hg)) in Hu; [done|]. unfold in_block. lia.
Qed.

Lemma table_layout_page : page_layout table_layout.
Proof. by split_and!. Qed.

Lemma root_table_ok st T m :
  tables_ok st T -> exists a, root_table (mkMachine (cr3 st) m) = Ok a /\ T !! value a = Some PML4 /\
    entry_target CR3 (cr3 st) = Ok (TTable PML4 a).
Proof.
  intros [(a & Ea & HT) Hp _]. exists a. split; [|done]. unfold root_table, target. cbn [er_level er_loc read cr3].
  rewrite Ea. cbn [obind]. destruct (Hp _ _ HT) as (_ & H1 & H2 & _). destruct a as [x]. cbn [value] in *.
  rewrite TABLE_SIZE_eq, UMA_end in H2. destruct (remap_ok x) as (-> & _); [rewrite UMA_end; lia|done].
Qed.

(** The memory after [new]: zero below, the words of [src] above. *)
Definition new_mem (m : Z -> Z) (a n src : Z) : Z -> Z := copy_upper (zero_fill m a n) a src.

Lemma new_mem_frame m a n src y : 4096 <= n -> ~ (a <= y < a + n) -> new_mem m a n src y = m y.
Proof.
  intros Hn Hy. unfold new_mem, copy_upper, zero_fill. rewrite TABLE_SIZE_eq.
  destruct (Z.leb_spec (a + 8 * 256) y), (Z.ltb_spec y (a + 4096)); cbn [andb]; try lia;
    destruct (Z.leb_spec a y), (Z.ltb_spec y (a + n)); cbn [andb]; try done; lia.
Qed.

Lemma new_mem_lower m a n src j : 4096 <= n -> 0 <= j < 256 -> new_mem m a n src (a + 8 * j) = 0.
Proof.
  intros Hn Hj. unfold new_mem, copy_upper, zero_fill.
  rewrite (proj2 (Z.leb_gt (a + 8 * 256) (a + 8 * j))) by lia. cbn [andb].
  rewrite (proj2 (Z.leb_le a (a + 8 * j))), (proj2 (Z.ltb_lt (a + 8 * j) (a + n))) by lia. done.
Qed.

Lemma new_mem_upper m a n src j :
  4096 <= n -> 256 <= j < 512 -> (src + 4096 <= a \/ a + n <= src) -> new_mem m a n src (a + 8 * j) = m (src + 8 * j).
Proof.
  intros Hn Hj Hap. unfold new_mem, copy_upper, zero_fill. rewrite TABLE_SIZE_eq.
  rewrite (proj2 (Z.leb_le (a + 8 * 256) (a + 8 * j))), (proj2 (Z.ltb_lt (a + 8 * j) (a + 4096))) by lia. cbn [andb].
  replace (src + (a + 8 * j - a)) with (src + 8 * j) by lia.
  destruct (Z.leb_spec a (src + 8 * j)), (Z.ltb_spec (src + 8 * j) (a + n)); cbn [andb]; try done; lia.
Qed.

(** A new root table of [n] bytes at [a0], beside the tables [T] that [cur] is the root of. *)
Record new_root (st : Machine) (T : gmap Z Level) (cur : Addr UMASpace) (a0 n raw : Z) : Prop := {
  nr_size : 4096 <= n;
  nr_cur : entry_target CR3 (cr3 st) = Ok (TTable PML4 cur);
  nr_made : made CR3 [] a0 raw;
  nr_place : table_place a0;
  nr_apart a l : T !! a = Some l -> a + 4096 <= a0 \/ a0 + n <= a
}.

(** What [new] does when a page can be had. *)
Lemma memory_map_new_spec st T r :
  tables_ok st T -> record_ok r -> page_based r -> (forall a l, T !! a = Some l -> in_use r a) ->
  (page_allocate_ptr table_layout (Some r) = Ok (None, Some r) /\ memory_map_new st (Some r) = Panic) \/
  exists cnt r' i k root raw, let a0 := value (page_base (pm_base r)) + i * 4096 in
    granted r r' cnt Small (frame_range r i (2 ^ k)) i k /\ new_root st T root a0 (2 ^ k * 4096) raw /\
    page_allocate_ptr table_layout (Some r) = Ok (Some (a0 + REMAP_OFFSET, 2 ^ k * 4096), Some r') /\
    memory_map_new st (Some r) =
      Ok (raw, mkMachine (cr3 st) (new_mem (mem st) a0 (2 ^ k * 4096) (value root)), Some r').
Proof.
  intros Ht Hr Hb Hu. unfold memory_map_new.
  destruct (page_allocate_ptr_spec r table_layout Hr Hb table_layout_page) as [E|(cnt & r' & i & k & E & Hg & Hsz)].
  { left. rewrite E. by split. }
  right. pose proof E as Ep. unfold frame_ptr in Ep. rewrite FRAME_SIZE_eq in Ep. rewrite E. cbn [obind oexpect]. change (layout_size table_layout) with 4096 in Hsz.
  pose proof (gr_base _ _ _ _ _ _ _ Hg) as Hbase.
  destruct (holds_bounds _ _ _ _ (gr_ok _ _ _ _ _ _ _ Hg) (gr_holds _ _ _ _ _ _ _ Hg)) as (Hi & Hk & Hk2 & Hlo & Hhi).
  rewrite Hbase in *. set (a0 := value (page_base (pm_base r)) + i * 4096) in *.
  assert (Ha0 : 0 <= a0 < range_end UMASpace) by lia.
  unfold frame_ptr. rewrite FRAME_SIZE_eq. fold a0. destruct (remap_ok a0 Ha0) as (_ & Hin & Ev).
  unfold Addr_new at 1. rewrite Hin. cbn [obind]. rewrite Ev. cbn [obind value].
  destruct (root_table_ok st T (zero_fill (mem st) a0 (2 ^ k * 4096)) Ht) as (root & -> & HT & Er). cbn [obind].
  destruct (reinit_spec CR3 0 (mkAddr a0) [] eq_refl Ha0) as (raw & Ei & Hm). cbn [value] in Ei, Hm.
  assert (Hal : (4096 | a0)) by (unfold a0; by apply multiple_add).
  assert (Hmod : a0 mod target_align CR3 (refers_page CR3 []) = 0) by (apply Z.mod_divide; [done|exact Hal]).
  rewrite Hmod in Ei, Hm. unfold entry_init. rewrite Ei. cbn [obind Z.eqb].
  exists cnt, r', i, k, root, raw. fold a0. split_and!; try done. split; try done.
  - unfold table_place. rewrite TABLE_SIZE_eq. split_and!; [lia|lia|done].
  - intros a l Ha. apply (granted_apart r r' cnt i k); [done|done|by eapply Hu|apply (to_place _ _ Ht _ _ Ha)].
Qed.

Section NewRoot.
Context (st : Machine) (T : gmap Z Level) (cur : Addr UMASpace) (a0 n raw : Z).
Context (Ht : tables_ok st T) (Hnew : new_root st T cur a0 n raw).
Let m := new_mem (mem st) a0 n (value cur).

Lemma cur_in : T !! value cur = Some PML4.
Proof using Ht Hnew. destruct (to_cr3 _ _ Ht) as (r & Er & HT). rewrite (nr_cur _ _ _ _ _ _ Hnew) in Er. by injection Er as ->. Qed.

Lemma new_root_fresh : T !! a0 = None.
Proof using Hnew.
  destruct Hnew as [Hn _ _ _ Hap]. destruct (T !! a0) as [l|] eqn:Ea; [|done]. destruct (Hap a0 l Ea); lia.
Qed.

(** The tables in use are not touched. *)
Lemma new_same_tables : same_tables T (mem st) m.
Proof using Hnew.
  destruct Hnew as [Hn _ _ _ Hap]. intros a l j Ha Hj. rewrite TABLE_LEN_eq in Hj. apply new_mem_frame; [done|].
  specialize (Hap a l Ha). lia.
Qed.

(** The words of the new root. *)
Lemma new_root_word j : 0 <= j < 512 -> m (a0 + 8 * j) = if j <? 256 then 0 else mem st (value cur + 8 * j).
Proof using Ht Hnew.
  pose proof cur_in as HT. destruct Hnew as [Hn _ _ _ Hap]. intros Hj. unfold m.
  destruct (Z.ltb_spec j 256); [apply new_mem_lower; lia|apply new_mem_upper; [done|lia|by eapply Hap]].
Qed.

Lemma old_map_tables : tables_ok (mkMachine (cr3 st) m) T.
Proof using Ht Hnew.
  pose proof new_same_tables as Hsame. destruct Ht as [H1 H2 H3]. split; [done|done|]. intros a l j Ha Hj. cbn [mem].
  rewrite (Hsame a l) by done. by apply H3.
Qed.

(** The new map is a table tree over the old tables and its own root. *)
Lemma new_map_tables : tables_ok (mkMachine raw m) (<[a0 := PML4]> T).
Proof using Ht Hnew.
  assert (Hsub : T ⊆ <[a0 := PML4]> T) by apply insert_subseteq, new_root_fresh. split; cbn [cr3 mem].
  - exists (mkAddr a0). split; [apply (made_target CR3 [] a0), Hnew|]. apply lookup_insert_eq.
  - intros b l [[<- <-]|[_ Hb]]%lookup_insert_Some; [split; [done|apply Hnew]|by apply (to_place _ _ Ht)].
  - intros b l j [[<- <-]|[_ Hb]]%lookup_insert_Some Hj; rewrite TABLE_LEN_eq in Hj.
    + rewrite new_root_word by done. destruct (j <? 256); [done|].
      eapply entry_ok_mono; [exact Hsub|by apply (to_entries _ _ Ht), Hj; apply cur_in].
    + rewrite (new_same_tables b l) by done. eapply entry_ok_mono; [exact Hsub|by apply (to_entries _ _ Ht)].
Qed.

(** What the current map and the new one translate. *)
Lemma new_map_views (V : Type) (HV : VirtSpace V) (v : Addr V) :
  translate (mkMachine (cr3 st) m) v = translate st v /\
  translate (mkMachine raw m) v = if 256 <=? vidx PML4 (value v) then translate st v else Ok None.
Proof using Ht Hnew.
  pose proof new_same_tables as Hsame. pose proof cur_in as HT. split.
  - apply (translate_agree v T); try done. unfold entry_ok. cbn [er_level er_loc read]. by rewrite (nr_cur _ _ _ _ _ _ Hnew).
  - assert (E1 : translate (mkMachine raw m) v =
      translate_from 4 (mkMachine raw m) (mkEntryRef PML4 (LMem (a0 + 8 * vidx PML4 (value v)))) v).
    { apply (translate_down 4 _ _ v PML4 (mkAddr a0)); try done; [apply (made_target CR3 [] a0), Hnew|apply Hnew]. }
    assert (E2 : translate st v = translate_from 4 st (mkEntryRef PML4 (LMem (value cur + 8 * vidx PML4 (value v)))) v).
    { apply (translate_down 4 _ _ v PML4 cur); try done; [apply Hnew|apply (to_place _ _ Ht _ _ HT)]. }
    pose proof (vidx_bound PML4 (value v)) as Hv. pose proof (new_root_word (vidx PML4 (value v)) Hv) as Hw. rewrite E1.
    destruct (Z.leb_spec 256 (vidx PML4 (value v))), (Z.ltb_spec (vidx PML4 (value v)) 256); try lia.
    + rewrite E2. apply (translate_agree v T); try done. by apply (to_entries _ _ Ht).
    + apply translate_empty. unfold target. cbn [er_level er_loc read mem]. by rewrite Hw.
Qed.
End NewRoot.

(** C26: a new memory map either panics because no page is left, or takes one page
    and leaves the current map alone; the new map is a well-formed table tree that
    translates every address of the kernel's half as the current one does, and no
    other. *)
Theorem memory_map_new_correct st T r :
  tables_ok st T -> record_ok r -> page_based r -> (forall a l, T !! a = Some l -> in_use r a) ->
  (page_allocate_ptr table_layout (Some r) = Ok (None, Some r) /\ memory_map_new st (Some r) = Panic) \/
  exists raw st' cnt r' i k, memory_map_new st (Some r) = Ok (raw, st', Some r') /\
    granted r r' cnt Small (frame_range r i (2 ^ k)) i k /\ cr3 st' = cr3 st /\ tables_ok st' T /\
    tables_ok (mkMachine raw (mem st')) (<[value (page_base (pm_base r)) + i * FRAME_SIZE := PML4]> T) /\
    forall (V : Type) (HV : VirtSpace V) (v : Addr V), translate st' v = translate st v /\
      translate (mkMachine raw (mem st')) v = if 256 <=? vidx PML4 (value v) then translate st v else Ok None.
Proof.
  intros Ht Hr Hb Hu. destruct (memory_map_new_spec st T r Ht Hr Hb Hu)
    as [?|(cnt & r' & i & k & root & raw & Hg & Hnew & _ & E)]; [by left|right].
  eexists raw, _, cnt, r', i, k. split; [exact E|]. split; [done|]. cbn [cr3 mem]. split; [done|].
  split; [by apply (old_map_tables st T root _ _ raw)|]. rewrite FRAME_SIZE_eq.
  split; [by apply new_map_tables|]. intros V HV v. by apply (new_map_views st T).
Qed.

(** ** Dropping a map *)

(** The tables below an entry, and the tables that a map does not share: those of
    the lower half and the root. *)
Fixpoint tables_of (fuel : nat) (m : Z -> Z) (l : Level) (raw : Z) : list Z :=
  match fuel, entry_target l raw with
  | S fuel, Ok (TTable l' a) =>
      concat ((fun i => tables_of fuel m l' (m (value a + 8 * Z.of_nat i))) <$> seq 0 512) ++ [value a]
  | _, _ => []
  end.
Definition own_tables (m : Z -> Z) (root : Z) : list Z :=
  concat ((fun i => tables_of WALK_FUEL m PML4 (m (root + 8 * Z.of_nat i))) <$> seq 0 256) ++ [root].

(** The blocks that are left when tables are given back. *)
Definition delete_tables (L : list Z) (blocks : gmap Z Layout) : gmap Z Layout :=
  foldl (fun b a => delete (a + REMAP_OFFSET) b) blocks L.

Lemma lookup_delete_tables L : forall blocks p,
  delete_tables L blocks !! p = if decide (p - REMAP_OFFSET ∈ L) then None else blocks !! p.
Proof.
  induction L as [|a L IH]; intros blocks p; cbn [delete_tables foldl].
  { rewrite decide_False; [done|apply not_elem_of_nil]. }
  fold (delete_tables L (delete (a + REMAP_OFFSET) blocks)). rewrite IH.
  destruct (decide (p = a + REMAP_OFFSET)) as [->|Hne].
  - rewrite (decide_True (P := a + REMAP_OFFSET - REMAP_OFFSET ∈ a :: L)) by (rewrite Z.add_simpl_r; left).
    rewrite lookup_delete_eq. by destruct (decide _).
  - rewrite lookup_delete_ne by done. apply decide_ext. rewrite elem_of_cons. split; [by right|intros [<-|]; [lia|done]].
Qed.

(** An operation on the memory manager that gives back the tables [L]. *)
Definition gives_back (f : PMM -> outcome PMM) (L : list Z) : Prop :=
  forall pmm blocks, pmm_out pmm blocks -> NoDup L ->
    (forall a, a ∈ L -> blocks !! (a + REMAP_OFFSET) = Some table_layout) ->
    exists pmm', f pmm = Ok pmm' /\ pmm_out pmm' (delete_tables L blocks).

Lemma gives_back_nil : gives_back Ok [].
Proof. intros pmm blocks Ho _ _. by exists pmm. Qed.

Lemma gives_back_app f g L1 L2 :
  gives_back f L1 -> gives_back g L2 -> gives_back (fun pmm => let! pmm := f pmm in g pmm) (L1 ++ L2).
Proof.
  intros Hf Hg pmm blocks Ho (H1 & Hd & H2)%NoDup_app Hb.
  destruct (Hf pmm blocks Ho H1) as (pmm1 & -> & Ho1); [intros a Ha; apply Hb, elem_of_app; by left|]. cbn [obind].
  destruct (Hg pmm1 _ Ho1 H2) as (pmm2 & -> & Ho2).
  { intros a Ha. rewrite lookup_delete_tables, Z.add_simpl_r, decide_False by (intros ?; by apply (Hd a)).
    apply Hb, elem_of_app. by right. }
  exists pmm2. split; [done|]. unfold delete_tables in *. by rewrite foldl_app.
Qed.

Lemma gives_back_one a (v : Addr PhysicalRemapSpace) : value v = a + REMAP_OFFSET -> gives_back (page_deallocate_ptr (value v) table_layout) [a].
Proof.
  intros -> pmm blocks Ho _ Hb. apply (pmm_source_deallocate pmm blocks _ table_layout Ho). apply Hb. by left.
Qed.

Lemma gives_back_entries f Ls raws n : forall i,
  (forall j, (i <= j < i + n)%nat -> gives_back (f (raws j)) (Ls j)) ->
  gives_back (drop_entries f n raws i) (concat (Ls <$> seq i n)).
Proof.
  induction n as [|n IH]; intros i Hf; cbn [drop_entries]; [apply gives_back_nil|].
  apply (gives_back_app (f (raws i)) (drop_entries f n raws (S i)) (Ls i)); [apply Hf; lia|].
  apply IH. intros j Hj. apply Hf. lia.
Qed.

(** Dropping what an entry refers to. *)
Lemma drop_entry_target_gives_back st T fuel : forall l raw,
  tables_ok st T -> entry_ok T l raw -> (4 <= level_no l + fuel)%nat ->
  gives_back (drop_entry_target fuel (mem st) l raw) (tables_of fuel (mem st) l raw).
Proof.
  induction fuel as [|fuel IH]; intros l raw Ht Hok Hf; unfold entry_ok in Hok; cbn [drop_entry_target tables_of];
    destruct (entry_target l raw) as [[|l' a|k a]| |] eqn:E; try done; cbn [obind]; try apply gives_back_nil;
    apply entry_target_next, next_level_no in E as [El _].
  { pose proof (to_place _ _ Ht _ _ Hok). destruct l'; cbn in El; lia. }
  destruct (to_place _ _ Ht _ _ Hok) as (_ & H1 & H2 & _). rewrite TABLE_SIZE_eq in H2.
  destruct (remap_ok (value a)) as (Ev & _); [lia|]. replace (mkAddr (value a)) with a in Ev by by destruct a.
  rewrite Ev. cbn [obind]. apply (gives_back_app _ (page_deallocate_ptr (value a + REMAP_OFFSET) table_layout)).
  - apply (gives_back_entries _ (fun i => tables_of fuel (mem st) l' (mem st (value a + 8 * Z.of_nat i)))).
    intros j Hj. apply IH; [done| |lia]. apply (to_entries _ _ Ht); [done|]. rewrite TABLE_LEN_eq. lia.
  - by apply (gives_back_one (value a) (mkAddr (S := PhysicalRemapSpace) (value a + REMAP_OFFSET))).
Qed.

(** Dropping a map. *)
Lemma memory_map_drop_gives_back st T root :
  tables_ok st T -> entry_target CR3 (cr3 st) = Ok (TTable PML4 root) ->
  gives_back (memory_map_drop st) (own_tables (mem st) (value root)).
Proof.
  intros Ht Er. destruct (root_table_ok st T (mem st) Ht) as (a & Ea & HT & Ea'). assert (a = root) as -> by congruence.
  replace (mkMachine (cr3 st) (mem st)) with st in Ea by by destruct st.
  destruct (to_place _ _ Ht _ _ HT) as (_ & H1 & H2 & _). rewrite TABLE_SIZE_eq in H2.
  destruct (remap_ok (value root)) as (Ev & _); [lia|]. replace (mkAddr (value root)) with root in Ev by by destruct root.
  unfold memory_map_drop. rewrite Ea. cbn [obind]. rewrite Ev. cbn [obind].
  apply (gives_back_app _ (page_deallocate_ptr (value root + REMAP_OFFSET) table_layout)).
  - apply (gives_back_entries _ (fun i => tables_of WALK_FUEL (mem st) PML4 (mem st (value root + 8 * Z.of_nat i)))).
    intros j Hj. apply (drop_entry_target_gives_back st T); [done| |unfold WALK_FUEL; cbn [level_no]; lia].
    apply (to_entries _ _ Ht); [done|]. rewrite TABLE_LEN_eq. lia.
  - by apply (gives_back_one (value root) (mkAddr (S := PhysicalRemapSpace) (value root + REMAP_OFFSET))).
Qed.

(** C27: dropping a memory map ends, never panics and gives each table of its lower
    half and its root back to the page allocator, once, and nothing else, provided
    they came from there and none is reachable twice. *)
Theorem memory_map_drop_correct st T pmm blocks root :
  tables_ok st T -> entry_target CR3 (cr3 st) = Ok (TTable PML4 root) -> pmm_out pmm blocks ->
  NoDup (own_tables (mem st) (value root)) ->
  (forall a, a ∈ own_tables (mem st) (value root) -> blocks !! (a + REMAP_OFFSET) = Some table_layout) ->
  exists pmm' blocks', memory_map_drop st pmm = Ok pmm' /\ pmm_out pmm' blocks' /\
    forall p, blocks' !! p = if decide (p - REMAP_OFFSET ∈ own_tables (mem st) (value root)) then None else blocks !! p.
Proof.
  intros Ht Er Ho Hnd Hb.
  pose proof (memory_map_drop_gives_back st T root Ht Er) as Hg.
  destruct (Hg pmm blocks Ho Hnd Hb) as (pmm' & E & Ho'). eexists pmm', _. split; [done|]. split; [exact Ho'|].
  apply lookup_delete_tables.
Qed.

(** ** Witnesses *)

Lemma demo_in_use a l : ({[0x1000 := PML4]} : gmap Z Level) !! a = Some l -> in_use (demo_record demo_free8 8 0x400000) a.
Proof.
  intros [<- _]%lookup_singleton_Some f Hr Hf. rewrite FRAME_SIZE_eq in Hf. cbn [demo_record pm_base page_base value] in Hf. lia.
Qed.

Lemma memory_map_new_correct_witness :
  exists raw st' r', memory_map_new (demo_machine 0) demo_pmm = Ok (raw, st', Some r') /\
    forall v : Addr DataStackSpace, translate (mkMachine raw (mem st')) v =
      if 256 <=? vidx PML4 (value v) then translate (demo_machine 0) v else Ok None.
Proof.
  destruct (memory_map_new_correct (demo_machine 0) {[0x1000 := PML4]} (demo_record demo_free8 8 0x400000)
              demo_tables_ok demo_record8_ok) as [[E _]|(raw & st' & cnt & r' & i & k & E & _ & _ & _ & _ & Hv)].
  - by exists 0x400.
  - apply demo_in_use.
  - exfalso. vm_compute in E. discriminate.
  - exists raw, st', r'. split; [exact E|]. intros v. apply (Hv DataStackSpace _ v).
Defined.

(** A map of two tables. *)
Definition demo_user_map : Machine := mkMachine 0x400000 (fun x => if x =? 0x400000 then 0x401003 else 0).
Definition demo_tree : gmap Z Level := {[0x400000 := PML4; 0x401000 := PDPT]}.
Definition demo_blocks : gmap Z Layout :=
  <[0x401000 + REMAP_OFFSET := table_layout]> {[0x400000 + REMAP_OFFSET := table_layout]}.

Lemma demo_user_map_ok : tables_ok demo_user_map demo_tree.
Proof.
  split.
  - exists (mkAddr 0x400000). by split.
  - unfold demo_tree. intros a l [[<- <-]|[_ [<- <-]%lookup_singleton_Some]]%lookup_insert_Some;
      (split; [done|]); (split; [done|]); (split; [by vm_compute|]); [by exists 0x400|by exists 0x401].
  - intros a l i. unfold demo_tree at 1. intros [[<- <-]|[_ [<- <-]%lookup_singleton_Some]]%lookup_insert_Some Hi; cbn [mem demo_user_map].
    + destruct (Z.eqb_spec (0x400000 + 8 * i) 0x400000); by vm_compute.
    + destruct (Z.eqb_spec (0x401000 + 8 * i) 0x400000); [lia|by vm_compute].
Qed.

Lemma demo_blocks_out : exists pmm, pmm_out pmm demo_blocks.
Proof.
  destruct (pmm_source_allocate demo_pmm ∅ table_layout demo_pmm_out table_layout_page) as (o & pmm1 & E1 & H1).
  vm_compute in E1. injection E1 as <- <-. destruct H1 as (_ & _ & _ & _ & _ & Ho1).
  destruct (pmm_source_allocate _ _ table_layout Ho1 table_layout_page) as (o & pmm2 & E2 & H2).
  vm_compute in E2. injection E2 as <- <-. destruct H2 as (_ & _ & _ & _ & _ & Ho2). by eexists.
Qed.

Lemma memory_map_drop_correct_witness :
  exists pmm pmm', pmm_out pmm demo_blocks /\ memory_map_drop demo_user_map pmm = Ok pmm' /\ pmm_out pmm' ∅.
Proof.
  destruct demo_blocks_out as (pmm & Ho). exists pmm.
  assert (EL : own_tables (mem demo_user_map) 0x400000 = [0x401000; 0x400000]) by (vm_compute; reflexivity).
  destruct (memory_map_drop_correct demo_user_map demo_tree pmm demo_blocks (mkAddr 0x400000) demo_user_map_ok eq_refl Ho)
    as (pmm' & blocks' & E & Ho' & Hl).
  - cbn [value]. rewrite EL. apply NoDup_cons_2; [|apply NoDup_singleton]. rewrite list_elem_of_singleton. lia.
  - cbn [value]. rewrite EL. intros a [->|[->|[]%elem_of_nil]%elem_of_cons]%elem_of_cons; by vm_compute.
  - exists pmm'. split; [exact Ho|]. split; [exact E|]. clear E Ho. replace (∅ : gmap Z Layout) with blocks'; [exact Ho'|].
    apply map_eq. intros p. rewrite Hl, lookup_empty. cbn [value]. rewrite EL.
    destruct (decide _) as [|Hn]; [reflexivity|]. rewrite !elem_of_cons in Hn. change REMAP_OFFSET with RSTART in Hn.
    apply lookup_insert_None. split; [apply lookup_singleton_None|]; change REMAP_OFFSET with RSTART; lia.
Defined.
