(* ===== verification/AddressSpace.v ===== *)
(** * The address space of a map

    What [map] of [src/src/mem/paging.rs] does to every address, not only to those of
    the page: on tables that form a tree, it is an update of the address space at the
    page, and at the larger page that it replaces, if there is one. *)

From stdpp Require Import gmap.
From S2P Require Import Prelude Addr Phy Entry Paging PagingTheorems.
Open Scope Z_scope.

(** ** The way to an entry *)

(** The levels above and at [l], below [cr3]. *)
Definition levels_to (l : Level) : list Level :=
  match l with
  | CR3 => []
  | PML4 => [PML4]
  | PDPT => [PML4; PDPT]
  | PD => [PML4; PDPT; PD]
  | PT => [PML4; PDPT; PD; PT]
  end.
(** The indices of an address down to the level. *)
Definition vpath (l : Level) (x : Z) : list Z := (fun k => vidx k x) <$> levels_to l.

Lemma vpath_next l l' x : next_level l = Some l' -> vpath l' x = vpath l x ++ [vidx l' x].
Proof. by destruct l; intros [= <-]. Qed.

(** Tables form a tree: [P] gives each the indices that lead to it from the root. *)
Record tree_ok (st : Machine) (T : gmap Z Level) (P : Z -> list Z) : Prop := {
  tr_root a : entry_target CR3 (cr3 st) = Ok (TTable PML4 a) -> P (value a) = [];
  tr_child a l i l' b : T !! a = Some l -> 0 <= i < TABLE_LEN ->
    entry_target l (mem st (a + 8 * i)) = Ok (TTable l' b) -> P (value b) = P a ++ [i]
}.

(** The entry that the way [p] ends at. *)
Definition entry_at (T : gmap Z Level) (P : Z -> list Z) (e : EntryRef) (p : list Z) : Prop :=
  match er_level e with
  | CR3 => er_loc e = LCr3 /\ p = []
  | l => exists a i, T !! a = Some l /\ 0 <= i < TABLE_LEN /\ er_loc e = LMem (a + 8 * i) /\ p = P a ++ [i]
  end.

Lemma entry_at_ref T P e p : entry_at T P e p -> ref_ok T e.
Proof. unfold entry_at, ref_ok. destruct (er_level e); [tauto|..]; intros (a & i & ? & ? & ? & _); by exists a, i. Qed.

Lemma entry_at_slot T P a l i :
  T !! a = Some l -> l <> CR3 -> 0 <= i < TABLE_LEN -> entry_at T P (mkEntryRef l (LMem (a + 8 * i))) (P a ++ [i]).
Proof. intros Ha Hl Hi. unfold entry_at; cbn. destruct l; [done|by exists a, i..]. Qed.

(** Entries at one place are one entry, at the end of one way. *)
Lemma entry_at_unique st T P e e' p p' :
  tables_ok st T -> entry_at T P e p -> entry_at T P e' p' -> er_loc e = er_loc e' -> e = e' /\ p = p'.
Proof.
  intros [_ Hp _] H1 H2 E. destruct e as [l loc], e' as [l' loc']. unfold entry_at in *. cbn in *. subst loc'.
  assert (C1 : (l = CR3 /\ loc = LCr3 /\ p = []) \/ exists a i, T !! a = Some l /\ 0 <= i < TABLE_LEN /\ loc = LMem (a + 8 * i) /\ p = P a ++ [i])
    by (destruct l; [left; by destruct H1|by right..]).
  assert (C2 : (l' = CR3 /\ loc = LCr3 /\ p' = []) \/ exists a i, T !! a = Some l' /\ 0 <= i < TABLE_LEN /\ loc = LMem (a + 8 * i) /\ p' = P a ++ [i])
    by (destruct l'; [left; by destruct H2|by right..]).
  destruct C1 as [(-> & -> & ->)|(a & i & Ha & Hi & -> & ->)], C2 as [(-> & E & ->)|(b & j & Hb & Hj & E & ->)]; try done.
  injection E as E. destruct (slot_inj a b i j) as [-> ->]; try done; [by apply (Hp a l)|by apply (Hp b l')|]. by simplify_eq.
Qed.

(** One step of the walker. *)
Lemma try_down_at {V} `{VirtSpace V} (x : Addr V) st T P e e1 :
  tables_ok st T -> tree_ok st T P -> entry_at T P e (vpath (er_level e) (value x)) -> try_down st e x = Ok (Some e1) ->
  next_level (er_level e) = Some (er_level e1) /\ entry_at T P e1 (vpath (er_level e1) (value x)).
Proof.
  intros Ht Htr He E. pose proof (entry_at_ref _ _ _ _ He) as Hr. pose proof (target_ref_ok st T e Ht Hr) as Hok.
  destruct (try_down_inv x st T e e1 Ht Hr E) as (l & a & Et & ->). cbn [er_level].
  unfold entry_ok in Hok. unfold target in Et. rewrite Et in Hok.
  pose proof (entry_target_next _ _ _ _ Et) as Hn. destruct (next_level_no _ _ Hn) as [_ Hl]. split; [done|].
  rewrite (vpath_next _ _ _ Hn).
  assert (HP : P (value a) = vpath (er_level e) (value x)).
  { unfold entry_at in He. destruct (er_level e) eqn:El.
    - destruct He as [Eloc _]. rewrite Eloc in Et. cbn [read] in Et. pose proof (entry_target_next _ _ _ _ Et) as [= <-].
      by apply (tr_root _ _ _ Htr).
    - destruct He as (b & i & Hb & Hi & Eloc & ->). rewrite Eloc in Et. by eapply (tr_child _ _ _ Htr).
    - destruct He as (b & i & Hb & Hi & Eloc & ->). rewrite Eloc in Et. by eapply (tr_child _ _ _ Htr).
    - destruct He as (b & i & Hb & Hi & Eloc & ->). rewrite Eloc in Et. by eapply (tr_child _ _ _ Htr).
    - destruct He as (b & i & Hb & Hi & Eloc & ->). rewrite Eloc in Et. by eapply (tr_child _ _ _ Htr). }
  rewrite <- HP. apply entry_at_slot; [done|done|apply vidx_bound].
Qed.

(** ** Writing one entry *)

Lemma read_write_ne st loc loc' raw : loc <> loc' -> read (write st loc' raw) loc = read st loc.
Proof.
  destruct loc as [|a], loc' as [|b]; cbn; try done. intros Hne. case_bool (a =? b) E; [|done]. by destruct Hne; subst.
Qed.

(** An address whose way does not lead over the entry translates as before. *)
Lemma translate_write_other {V} `{VirtSpace V} (x : Addr V) st T P e0 p0 raw fuel : forall e,
  tables_ok st T -> tree_ok st T P -> entry_at T P e0 p0 -> vpath (er_level e0) (value x) <> p0 ->
  entry_at T P e (vpath (er_level e) (value x)) ->
  translate_from fuel (write st (er_loc e0) raw) e x = translate_from fuel st e x.
Proof.
  induction fuel as [|fuel IH]; intros e Ht Htr H0 Hne He; [done|]. cbn [translate_from].
  assert (Hloc : er_loc e <> er_loc e0).
  { intros E. destruct (entry_at_unique st T P e e0 _ _ Ht He H0 E) as [-> Hp]. by apply Hne. }
  assert (Hread : read (write st (er_loc e0) raw) (er_loc e) = read st (er_loc e)) by by apply read_write_ne.
  rewrite (try_down_read x st) by done. unfold target. rewrite Hread. fold (target st e).
  destruct (try_down st e x) as [[e1|]| |] eqn:Ed; cbn [obind]; [|done..].
  destruct (try_down_at x st T P e e1 Ht Htr He Ed) as [_ He1]. by apply IH.
Qed.

(** An entry that leads nowhere translates to nothing. *)
Lemma translate_none {V} `{VirtSpace V} (x : Addr V) st e fuel :
  target st e = Ok TNone -> (0 < fuel)%nat -> translate_from fuel st e x = Ok None.
Proof.
  intros Et Hf. destruct fuel as [|fuel]; [lia|]. cbn [translate_from]. unfold try_down.
  destruct (next_level (er_level e)); rewrite ?Et; cbn [obind]; by rewrite ?Et.
Qed.

(** ** A new table *)

(** The way to the new table. *)
Definition grow (P : Z -> list Z) (a : Z) (p : list Z) : Z -> list Z := fun b => if b =? a then p else P b.

Lemma grow_same P a p : grow P a p a = p.
Proof. unfold grow. by rewrite Z.eqb_refl. Qed.
Lemma grow_other P a p b (T : gmap Z Level) l : T !! b = Some l -> T !! a = None -> grow P a p b = P b.
Proof. intros Hb Ha. unfold grow. case_bool (b =? a) E; [|done]. by simplify_eq. Qed.

Lemma entry_at_grow T T' P a p e q : T ⊆ T' -> T !! a = None -> entry_at T P e q -> entry_at T' (grow P a p) e q.
Proof.
  intros HT Ha. unfold entry_at. destruct (er_level e); [done|..];
    intros (b & i & Hb & Hi & El & ->); exists b, i; (split; [by apply (lookup_weaken _ _ _ _ Hb)|]);
    by rewrite (grow_other P a p b T _ Hb Ha).
Qed.

(** The words of two tables, when one of them is written. *)
Lemma write_slot st T P e p a l i raw :
  tables_ok st T -> entry_at T P e p -> er_level e <> CR3 -> table_place a -> 0 <= i < TABLE_LEN ->
  (T !! a = None \/ T !! a = Some l) ->
  (mem (write st (er_loc e) raw) (a + 8 * i) = mem st (a + 8 * i) \/
   mem (write st (er_loc e) raw) (a + 8 * i) = raw /\ T !! a = Some (er_level e) /\ p = P a ++ [i]).
Proof.
  intros Ht He Hl Ha Hi HT. unfold entry_at in He.
  assert (He' : exists b j, T !! b = Some (er_level e) /\ 0 <= j < TABLE_LEN /\ er_loc e = LMem (b + 8 * j) /\ p = P b ++ [j])
    by by destruct (er_level e).
  destruct He' as (b & j & Hb & Hj & -> & ->). cbn [write mem]. case_bool (a + 8 * i =? b + 8 * j) E; [|by left].
  destruct (slot_inj a b i j) as [-> ->]; [apply Ha|by apply (to_place _ _ Ht b (er_level e))|done|done|done|]. right. by split_and!.
Qed.

Lemma write_cr3 st e raw T P p : entry_at T P e p -> er_level e <> CR3 -> cr3 (write st (er_loc e) raw) = cr3 st.
Proof.
  intros He Hl. unfold entry_at in He. destruct (er_level e); [done|..]; by destruct He as (b & j & _ & _ & -> & _).
Qed.

Lemma tree_ok_new_table st T P e p l a raw :
  tables_ok st T -> tree_ok st T P -> entry_at T P e p -> new_table st T e l a raw ->
  tree_ok (write st (er_loc e) raw) (<[value a := l]> T) (grow P (value a) p).
Proof.
  intros Ht Htr He [N1 N2 N3 N4 N5 N6]. split.
  - intros r. rewrite (write_cr3 _ _ _ _ _ _ He N6). intros Er. destruct (to_cr3 _ _ Ht) as (r' & Er' & HT).
    rewrite Er in Er'. injection Er' as <-. rewrite (grow_other _ _ _ _ T PML4 HT N2). by apply (tr_root _ _ _ Htr).
  - intros b k i l' c [[<- <-]|[Hne Hb]]%lookup_insert_Some Hi Ec.
    + destruct (write_slot st T P e p (value a) l i raw Ht He N6 N1 Hi ltac:(by left)) as [E|(_ & E & _)]; [|congruence].
      rewrite E, N3, entry_target_zero in Ec by (done || by apply next_level_no in N4 as [_ ?]). done.
    + destruct (to_place _ _ Ht b k Hb) as [_ Hpl]. rewrite (grow_other _ _ _ b T k Hb N2).
      destruct (write_slot st T P e p b k i raw Ht He N6 Hpl Hi ltac:(by right)) as [E|(E & Hk & ->)]; rewrite E in Ec.
      * pose proof (to_entries _ _ Ht b k i Hb Hi) as Hok. unfold entry_ok in Hok. rewrite Ec in Hok.
        rewrite (grow_other _ _ _ _ T l' Hok N2). by eapply (tr_child _ _ _ Htr).
      * rewrite Hb in Hk. injection Hk as ->. rewrite N5 in Ec. injection Ec as <- <-. by rewrite grow_same.
Qed.

(** Writing an entry that is no table. *)
Lemma tree_ok_leaf st T P e p raw :
  tables_ok st T -> tree_ok st T P -> entry_at T P e p -> er_level e <> CR3 ->
  (forall l a, entry_target (er_level e) raw <> Ok (TTable l a)) -> tree_ok (write st (er_loc e) raw) T P.
Proof.
  intros Ht Htr He Hl Hraw. split.
  - intros r. rewrite (write_cr3 _ _ _ _ _ _ He Hl). apply (tr_root _ _ _ Htr).
  - intros b k i l' c Hb Hi Ec. destruct (to_place _ _ Ht b k Hb) as [_ Hpl].
    destruct (write_slot st T P e p b k i raw Ht He Hl Hpl Hi ltac:(by right)) as [E|(E & Hk & _)]; rewrite E in Ec;
      [by eapply (tr_child _ _ _ Htr)|]. rewrite Hb in Hk. injection Hk as ->. by destruct (Hraw l' c).
Qed.

(** ** What the addresses see *)

(** The root of the walk. *)
Definition root_ref : EntryRef := mkEntryRef CR3 LCr3.

Lemma vpath_vidx l k x y : vpath l x = vpath l y -> k <> CR3 -> (level_no k <= level_no l)%nat -> vidx k x = vidx k y.
Proof. intros E Hk Hl. unfold vpath in E. destruct l, k; cbn in E, Hl; try done; try lia; by injection E. Qed.

Lemma path_snoc {V} `{VirtSpace V} (v : Addr V) T st n e' e1 : forall e,
  path v T st e n e' -> ref_ok T e' -> try_down st e' v = Ok (Some e1) ->
  level_no (er_level e1) = S (level_no (er_level e')) -> path v T st e (S n) e1.
Proof.
  induction n as [|n IH]; intros e Hp Hr Ed Hl.
  - cbn in Hp. subst e'. split; [done|]. by exists e1.
  - destruct Hp as (Hre & e2 & E2 & Hl2 & Hp). split; [done|]. exists e2. split_and!; [done|done|by apply IH].
Qed.

Lemma path_mono {V} `{VirtSpace V} (v : Addr V) T T' st n e' : forall e, T ⊆ T' -> path v T st e n e' -> path v T' st e n e'.
Proof.
  induction n as [|n IH]; intros e HT Hp; [done|]. destruct Hp as (Hr & e1 & E & Hl & Hp).
  split; [by apply (ref_ok_mono T)|]. exists e1. split_and!; [done|done|by apply IH].
Qed.

Section Views.
Context {V W : Type} `{VirtSpace V} `{VirtSpace W} (v : Addr V) (x : Addr W).

(** Addresses with the same indices come to the same entry. *)
Lemma translate_at T st n e r :
  tables_ok st T -> path v T st root_ref n e -> (n < WALK_FUEL)%nat ->
  vpath (er_level e) (value x) = vpath (er_level e) (value v) ->
  (forall fuel, (0 < fuel)%nat -> translate_from fuel st e x = r) -> translate st x = r.
Proof using.
  intros Ht Hp Hn E Hr. apply (translate_path x T st root_ref n e); [|done|done].
  apply (path_ext v x); [done|done|]. intros k Hk Hl. by apply (vpath_vidx (er_level e)).
Qed.

(** The entry now leads to an empty table: what was behind it is gone, the rest stays. *)
Lemma translate_new_table st T P e n l a raw :
  tables_ok st T -> tree_ok st T P -> entry_at T P e (vpath (er_level e) (value v)) ->
  path v T st root_ref n e -> (n < 4)%nat -> new_table st T e l a raw ->
  translate (write st (er_loc e) raw) x =
    if decide (vpath (er_level e) (value x) = vpath (er_level e) (value v)) then Ok None else translate st x.
Proof using.
  intros Ht Htr He Hp Hn Hnt. destruct (decide _) as [E|Hne].
  2: { apply (translate_write_other x st T P e (vpath (er_level e) (value v))); try done. }
  pose proof (entry_at_ref _ _ _ _ He) as Hr. destruct (new_table_ok st T e l a raw Ht Hr Hnt) as (Ht' & Hsub & _).
  pose proof (path_write v T st root_ref n e raw Ht Hr Hp) as Hpw. apply (path_mono v _ _ _ _ _ _ Hsub) in Hpw.
  pose proof (ref_ok_mono _ _ _ Hsub Hr) as Hr'. destruct Hnt as [N1 N2 N3 N4 N5 N6]. destruct (next_level_no _ _ N4) as [Hno Hl].
  assert (Hpx : path x (<[value a := l]> T) (write st (er_loc e) raw) root_ref n e).
  { apply (path_ext v x); [done|done|]. intros k Hk Hle. by apply (vpath_vidx (er_level e)). }
  destruct (try_down_table x (write st (er_loc e) raw) _ e l a Ht' Hr') as (_ & Ed & Hr1).
  { unfold target. by rewrite read_write_same. }
  apply (translate_path x (<[value a := l]> T) _ root_ref (S n) (mkEntryRef l (LMem (value a + 8 * vidx l (value x)))));
    [by apply (path_snoc x _ _ n e)|unfold WALK_FUEL; lia|]. intros fuel Hf. apply translate_none; [|done].
  unfold target. cbn [er_level er_loc read]. pose proof (vidx_bound l (value x)) as Hi.
  destruct (write_slot st T P e _ (value a) l (vidx l (value x)) raw Ht He N6 N1 Hi ltac:(by left)) as [->|(_ & E' & _)]; [|congruence].
  rewrite N3 by done. by apply entry_target_zero.
Qed.
End Views.

(** ** The loop of [map] *)

(** The level of the page that [n] steps from [e] on run into. *)
Fixpoint larger {V} `{VirtSpace V} (n : nat) (st : Machine) (e : EntryRef) (v : Addr V) : option Level :=
  match n with
  | O => None
  | S n =>
      match target st e with
      | Ok (TPage _ _) => Some (er_level e)
      | Ok (TTable l a) => larger n st (mkEntryRef l (LMem (value a + 8 * vidx l (value v)))) v
      | _ => None
      end
  end.

(** What an address sees when the page of level [o] around [v] is gone. *)
Definition without (o : option Level) (v x : Z) (r : outcome (option (Addr UMASpace))) : outcome (option (Addr UMASpace)) :=
  match o with
  | Some l => if decide (vpath l x = vpath l v) then Ok None else r
  | None => r
  end.

(** A property of the tables and the allocator that a new table on the way to [v] keeps. *)
Definition keeps_new {V A} `{VirtSpace V} `{Allocator UMASpace A} (v : Addr V)
    (I : Machine -> A -> gmap Z Level -> (Z -> list Z) -> Prop) : Prop :=
  forall st al T P e l r al' raw, tables_ok st T -> tree_ok st T P ->
  entry_at T P e (vpath (er_level e) (value v)) -> path v T st root_ref (level_no (er_level e)) e ->
  allocate (PageSize_layout Small) al = Ok (Some r, al') -> new_table st T e l (ar_base r) raw ->
  (forall k b, target st e <> Ok (TTable k b)) -> I st al T P ->
  I (write st (er_loc e) raw) al' (<[value (ar_base r) := l]> T) (grow P (value (ar_base r)) (vpath (er_level e) (value v))).

Section Loop.
Context {V A : Type} `{VirtSpace V} `{TableAllocator A} (v : Addr V).
Context (I : Machine -> A -> gmap Z Level -> (Z -> list Z) -> Prop).
Context (HI : keeps_new v I).
(** Tables that stay spare. *)
Context (m : nat).

(** The walker stands at [e], which it reached on well-formed tables. *)
Record walked (st : Machine) (al : A) (T : gmap Z Level) (P : Z -> list Z) (e : EntryRef) (n : nat) : Prop := {
  wk_tables : tables_ok st T;
  wk_tree : tree_ok st T P;
  wk_at : entry_at T P e (vpath (er_level e) (value v));
  wk_path : path v T st root_ref (level_no (er_level e)) e;
  wk_spare : spare (n + m) al st T;
  wk_inv : I st al T P
}.

(** Every address, after the step. *)
Definition sees (st st' : Machine) (o : option Level) : Prop :=
  forall (X : Type) (HX : VirtSpace X) (x : Addr X), translate st' x = without o (value v) (value x) (translate st x).

Lemma walked_below st al T P e n l a :
  walked st al T P e n -> target st e = Ok (TTable l a) ->
  let e' := mkEntryRef l (LMem (value a + 8 * vidx l (value v))) in
  next_level (er_level e) = Some l /\ down_with_table v a l = Ok e' /\ walked st al T P e' n.
Proof using.
  intros [W1 W2 W3 W4 W5 W6] Et e'. pose proof (entry_at_ref _ _ _ _ W3) as Hr.
  destruct (try_down_table v st T e l a W1 Hr Et) as (Ed & Ed' & Hr'). pose proof (entry_target_next _ _ _ _ Et) as Hn.
  destruct (next_level_no _ _ Hn) as [Hno _]. destruct (try_down_at v st T P e e' W1 W2 W3 Ed') as [_ He'].
  split; [done|]. split; [done|]. split; [done|done|done| |done|done]. cbn [er_level e']. rewrite Hno. by apply (path_snoc v _ _ _ e).
Qed.

(** Where there was no table. *)
Lemma walked_new st al T P e n l :
  walked st al T P e (S n) -> next_level (er_level e) = Some l -> er_level e <> CR3 ->
  (target st e = Ok TNone \/ exists k a, target st e = Ok (TPage k a)) ->
  exists (r : AddrRange UMASpace) raw al', let a := ar_base r in walker_down st al e v = Ok (mkEntryRef l (LMem (value a + 8 * vidx l (value v))), write st (er_loc e) raw, al') /\
    let st' := write st (er_loc e) raw in let T' := <[value a := l]> T in
    let P' := grow P (value a) (vpath (er_level e) (value v)) in
    let e' := mkEntryRef l (LMem (value a + 8 * vidx l (value v))) in
    walked st' al' T' P' e' n /\ T ⊆ T' /\ target st' e' = Ok TNone /\
    sees st st' (match target st e with Ok (TPage _ _) => Some (er_level e) | _ => None end).
Proof using HI.
  intros [W1 W2 W3 W4 W5 W6] Hn Hl Ht. pose proof (entry_at_ref _ _ _ _ W3) as Hr.
  destruct (down_makes_table v st al T e (n + m) l Hn Hl W1 Hr W5 Ht) as (r & raw & al' & Ea & Hnt & E & Hsp).
  exists r, raw, al'. set (a := ar_base r) in *. split; [exact E|]. cbn zeta. destruct (new_table_ok st T e l a raw W1 Hr Hnt) as (Ht' & Hsub & _).
  pose proof (tree_ok_new_table st T P e _ l a raw W1 W2 W3 Hnt) as Htr'.
  destruct (next_level_no _ _ Hn) as [Hno Hl'].
  assert (Hlev : (level_no (er_level e) < 4)%nat) by (destruct (er_level e); cbn in Hn |- *; done || lia).
  assert (Hold : forall k b, target st e <> Ok (TTable k b)) by (intros k b; by destruct Ht as [->|(? & ? & ->)]).
  set (st' := write st (er_loc e) raw) in *. set (T' := <[value a := l]> T) in *.
  set (e' := mkEntryRef l (LMem (value a + 8 * vidx l (value v)))).
  assert (Hw0 : walked st' al' T' (grow P (value a) (vpath (er_level e) (value v))) e n).
  { split; [done|done|by apply (entry_at_grow T); [..|apply Hnt|]| |done|by apply (HI st al T P e l r al')].
    apply (path_mono v T); [done|]. by apply path_write. }
  destruct (walked_below st' al' T' _ e n l a Hw0) as (_ & _ & Hw).
  { unfold target, st'. rewrite read_write_same. apply Hnt. }
  split; [exact Hw|]. split; [done|]. split.
  - unfold target, e', st'. cbn [er_level er_loc read]. pose proof (vidx_bound l (value v)) as Hi.
    destruct (write_slot st T P e _ (value a) l (vidx l (value v)) raw W1 W3 Hl) as [->|(_ & E' & _)];
      [apply Hnt|done|left; apply Hnt| |pose proof (nt_fresh _ _ _ _ _ _ Hnt); congruence].
    rewrite (nt_zero _ _ _ _ _ _ Hnt) by done. by apply entry_target_zero.
  - intros X HX x. pose proof (translate_new_table v x st T P e _ l a raw W1 W2 W3 W4 Hlev Hnt) as Ex. fold st' in Ex. rewrite Ex.
    destruct Ht as [Et|(k & b & Et)]; rewrite Et; cbn [without]; [|done]. destruct (decide _) as [Ev|]; [|done].
    symmetry. apply (translate_at v x T st _ e _ W1 W4); [unfold WALK_FUEL; lia|done|]. intros fuel Hf. by apply translate_none.
Qed.

(** One turn of the loop. *)
Lemma walked_step st al T P e n l :
  walked st al T P e (S n) -> next_level (er_level e) = Some l ->
  exists e' st' al' T' P', walker_down st al e v = Ok (e', st', al') /\ er_level e' = l /\
    walked st' al' T' P' e' n /\ T ⊆ T' /\
    (st' = st /\ larger (S n) st e v = larger n st e' v \/
     larger n st' e' v = None /\ sees st st' (larger (S n) st e v)).
Proof using HI.
  intros Hw Hn. pose proof Hw as [W1 W2 W3 W4 W5 W6].
  pose proof (target_ref_ok st T e W1 (entry_at_ref _ _ _ _ W3)) as Hok. unfold entry_ok in Hok. fold (target st e) in Hok.
  assert (Hnew : (target st e = Ok TNone \/ exists k a, target st e = Ok (TPage k a)) -> er_level e <> CR3).
  { intros Ht El. unfold entry_at in W3. rewrite El in W3. destruct W3 as [Eloc _], (to_cr3 st T W1) as (a & Ea & _).
    unfold target in Ht. rewrite El, Eloc in Ht. cbn [read] in Ht. rewrite Ea in Ht. destruct Ht as [?|(? & ? & ?)]; done. }
  assert (Hmade : (target st e = Ok TNone \/ exists k a, target st e = Ok (TPage k a)) ->
    exists e' st' al' T' P', walker_down st al e v = Ok (e', st', al') /\ er_level e' = l /\ walked st' al' T' P' e' n /\ T ⊆ T' /\
      (st' = st /\ larger (S n) st e v = larger n st e' v \/ larger n st' e' v = None /\ sees st st' (larger (S n) st e v))).
  { intros Ht. destruct (walked_new st al T P e n l Hw Hn (Hnew Ht) Ht) as (r & raw & al' & E & Hw' & Hsub & Et' & Hs).
    eexists _, _, al', _, _. split; [exact E|]. split; [done|]. split; [exact Hw'|]. split; [done|]. right. split.
    - destruct n; cbn [larger]; [done|]. by rewrite Et'.
    - cbn [larger]. by destruct Ht as [Et|(? & ? & Et)]; rewrite Et in *. }
  destruct (target st e) as [[|k a|k a]| |] eqn:Et; try done; [apply Hmade; by left| |apply Hmade; right; by eexists _, _].
  destruct (walked_below st al T P e (S n) k a Hw Et) as (Hk & Ed & [V1 V2 V3 V4 V5 V6]). assert (k = l) as -> by congruence.
  eexists _, st, al, T, P. split; [|split; [|split; [|split; [done|left; split; [done|]]]]].
  - unfold walker_down. rewrite Hn, Et. cbn [obind]. rewrite Ed. reflexivity.
  - done.
  - split; try done. by apply spare_less.
  - cbn [larger]. by rewrite Et.
Qed.

Lemma down_to_sees tl n : forall fuel st al T P e,
  walked st al T P e n -> (level_no (er_level e) + n = level_no tl)%nat -> (n < fuel)%nat ->
  exists e' st' al' T' P', down_to fuel st al e v tl = Ok (e', st', al') /\ er_level e' = tl /\
    walked st' al' T' P' e' 0 /\ T ⊆ T' /\ sees st st' (larger n st e v).
Proof using HI.
  induction n as [|n IH]; intros fuel st al T P e Hw Hlev Hf; (destruct fuel as [|fuel]; [lia|]); cbn [down_to].
  - assert (Hl : er_level e = tl) by (apply level_no_inj; lia). rewrite decide_True by done.
    exists e, st, al, T, P. by split_and!.
  - rewrite decide_False by (intros E; rewrite E in Hlev; lia).
    assert (Hn : exists l, next_level (er_level e) = Some l).
    { destruct (er_level e); try by eexists. destruct tl; cbn in Hlev; lia. }
    destruct Hn as [l Hn]. destruct (next_level_no _ _ Hn) as [Hno _].
    destruct (walked_step st al T P e n l Hw Hn) as (e1 & st1 & al1 & T1 & P1 & -> & El & Hw1 & Hs1 & Hview). cbn [obind].
    destruct (IH fuel st1 al1 T1 P1 e1 Hw1) as (e' & st' & al' & T' & P' & -> & El' & Hw' & Hs' & Hview'); [rewrite El; lia|lia|].
    exists e', st', al', T', P'. split_and!; try done; [by transitivity T1|].
    destruct Hview as [(-> & ->)|(En & Hv)]; [done|]. rewrite En in Hview'. intros X HX x. rewrite (Hview' X HX x). apply Hv.
Qed.

(** The whole of [map], up to the entry that it writes last. *)
Lemma map_page_walked st al T P (vpage : PageAddr V) ppage flags :
  let ps := page_size vpage in let l := from_page_size ps in
  page_base vpage = v -> walked st al T P root_ref 4 ->
  page_size ppage = ps -> 0 <= value (page_base ppage) < range_end UMASpace ->
  (PageSize_usize ps | value (page_base ppage)) -> valid_flags l flags -> refers_page l flags = true ->
  exists e st' al' T' P' raw, map_page st al vpage ppage flags = Ok (Some tt, write st' (er_loc e) raw, al') /\
    er_level e = l /\ walked st' al' T' P' e 0 /\ T ⊆ T' /\ entry_target l raw = Ok (TPage l (page_base ppage)) /\
    sees st st' (larger (level_no l) st root_ref v).
Proof using HI.
  intros ps l Ev [W1 W2 W3 W4 W5 W6] Hps Hrange Hal Hfl Hpage.
  assert (Hn4 : (2 <= level_no l <= 4)%nat) by (subst l ps; destruct (page_size vpage); cbn; lia).
  destruct (down_to_sees l (level_no l) WALK_FUEL st al T P root_ref) as (e & st' & al' & T' & P' & Ed & El & Hw & Hsub & Hview);
    [split; try done; by apply (spare_le _ (4 + m)); [lia|]|done|unfold WALK_FUEL; lia|].
  destruct (reinit_spec l (read st' (er_loc e)) (page_base ppage) flags Hfl Hrange) as (raw & Er & Hm). rewrite Hpage in Er, Hm.
  assert (Hmod : value (page_base ppage) mod target_align l true = 0).
  { replace (target_align l true) with (PageSize_usize ps) by (subst l; by destruct ps).
    pose proof (PageSize_usize_pos ps). apply Z.mod_divide; [lia|done]. }
  rewrite Hmod in Er, Hm. cbn [Z.eqb] in Er, Hm. apply made_target in Hm. rewrite Hpage in Hm. cbn [target_of] in Hm.
  exists e, st', al', T', P', raw. split; [|split_and!; try done; rewrite Hm; by destruct (page_base ppage)].
  unfold map_page. rewrite bool_decide_true by done. fold ps l. fold root_ref. rewrite Ev, Ed. cbn [obind].
  unfold reinit_ref. rewrite El, Er. reflexivity.
Qed.

(** The address space behind that last write. *)
Lemma page_written st al T P e l a raw :
  walked st al T P e 0 -> er_level e = l -> l <> CR3 -> entry_target l raw = Ok (TPage l a) ->
  tables_ok (write st (er_loc e) raw) T /\ tree_ok (write st (er_loc e) raw) T P /\
  forall (X : Type) (HX : VirtSpace X) (x : Addr X), translate (write st (er_loc e) raw) x =
    if decide (vpath l (value x) = vpath l (value v)) then Ok (Some a) else translate st x.
Proof using.
  intros [W1 W2 W3 W4 W5 W6] <- Hl Et. pose proof (entry_at_ref _ _ _ _ W3) as Hr.
  assert (Ht' : tables_ok (write st (er_loc e) raw) T) by (apply tables_ok_write; try done; unfold entry_ok; by rewrite Et).
  split; [done|]. split; [apply (tree_ok_leaf _ _ _ _ _ _ W1 W2 W3 Hl); intros k b; by rewrite Et|].
  intros X HX x. destruct (decide _) as [E|Hne]; [|by apply (translate_write_other x st T P e (vpath (er_level e) (value v)))].
  apply (translate_at v x T _ (level_no (er_level e)) e); [done|by apply path_write| |done|].
  - unfold WALK_FUEL. destruct (er_level e); cbn; lia.
  - intros fuel Hf. apply (translate_page x _ _ (er_level e)); [|done]. unfold target. by rewrite read_write_same.
Qed.
End Loop.

(** ** Pages and indices *)

(** Two addresses lie in one page, as far as the walker looks at them. *)
Definition same_page (ps : PageSize) (x y : Z) : bool :=
  (x mod 2 ^ 48) / PageSize_usize ps =? (y mod 2 ^ 48) / PageSize_usize ps.

Lemma digits_eq a b m : 0 < m ->
  a mod (512 * m) = b mod (512 * m) <-> a mod 512 = b mod 512 /\ (a / 512) mod m = (b / 512) mod m.
Proof.
  intros Hm. rewrite !Z.rem_mul_r by lia. pose proof (Z.mod_pos_bound a 512 ltac:(lia)). pose proof (Z.mod_pos_bound b 512 ltac:(lia)).
  split; [intros E; lia|intros [-> ->]; done].
Qed.

Lemma mod48_div x o m : 0 <= o -> 0 < m -> 2 ^ 48 = 2 ^ o * m -> (x mod 2 ^ 48) / 2 ^ o = (x / 2 ^ o) mod m.
Proof.
  intros Ho Hm ->. pose proof (pow2_pos o Ho). rewrite Z.rem_mul_r by lia. rewrite Z.add_comm, Z.mul_comm, Z.div_add_l by lia.
  rewrite (Z.div_small (x mod 2 ^ o)) by (by apply Z.mod_pos_bound). lia.
Qed.

Lemma same_page_vpath ps x y :
  same_page ps x y = true <-> vpath (from_page_size ps) x = vpath (from_page_size ps) y.
Proof.
  unfold same_page. rewrite Z.eqb_eq. unfold PageSize_usize.
  assert (Hd : forall k z, 0 <= k -> z / 2 ^ (k + 9) = z / 2 ^ k / 512).
  { intros k z Hk. rewrite Z.pow_add_r, Z.div_div by (try apply Z.pow_nonzero; lia). done. }
  destruct ps; cbn [PageSize_order from_page_size]; unfold vpath, vidx; cbn [levels_to level_lo fmap list_fmap];
    [rewrite !(mod48_div _ 12 (512 * (512 * (512 * 512)))) by done
    |rewrite !(mod48_div _ 21 (512 * (512 * 512))) by done
    |rewrite !(mod48_div _ 30 (512 * 512)) by done];
    rewrite ?digits_eq by lia; rewrite ?(Hd 30), ?(Hd 21), ?(Hd 12) by lia.
  all: split; [intros E; destruct_and!; congruence|intros [=]; by repeat split].
Qed.

(** ** The theorem *)

(** C23: [map] is one update of the address space. On tables that form a tree, and with an allocator that
    provides zeroed tables, which the code does not see to, mapping a page succeeds and the tables still form a tree; every address of the page,
    of whatever kind of virtual address, then translates to the physical page; if the walk ran into a
    larger page, all other addresses of that larger page lose their translation; and every other address translates
    exactly as before. *)
Theorem map_page_refines {V A} `{VirtSpace V} `{TableAllocator A}
    st (al : A) T P (vpage : PageAddr V) ppage flags :
  let ps := page_size vpage in let l := from_page_size ps in let v := page_base vpage in
  tables_ok st T -> tree_ok st T P -> spare 4 al st T ->
  page_size ppage = ps -> 0 <= value (page_base ppage) < range_end UMASpace ->
  (PageSize_usize ps | value (page_base ppage)) -> valid_flags l flags -> refers_page l flags = true ->
  exists st' al' T' P', map_page st al vpage ppage flags = Ok (Some tt, st', al') /\
    tables_ok st' T' /\ tree_ok st' T' P' /\ T ⊆ T' /\
    forall (X : Type) (HX : VirtSpace X) (x : Addr X),
      translate st' x =
        if same_page ps (value x) (value v) then Ok (Some (page_base ppage))
        else without (larger (level_no l) st root_ref v) (value v) (value x) (translate st x).
Proof.
  intros ps l v Ht Htr Hsp Hps Hrange Hal Hfl Hpage.
  destruct (map_page_walked v (fun _ _ _ _ => True) ltac:(done) 0 st al T P vpage ppage flags eq_refl) as
    (e & st' & al' & T' & P' & raw & E & El & Hw & Hsub & Et & Hs); [by split|done..|].
  assert (Hl : from_page_size (page_size vpage) <> CR3) by by destruct (page_size vpage).
  destruct (page_written v _ 0 st' al' T' P' e _ _ raw Hw El Hl Et) as (Ht' & Htr' & Hx).
  exists (write st' (er_loc e) raw), al', T', P'. split_and!; try done. intros X HX x. rewrite (Hx X HX x).
  destruct (same_page ps (value x) (value v)) eqn:Esp.
  - by rewrite decide_True by by apply same_page_vpath.
  - rewrite decide_False by (intros Ev; apply (same_page_vpath ps) in Ev; congruence). apply Hs.
Qed.

(** ** A machine *)

Lemma demo_tree_ok : tree_ok (demo_machine 0) {[0x1000 := PML4]} (fun _ => []).
Proof.
  split; [done|]. intros a l i l' b [<- <-]%lookup_singleton_Some Hi. cbn [mem demo_machine].
  destruct ((_ <=? _) && _); done.
Qed.

Lemma map_page_refines_witness :
  exists st' al' T' P', map_page (demo_machine 0) demo_boot demo_vpage demo_ppage [Present; ReadWrite] = Ok (Some tt, st', al') /\
    tables_ok st' T' /\ tree_ok st' T' P' /\ {[0x1000 := PML4]} ⊆ T' /\
    forall (X : Type) (HX : VirtSpace X) (x : Addr X),
      translate st' x =
        if same_page Small (value x) 0xFFFFC90000200000 then Ok (Some (mkAddr 0x345000))
        else without (larger 4 (demo_machine 0) root_ref (page_base demo_vpage)) 0xFFFFC90000200000 (value x)
               (translate (demo_machine 0) x).
Proof.
  apply (map_page_refines (demo_machine 0) demo_boot {[0x1000 := PML4]} (fun _ => []) demo_vpage demo_ppage [Present; ReadWrite]
           demo_tables_ok demo_tree_ok demo_boot_spare); [reflexivity|vm_compute; split; congruence|by exists 0x345| |reflexivity].
  split; [by left|]. repeat constructor; by eexists.
Defined.
