(* ===== verification/MapLife.v ===== *)
(** * The life of a process's memory map

    A map is made by [X86_64MemoryMap::new], filled by [map] with tables from the page
    allocator, and dropped (all in [src/src/mem/paging.rs]).  A map owns the tables that its
    root leads to through its lower half; what is shown here is that the page allocator's
    blocks are at every moment the tables that the map owns and those that were out before. *)

From stdpp Require Import gmap.
From S2P Require Import Prelude Addr Buddy BuddySpec BuddyTheorems Phy PhyTheorems Entry Paging PagingTheorems PageAlloc PageAllocTheorems.
From S2P Require Import PagingInit PagingMapTheorems AddressSpace.
Open Scope Z_scope.

(** ** The tables that a map owns *)

(** How many entries of a table of the level are the map's own. *)
Definition own_len (l : Level) : Z := match l with PML4 => 256 | _ => TABLE_LEN end.

Inductive owns (m : Z -> Z) (root : Z) : Level -> Z -> Prop :=
| owns_root : owns m root PML4 root
| owns_child l a i l' b : owns m root l a -> 0 <= i < own_len l ->
    entry_target l (m (a + 8 * i)) = Ok (TTable l' b) -> owns m root l' (value b).

Lemma own_len_le l i : 0 <= i < own_len l -> 0 <= i < TABLE_LEN.
Proof. rewrite TABLE_LEN_eq. destruct l; cbn [own_len]; rewrite ?TABLE_LEN_eq; lia. Qed.

Lemma owns_level m root l a : owns m root l a -> l <> CR3.
Proof. destruct 1 as [|l a i l' b _ _ E]; [done|]. apply entry_target_next, next_level_no in E. apply E. Qed.

Lemma owns_in st T root l a :
  tables_ok st T -> entry_target CR3 (cr3 st) = Ok (TTable PML4 root) -> owns (mem st) (value root) l a -> T !! a = Some l.
Proof.
  intros Ht Er. induction 1 as [|l a i l' b _ IH Hi E].
  - destruct (to_cr3 _ _ Ht) as (r & Er' & HT). rewrite Er in Er'. by injection Er' as ->.
  - pose proof (to_entries _ _ Ht a l i IH (own_len_le _ _ Hi)) as Hok. unfold entry_ok in Hok. by rewrite E in Hok.
Qed.

(** What stays a table stays owned. *)
Lemma owns_mono m m' root l a :
  (forall l a i l' b, owns m root l a -> 0 <= i < own_len l -> entry_target l (m (a + 8 * i)) = Ok (TTable l' b) ->
     entry_target l (m' (a + 8 * i)) = Ok (TTable l' b)) ->
  owns m root l a -> owns m' root l a.
Proof. intros Hm. induction 1 as [|l a i l' b Ho IH Hi E]; [constructor|]. by apply (owns_child _ _ l a i l' b), Hm. Qed.

(** ** The tables that dropping a map visits *)

Lemma elem_of_entries {A} (f : nat -> list A) x i n :
  x ∈ concat (f <$> seq i n) <-> exists j, (i <= j < i + n)%nat /\ x ∈ f j.
Proof.
  revert i. induction n as [|n IH]; intros i; cbn [seq fmap list_fmap concat].
  - rewrite elem_of_nil. split; [done|]. intros (j & Hj & _). lia.
  - change (list_fmap _ _ f (seq (S i) n)) with (f <$> seq (S i) n). rewrite elem_of_app, IH. split.
    + intros [Hx|(j & Hj & Hx)]; [exists i|exists j]; (split; [lia|done]).
    + intros (j & Hj & Hx). destruct (decide (j = i)) as [->|]; [by left|right]. exists j. split; [lia|done].
Qed.

Lemma NoDup_entries {A} (f : nat -> list A) n : forall i,
  (forall j, (i <= j < i + n)%nat -> NoDup (f j)) ->
  (forall j k x, (i <= j < i + n)%nat -> (i <= k < i + n)%nat -> x ∈ f j -> x ∈ f k -> j = k) ->
  NoDup (concat (f <$> seq i n)).
Proof.
  induction n as [|n IH]; intros i Hf Hd; cbn [seq fmap list_fmap concat]; [constructor|].
  change (list_fmap _ _ f (seq (S i) n)) with (f <$> seq (S i) n). apply NoDup_app. split_and!.
  - apply Hf. lia.
  - intros x Hx (j & Hj & Hxj)%elem_of_entries. specialize (Hd i j x ltac:(lia) ltac:(lia) Hx Hxj). lia.
  - apply IH; [intros j Hj; apply Hf; lia|]. intros j k x Hj Hk. apply Hd; lia.
Qed.

Section Visited.
Context (st : Machine) (T : gmap Z Level) (P : Z -> list Z) (Ht : tables_ok st T).

Lemma entry_of_nat a l j :
  T !! a = Some l -> (j < 512)%nat -> entry_ok T l (mem st (a + 8 * Z.of_nat j)).
Proof using Ht. intros Ha Hj. apply (to_entries _ _ Ht); [done|]. rewrite TABLE_LEN_eq. lia. Qed.

(** What is visited is owned. *)
Lemma tables_of_owned root fuel : forall l a j b,
  owns (mem st) root l a -> 0 <= Z.of_nat j < own_len l ->
  b ∈ tables_of fuel (mem st) l (mem st (a + 8 * Z.of_nat j)) -> exists k, owns (mem st) root k b.
Proof using.
  induction fuel as [|fuel IH]; intros l a j b Ho Hj; cbn [tables_of]; [by intros ?%elem_of_nil|].
  destruct (entry_target _ _) as [[|l' c|]| |] eqn:E; try by intros ?%elem_of_nil.
  assert (Hc : owns (mem st) root l' (value c)) by by eapply owns_child.
  intros [(i & Hi & Hb)%elem_of_entries| ->%list_elem_of_singleton]%elem_of_app; [|by exists l'].
  apply (IH l' (value c) i b Hc); [|done]. apply entry_target_next in E. pose proof (owns_level _ _ _ _ Ho).
  destruct l; try done; cbn in E; injection E as <-; cbn [own_len]; rewrite ?TABLE_LEN_eq; lia.
Qed.

(** What is visited is closed under the entries of its tables. *)
Lemma tables_of_closed fuel : forall l raw c k i l' b,
  entry_ok T l raw -> (4 <= level_no l + fuel)%nat -> T !! c = Some k -> 0 <= i < TABLE_LEN ->
  entry_target k (mem st (c + 8 * i)) = Ok (TTable l' b) ->
  c ∈ tables_of fuel (mem st) l raw -> value b ∈ tables_of fuel (mem st) l raw.
Proof using Ht.
  induction fuel as [|fuel IH]; intros l raw c k i l' b Hok Hf Hc Hi Eb; cbn [tables_of]; [by intros ?%elem_of_nil|].
  unfold entry_ok in Hok. destruct (entry_target l raw) as [[|l1 a|]| |] eqn:E; try by intros ?%elem_of_nil.
  apply entry_target_next, next_level_no in E as [El _]. rewrite !elem_of_app, !elem_of_entries.
  intros [(j & Hj & Hin)| ->%list_elem_of_singleton]; left.
  - exists j. split; [done|]. apply (IH l1 _ c k i l' b); try done; [apply entry_of_nat; [done|lia]|lia].
  - assert (k = l1) as -> by congruence. exists (Z.to_nat i). rewrite TABLE_LEN_eq in Hi. split; [lia|]. rewrite Z2Nat.id by lia.
    pose proof (entry_target_next _ _ _ _ Eb) as [Hb _]%next_level_no.
    assert (level_no l' <= 4)%nat by (destruct l'; cbn; lia). destruct fuel as [|fuel]; [lia|]. cbn [tables_of]. rewrite Eb.
    apply elem_of_app. right. by left.
Qed.

Context (Htr : tree_ok st T P).

(** Nothing is visited twice. *)
Lemma tables_of_NoDup fuel : forall l a j,
  T !! a = Some l -> (j < 512)%nat -> let L := tables_of fuel (mem st) l (mem st (a + 8 * Z.of_nat j)) in
  NoDup L /\ forall b, b ∈ L -> (P a ++ [Z.of_nat j]) `prefix_of` P b.
Proof using Ht Htr.
  induction fuel as [|fuel IH]; intros l a j Ha Hj; cbn [tables_of]; [split; [constructor|by intros b ?%elem_of_nil]|].
  pose proof (entry_of_nat a l j Ha Hj) as Hok. unfold entry_ok in Hok.
  destruct (entry_target _ _) as [[|l' c|]| |] eqn:E; try (split; [constructor|by intros b ?%elem_of_nil]).
  assert (HP : P (value c) = P a ++ [Z.of_nat j]).
  { apply (tr_child _ _ _ Htr a l _ l'); [done|rewrite TABLE_LEN_eq; lia|done]. }
  assert (Hpre : forall b i, (0 <= i < 0 + 512)%nat -> b ∈ tables_of fuel (mem st) l' (mem st (value c + 8 * Z.of_nat i)) ->
            (P (value c) ++ [Z.of_nat i]) `prefix_of` P b) by (intros b i Hi; apply (IH l' (value c) i Hok); lia).
  rewrite HP in Hpre. split.
  - apply NoDup_app. split_and!; [|intros x (i & Hi & Hx)%elem_of_entries ->%list_elem_of_singleton|apply NoDup_singleton].
    + apply NoDup_entries; [intros i Hi; apply (IH l' (value c) i Hok); lia|]. intros i k x Hi Hk Hxi Hxk.
      destruct (Hpre x i Hi Hxi) as [q1 E1], (Hpre x k Hk Hxk) as [q2 E2]. rewrite E1, <- !app_assoc in E2.
      apply app_inv_head in E2. cbn in E2. injection E2 as E2. lia.
    + apply (Hpre _ i Hi) in Hx. apply prefix_length in Hx. rewrite HP, length_app in Hx. cbn in Hx. lia.
  - intros b [(i & Hi & Hb)%elem_of_entries| ->%list_elem_of_singleton]%elem_of_app; [|by rewrite HP].
    by eapply prefix_app_l, Hpre.
Qed.

Context (root : Addr UMASpace) (Er : entry_target CR3 (cr3 st) = Ok (TTable PML4 root)).

Lemma root_in : T !! value root = Some PML4.
Proof using Ht Er. by apply (owns_in st T root PML4); [..|constructor]. Qed.

Lemma own_tables_NoDup : NoDup (own_tables (mem st) (value root)).
Proof using Ht Htr Er.
  pose proof root_in as HT. pose proof (tr_root _ _ _ Htr _ Er) as HP. unfold own_tables. apply NoDup_app. split_and!.
  - apply NoDup_entries; [intros j Hj; apply (tables_of_NoDup WALK_FUEL PML4); [done|lia]|]. intros j k x Hj Hk Hxj Hxk.
    destruct (tables_of_NoDup WALK_FUEL PML4 _ j HT ltac:(lia)) as [_ Hpj], (tables_of_NoDup WALK_FUEL PML4 _ k HT ltac:(lia)) as [_ Hpk].
    destruct (Hpj x Hxj) as [q1 E1], (Hpk x Hxk) as [q2 E2]. rewrite HP in E1, E2. rewrite E1 in E2. cbn in E2. injection E2 as E2. lia.
  - intros x (j & Hj & Hx)%elem_of_entries ->%list_elem_of_singleton.
    destruct (tables_of_NoDup WALK_FUEL PML4 _ j HT ltac:(lia)) as [_ Hpj]. apply Hpj, prefix_length in Hx.
    rewrite HP in Hx. cbn in Hx. lia.
  - apply NoDup_singleton.
Qed.

Lemma elem_of_own_tables b : b ∈ own_tables (mem st) (value root) <-> exists l, owns (mem st) (value root) l b.
Proof using Ht Er.
  unfold own_tables. rewrite elem_of_app, elem_of_entries, list_elem_of_singleton. split.
  - intros [(j & Hj & Hb)| ->]; [|eexists; constructor]. apply (tables_of_owned _ WALK_FUEL PML4 (value root) j); [constructor|cbn; lia|done].
  - intros (l & Ho). induction Ho as [|l a i l' b Ho IH Hi E]; [by right|left].
    pose proof (owns_in st T root l a Ht Er Ho) as Ha. destruct IH as [(j & Hj & Hin)| ->].
    + exists j. split; [done|]. apply (tables_of_closed WALK_FUEL PML4 _ a l i l' b); try done;
        [apply entry_of_nat; [apply root_in|lia]|unfold WALK_FUEL; cbn [level_no]; lia|by eapply own_len_le].
    + pose proof root_in as HT. assert (l = PML4) as -> by congruence. cbn [own_len] in Hi. exists (Z.to_nat i).
      rewrite Z2Nat.id by lia. split; [lia|]. cbn [WALK_FUEL tables_of]. rewrite E. apply elem_of_app. right. by left.
Qed.
End Visited.

(** ** Walking in the lower half *)

(** An entry of an owned table. *)
Definition owned_entry (m : Z -> Z) (root : Z) (e : EntryRef) : Prop :=
  exists c i, owns m root (er_level e) c /\ 0 <= i < own_len (er_level e) /\ er_loc e = LMem (c + 8 * i).

Definition in_lower {V} (v : Addr V) : Prop := vidx PML4 (value v) < 256.

(** Only tables of the last level refer to pages. *)
Definition only_small (m : Z -> Z) (root : Z) : Prop :=
  forall l a i k b, owns m root l a -> 0 <= i < own_len l -> entry_target l (m (a + 8 * i)) = Ok (TPage k b) -> l = PT.

Section Lower.
Context {V : Type} `{VirtSpace V} (v : Addr V) (Hv : in_lower v).
Context (st : Machine) (T : gmap Z Level) (Ht : tables_ok st T).
Context (root : Addr UMASpace) (Er : entry_target CR3 (cr3 st) = Ok (TTable PML4 root)).

Lemma owned_slot l a : owns (mem st) (value root) l a -> owned_entry (mem st) (value root) (mkEntryRef l (LMem (a + 8 * vidx l (value v)))).
Proof using Hv.
  intros Ho. exists a, (vidx l (value v)). split; [done|]. split; [|done]. pose proof (vidx_bound l (value v)) as Hb.
  unfold in_lower in Hv. destruct l; cbn [er_level own_len]; [done|split; [apply Hb|done]|done..].
Qed.

Lemma owned_below e l a :
  owned_entry (mem st) (value root) e -> target st e = Ok (TTable l a) -> owns (mem st) (value root) l (value a).
Proof using. intros (c & i & Ho & Hi & El) Et. unfold target in Et. rewrite El in Et. by eapply owns_child. Qed.

Lemma owned_path n e : forall e0,
  owned_entry (mem st) (value root) e0 -> path v T st e0 n e -> owned_entry (mem st) (value root) e.
Proof using Hv Ht.
  induction n as [|n IH]; intros e0 Ho Hp; cbn [path] in Hp; [by subst|]. destruct Hp as (Hr & e1 & Ed & _ & Hp).
  destruct (try_down_inv v st T e0 e1 Ht Hr Ed) as (l & a & Et & ->). apply (IH _) in Hp; [done|].
  by apply owned_slot, (owned_below e0).
Qed.

(** Below the root, the walker stays among the owned tables. *)
Lemma owned_from_root n e : path v T st root_ref n e -> er_level e <> CR3 -> owned_entry (mem st) (value root) e.
Proof using Hv Ht Er.
  destruct n as [|n]; cbn [path]; [by intros <-|]. intros (Hr & e1 & Ed & _ & Hp) _.
  destruct (try_down_inv v st T _ e1 Ht Hr Ed) as (l & a & Et & ->). unfold target in Et. cbn [root_ref er_level er_loc read] in Et.
  rewrite Er in Et. injection Et as <- <-. apply (owned_path n e _) in Hp; [done|]. apply owned_slot. constructor.
Qed.

Lemma no_larger_below n : forall e,
  only_small (mem st) (value root) -> owned_entry (mem st) (value root) e -> (level_no (er_level e) + n <= 4)%nat -> larger n st e v = None.
Proof using Hv Ht.
  induction n as [|n IH]; intros e Hs Ho Hn; [done|]. cbn [larger]. destruct (target st e) as [[|l a|k a]| |] eqn:Et; try done.
  - apply IH; [done|by apply owned_slot, (owned_below e)|]. cbn [er_level].
    unfold target in Et. pose proof (entry_target_next _ _ _ _ Et) as [El _]%next_level_no. lia.
  - exfalso. destruct Ho as (c & i & Ho & Hi & El). unfold target in Et. rewrite El in Et.
    apply (Hs _ c i k a Ho Hi) in Et. rewrite Et in Hn. cbn in Hn. lia.
Qed.

(** A map of small pages has no larger page in the way. *)
Lemma no_larger : only_small (mem st) (value root) -> larger 4 st root_ref v = None.
Proof using Hv Ht Er.
  intros Hs. cbn [larger]. unfold target at 1. cbn [root_ref er_level er_loc read]. rewrite Er.
  apply (no_larger_below 3); [done|apply owned_slot; constructor|cbn; lia].
Qed.
End Lower.

(** ** Writing an owned entry *)

Section Step.
Context (st : Machine) (T : gmap Z Level) (Ht : tables_ok st T).
Context (root : Addr UMASpace) (Er : entry_target CR3 (cr3 st) = Ok (TTable PML4 root)).
Context (e : EntryRef) (raw : Z) (He : owned_entry (mem st) (value root) e).

(** A word of a table, after the write. *)
Lemma owned_word l a i :
  T !! a = Some l -> 0 <= i < TABLE_LEN ->
  (mem (write st (er_loc e) raw) (a + 8 * i) = mem st (a + 8 * i) /\ er_loc e <> LMem (a + 8 * i)) \/
  (mem (write st (er_loc e) raw) (a + 8 * i) = raw /\ er_loc e = LMem (a + 8 * i) /\ er_level e = l).
Proof using Ht Er He.
  intros Ha Hi. destruct He as (c & j & Ho & Hj & ->). cbn [write mem]. case_bool (a + 8 * i =? c + 8 * j) E; [right|left].
  - pose proof (owns_in st T root _ _ Ht Er Ho) as Hc. destruct (slot_inj a c i j) as [-> ->]; try done;
      [apply (to_place _ _ Ht _ _ Ha)|apply (to_place _ _ Ht _ _ Hc)|by eapply own_len_le|]. split; [done|]. split; [done|congruence].
  - split; [done|]. intros [= E']. lia.
Qed.

Lemma owned_cr3 : cr3 (write st (er_loc e) raw) = cr3 st.
Proof using He. by destruct He as (c & j & _ & _ & ->). Qed.

(** The entry of an owned table that is not the one written, or the one written. *)
Lemma owned_entry_case l a i t :
  owns (mem st) (value root) l a -> 0 <= i < own_len l ->
  entry_target l (mem (write st (er_loc e) raw) (a + 8 * i)) = Ok t ->
  entry_target l (mem st (a + 8 * i)) = Ok t \/ er_level e = l /\ er_loc e = LMem (a + 8 * i) /\ entry_target (er_level e) raw = Ok t.
Proof using Ht Er He.
  intros Ho Hi E. pose proof (owns_in st T root l a Ht Er Ho) as Ha.
  destruct (owned_word l a i Ha (own_len_le _ _ Hi)) as [[Ew _]|(Ew & El & <-)]; rewrite Ew in E; [by left|right; by split_and!].
Qed.

(** Where the entry was no table, nothing owned is lost. *)
Lemma owns_kept k b :
  (forall l a, target st e <> Ok (TTable l a)) -> owns (mem st) (value root) k b -> owns (mem (write st (er_loc e) raw)) (value root) k b.
Proof using Ht Er He.
  intros Hold. apply owns_mono. intros l a i l' c Ho Hi E. pose proof (owns_in st T root l a Ht Er Ho) as Ha.
  destruct (owned_word l a i Ha (own_len_le _ _ Hi)) as [[-> _]|(_ & El & Hl)]; [done|].
  destruct (Hold l' c). unfold target. by rewrite El, Hl.
Qed.

Lemma new_table_empty l a i :
  new_table st T e l a raw -> 0 <= i < TABLE_LEN ->
  entry_target l (mem (write st (er_loc e) raw) (value a + 8 * i)) = Ok TNone.
Proof using Ht Er He.
  intros Hnt Hi. rewrite <- (entry_target_zero l) by by destruct (next_level_no _ _ (nt_next _ _ _ _ _ _ Hnt)).
  f_equal. rewrite <- (nt_zero _ _ _ _ _ _ Hnt i Hi). destruct He as (c & j & Hc & Hj & ->). cbn [write mem].
  case_bool (value a + 8 * i =? c + 8 * j) Ew; [|done]. pose proof (owns_in st T root _ _ Ht Er Hc) as HT.
  destruct (slot_inj (value a) c i j) as [Ea _]; [apply Hnt|apply (to_place _ _ Ht _ _ HT)|done|by eapply own_len_le|done|].
  pose proof (nt_fresh _ _ _ _ _ _ Hnt). congruence.
Qed.

(** A new table is owned, and nothing else becomes so. *)
Lemma owns_new l a k b :
  new_table st T e l a raw -> (forall l a, target st e <> Ok (TTable l a)) ->
  owns (mem (write st (er_loc e) raw)) (value root) k b <-> owns (mem st) (value root) k b \/ k = l /\ b = value a.
Proof using Ht Er He.
  intros Hnt Hold. split.
  - induction 1 as [|k c i k' b Ho IH Hi E]; [left; constructor|]. destruct IH as [IH|[-> ->]].
    + destruct (owned_entry_case _ _ _ _ IH Hi E) as [E'|(<- & _ & E')]; [left; by eapply owns_child|].
      rewrite (nt_target _ _ _ _ _ _ Hnt) in E'. injection E' as -> ->. by right.
    + rewrite (new_table_empty l a) in E; [done|done|by eapply own_len_le].
  - intros [Ho|[-> ->]]; [by apply owns_kept|]. pose proof He as (c & j & Ho & Hj & El).
    apply (owns_child _ _ (er_level e) c j); [by apply owns_kept|done|]. rewrite El. cbn [write mem]. rewrite Z.eqb_refl. apply Hnt.
Qed.

Lemma only_small_new l a :
  new_table st T e l a raw -> (forall l a, target st e <> Ok (TTable l a)) -> only_small (mem st) (value root) ->
  only_small (mem (write st (er_loc e) raw)) (value root).
Proof using Ht Er He.
  intros Hnt Hold Hs k c i k' b Ho Hi E. apply (owns_new l a) in Ho as [Ho|[-> ->]]; try done.
  - destruct (owned_entry_case _ _ _ _ Ho Hi E) as [E'|(_ & _ & E')]; [by eapply Hs|]. by rewrite (nt_target _ _ _ _ _ _ Hnt) in E'.
  - rewrite (new_table_empty l a) in E; [done|done|by eapply own_len_le].
Qed.

(** A page in a table of the last level changes nothing of this. *)
Lemma owns_page k a : er_level e = PT -> entry_target PT raw = Ok (TPage k a) ->
  (forall l b, owns (mem (write st (er_loc e) raw)) (value root) l b <-> owns (mem st) (value root) l b) /\
  (only_small (mem st) (value root) -> only_small (mem (write st (er_loc e) raw)) (value root)).
Proof using Ht Er He.
  intros El Et.
  assert (Hold : forall l a, target st e <> Ok (TTable l a)).
  { intros l b E. unfold target in E. rewrite El in E. by apply entry_target_next in E. }
  assert (Hiff : forall l b, owns (mem (write st (er_loc e) raw)) (value root) l b <-> owns (mem st) (value root) l b).
  { intros l b. split; [|by apply owns_kept]. induction 1 as [|l c i l' b _ IH Hi E]; [constructor|].
    destruct (owned_entry_case _ _ _ _ IH Hi E) as [E'|(_ & _ & E')]; [by eapply owns_child|]. rewrite El, Et in E'. done. }
  split; [done|]. intros Hs l c i k' b Ho%Hiff Hi E.
  destruct (owned_entry_case _ _ _ _ Ho Hi E) as [E'|(<- & _)]; [by eapply Hs|done].
Qed.
End Step.

(** ** Tables from the page allocator *)

#[local] Existing Instance PageAllocator_ranges | 0.

(** [n] more requests for a table succeed, each with zeroed memory outside [T]. *)
Fixpoint supply (n : nat) (pmm : PMM) (st : Machine) (T : gmap Z Level) : Prop :=
  match n with
  | O => True
  | S n => exists r pmm', allocate (PageSize_layout Small) pmm = Ok (Some r, pmm') /\
      table_place (value (ar_base r)) /\ T !! value (ar_base r) = None /\
      (forall i, 0 <= i < TABLE_LEN -> mem st (value (ar_base r) + 8 * i) = 0) /\
      forall l, supply n pmm' st (<[value (ar_base r) := l]> T)
  end.

(** Clearing memory does not hurt. *)
Definition same_or_clear (T : gmap Z Level) (st st' : Machine) : Prop :=
  forall a i, T !! a = None -> table_place a -> 0 <= i < TABLE_LEN ->
    mem st' (a + 8 * i) = mem st (a + 8 * i) \/ mem st' (a + 8 * i) = 0.

Lemma supply_clear n : forall pmm st st' T, same_or_clear T st st' -> supply n pmm st T -> supply n pmm st' T.
Proof.
  induction n as [|n IH]; intros pmm st st' T Hsame; [done|]. intros (r & pmm' & E & Hp & Hf & Hz & Hs).
  exists r, pmm'. split_and!; try done.
  - intros i Hi. destruct (Hsame _ i Hf Hp Hi) as [-> | ->]; [by apply Hz|done].
  - intros l. apply (IH pmm' st); [|done]. intros a i [Ha _]%lookup_insert_None. by apply Hsame.
Qed.

Lemma supply_frame n pmm st st' T : same_outside T st st' -> supply n pmm st T -> supply n pmm st' T.
Proof. intros Hs. apply supply_clear. intros a i Ha Hp Hi. left. by apply Hs. Qed.

Lemma supply_less n : forall pmm st T, supply (S n) pmm st T -> supply n pmm st T.
Proof.
  induction n as [|n IH]; intros pmm st T; [done|]. intros (r & pmm' & E & Hp & Hf & Hz & Hs).
  exists r, pmm'. split_and!; try done. intros l. by apply IH.
Qed.

Lemma supply_alloc n pmm st T : supply (S n) pmm st T ->
  exists r pmm', allocate (PageSize_layout Small) pmm = Ok (Some r, pmm') /\
    table_place (value (ar_base r)) /\ T !! value (ar_base r) = None /\
    (forall i, 0 <= i < TABLE_LEN -> mem st (value (ar_base r) + 8 * i) = 0) /\
    forall l, supply n pmm' st (<[value (ar_base r) := l]> T).
Proof. done. Qed.

#[local] Instance page_table_allocator : TableAllocator PMM := {
  spare := supply;
  spare_alloc := supply_alloc;
  spare_frame := supply_frame;
  spare_less := supply_less
}.

(** A test for it, when memory from [lo] on is zero and holds no tables but [seen]. *)
Fixpoint supply_check (lo : Z) (n : nat) (pmm : PMM) (seen : list Z) : bool :=
  match n with
  | O => true
  | S n =>
      match allocate (PageSize_layout Small) pmm with
      | Ok (Some r, pmm) =>
          let a := value (ar_base r) in
          (Z.max 0 lo <=? a) && (a + TABLE_SIZE <=? range_end UMASpace) && (a mod TABLE_SIZE =? 0) &&
          negb (existsb (Z.eqb a) seen) && supply_check lo n pmm (a :: seen)
      | _ => false
      end
  end.

Lemma supply_checked lo n : forall pmm st T seen,
  supply_check lo n pmm seen = true -> (forall a l, T !! a = Some l -> a < lo \/ a ∈ seen) -> (forall y, lo <= y -> mem st y = 0) ->
  supply n pmm st T.
Proof.
  induction n as [|n IH]; intros pmm st T seen Hc HT Hz; [done|]. cbn [supply_check supply] in *.
  destruct (allocate (PageSize_layout Small) pmm) as [[[r|] pmm']| |] eqn:Ea; try done. cbn zeta in Hc. set (a := value (ar_base r)) in *.
  apply andb_true_iff in Hc as [[[[H1%Z.leb_le H2%Z.leb_le]%andb_true_iff H3%Z.eqb_eq]%andb_true_iff H4]%andb_true_iff H5].
  exists r, pmm'. split; [done|]. clear Ea. fold a. split_and!.
  - split_and!; [lia|done|]. apply Z.mod_divide; [done|exact H3].
  - destruct (T !! a) as [l|] eqn:El; [|done]. exfalso. destruct (HT a l El) as [|Hin]; [lia|]. apply negb_true_iff in H4.
    apply not_true_iff_false in H4. apply H4, existsb_exists. exists a. split; [by apply list_elem_of_In|apply Z.eqb_refl].
  - intros i Hi. apply Hz. lia.
  - intros l. apply (IH pmm' st _ (a :: seen)); [done| |done]. intros b k [[<- _]|[_ Hb]]%lookup_insert_Some; [right; left|].
    destruct (HT b k Hb); [by left|right; by right].
Qed.

(** A table from the page allocator is one of its blocks. *)
Lemma table_block pmm blocks r pmm' :
  pmm_out pmm blocks -> allocate (PageSize_layout Small) pmm = Ok (Some r, pmm') -> table_place (value (ar_base r)) ->
  page_allocate_ptr table_layout pmm = Ok (Some (value (ar_base r) + REMAP_OFFSET, ar_size r), pmm') /\
  blocks !! (value (ar_base r) + REMAP_OFFSET) = None /\
  pmm_out pmm' (<[value (ar_base r) + REMAP_OFFSET := table_layout]> blocks).
Proof.
  intros Ho E (H0 & Hend & _). rewrite TABLE_SIZE_eq in Hend.
  assert (Ep : page_allocate_ptr table_layout pmm = Ok (Some (value (ar_base r) + REMAP_OFFSET, ar_size r), pmm')).
  { unfold page_allocate_ptr. change (allocate_if_zst table_layout) with (@None (Z * Z)). change (page_allocate table_layout pmm) with
      (allocate (PageSize_layout Small) pmm). rewrite E. cbn [obind]. destruct (remap_ok (value (ar_base r))) as (Ev & _); [lia|].
    replace (mkAddr (value (ar_base r))) with (ar_base r) in Ev by by destruct (ar_base r). by rewrite Ev. }
  split; [done|]. destruct (pmm_source_allocate pmm blocks table_layout Ho table_layout_page) as (o & pmm1 & E1 & H1).
  rewrite Ep in E1. injection E1 as <- <-. by destruct H1 as (_ & _ & _ & ? & _ & ?).
Qed.

(** ** The blocks of a map *)

(** The page allocator's blocks are [B0] and the tables of the map. *)
Record owner (B0 : gmap Z Layout) (root : Addr UMASpace) (st : Machine) (pmm : PMM) (blocks : gmap Z Layout) : Prop := {
  ow_root : entry_target CR3 (cr3 st) = Ok (TTable PML4 root);
  ow_small : only_small (mem st) (value root);
  ow_out : pmm_out pmm blocks;
  ow_mine l a : owns (mem st) (value root) l a -> blocks !! (a + REMAP_OFFSET) = Some table_layout /\ B0 !! (a + REMAP_OFFSET) = None;
  ow_rest p : (forall l a, owns (mem st) (value root) l a -> p <> a + REMAP_OFFSET) -> blocks !! p = B0 !! p
}.

Lemma owner_new {V} `{VirtSpace V} (v : Addr V) B0 root st pmm blocks T e l r pmm' raw :
  in_lower v -> tables_ok st T -> path v T st root_ref (level_no (er_level e)) e ->
  allocate (PageSize_layout Small) pmm = Ok (Some r, pmm') -> new_table st T e l (ar_base r) raw ->
  (forall k b, target st e <> Ok (TTable k b)) -> owner B0 root st pmm blocks ->
  owner B0 root (write st (er_loc e) raw) pmm' (<[value (ar_base r) + REMAP_OFFSET := table_layout]> blocks).
Proof.
  intros Hv Ht Hp Ea Hnt Hold [Er Hs Ho Hm Hr].
  pose proof (owned_from_root v Hv st T Ht root Er _ e Hp (nt_level _ _ _ _ _ _ Hnt)) as He.
  destruct (table_block pmm blocks r pmm' Ho Ea (nt_place _ _ _ _ _ _ Hnt)) as (_ & Hf & Ho').
  pose proof (fun k b => owns_new st T Ht root Er e raw He l (ar_base r) k b Hnt Hold) as Hiff. split.
  - by rewrite (owned_cr3 st root e raw He).
  - by apply (only_small_new st T Ht root Er e raw He l (ar_base r)).
  - done.
  - intros k a [Ha|[-> ->]]%Hiff.
    + rewrite lookup_insert_ne; [by apply (Hm k)|]. intros E. assert (a = value (ar_base r)) as -> by lia.
      apply (owns_in st T root k _ Ht Er) in Ha. pose proof (nt_fresh _ _ _ _ _ _ Hnt). congruence.
    + rewrite lookup_insert_eq. split; [done|]. rewrite <- Hr; [done|]. intros k a Ha E.
      assert (a = value (ar_base r)) as -> by lia. apply (owns_in st T root k _ Ht Er) in Ha.
      pose proof (nt_fresh _ _ _ _ _ _ Hnt). congruence.
  - intros p Hp'. rewrite lookup_insert_ne; [apply Hr; intros k a Ha|]; [apply (Hp' k), Hiff; by left|].
    intros <-. apply (Hp' l (value (ar_base r))); [apply Hiff; by right|done].
Qed.

Lemma owner_page {V} `{VirtSpace V} (v : Addr V) B0 root st pmm blocks T e k a raw :
  in_lower v -> tables_ok st T -> path v T st root_ref (level_no (er_level e)) e -> er_level e = PT ->
  entry_target PT raw = Ok (TPage k a) -> owner B0 root st pmm blocks -> owner B0 root (write st (er_loc e) raw) pmm blocks.
Proof.
  intros Hv Ht Hp El Et [Er Hs Ho Hm Hr].
  assert (He : owned_entry (mem st) (value root) e) by (apply (owned_from_root v Hv st T Ht root Er _ e Hp); by rewrite El).
  destruct (owns_page st T Ht root Er e raw He k a El Et) as [Hiff Hs']. split; [by rewrite (owned_cr3 st root e raw He)|auto|done| |].
  - intros l b Hb%Hiff. by apply (Hm l).
  - intros p Hp'. apply Hr. intros l b Hb. apply (Hp' l), Hiff, Hb.
Qed.

(** ** Filling a map *)

(** A small page in the lower half, and what it is mapped to. *)
Definition user_page {V} (q : PageAddr V * PageAddr UMASpace * list Flag) : Prop :=
  let ' (vpage, ppage, flags) := q in
  page_size vpage = Small /\ in_lower (page_base vpage) /\ page_size ppage = Small /\
  0 <= value (page_base ppage) < range_end UMASpace /\ (4096 | value (page_base ppage)) /\
  valid_flags PT flags /\ refers_page PT flags = true.

(** A map in use: its tables, its blocks and what is spare. *)
Record map_ok (B0 : gmap Z Layout) (n : nat) (st : Machine) (pmm : PMM) : Prop := {
  mo_tables : exists T P, tables_ok st T /\ tree_ok st T P /\ supply n pmm st T;
  mo_owner : exists root blocks, owner B0 root st pmm blocks
}.

Lemma map_user_page {V} `{VirtSpace V} B0 n st pmm (vpage : PageAddr V) ppage flags :
  map_ok B0 (4 + n) st pmm -> user_page (vpage, ppage, flags) ->
  exists st' pmm', map_page st pmm vpage ppage flags = Ok (Some tt, st', pmm') /\ map_ok B0 n st' pmm' /\
    forall (X : Type) (HX : VirtSpace X) (x : Addr X), translate st' x =
      if same_page Small (value x) (value (page_base vpage)) then Ok (Some (page_base ppage)) else translate st x.
Proof.
  intros [(T & P & Ht & Htr & Hsup) (root & blocks & Ho)] (Eps & Hv & Epp & Hrange & Hal & Hfl & Hpage).
  set (v := page_base vpage) in *. set (I := fun st pmm (_ : gmap Z Level) (_ : Z -> list Z) => exists blocks, owner B0 root st pmm blocks).
  assert (HI : keeps_new v I).
  { intros st1 al T1 P1 e l r al' raw H1 _ _ Hp Ea Hnt Hold (bl & Hbl). eexists. by eapply (owner_new v). }
  destruct (map_page_walked v I HI n st pmm T P vpage ppage flags eq_refl) as (e & st' & pmm' & T' & P' & raw & E & El & Hw & Hsub & Et & Hs);
    rewrite ?Eps; try done; [split; try done; by exists blocks|].
  rewrite Eps in El, Et, Hs. cbn [from_page_size] in El, Et, Hs.
  destruct (page_written v I n st' pmm' T' P' e PT (page_base ppage) raw Hw El ltac:(done) Et) as (Ht' & Htr' & Hx).
  destruct Hw as [W1 W2 W3 W4 W5 (blocks' & W6)]. exists (write st' (er_loc e) raw), pmm'. split; [done|]. split.
  - split; [exists T', P'|exists root, blocks'; by apply (owner_page v B0 root st' pmm' blocks' T' e PT (page_base ppage) raw)].
    split; [done|]. split; [done|]. apply (supply_frame _ _ st'); [|done]. apply same_outside_write; [done|by eapply entry_at_ref].
  - intros X HX x. rewrite (Hx X HX x), (Hs X HX x). change (level_no PT) with 4%nat.
    rewrite (no_larger v Hv st T Ht root (ow_root _ _ _ _ _ Ho) (ow_small _ _ _ _ _ Ho)). cbn [without].
    destruct (same_page Small (value x) (value v)) eqn:Esp.
    + by rewrite decide_True by by apply (same_page_vpath Small).
    + rewrite decide_False; [done|]. intros Ev. apply (same_page_vpath Small) in Ev. congruence.
Qed.

(** One [map] after the other. *)
Fixpoint map_all {V} `{VirtSpace V} (st : Machine) (pmm : PMM) (L : list (PageAddr V * PageAddr UMASpace * list Flag)) : outcome (Machine * PMM) :=
  match L with
  | [] => Ok (st, pmm)
  | (vpage, ppage, flags) :: L => let! ' (_, st, pmm) := map_page st pmm vpage ppage flags in map_all st pmm L
  end.

(** What an address sees behind the pages of [L], the last one first. *)
Definition behind {V} (L : list (PageAddr V * PageAddr UMASpace * list Flag)) (x : Z)
    (r : outcome (option (Addr UMASpace))) : outcome (option (Addr UMASpace)) :=
  foldl (fun r ' (vpage, ppage, _) => if same_page Small x (value (page_base vpage)) then Ok (Some (page_base ppage)) else r) r L.

Lemma map_all_ok {V} `{VirtSpace V} B0 n (L : list (PageAddr V * PageAddr UMASpace * list Flag)) : forall st pmm,
  map_ok B0 (4 * length L + n) st pmm -> Forall user_page L ->
  exists st' pmm', map_all st pmm L = Ok (st', pmm') /\ map_ok B0 n st' pmm' /\
    forall (X : Type) (HX : VirtSpace X) (x : Addr X), translate st' x = behind L (value x) (translate st x).
Proof.
  induction L as [|[[vpage ppage] flags] L IH]; intros st pmm Hok HL; [by exists st, pmm|].
  apply Forall_cons in HL as [Hq HL]. replace (4 * length ((vpage, ppage, flags) :: L) + n)%nat with (4 + (4 * length L + n))%nat in Hok by (cbn; lia).
  destruct (map_user_page B0 _ st pmm vpage ppage flags Hok Hq) as (st1 & pmm1 & E & Hok1 & Hx1).
  destruct (IH st1 pmm1 Hok1 HL) as (st' & pmm' & E' & Hok' & Hx'). exists st', pmm'. cbn [map_all]. rewrite E. cbn [obind].
  split; [done|]. split; [done|]. intros X HX x. rewrite (Hx' X HX x), (Hx1 X HX x). reflexivity.
Qed.

(** ** Making a map *)

Section New.
Context (st : Machine) (K : gmap Z Level) (P : Z -> list Z) (cur : Addr UMASpace) (a0 n raw : Z).
Context (Ht : tables_ok st K) (Htr : tree_ok st K P) (Hnew : new_root st K cur a0 n raw).
Let st' := mkMachine raw (new_mem (mem st) a0 n (value cur)).

Lemma new_entry_target : entry_target CR3 raw = Ok (TTable PML4 (mkAddr a0)).
Proof using Hnew. apply (made_target CR3 [] a0), Hnew. Qed.

(** The new root shares the kernel's half, which hangs below it at the same indices. *)
Lemma new_map_tree : tree_ok st' (<[a0 := PML4]> K) (grow P a0 []).
Proof using Ht Htr Hnew.
  pose proof (new_root_fresh st K cur a0 n raw Hnew) as Hf. pose proof (cur_in st K cur a0 n raw Ht Hnew) as HT. split.
  - intros a. cbn [cr3 st']. rewrite new_entry_target. intros [= <-]. apply grow_same.
  - intros a l i l' b [[<- <-]|[_ Ha]]%lookup_insert_Some Hi; cbn [mem st'].
    + rewrite (new_root_word st K cur a0 n raw Ht Hnew i Hi). destruct (i <? 256); [done|]. intros E.
      pose proof (to_entries _ _ Ht _ _ i HT Hi) as Hok. unfold entry_ok in Hok. rewrite E in Hok.
      rewrite (grow_other _ _ _ _ K _ Hok Hf), grow_same, (tr_child _ _ _ Htr _ _ _ _ _ HT Hi E), (tr_root _ _ _ Htr cur); [done|apply Hnew].
    + rewrite (new_same_tables st K cur a0 n raw Hnew a l i Ha Hi). intros E.
      pose proof (to_entries _ _ Ht _ _ i Ha Hi) as Hok. unfold entry_ok in Hok. rewrite E in Hok.
      rewrite (grow_other _ _ _ _ K _ Hok Hf), (grow_other _ _ _ _ K _ Ha Hf). by eapply (tr_child _ _ _ Htr).
Qed.

(** The map owns nothing but its root. *)
Lemma new_map_owns l a : owns (mem st') a0 l a <-> l = PML4 /\ a = a0.
Proof using Ht Hnew.
  split; [|intros [-> ->]; constructor]. induction 1 as [|l a i l' b _ [-> ->] Hi E]; [done|]. cbn [mem st' own_len] in E, Hi.
  rewrite (new_root_word st K cur a0 n raw Ht Hnew i) in E by lia. rewrite (proj2 (Z.ltb_lt i 256)) in E by lia. done.
Qed.

Lemma new_map_small : only_small (mem st') a0.
Proof using Ht Hnew.
  intros l a i k b [-> ->]%new_map_owns Hi E. cbn [mem st' own_len] in E, Hi.
  rewrite (new_root_word st K cur a0 n raw Ht Hnew i) in E by lia. rewrite (proj2 (Z.ltb_lt i 256)) in E by lia. done.
Qed.

Lemma new_map_clear : same_or_clear (<[a0 := PML4]> K) st st'.
Proof using Hnew.
  intros a i [_ Hne]%lookup_insert_None (_ & _ & Ha) Hi. cbn [mem st']. destruct Hnew as [Hn _ _ (_ & _ & Hp) _].
  rewrite TABLE_SIZE_eq in Ha, Hp. rewrite TABLE_LEN_eq in Hi. unfold new_mem, copy_upper, zero_fill. rewrite TABLE_SIZE_eq.
  destruct ((a0 + 8 * 256 <=? a + 8 * i) && (a + 8 * i <? a0 + 4096)) eqn:E.
  - exfalso. apply andb_true_iff in E as [E1%Z.leb_le E2%Z.ltb_lt]. destruct Ha as [x ->], Hp as [y ->]. lia.
  - destruct ((a0 <=? a + 8 * i) && (a + 8 * i <? a0 + n)); [right|left]; reflexivity.
Qed.
End New.

Lemma memory_map_new_ok B0 n st K P r :
  tables_ok st K -> tree_ok st K P -> pmm_out (Some r) B0 -> (forall a l, K !! a = Some l -> in_use r a) ->
  supply (S n) (Some r) st K ->
  exists raw st' pmm', memory_map_new st (Some r) = Ok (raw, st', pmm') /\ map_ok B0 n (mkMachine raw (mem st')) pmm' /\
    forall (V : Type) (HV : VirtSpace V) (v : Addr V), translate st' v = translate st v /\
      translate (mkMachine raw (mem st')) v = if 256 <=? vidx PML4 (value v) then translate st v else Ok None.
Proof.
  intros Ht Htr Ho Hu (rg & pmm1 & Ea & Hpl & _ & _ & Hsup). destruct (table_block _ _ _ _ Ho Ea Hpl) as (Ep & Hf & Ho').
  pose proof Ho as (r0 & [= <-] & [Hr Hb _ _]).
  destruct (memory_map_new_spec st K r Ht Hr Hb Hu) as [[E _]|(cnt & r' & i & k & cur & raw & _ & Hnew & Ep' & E)]; [congruence|].
  set (a0 := value (page_base (pm_base r)) + i * 4096) in *. rewrite Ep in Ep'. injection Ep' as Eb _ ->.
  assert (Ea0 : value (ar_base rg) = a0) by lia. rewrite Ea0 in *. eexists raw, _, (Some r'). split; [exact E|]. cbn [mem]. split.
  - split; [exists (<[a0 := PML4]> K), (grow P a0 []); split_and!|exists (mkAddr a0), (<[a0 + REMAP_OFFSET := table_layout]> B0); split].
    + by apply new_map_tables.
    + by apply (new_map_tree st K P cur a0 _ raw).
    + apply (supply_clear _ _ st); [by apply new_map_clear|apply Hsup].
    + by apply (new_entry_target st K cur a0 (2 ^ k * 4096) raw).
    + by apply (new_map_small st K cur a0 _ raw).
    + done.
    + intros l a [-> ->]%(new_map_owns st K cur a0 _ raw Ht Hnew). by rewrite lookup_insert_eq.
    + intros p Hp. rewrite lookup_insert_ne; [done|]. intros <-. apply (Hp PML4 a0); [constructor|done].
  - intros V HV v. by apply (new_map_views st K).
Qed.

(** ** Dropping it *)

Lemma memory_map_drop_ok B0 n st pmm : map_ok B0 n st pmm -> exists pmm', memory_map_drop st pmm = Ok pmm' /\ pmm_out pmm' B0.
Proof.
  intros [(T & P & Ht & Htr & _) (root & blocks & [Er _ Ho Hm Hr])].
  destruct (memory_map_drop_gives_back st T root Ht Er pmm blocks Ho) as (pmm' & E & Ho').
  - by apply (own_tables_NoDup st T P).
  - intros a (l & Ha)%(elem_of_own_tables st T Ht root Er). by apply (Hm l).
  - exists pmm'. split; [exact E|]. replace B0 with (delete_tables (own_tables (mem st) (value root)) blocks); [exact Ho'|].
    apply map_eq. intros p. rewrite lookup_delete_tables. destruct (decide _) as [(l & Ha)%(elem_of_own_tables st T Ht root Er)|Hn].
    + apply Hm in Ha as [_ Ha]. by rewrite Z.sub_add in Ha.
    + apply Hr. intros l a Ha ->. rewrite Z.add_simpl_r in Hn. apply Hn, (elem_of_own_tables st T Ht root Er). by exists l.
Qed.

(** ** The theorem *)

Lemma memory_map_life_spec {V} `{VirtSpace V} B0 st K P r (L : list (PageAddr V * PageAddr UMASpace * list Flag)) :
  tables_ok st K -> tree_ok st K P -> pmm_out (Some r) B0 -> (forall a l, K !! a = Some l -> in_use r a) ->
  supply (1 + 4 * length L) (Some r) st K -> Forall user_page L ->
  exists raw st1 pmm1 st2 pmm2 pmm3,
    memory_map_new st (Some r) = Ok (raw, st1, pmm1) /\
    map_all (mkMachine raw (mem st1)) pmm1 L = Ok (st2, pmm2) /\
    memory_map_drop st2 pmm2 = Ok pmm3 /\ pmm_out pmm3 B0 /\
    forall (X : Type) (HX : VirtSpace X) (x : Addr X), translate st1 x = translate st x /\
      translate st2 x = behind L (value x) (if 256 <=? vidx PML4 (value x) then translate st x else Ok None).
Proof.
  intros Ht Htr Ho Hu Hs HL. destruct (memory_map_new_ok B0 (4 * length L) st K P r Ht Htr Ho Hu Hs) as (raw & st1 & pmm1 & E1 & Hok1 & Hv1).
  rewrite <- (Nat.add_0_r (4 * length L)) in Hok1.
  destruct (map_all_ok B0 0 L _ _ Hok1 HL) as (st2 & pmm2 & E2 & Hok2 & Hv2).
  destruct (memory_map_drop_ok B0 0 st2 pmm2 Hok2) as (pmm3 & E3 & Ho3).
  exists raw, st1, pmm1, st2, pmm2, pmm3. split_and!; try done. intros X HX x. destruct (Hv1 X HX x) as [Ha Hb].
  split; [done|]. by rewrite (Hv2 X HX x), Hb.
Qed.

(** C22: the life of a process's memory map.  On a current map whose tables form a tree and are in use, with
    [1 + 4 * length L] zeroed pages to be had, which the code does not see to, making a new map, mapping the small pages [L] in its lower half
    with tables from the page allocator, and dropping the map all succeed.  The current map translates as
    before; the filled map translates the kernel's half as the current one, the pages of [L] as
    they were mapped, the last one winning, and nothing else; and in the end exactly those blocks are
    out of the page allocator that were out at the start: no table is lost or given back twice. *)
Theorem memory_map_life {V} `{VirtSpace V} B0 st K P r (L : list (PageAddr V * PageAddr UMASpace * list Flag)) :
  tables_ok st K -> tree_ok st K P -> pmm_out (Some r) B0 -> (forall a l, K !! a = Some l -> in_use r a) ->
  supply (1 + 4 * length L) (Some r) st K -> Forall user_page L ->
  exists raw st1 pmm1 st2 pmm2 pmm3,
    memory_map_new st (Some r) = Ok (raw, st1, pmm1) /\
    map_all (mkMachine raw (mem st1)) pmm1 L = Ok (st2, pmm2) /\
    memory_map_drop st2 pmm2 = Ok pmm3 /\ pmm_out pmm3 B0 /\
    forall (X : Type) (HX : VirtSpace X) (x : Addr X), translate st1 x = translate st x /\
      translate st2 x = behind L (value x) (if 256 <=? vidx PML4 (value x) then translate st x else Ok None).
Proof. apply memory_map_life_spec. Qed.

(** ** A process *)

(** The addresses of a process. *)
Inductive DemoUserSpace : Type := .
#[local] Instance DemoUserSpace_virt : VirtSpace DemoUserSpace :=
  { virt_addr_space := {| range_start := 0; range_end := 0x800000000000 |}; IS_KERNEL := false }.
Definition demo_user : PageAddr DemoUserSpace * PageAddr UMASpace * list Flag :=
  (mkPageAddr (mkAddr 0x7000) Small, mkPageAddr (mkAddr 0x345000) Small, [Present; ReadWrite]).

(** The whole life of a map, and which frames are free in the end. *)
Definition demo_life (L : list (PageAddr DemoUserSpace * PageAddr UMASpace * list Flag)) : outcome (list bool) :=
  let! ' (raw, st, pmm) := memory_map_new (demo_machine 0) demo_pmm in
  let! ' (st, pmm) := map_all (mkMachine raw (mem st)) pmm L in
  let! pmm := memory_map_drop st pmm in
  let! r := oexpect pmm in Ok (frame_free (buddy r) <$> [0; 1; 2; 3; 4; 5; 6; 7]).

(** A large page on top of small ones: [map] overwrites the entry of the table that holds them, and that table is
    never given back. *)
Lemma large_page_leaks_table :
  demo_life [demo_user] = Ok (replicate 8 true) /\
  demo_life [demo_user; (mkPageAddr (mkAddr 0) Large, mkPageAddr (mkAddr 0x200000) Large, [Present; ReadWrite; FPageSize])] =
    Ok [true; true; true; false; true; true; true; true].
Proof. split; vm_compute; reflexivity. Qed.

Lemma demo_user_page : Forall user_page [demo_user].
Proof.
  constructor; [|constructor]. repeat split; try done; [by exists 0x345|by left|]. repeat constructor; by eexists.
Qed.

Lemma demo_supply : supply 5 demo_pmm (demo_machine 0) {[0x1000 := PML4]}.
Proof.
  apply (supply_checked 0x2000 5 demo_pmm _ _ []); [vm_compute; reflexivity|intros a l [<- _]%lookup_singleton_Some; left; lia|].
  intros y _. cbn [mem demo_machine]. by destruct ((_ <=? _) && _).
Qed.

Lemma memory_map_life_witness :
  exists raw st1 pmm1 st2 pmm2 pmm3,
    memory_map_new (demo_machine 0) demo_pmm = Ok (raw, st1, pmm1) /\
    map_all (mkMachine raw (mem st1)) pmm1 [demo_user] = Ok (st2, pmm2) /\
    memory_map_drop st2 pmm2 = Ok pmm3 /\ pmm_out pmm3 ∅ /\
    translate st2 (mkAddr (S := DemoUserSpace) 0x7123) = Ok (Some (mkAddr 0x345000)).
Proof.
  destruct (memory_map_life ∅ (demo_machine 0) {[0x1000 := PML4]} (fun _ => []) (demo_record demo_free8 8 0x400000) [demo_user]
    demo_tables_ok demo_tree_ok demo_pmm_out demo_in_use demo_supply demo_user_page)
    as (raw & st1 & pmm1 & st2 & pmm2 & pmm3 & E1 & E2 & E3 & Ho & Hx).
  exists raw, st1, pmm1, st2, pmm2, pmm3. split; [exact E1|]. split; [exact E2|]. split; [exact E3|]. split; [exact Ho|].
  clear E1 E2 E3 Ho. destruct (Hx DemoUserSpace _ (mkAddr 0x7123)) as [_ ->]. reflexivity.
Defined.
