(* ===== verification/Proc.v ===== *)
(** * Processes

    The records of [src/src/usr/proc.rs] and [init] of [src/src/usr.rs].  The code has no
    operation on them yet; what it does have is that a control block owns its memory map,
    which is dropped with it. *)

From stdpp Require Import gmap.
From S2P Require Import Prelude Addr Phy Paging PagingTheorems PageAlloc PageAllocTheorems PagingInit AddressSpace MapLife.
Open Scope Z_scope.

Definition Pid : Type := Z.
Definition Tid : Type := Z.

Record X86_64ExecCxt := mkExecCxt {
  rax : Z; rbx : Z; rcx : Z; rdx : Z; rsi : Z; rdi : Z; rsp : Z; rbp : Z;
  r8 : Z; r9 : Z; r10 : Z; r11 : Z; r12 : Z; r13 : Z; r14 : Z; r15 : Z; rip : Z;
  seg_cs : Z; seg_ds : Z; seg_ss : Z; seg_es : Z; seg_fs : Z; seg_gs : Z
}.

(** [Link] is a type of the [intrusive_collections] crate. *)
Record Tcb (Link : Type) := mkTcb { tcb_link : Link; tcb_id : Tid; exec_cxt : X86_64ExecCxt }.

(** A memory map is the word for [cr3]. *)
Record Pcb := mkPcb { pcb_id : Pid; mem_map : option Z }.

(** [init] is [todo!()]. *)
Definition usr_init : outcome unit := Panic.

(** Dropping a control block drops its fields. *)
Definition pcb_drop (p : Pcb) (m : Z -> Z) (pmm : PMM) : outcome PMM :=
  match mem_map p with
  | Some raw => memory_map_drop (mkMachine raw m) pmm
  | None => Ok pmm
  end.

(** A block of the page allocator is the map's of a process, or was out before: dropping the
    process leaves those. *)
Lemma pcb_drop_ok B0 n p m pmm :
  match mem_map p with
  | Some raw => map_ok B0 n (mkMachine raw m) pmm
  | None => pmm_out pmm B0
  end -> exists pmm', pcb_drop p m pmm = Ok pmm' /\ pmm_out pmm' B0.
Proof.
  unfold pcb_drop. destruct (mem_map p) as [raw|]; [apply memory_map_drop_ok|]. intros Ho. by exists pmm.
Qed.
