(* ===== verification/Slab.v ===== *)
(** * The slab allocator

    [src/src/mem/alloc/slab.rs], its list adapter [src/src/common/ll.rs] and the
    dispatch of [src/src/mem/alloc.rs]: caches of page-sized slabs of equal
    slots, one cache for each power of two from 8 to 1024 bytes, over the page
    allocator. *)

From S2P Require Import Prelude Addr PageAlloc.
Open Scope Z_scope.

(** ** What the slabs take from other crates *)

(** [spin] and [intrusive_collections]: the sizes of [spin::Mutex<()>] and of
    [linked_list::Link], a pair of pointers. *)
Class SlabSizes := {
  MUTEX_SIZE : Z;
  LINK_SIZE : Z;
  mutex_size_small : 0 <= MUTEX_SIZE <= 7;
  link_size_small : 0 <= LINK_SIZE <= 56;
  link_size_words : (8 | LINK_SIZE)
}.

(** [bitvec]: [BitSlice::first_one] and [BitSlice::replace_unchecked] over the
    bits of a slice, with what their documentation says of an index in range. *)
Class BitSlice := {
  first_one : list bool -> option Z;
  replace_unchecked : list bool -> Z -> bool -> list bool;
  first_one_Some l i :
    first_one l = Some i -> 0 <= i /\ l !! Z.to_nat i = Some true /\
      forall j, (j < Z.to_nat i)%nat -> l !! j = Some false;
  first_one_None l : first_one l = None -> Forall (eq false) l;
  replace_unchecked_ok l i b :
    0 <= i < len l -> replace_unchecked l i b = <[Z.to_nat i := b]> l
}.

(** [intrusive_collections::LinkedList] over pointers to links.  A cursor is the
    link it points to, [None] at the null object. *)
Class LinkedList (L : Type) := {
  ll_new : L;
  front_mut : L -> option Z;
  insert_after : L -> option Z -> Z -> L;
  move_next : L -> option Z -> option Z;
  cursor_remove : L -> option Z -> option Z * L;
  push_front : L -> Z -> L;
  links : L -> list Z;
  links_new : links ll_new = [];
  front_mut_head l : front_mut l = head (links l);
  insert_after_null l p : links (insert_after l None p) = p :: links l;
  move_next_null l : move_next l None = head (links l);
  push_front_cons l p : links (push_front l p) = p :: links l;
  cursor_remove_in l a p b :
    links l = a ++ p :: b -> NoDup (links l) ->
    exists l', cursor_remove l (Some p) = (Some p, l') /\ links l' = a ++ b
}.

(** ** The list adapter *)

(** [BoxAdapter::get_value] and [BoxAdapter::get_link]. *)
Definition get_value (LINK_OFFSET link : Z) : Z := link - LINK_OFFSET.
Definition get_link (LINK_OFFSET value : Z) : Z := value + LINK_OFFSET.

(** ** Slabs *)

Definition SLAB_PAGE : PageSize := Small.
Definition SLAB_MAP_LEN : Z := 8.

Section Slab.
Context `{SlabSizes} `{BitSlice}.

Definition SLAB_BUF_SIZE : Z :=
  PageSize_usize SLAB_PAGE - MUTEX_SIZE - 2 - LINK_SIZE - SLAB_MAP_LEN * 8.

(** The fields of [UntypedSlab] the slab code itself reads and writes: [bitmap]
    as its [view_bits], one bit for each bit of the eight words.  The link
    belongs to the lists, the buffer to whom its slots are given. *)
Record UntypedSlab := mkUntypedSlab { bitmap : list bool; free_cnt : Z }.

(** The offsets that [repr(C)] gives [link], [bitmap] and [buf]. *)
Definition SLAB_LINK_OFFSET : Z := 0.
Definition BITMAP_OFFSET : Z := (LINK_SIZE + 7) / 8 * 8.
Definition BUF_OFFSET : Z := BITMAP_OFFSET + SLAB_MAP_LEN * 8 + 2.

(** [Layout::new::<UntypedSlab>()] *)
Definition slab_layout : Layout := pad_to_align (mkLayout (BUF_OFFSET + SLAB_BUF_SIZE) 8).

(** [Item] for [[u8; N]]. *)
Definition item_layout (N : Z) : Layout := mkLayout N N.

Definition SLOT_ALIGN (N : Z) : Z := layout_align (item_layout N).
Definition SLOT_SIZE (N : Z) : Z := layout_size (pad_to_align (item_layout N)).
Definition SLOTS_START (N : Z) : Z :=
  (BUF_OFFSET + SLOT_ALIGN N - 1) / SLOT_ALIGN N * SLOT_ALIGN N - BUF_OFFSET.
Definition SLOTS_LEN (N : Z) : Z := (SLAB_BUF_SIZE - SLOTS_START N) / SLOT_SIZE N.

(** [Slab::new]: every bit set, every slot free. *)
Definition slab_new (N : Z) : UntypedSlab :=
  mkUntypedSlab (replicate (Z.to_nat (SLAB_MAP_LEN * 64)) true) (as_u16 (SLOTS_LEN N)).

Inductive SlabFillLevel := Empty | Partial | Full.

(** The second arm of the source's [match] is the bare name [SLOTS_LEN], which no
    constant in scope has: it binds a fresh variable and matches every count. *)
Definition fill_level (s : UntypedSlab) : SlabFillLevel :=
  if free_cnt s =? 0 then Empty else Full.
Definition slab_is_empty (s : UntypedSlab) : bool :=
  match fill_level s with Empty => true | _ => false end.
Definition slab_is_full (s : UntypedSlab) : bool :=
  match fill_level s with Full => true | _ => false end.

(** [Slab::map]: the bits that stand for slots. *)
Definition slab_map (N : Z) (s : UntypedSlab) : outcome (list bool) :=
  subslice (bitmap s) 0 (SLOTS_LEN N).

(** The slab after a write of [m] through [map_mut]. *)
Definition slab_map_mut (s : UntypedSlab) (m : list bool) : UntypedSlab :=
  mkUntypedSlab (splice (bitmap s) 0 m) (free_cnt s).

Definition slots_start (N slab : Z) : Z := slab + BUF_OFFSET + SLOTS_START N.

(** [&mut self.slots_mut()[idx]]; the slice is made [SLOT_SIZE] long. *)
Definition slot_ptr (N slab idx : Z) : outcome Z :=
  check! idx <? SLOT_SIZE N in Ok (slots_start N slab + idx * SLOT_SIZE N).

Definition slab_reserve (N slab : Z) (s : UntypedSlab) : outcome (option Z * UntypedSlab) :=
  if free_cnt s =? 0 then Ok (None, s)
  else
    let! m := slab_map N s in
    let! idx := oexpect (first_one m) in
    check! idx <? SLOTS_LEN N in
    let s := slab_map_mut s (replace_unchecked m idx false) in
    let! cnt := usub 16 (free_cnt s) 1 in
    let s := mkUntypedSlab (bitmap s) cnt in
    let! p := slot_ptr N slab idx in
    Ok (if p =? 0 then None else Some p, s).

Definition slab_free (N slab : Z) (s : UntypedSlab) (ptr : Z) : outcome UntypedSlab :=
  check! 0 <? free_cnt s in
  check! (slab + BUF_OFFSET <=? ptr) && (ptr <? slab + BUF_OFFSET + SLAB_BUF_SIZE) in
  let idx := as_usize (Z.quot (ptr - slots_start N slab) (SLOT_SIZE N)) in
  let! m := slab_map N s in
  let! b := slice_get m idx in
  check! negb b in
  let s := slab_map_mut s (replace_unchecked m idx true) in
  let! cnt := uadd 16 (free_cnt s) 1 in
  Ok (mkUntypedSlab (bitmap s) cnt).

Definition from_elem_ptr (ptr : Z) : Z := ptr - ptr mod PageSize_align SLAB_PAGE.

(** ** Caches *)

Section Cache.
Context {L : Type} `{LinkedList L} {St : Type} `{CoreAllocator St}.

Record UntypedCache := mkUntypedCache {
  empty_slabs : L;
  partial_slabs : L;
  full_slabs : L
}.

Definition cache_new : UntypedCache := mkUntypedCache ll_new ll_new ll_new.

(** The list a cursor or a reference of the source points into. *)
Definition get_list (c : UntypedCache) (w : SlabFillLevel) : L :=
  match w with Empty => empty_slabs c | Partial => partial_slabs c | Full => full_slabs c end.
Definition set_list (c : UntypedCache) (w : SlabFillLevel) (l : L) : UntypedCache :=
  match w with
  | Empty => mkUntypedCache l (partial_slabs c) (full_slabs c)
  | Partial => mkUntypedCache (empty_slabs c) l (full_slabs c)
  | Full => mkUntypedCache (empty_slabs c) (partial_slabs c) l
  end.

(** Take the slab under a cursor out of one list and push it to the front of
    another. *)
Definition move_slab (c : UntypedCache) (from : SlabFillLevel) (cur : option Z) (to : SlabFillLevel)
    : outcome UntypedCache :=
  let '(o, l) := cursor_remove (get_list c from) cur in
  let! slab := oexpect o in
  let c := set_list c from l in
  Ok (set_list c to (push_front (get_list c to) slab)).

(** The slabs in memory, by address, and the page allocator they come from. *)
Record SlabMemory := mkSlabMemory { slabs : gmap Z UntypedSlab; pages : St }.

(** The first part of [Cache::reserve]: a cursor to a slab with room, after a new
    slab was allocated if there was none. *)
Definition find_slab (N : Z) (c : UntypedCache) (m : SlabMemory)
    : outcome (option (SlabFillLevel * Z) * UntypedCache * SlabMemory) :=
  match front_mut (partial_slabs c) with
  | Some cur => Ok (Some (Partial, cur), c, m)
  | None =>
      match front_mut (empty_slabs c) with
      | Some cur => Ok (Some (Empty, cur), c, m)
      | None =>
          let! ' (o, pages) := allocate_ptr slab_layout (pages m) in
          match o with
          | None => Ok (None, c, mkSlabMemory (slabs m) pages)
          | Some (box_slab, _) =>
              let m := mkSlabMemory (<[box_slab := slab_new N]> (slabs m)) pages in
              let l := insert_after (empty_slabs c) None (get_link SLAB_LINK_OFFSET box_slab) in
              let! cur := oexpect (move_next l None) in
              Ok (Some (Empty, cur), set_list c Empty l, m)
          end
      end
  end.

Definition cache_reserve (N : Z) (c : UntypedCache) (m : SlabMemory)
    : outcome (option Z * UntypedCache * SlabMemory) :=
  let! ' (o, c, m) := find_slab N c m in
  match o with
  | None => Ok (None, c, m)
  | Some (w, cur) =>
      let slab_ptr := get_value SLAB_LINK_OFFSET cur in
      let! slab := oexpect (slabs m !! slab_ptr) in
      let was_empty := slab_is_empty slab in
      let! ' (ret, slab) := slab_reserve N slab_ptr slab in
      let is_full := slab_is_full slab in
      let m := mkSlabMemory (<[slab_ptr := slab]> (slabs m)) (pages m) in
      if negb was_empty && negb is_full then Ok (ret, c, m)
      else
        let! c := move_slab c w (Some cur) (if is_full then Full else Partial) in
        Ok (ret, c, m)
  end.

Definition reserve_untyped (N : Z) (c : UntypedCache) (m : SlabMemory)
    : outcome (option (Z * Z) * UntypedCache * SlabMemory) :=
  let! ' (o, c, m) := cache_reserve N c m in
  Ok (match o with None => None | Some ptr => Some (ptr, layout_size (item_layout N)) end, c, m).

Definition cache_free (N : Z) (c : UntypedCache) (m : SlabMemory) (ptr : Z)
    : outcome (UntypedCache * SlabMemory) :=
  let slab_ptr := from_elem_ptr ptr in
  let! slab := oexpect (slabs m !! slab_ptr) in
  let was_full := slab_is_full slab in
  let! slab := slab_free N slab_ptr slab ptr in
  let is_empty := slab_is_empty slab in
  let m := mkSlabMemory (<[slab_ptr := slab]> (slabs m)) (pages m) in
  if negb is_empty && negb was_full then Ok (c, m)
  else
    let! c := move_slab c (if was_full then Full else Partial)
                (Some (get_link SLAB_LINK_OFFSET slab_ptr)) (if is_empty then Empty else Partial) in
    Ok (c, m).

(** ** The caches of every order *)

Definition SLAB_MAX_ORDER : Z := 10.
Definition SLAB_MIN_ORDER : Z := 3.
Definition SLAB_MAX_SIZE : Z := 2 ^ SLAB_MAX_ORDER.
Definition CACHES_CNT : Z := SLAB_MAX_ORDER - SLAB_MIN_ORDER + 1.

(** [SlabAllocatorRecord], with the memory its slabs live in. *)
Record SlabAllocatorRecord := mkSlabAllocatorRecord {
  caches : list UntypedCache;
  memory : SlabMemory
}.

Definition slab_record_new (p : St) : SlabAllocatorRecord :=
  mkSlabAllocatorRecord (replicate (Z.to_nat CACHES_CNT) cache_new) (mkSlabMemory ∅ p).

Definition slot_order (layout : Layout) : outcome Z :=
  let! n := next_multiple_of (layout_size (pad_to_align layout)) (2 ^ SLAB_MIN_ORDER) in
  let! n := next_power_of_two n in
  let! n := ilog2 n in
  Ok (as_u8 n).

(** [self.caches[(slot_order - MIN_ORDER) as usize].lock()] *)
Definition cache_of (order : Z) (r : SlabAllocatorRecord) : outcome (Z * UntypedCache) :=
  let! i := usub 8 order SLAB_MIN_ORDER in
  let! c := slice_get (caches r) i in
  Ok (i, c).

Definition slab_allocate (layout : Layout) (r : SlabAllocatorRecord)
    : outcome (option (Z * Z) * SlabAllocatorRecord) :=
  match allocate_if_zst layout with
  | Some ptr => Ok (Some ptr, r)
  | None =>
      let! order := slot_order layout in
      let! ' (i, c) := cache_of order r in
      if order <? SLAB_MIN_ORDER then Panic
      else if order <=? SLAB_MAX_ORDER then
        let! ' (o, c, m) := reserve_untyped (2 ^ order) c (memory r) in
        let! cs := slice_set (caches r) i c in
        Ok (o, mkSlabAllocatorRecord cs m)
      else Ok (None, r)
  end.

Definition slab_deallocate (ptr : Z) (layout : Layout) (r : SlabAllocatorRecord)
    : outcome SlabAllocatorRecord :=
  if deallocate_if_zst ptr layout then Ok r
  else
    let! order := slot_order layout in
    let! ' (i, c) := cache_of order r in
    if order <? SLAB_MIN_ORDER then Panic
    else if order <=? SLAB_MAX_ORDER then
      let! ' (c, m) := cache_free (2 ^ order) c (memory r) ptr in
      let! cs := slice_set (caches r) i c in
      Ok (mkSlabAllocatorRecord cs m)
    else Panic.

(** ** The global allocator *)

Definition with_pages (r : SlabAllocatorRecord) (p : St) : SlabAllocatorRecord :=
  mkSlabAllocatorRecord (caches r) (mkSlabMemory (slabs (memory r)) p).

Definition global_allocate (layout : Layout) (r : SlabAllocatorRecord)
    : outcome (option (Z * Z) * SlabAllocatorRecord) :=
  if layout_size (pad_to_align layout) <=? SLAB_MAX_SIZE then slab_allocate layout r
  else let! ' (o, p) := allocate_ptr layout (pages (memory r)) in Ok (o, with_pages r p).

Definition global_deallocate (ptr : Z) (layout : Layout) (r : SlabAllocatorRecord)
    : outcome SlabAllocatorRecord :=
  if layout_size (pad_to_align layout) <=? SLAB_MAX_SIZE then slab_deallocate ptr layout r
  else let! p := deallocate_ptr ptr layout (pages (memory r)) in Ok (with_pages r p).

(** [GlobalAlloc::alloc] returns the null pointer on failure. *)
Definition alloc (layout : Layout) (r : SlabAllocatorRecord) : outcome (Z * SlabAllocatorRecord) :=
  let! ' (o, r) := global_allocate layout r in
  Ok (match o with None => 0 | Some (ptr, _) => ptr end, r).

Definition dealloc (ptr : Z) (layout : Layout) (r : SlabAllocatorRecord)
    : outcome SlabAllocatorRecord :=
  if ptr =? 0 then Ok r else global_deallocate ptr layout r.
End Cache.
End Slab.

Arguments UntypedCache L : clear implicits.
Arguments SlabMemory St : clear implicits.
Arguments SlabAllocatorRecord L St : clear implicits.
