(* ===== verification/SlabTheorems.v ===== *)
(** * Slabs and caches: correctness

    The slots of a slab, [reserve] and [free] of one slab on every branch, and
    the caches: what their lists hold, with each slab in use for one slot. *)

From S2P Require Import Prelude Addr PageAlloc Slab.
Open Scope Z_scope.

(** ** Slot geometry *)

(** The item sizes of the caches. *)
Definition item_size (N : Z) : Prop := exists order, 3 <= order <= 10 /\ N = 2 ^ order.

Lemma item_size_bounds N : item_size N -> 8 <= N <= 1024.
Proof.
  intros (o & Ho & ->). pose proof (pow2_le 3 o ltac:(lia)). pose proof (pow2_le o 10 ltac:(lia)).
  change (2 ^ 3) with 8 in *. change (2 ^ 10) with 1024 in *. lia.
Qed.

Lemma item_size_page N : item_size N -> (N | 4096).
Proof. intros (o & Ho & ->). by apply (pow2_divide o 12); lia. Qed.

Lemma round_up_spec a m : 0 < m -> (m | (a + m - 1) / m * m) /\ a <= (a + m - 1) / m * m < a + m.
Proof.
  intros Hm. split; [apply Z.divide_factor_r|].
  pose proof (Z.div_mod (a + m - 1) m ltac:(lia)). pose proof (Z.mod_pos_bound (a + m - 1) m Hm). lia.
Qed.

Lemma round_up_id a m : 0 < m -> (m | a) -> (a + m - 1) / m * m = a.
Proof.
  intros Hm Ha. destruct (round_up_spec a m Hm) as [H1 H2].
  apply (multiple_unique m a); [done..|lia|lia].
Qed.

Section Geometry.
Context `{SlabSizes}.

Lemma buf_offset_eq : BUF_OFFSET = LINK_SIZE + 66.
Proof.
  unfold BUF_OFFSET, BITMAP_OFFSET, SLAB_MAP_LEN.
  replace (LINK_SIZE + 7) with (LINK_SIZE + 8 - 1) by lia.
  rewrite round_up_id; [lia|lia|apply link_size_words].
Qed.

Lemma buf_end : BUF_OFFSET + SLAB_BUF_SIZE = 4096 - MUTEX_SIZE.
Proof.
  rewrite buf_offset_eq. unfold SLAB_BUF_SIZE, SLAB_MAP_LEN.
  change (PageSize_usize SLAB_PAGE) with 4096. lia.
Qed.

Lemma slab_layout_eq : slab_layout = mkLayout 4096 8.
Proof.
  unfold slab_layout, pad_to_align. cbn [layout_size layout_align]. rewrite buf_end. f_equal.
  pose proof mutex_size_small.
  destruct (round_up_spec (4096 - MUTEX_SIZE) 8 ltac:(lia)) as [H1 H2].
  apply (multiple_unique 8 4089); [lia|done|by exists 512|lia|lia].
Qed.

Lemma slot_size_eq N : item_size N -> SLOT_SIZE N = N.
Proof.
  intros HN%item_size_bounds. unfold SLOT_SIZE, pad_to_align, item_layout. cbn [layout_size layout_align].
  apply round_up_id; [lia|apply Z.divide_refl].
Qed.

(** The first slot, relative to the slab. *)
Lemma slots_start_spec N : item_size N ->
  (N | BUF_OFFSET + SLOTS_START N) /\ 0 <= SLOTS_START N < N.
Proof.
  intros HN%item_size_bounds. unfold SLOTS_START, SLOT_ALIGN, item_layout. cbn [layout_align].
  destruct (round_up_spec BUF_OFFSET N ltac:(lia)) as [H1 H2].
  replace (BUF_OFFSET + _) with ((BUF_OFFSET + N - 1) / N * N) by lia. split; [done|lia].
Qed.

Lemma slots_len_bounds N : item_size N ->
  2 <= SLOTS_LEN N <= 512 /\ BUF_OFFSET + SLOTS_START N + SLOTS_LEN N * N <= 4096 - MUTEX_SIZE.
Proof.
  intros HN. pose proof (item_size_bounds N HN). pose proof (slots_start_spec N HN) as [_ HS].
  pose proof buf_end. pose proof buf_offset_eq. pose proof mutex_size_small. pose proof link_size_small.
  unfold SLOTS_LEN. rewrite (slot_size_eq N HN).
  set (R := SLAB_BUF_SIZE - SLOTS_START N).
  pose proof (Z.mul_div_le R N ltac:(lia)). split; [|lia].
  split; [apply Z.div_le_lower_bound; lia|].
  apply Z.lt_succ_r, Z.div_lt_upper_bound; lia.
Qed.

(** Slot [i] of the slab at [slab]. *)
Definition slot (N slab i : Z) : Z := slots_start N slab + i * N.

(** Every slot lies in the page of its slab, behind the header, and is aligned. *)
Lemma slot_in_slab N slab i :
  item_size N -> (4096 | slab) -> 0 <= i < SLOTS_LEN N ->
  (N | slot N slab i) /\ slab + BUF_OFFSET <= slot N slab i /\
  slot N slab i + N <= slab + BUF_OFFSET + SLAB_BUF_SIZE /\ slot N slab i + N <= slab + 4096.
Proof.
  intros HN Hs Hi. pose proof (item_size_bounds N HN). pose proof (slots_start_spec N HN) as [HD HS].
  pose proof (slots_len_bounds N HN) as [_ HL]. pose proof buf_end. pose proof mutex_size_small.
  unfold slot, slots_start. split.
  - apply multiple_add. rewrite <- Z.add_assoc. apply Z.divide_add_r; [|done].
    eapply Z.divide_trans; [by apply item_size_page|done].
  - nia.
Qed.

Lemma slab_slot_inj N slab slab' i : slot N slab i = slot N slab' i -> slab = slab'.
Proof. unfold slot, slots_start. lia. Qed.

Lemma from_elem_ptr_slot N slab i :
  item_size N -> (4096 | slab) -> 0 <= i < SLOTS_LEN N -> from_elem_ptr (slot N slab i) = slab.
Proof.
  intros HN Hs Hi. destruct (slot_in_slab N slab i HN Hs Hi) as (_ & H1 & _ & H2).
  pose proof (item_size_bounds N HN). pose proof buf_offset_eq. pose proof link_size_small.
  unfold from_elem_ptr. change (PageSize_align SLAB_PAGE) with 4096.
  destruct (round_down_spec (slot N slab i) 4096 ltac:(lia)) as [Hr1 Hr2].
  apply (multiple_unique 4096 (slot N slab i - 4095)); [lia|done|done|lia|lia].
Qed.
End Geometry.

(** ** One slab *)

(** The number of set bits. *)
Fixpoint ones (l : list bool) : Z :=
  match l with
  | [] => 0
  | b :: l => Z.b2z b + ones l
  end.

Lemma ones_nonneg l : 0 <= ones l <= len l.
Proof.
  induction l as [|b l IH]; cbn [ones]; unfold len in *; cbn [length]; [lia|]. destruct b; cbn [Z.b2z]; lia.
Qed.

Lemma ones_insert l i b b' :
  l !! i = Some b -> ones (<[i := b']> l) = ones l - Z.b2z b + Z.b2z b'.
Proof.
  revert i. induction l as [|a l IH]; intros [|i]; try done; cbn [ones].
  - intros [= ->]. change (<[0%nat:=b']> (b :: l)) with (b' :: l). cbn [ones]. lia.
  - intros Hi. change (<[S i:=b']> (a :: l)) with (a :: <[i:=b']> l). cbn [ones].
    rewrite (IH i) by done. lia.
Qed.

Lemma ones_zero l : ones l = 0 <-> Forall (eq false) l.
Proof.
  induction l as [|b l IH]; cbn [ones]; [by split|]. pose proof (ones_nonneg l).
  rewrite Forall_cons, <- IH. destruct b; cbn [Z.b2z]; split.
  - lia.
  - by intros [? _].
  - intros. split; [done|lia].
  - intros [_ ?]. lia.
Qed.

Section OneSlab.
Context `{SlabSizes} `{BitSlice}.

(** Slot [i] of a slab is free when its bit is set. *)
Definition slot_free (s : UntypedSlab) (i : Z) : Prop := bitmap s !! Z.to_nat i = Some true.
#[export] Instance slot_free_dec s i : Decision (slot_free s i) := decide (_ = _).

(** The count on record is the number of free slots. *)
Record slab_ok (N : Z) (s : UntypedSlab) : Prop := {
  so_len : len (bitmap s) = 512;
  so_cnt : free_cnt s = ones (take (Z.to_nat (SLOTS_LEN N)) (bitmap s))
}.

Lemma slab_map_ok N s :
  item_size N -> slab_ok N s ->
  slab_map N s = Ok (take (Z.to_nat (SLOTS_LEN N)) (bitmap s)) /\
  len (take (Z.to_nat (SLOTS_LEN N)) (bitmap s)) = SLOTS_LEN N.
Proof.
  intros HN [Hl _]. pose proof (slots_len_bounds N HN) as [HL _]. unfold slab_map, subslice. case_bool_lia.
  rewrite drop_0, Z.sub_0_r. split; [done|]. unfold len in *. rewrite length_take. lia.
Qed.

(** A write of one bit through the view. *)
Lemma splice_insert (l : list bool) n i b :
  (i < n)%nat -> (n <= length l)%nat -> splice l 0 (<[i := b]> (take n l)) = <[i := b]> l.
Proof.
  intros Hi Hn. unfold splice. cbn [Z.to_nat take Nat.add app].
  rewrite length_insert, length_take, Nat.min_l by lia.
  rewrite <- insert_app_l by (rewrite length_take; lia). by rewrite take_drop.
Qed.

Lemma slab_write N s i b cnt :
  item_size N -> slab_ok N s -> 0 <= i < SLOTS_LEN N ->
  cnt = free_cnt s - (if decide (slot_free s i) then 1 else 0) + Z.b2z b ->
  let s' := mkUntypedSlab (splice (bitmap s) 0
              (replace_unchecked (take (Z.to_nat (SLOTS_LEN N)) (bitmap s)) i b)) cnt in
  bitmap s' = <[Z.to_nat i := b]> (bitmap s) /\ slab_ok N s'.
Proof.
  intros HN Hs Hi Hcnt. cbn zeta. destruct (slab_map_ok N s HN Hs) as [_ Hlen].
  pose proof (slots_len_bounds N HN) as [HL _]. destruct Hs as [Hl Hc].
  assert (Hb : splice (bitmap s) 0 (replace_unchecked (take (Z.to_nat (SLOTS_LEN N)) (bitmap s)) i b)
               = <[Z.to_nat i := b]> (bitmap s)).
  { rewrite replace_unchecked_ok by lia. apply splice_insert; unfold len in *; lia. }
  rewrite Hb. split; [done|]. split; cbn [bitmap free_cnt].
  - unfold len in *. by rewrite length_insert.
  - rewrite take_insert_lt by lia.
    destruct (lookup_lt_is_Some_2 (bitmap s) (Z.to_nat i)) as [x Hx]; [unfold len in *; lia|].
    rewrite (ones_insert _ _ x) by (rewrite lookup_take_lt by lia; done).
    rewrite Hcnt, Hc. case_decide as Hd; unfold slot_free in Hd; rewrite Hx in Hd; destruct x; cbn [Z.b2z]; congruence || lia.
Qed.

(** [reserve] on every branch. *)
Lemma slab_reserve_spec N slab s :
  item_size N -> slab_ok N s -> (4096 | slab) -> 0 < slab ->
  (free_cnt s = 0 /\ slab_reserve N slab s = Ok (None, s) /\
     forall i, 0 <= i < SLOTS_LEN N -> ~ slot_free s i) \/
  (exists i, 0 <= i < SLOTS_LEN N /\ slot_free s i /\ (forall j, 0 <= j < i -> ~ slot_free s j) /\
     let s' := mkUntypedSlab (<[Z.to_nat i := false]> (bitmap s)) (free_cnt s - 1) in
     slab_ok N s' /\
     slab_reserve N slab s = if i <? N then Ok (Some (slot N slab i), s') else Panic).
Proof.
  intros HN Hs Hal Hpos. destruct (slab_map_ok N s HN Hs) as [Hm Hlen].
  pose proof (slots_len_bounds N HN) as [HL _]. unfold slab_reserve.
  set (m := take (Z.to_nat (SLOTS_LEN N)) (bitmap s)) in *.
  pose proof (ones_nonneg m) as Hones. pose proof (so_cnt _ _ Hs) as Hc. fold m in Hc.
  case_bool (free_cnt s =? 0) E.
  - left. split_and!; [done|done|]. intros i Hi Hf. assert (Hall : Forall (eq false) m) by (apply ones_zero; lia).
    unfold slot_free in Hf. rewrite Forall_lookup in Hall. enough (false = true) by done.
    apply (Hall (Z.to_nat i)). unfold m. rewrite lookup_take_lt by lia. done.
  - right. rewrite Hm. cbn [obind]. destruct (first_one m) as [i|] eqn:Ef.
    2:{ apply first_one_None, ones_zero in Ef. lia. }
    apply first_one_Some in Ef as (Hi0 & Hi & Hfirst).
    assert (Hi1 : i < SLOTS_LEN N) by (apply lookup_lt_Some in Hi; unfold len in Hlen; lia).
    assert (Hf : slot_free s i) by (unfold m in Hi; rewrite lookup_take_lt in Hi by lia; done).
    exists i. split; [lia|]. split; [done|]. split.
    { intros j Hj Hfj. specialize (Hfirst (Z.to_nat j) ltac:(lia)). unfold m in Hfirst.
      rewrite lookup_take_lt in Hfirst by lia. unfold slot_free in Hfj. congruence. }
    destruct (slab_write N s i false (free_cnt s - 1) HN Hs ltac:(lia)) as [Hb Hok].
    { rewrite decide_True by done. cbn [Z.b2z]. lia. }
    fold m in Hb, Hok. cbn [bitmap] in Hb. rewrite Hb in Hok. cbn zeta. split; [done|].
    cbn [oexpect obind]. case_bool_lia. cbn zeta. cbn [slab_map_mut free_cnt bitmap]. rewrite Hb.
    rewrite usub_ok by (change (2 ^ 16) with 65536; lia). cbn [obind]. unfold slot_ptr. rewrite (slot_size_eq N HN).
    destruct (i <? N); [|done]. cbn [obind].
    change (slots_start N slab + i * N) with (slot N slab i). destruct (slot_in_slab N slab i HN Hal (conj Hi0 Hi1)) as (_ & Hlow & _).
    pose proof buf_offset_eq. pose proof link_size_small. by rewrite (proj2 (Z.eqb_neq (slot N slab i) 0)) by lia.
Qed.

(** [free] of a slot. *)
Lemma slab_free_spec N slab s i :
  item_size N -> slab_ok N s -> (4096 | slab) -> 0 <= i < SLOTS_LEN N ->
  bitmap s !! Z.to_nat i = Some false ->
  let s' := mkUntypedSlab (<[Z.to_nat i := true]> (bitmap s)) (free_cnt s + 1) in
  slab_free N slab s (slot N slab i) = (if free_cnt s =? 0 then Panic else Ok s') /\ slab_ok N s'.
Proof.
  intros HN Hs Hal Hi Hbit. destruct (slab_map_ok N s HN Hs) as [Hm Hlen].
  pose proof (slots_len_bounds N HN) as [HL _]. pose proof (item_size_bounds N HN).
  set (m := take (Z.to_nat (SLOTS_LEN N)) (bitmap s)) in *.
  pose proof (ones_nonneg m) as Hones. pose proof (so_cnt _ _ Hs) as Hc. fold m in Hc.
  destruct (slot_in_slab N slab i HN Hal Hi) as (_ & H1' & H2' & _).
  destruct (slab_write N s i true (free_cnt s + 1) HN Hs Hi) as [Hb Hok].
  { rewrite decide_False by (unfold slot_free; congruence). cbn [Z.b2z]. lia. }
  fold m in Hb, Hok. cbn [bitmap] in Hb. rewrite Hb in Hok. cbn zeta. split; [|done].
  unfold slab_free. case_bool (free_cnt s =? 0) E; [by case_bool_lia|]. do 2 case_bool_lia.
  rewrite (slot_size_eq N HN).
  replace (as_usize (Z.quot (slot N slab i - slots_start N slab) N)) with i.
  2:{ unfold slot. replace (slots_start N slab + i * N - slots_start N slab) with (i * N) by lia.
      rewrite Z.quot_mul by lia. unfold as_usize. by rewrite Z.mod_small by lia. }
  rewrite Hm. cbn [obind].
  rewrite (slice_get_ok m i false); [|lia|unfold m; by rewrite lookup_take_lt by lia]. cbn [obind negb].
  cbn zeta. cbn [slab_map_mut free_cnt bitmap]. rewrite Hb, uadd_ok by (change (2 ^ 16) with 65536; lia). done.
Qed.
End OneSlab.

(** ** Caches *)

Section Caches.
Context `{SlabSizes} `{BitSlice} {L : Type} `{LinkedList L}.

(** A slab whose first slot alone is taken. *)
Definition slab_one (N : Z) : UntypedSlab :=
  mkUntypedSlab (<[0%nat := false]> (bitmap (slab_new N))) (SLOTS_LEN N - 1).

Lemma slab_new_cnt N : item_size N -> free_cnt (slab_new N) = SLOTS_LEN N.
Proof.
  intros HN. pose proof (slots_len_bounds N HN) as [HL _]. cbn [slab_new free_cnt]. unfold as_u16.
  by rewrite Z.mod_small by lia.
Qed.

Lemma ones_replicate n : ones (replicate n true) = Z.of_nat n.
Proof. induction n as [|n IH]; [done|]. cbn [replicate ones Z.b2z]. rewrite IH. lia. Qed.

Lemma slab_new_ok N : item_size N -> slab_ok N (slab_new N).
Proof.
  intros HN. pose proof (slots_len_bounds N HN) as [HL _]. split.
  - unfold len. cbn [slab_new bitmap]. by rewrite length_replicate.
  - rewrite slab_new_cnt by done. cbn [slab_new bitmap].
    rewrite take_replicate, ones_replicate.
    change (Z.to_nat (SLAB_MAP_LEN * 64)) with 512%nat. rewrite Nat.min_l by lia. lia.
Qed.

Lemma slab_new_free N i : 0 <= i < 512 -> slot_free (slab_new N) i.
Proof. intros Hi. unfold slot_free. cbn [slab_new bitmap]. apply lookup_replicate_2. unfold SLAB_MAP_LEN. lia. Qed.

Lemma slab_reserve_new N slab :
  item_size N -> (4096 | slab) -> 0 < slab ->
  slab_reserve N slab (slab_new N) = Ok (Some (slot N slab 0), slab_one N) /\ slab_ok N (slab_one N).
Proof.
  intros HN Hal Hpos. pose proof (slots_len_bounds N HN) as [HL _]. pose proof (item_size_bounds N HN).
  pose proof (slab_new_cnt N HN) as Hc. pose proof (slab_new_free N 0 ltac:(lia)) as H0free.
  destruct (slab_reserve_spec N slab (slab_new N) HN (slab_new_ok N HN) Hal Hpos)
    as [(Hz & _)|(i & Hi & _ & Hfirst & Hok & E)]; [lia|].
  assert (i = 0) as ->.
  { destruct (decide (0 < i)) as [Hi0|]; [|lia]. by destruct (Hfirst 0 ltac:(lia)). }
  rewrite Hc in *. rewrite E. by case_bool_lia.
Qed.

Lemma slab_free_one N slab :
  item_size N -> (4096 | slab) -> 0 < slab ->
  slab_free N slab (slab_one N) (slot N slab 0) = Ok (slab_new N).
Proof.
  intros HN Hal Hpos. pose proof (slots_len_bounds N HN) as [HL _].
  destruct (slab_reserve_new N slab HN Hal Hpos) as [_ Hok].
  destruct (slab_free_spec N slab (slab_one N) 0 HN Hok Hal ltac:(lia)) as [E _].
  { cbn. done. }
  rewrite E. cbn [slab_one free_cnt bitmap]. case_bool_lia. f_equal.
  change (slab_new N) with (mkUntypedSlab (bitmap (slab_new N)) (free_cnt (slab_new N))) at 2.
  rewrite (slab_new_cnt N HN), list_insert_insert, decide_True by done.
  by replace (SLOTS_LEN N - 1 + 1) with (SLOTS_LEN N) by lia.
Qed.

Lemma slab_one_full N : item_size N -> slab_is_full (slab_one N) = true /\ slab_is_empty (slab_one N) = false.
Proof.
  intros HN. pose proof (slots_len_bounds N HN) as [HL _].
  unfold slab_is_full, slab_is_empty, fill_level. cbn [slab_one free_cnt]. by case_bool_lia.
Qed.
Lemma slab_new_full N : item_size N -> slab_is_full (slab_new N) = true /\ slab_is_empty (slab_new N) = false.
Proof.
  intros HN. pose proof (slots_len_bounds N HN) as [HL _].
  unfold slab_is_full, slab_is_empty, fill_level. rewrite slab_new_cnt by done. by case_bool_lia.
Qed.

Lemma move_slab_ok (c : UntypedCache L) from to a slab b :
  links (get_list c from) = a ++ slab :: b -> NoDup (links (get_list c from)) -> from <> to ->
  exists c', move_slab c from (Some slab) to = Ok c' /\
    links (get_list c' from) = a ++ b /\
    links (get_list c' to) = slab :: links (get_list c to) /\
    forall w, w <> from -> w <> to -> get_list c' w = get_list c w.
Proof.
  intros Hl Hnd Hne. unfold move_slab.
  destruct (cursor_remove_in _ _ _ _ Hl Hnd) as (l' & -> & Hl'). cbn [oexpect obind].
  eexists. split; [done|].
  destruct from, to; try done; cbn [get_list set_list empty_slabs partial_slabs full_slabs];
    rewrite push_front_cons; (split; [done|split; [done|]]); intros [] ? ?; done.
Qed.

(** A cache as the code leaves it: no slab counts as empty, the partial slabs
    have every slot free, and the full ones have the first slot taken. *)
Definition cache_slabs (c : UntypedCache L) : list Z := links (partial_slabs c) ++ links (full_slabs c).

Record cache_ok (N : Z) (c : UntypedCache L) (sl : gmap Z UntypedSlab) : Prop := {
  ca_empty : links (empty_slabs c) = [];
  ca_nodup : NoDup (cache_slabs c);
  ca_partial p : p ∈ links (partial_slabs c) -> sl !! p = Some (slab_new N);
  ca_full p : p ∈ links (full_slabs c) -> sl !! p = Some (slab_one N)
}.

(** *** The memory of the slabs *)

Context {St : Type} `{CoreAllocator St, !PageSource St}.

Definition blocks_apart (blocks : gmap Z Layout) : Prop :=
  forall p l q l', blocks !! p = Some l -> blocks !! q = Some l' -> p <> q ->
    p + layout_size l <= q \/ q + layout_size l' <= p.

(** Each slab is a page of its own, among blocks that do not overlap. *)
Record mem_ok (m : SlabMemory St) (blocks : gmap Z Layout) : Prop := {
  me_out : out (pages m) blocks;
  me_apart : blocks_apart blocks;
  me_pos p l : blocks !! p = Some l -> 0 < p;
  me_slab p s : slabs m !! p = Some s -> blocks !! p = Some slab_layout /\ (4096 | p) /\ 0 < p
}.

(** The block that was just handed out lies apart from the others. *)
Lemma blocks_apart_insert blocks p layout :
  blocks_apart blocks ->
  (forall q l, blocks !! q = Some l -> p + layout_size layout <= q \/ q + layout_size l <= p) ->
  blocks_apart (<[p := layout]> blocks).
Proof.
  intros Ha Hp q l q' l' [(<- & <-)|(Hq & Hl)]%lookup_insert_Some [(<- & <-)|(Hq' & Hl')]%lookup_insert_Some Hne.
  - done.
  - by apply Hp.
  - destruct (Hp _ _ Hl); lia.
  - by eapply Ha.
Qed.

Lemma blocks_apart_delete blocks p : blocks_apart blocks -> blocks_apart (delete p blocks).
Proof. intros Ha q l q' l' [_ Hl]%lookup_delete_Some [_ Hl']%lookup_delete_Some. by apply Ha. Qed.

Lemma slab_page_layout : page_layout slab_layout.
Proof. rewrite slab_layout_eq. split; [|done]. by split. Qed.

(** A slab may be written, also one that has just been handed out. *)
Lemma mem_ok_write m blocks p s st :
  mem_ok m blocks -> out st blocks -> blocks !! p = Some slab_layout -> (4096 | p) -> 0 < p ->
  mem_ok (mkSlabMemory (<[p := s]> (slabs m)) st) blocks.
Proof.
  intros [_ H2' Hps H3'] Hout Hb Hal Hp. split; [done|done|done|].
  intros q s'. cbn [slabs]. intros [(<- & _)|(_ & Hq)]%lookup_insert_Some; [done|by eapply H3'].
Qed.

Lemma mem_ok_fresh m blocks p : mem_ok m blocks -> blocks !! p = None -> slabs m !! p = None.
Proof. intros Hm Hp. destruct (slabs m !! p) eqn:Es; [|done]. destruct (me_slab _ _ Hm _ _ Es). congruence. Qed.

(** The slab that serves the next request: the front of the partial slabs, else a
    new page. *)
Definition next_slab (c c' : UntypedCache L) (blocks : gmap Z Layout) (slab : Z) : Prop :=
  links (partial_slabs c) = slab :: links (partial_slabs c') \/
  links (partial_slabs c) = [] /\ links (partial_slabs c') = [] /\ blocks !! slab = None.

Lemma find_slab_spec N c m blocks :
  item_size N -> cache_ok N c (slabs m) -> mem_ok m blocks ->
  (exists m', find_slab N c m = Ok (None, c, m') /\ slabs m' = slabs m /\ mem_ok m' blocks) \/
  (exists slab w a c1 m' blocks', find_slab N c m = Ok (Some (w, slab), c1, m') /\
     w <> Full /\ links (get_list c1 w) = slab :: a /\ NoDup (slab :: a) /\
     slabs m' !! slab = Some (slab_new N) /\ mem_ok m' blocks' /\ blocks ⊆ blocks' /\
     (slab ∉ links (full_slabs c1)) /\ full_slabs c1 = full_slabs c /\
     (forall p l, blocks' !! p = Some l -> p = slab \/ blocks !! p = Some l) /\
     (forall p, p <> slab -> slabs m' !! p = slabs m !! p) /\
     ((w = Partial /\ c1 = c /\ slabs m' = slabs m) \/
      (w = Empty /\ a = [] /\ partial_slabs c1 = partial_slabs c /\ links (partial_slabs c) = [] /\
       blocks !! slab = None))).
Proof.
  intros HN [He Hnd Hp Hf] Hm. unfold find_slab. rewrite front_mut_head.
  unfold cache_slabs in Hnd. destruct (links (partial_slabs c)) as [|slab a] eqn:Epart; cbn [head].
  - rewrite front_mut_head, He. cbn [head].
    destruct (source_allocate (pages m) blocks slab_layout (me_out _ _ Hm) slab_page_layout)
      as (o & st & -> & Ho). cbn [obind]. destruct o as [[p n]|].
    + right. destruct Ho as (_ & Hal & Hpos & Hfresh & Hap & Hout).
      rewrite move_next_null, insert_after_null. cbn [head oexpect obind].
      assert (Hnew : slabs m !! p = None).
      { by apply (mem_ok_fresh m blocks). }
      unfold get_link, SLAB_LINK_OFFSET. rewrite Z.add_0_r.
      exists p, Empty, []. do 3 eexists. split; [done|].
      cbn [get_list set_list empty_slabs partial_slabs full_slabs slabs].
      rewrite insert_after_null, He. unfold SLAB_LINK_OFFSET.
      split_and!; [done|done|apply NoDup_singleton|by rewrite lookup_insert_eq| | |
        |done| | |].
      * split; [exact Hout|apply blocks_apart_insert; [apply Hm|exact Hap]| |].
        { intros q l [(<- & _)|(_ & Hl)]%lookup_insert_Some; [done|by eapply (me_pos _ _ Hm)]. }
        intros q s. cbn [slabs]. intros [(<- & <-)|(Hq & Hs)]%lookup_insert_Some.
        -- by rewrite lookup_insert_eq.
        -- rewrite lookup_insert_ne by done. by apply (me_slab _ _ Hm q s).
      * by apply insert_subseteq.
      * intros Hin. rewrite (Hf _ Hin) in Hnew. done.
      * intros q l [(<- & _)|(_ & Hl)]%lookup_insert_Some; [by left|by right].
      * intros q Hq. by rewrite lookup_insert_ne.
      * right. split_and!; done.
    + left. eexists. split; [done|]. split; [done|]. destruct Hm. by split.
  - right. exists slab, Partial, a. do 3 eexists. split; [done|]. cbn [get_list].
    apply NoDup_app in Hnd as (Hnd & Hdis & _).
    split_and!; [done|done|done|apply Hp; set_solver|done|done|apply Hdis; set_solver|done|by auto|done|].
    by left.
Qed.

(** What a successful [reserve] does to a cache: one slab moves to the full ones
    and its first slot is handed out. *)
Record reserved_in (N : Z) (c c' : UntypedCache L) (m m' : SlabMemory St) (slab : Z)
    (blocks blocks' : gmap Z Layout) : Prop := {
  re_ok : cache_ok N c' (slabs m');
  re_mem : mem_ok m' blocks';
  re_full : links (full_slabs c') = slab :: links (full_slabs c);
  re_next : next_slab c c' blocks slab;
  re_sub : blocks ⊆ blocks';
  re_blocks p l : blocks' !! p = Some l -> p = slab \/ blocks !! p = Some l;
  re_slab : slabs m' !! slab = Some (slab_one N);
  re_others p : p <> slab -> slabs m' !! p = slabs m !! p
}.

Lemma cache_reserve_spec N c m blocks :
  item_size N -> cache_ok N c (slabs m) -> mem_ok m blocks ->
  (exists m', cache_reserve N c m = Ok (None, c, m') /\ slabs m' = slabs m /\ mem_ok m' blocks) \/
  (exists slab c' m' blocks', cache_reserve N c m = Ok (Some (slot N slab 0), c', m') /\
     reserved_in N c c' m m' slab blocks blocks').
Proof.
  intros HN Hc Hm. unfold cache_reserve.
  destruct (find_slab_spec N c m blocks HN Hc Hm) as [(m' & -> & Hs & Hm')|
    (slab & w & a & c1 & m1 & blocks' & -> & Hw & Hl & Hnd & Hslab & Hm1 & Hsub & Hnf & Hfull & Hbl & Hoth & Hcase)].
  { left. exists m'. by split. }
  right. cbn [obind]. unfold get_value, SLAB_LINK_OFFSET. rewrite Z.sub_0_r, Hslab. cbn [oexpect obind].
  destruct (me_slab _ _ Hm1 _ _ Hslab) as (Hb & Hal & Hpos).
  destruct (slab_reserve_new N slab HN Hal Hpos) as [-> _]. cbn [obind].
  rewrite (proj1 (slab_one_full N HN)), andb_false_r.
  destruct (move_slab_ok c1 w Full [] slab a Hl) as (c' & -> & Hl1 & Hl2 & Hl3); [by rewrite Hl|done|].
  cbn [obind]. cbn [app get_list] in Hl1, Hl2.
  exists slab, c'. do 2 eexists. split; [done|].
  assert (Hnext : next_slab c c' blocks slab /\ links (empty_slabs c') = [] /\
                  forall p, p ∈ links (partial_slabs c') -> p ∈ links (partial_slabs c)).
  { unfold next_slab. destruct Hcase as [(-> & -> & Hsl)|(-> & -> & Hp & Hp0 & Hfresh)].
    - cbn [get_list] in Hl, Hl1. rewrite Hl, Hl1. split_and!; [by left| |set_solver].
      change (empty_slabs c') with (get_list c' Empty). rewrite Hl3 by done. apply (ca_empty _ _ _ Hc).
    - assert (Hpc : partial_slabs c' = partial_slabs c).
      { change (partial_slabs c') with (get_list c' Partial). by rewrite Hl3. }
      rewrite Hpc. split_and!; [by right|done|done]. }
  destruct Hnext as (Hnext & Hempty & Hpsub). pose proof (ca_nodup _ _ _ Hc) as Hnd0.
  split; cbn [slabs pages].
  - rewrite Hfull in Hl2. unfold cache_slabs in Hnd0. apply NoDup_app in Hnd0 as (N1 & N2 & N3).
    assert (Hpn : (slab ∉ links (partial_slabs c')) /\ NoDup (links (partial_slabs c'))).
    { destruct Hnext as [Hn|(Hn1 & -> & _)]; [|by split; [set_solver|constructor]].
      rewrite Hn in N1. by apply NoDup_cons in N1. }
    split; [done| |..].
    + unfold cache_slabs. rewrite Hl2. apply NoDup_app. split; [apply Hpn|]. split.
      * intros p Hp [->|Hp']%elem_of_cons; [by apply Hpn|]. by apply (N2 p); [apply Hpsub|].
      * apply NoDup_cons. split; [by rewrite <- Hfull|done].
    + intros p Hp. rewrite lookup_insert_ne by (intros ->; by apply Hpn). rewrite Hoth by (intros ->; by apply Hpn).
      apply (ca_partial _ _ _ Hc). by apply Hpsub.
    + rewrite Hl2. intros p [->|Hp]%elem_of_cons; [by rewrite lookup_insert_eq|].
      rewrite <- Hfull in Hp. rewrite lookup_insert_ne by (intros ->; done). rewrite Hoth by (intros ->; done).
      apply (ca_full _ _ _ Hc). by rewrite <- Hfull.
  - by apply mem_ok_write; [..|apply Hm1| | |].
  - by rewrite Hl2, Hfull.
  - done.
  - exact Hsub.
  - exact Hbl.
  - by rewrite lookup_insert_eq.
  - intros p Hp. rewrite lookup_insert_ne by done. by apply Hoth.
Qed.

(** [free] of the slot in use moves the slab back to the partial ones. *)
Lemma cache_free_spec N c m blocks slab :
  item_size N -> cache_ok N c (slabs m) -> mem_ok m blocks -> slab ∈ links (full_slabs c) ->
  exists c' m' a b, cache_free N c m (slot N slab 0) = Ok (c', m') /\
    cache_ok N c' (slabs m') /\ mem_ok m' blocks /\
    links (partial_slabs c') = slab :: links (partial_slabs c) /\
    links (full_slabs c) = a ++ slab :: b /\ links (full_slabs c') = a ++ b /\
    slabs m' = <[slab := slab_new N]> (slabs m) /\ pages m' = pages m.
Proof.
  intros HN Hc Hm Hin. pose proof (ca_full _ _ _ Hc _ Hin) as Hslab.
  destruct (me_slab _ _ Hm _ _ Hslab) as (Hb & Hal & Hpos). pose proof (slots_len_bounds N HN) as [HL _].
  unfold cache_free. rewrite (from_elem_ptr_slot N slab 0 HN Hal) by lia. rewrite Hslab. cbn [oexpect obind].
  rewrite (slab_free_one N slab HN Hal Hpos). cbn [obind].
  rewrite (proj1 (slab_one_full N HN)), (proj2 (slab_new_full N HN)). cbn [negb andb].
  unfold get_link, SLAB_LINK_OFFSET. rewrite Z.add_0_r.
  apply list_elem_of_split in Hin as (a & b & Hab). destruct Hc as [He Hnd Hp Hf]. unfold cache_slabs in Hnd.
  apply NoDup_app in Hnd as (N1 & N2 & N3).
  destruct (move_slab_ok c Full Partial a slab b Hab N3) as (c' & -> & Hl1 & Hl2 & Hl3); [done|].
  cbn [obind get_list] in *. exists c'. eexists. exists a, b. split; [done|]. cbn [slabs].
  rewrite Hab in N3. apply NoDup_app in N3 as (M1 & M2 & [M3 M4]%NoDup_cons).
  assert (Hna : slab ∉ a) by (intros Ha; apply (M2 slab Ha); set_solver).
  assert (Hnp : slab ∉ links (partial_slabs c)).
  { intros Hps. apply (N2 slab Hps). rewrite Hab. set_solver. }
  split_and!; [| |done..].
  - split.
    + change (empty_slabs c') with (get_list c' Empty). by rewrite Hl3.
    + unfold cache_slabs. rewrite Hl1, Hl2. rewrite Hab in N2. apply NoDup_app. split; [by apply NoDup_cons|].
      split; [|apply NoDup_app; split_and!; [done| |done]].
      * intros p [->|Hpp]%elem_of_cons; [set_solver|]. specialize (N2 p Hpp). set_solver.
      * intros p Hpa. specialize (M2 p Hpa). set_solver.
    + rewrite Hl2. intros p [->|Hpp]%elem_of_cons; [by rewrite lookup_insert_eq|].
      rewrite lookup_insert_ne by (intros ->; done). by apply Hp.
    + rewrite Hl1. intros p Hpp. rewrite lookup_insert_ne by (intros ->; set_solver).
      apply Hf. rewrite Hab. set_solver.
  - by apply mem_ok_write; [..|apply Hm| | |].
Qed.
End Caches.

(** ** The theorems *)

Section Claims.
Context `{SlabSizes} `{BitSlice}.

(** C35: [Slab::reserve] on every branch.  With the count of free slots on record it
    returns [None] exactly when no slot is free; otherwise it takes the first free
    slot [i] and keeps the count, and hands out the [i]-th slot of the buffer,
    which is aligned, inside the page and behind the header, but panics when [i] is
    not below the size of a slot in bytes. *)
Theorem slab_reserve_correct N slab s :
  item_size N -> slab_ok N s -> (4096 | slab) -> 0 < slab ->
  (slab_reserve N slab s = Ok (None, s) /\ forall i, 0 <= i < SLOTS_LEN N -> ~ slot_free s i) \/
  (exists i, 0 <= i < SLOTS_LEN N /\ slot_free s i /\ (forall j, 0 <= j < i -> ~ slot_free s j) /\
     let p := slot N slab i in
     (N | p) /\ slab + BUF_OFFSET <= p /\ p + N <= slab + 4096 /\
     if i <? N
     then exists s', slab_reserve N slab s = Ok (Some p, s') /\ slab_ok N s' /\
            forall j, 0 <= j -> slot_free s' j <-> slot_free s j /\ j <> i
     else slab_reserve N slab s = Panic).
Proof.
  intros HN Hs Hal Hpos. destruct (slab_reserve_spec N slab s HN Hs Hal Hpos)
    as [(_ & E & Hno)|(i & Hi & Hf & Hfirst & Hok & E)]; [by left|right].
  exists i. do 3 (split; [done|]). cbn zeta. destruct (slot_in_slab N slab i HN Hal Hi) as (H1' & H2' & _ & H3').
  do 3 (split; [done|]). destruct (i <? N); [|done]. eexists. split; [done|]. split; [done|].
  intros j Hj. unfold slot_free. cbn [bitmap]. rewrite list_lookup_insert_Some.
  pose proof (so_len _ _ Hs) as Hlen. unfold len in Hlen. pose proof (slots_len_bounds N HN). split.
  - intros [(_ & ? & _)|[Hne Hb]]; [done|]. split; [done|lia].
  - intros [Hb Hne]. right. split; [lia|done].
Qed.

(** C36: [Slab::from_elem_ptr] finds the slab of every slot, and [Slab::free] of a
    taken slot frees that slot alone and keeps the count; but it panics when no
    other slot of the slab is free. *)
Theorem slab_free_correct N slab s i :
  item_size N -> slab_ok N s -> (4096 | slab) -> 0 <= i < SLOTS_LEN N -> ~ slot_free s i ->
  from_elem_ptr (slot N slab i) = slab /\
  if free_cnt s =? 0 then slab_free N slab s (slot N slab i) = Panic
  else exists s', slab_free N slab s (slot N slab i) = Ok s' /\ slab_ok N s' /\
         forall j, 0 <= j -> slot_free s' j <-> slot_free s j \/ j = i.
Proof.
  intros HN Hs Hal Hi Hnf. split; [by apply from_elem_ptr_slot|].
  pose proof (so_len _ _ Hs) as Hlen. unfold len in Hlen. pose proof (slots_len_bounds N HN).
  destruct (lookup_lt_is_Some_2 (bitmap s) (Z.to_nat i)) as [[] Hb]; [lia|by destruct Hnf|].
  destruct (slab_free_spec N slab s i HN Hs Hal Hi Hb) as [-> Hok]. destruct (free_cnt s =? 0); [done|].
  eexists. split; [done|]. split; [done|]. intros j Hj. unfold slot_free. cbn [bitmap].
  rewrite list_lookup_insert_Some. split.
  - intros [(E & _ & _)|[_ Hb']]; [right; lia|by left].
  - intros [Hb'| ->]; [|left; split_and!; [done|done|lia]].
    destruct (decide (j = i)) as [->|Hne]; [congruence|]. right. split; [lia|done].
Qed.
End Claims.

(** ** Witnesses

    Sizes, bit operations and lists as the crates have them. *)

Lemma demo_mutex_small : 0 <= 1 <= 7.
Proof. lia. Qed.
Lemma demo_link_small : 0 <= 16 <= 56.
Proof. lia. Qed.
Lemma demo_link_words : (8 | 16).
Proof. by exists 2. Qed.

#[export] Instance demo_sizes : SlabSizes := {|
  MUTEX_SIZE := 1;
  LINK_SIZE := 16;
  mutex_size_small := demo_mutex_small;
  link_size_small := demo_link_small;
  link_size_words := demo_link_words
|}.

Fixpoint demo_first_one (l : list bool) : option Z :=
  match l with
  | [] => None
  | true :: _ => Some 0
  | false :: l => match demo_first_one l with Some i => Some (i + 1) | None => None end
  end.

Lemma demo_first_one_Some l i :
  demo_first_one l = Some i -> 0 <= i /\ l !! Z.to_nat i = Some true /\
    forall j, (j < Z.to_nat i)%nat -> l !! j = Some false.
Proof.
  revert i. induction l as [|[] l IH]; intros i; cbn [demo_first_one]; [done| |].
  - intros [= <-]. split_and!; [done|done|lia].
  - destruct (demo_first_one l) as [i'|]; [|done]. intros [= <-]. destruct (IH i' eq_refl) as (H1 & H2 & H3).
    rewrite Z2Nat.inj_add by lia. rewrite Nat.add_1_r. split_and!; [lia|done|].
    intros [|j] Hj; [done|]. apply H3. lia.
Qed.

Lemma demo_first_one_None l : demo_first_one l = None -> Forall (eq false) l.
Proof.
  induction l as [|[] l IH]; cbn [demo_first_one]; [done|done|].
  destruct (demo_first_one l); [done|]. intros _. constructor; [done|]. by apply IH.
Qed.

#[export] Instance demo_bits : BitSlice := {|
  first_one := demo_first_one;
  replace_unchecked l i b := <[Z.to_nat i := b]> l;
  first_one_Some := demo_first_one_Some;
  first_one_None := demo_first_one_None;
  replace_unchecked_ok l i b _ := eq_refl
|}.

(** A slab of two slots of 1024 bytes whose first one is taken. *)
Definition demo_slab : UntypedSlab := slab_one 1024.

Lemma demo_slab_ok : item_size 1024 /\ slab_ok 1024 demo_slab.
Proof. split; [by exists 10|]. by split; vm_compute. Qed.

Definition demo_slab_after : UntypedSlab := mkUntypedSlab (<[1%nat := false]> (bitmap demo_slab)) 0.

Lemma demo_slab_reserve : slab_reserve 1024 0x10000 demo_slab = Ok (Some 0x10800, demo_slab_after).
Proof. by vm_compute. Qed.

Lemma slab_reserve_correct_witness :
  exists i, slot_free demo_slab i /\ slot 1024 0x10000 i = 0x10800.
Proof.
  destruct (slab_reserve_correct 1024 0x10000 demo_slab) as [[E _]|(i & Hi & Hf & _ & _ & _ & _ & Hc)];
    [apply demo_slab_ok..|by exists 16|done| |].
  - rewrite demo_slab_reserve in E. discriminate.
  - change (SLOTS_LEN 1024) with 2 in Hi. exists i. split; [done|].
    rewrite (proj2 (Z.ltb_lt i 1024)) in Hc by lia. destruct Hc as (s' & E & _).
    rewrite demo_slab_reserve in E. by injection E as <-.
Defined.

Lemma slab_free_correct_witness :
  from_elem_ptr 0x10400 = 0x10000 /\
  exists s', slab_free 1024 0x10000 demo_slab 0x10400 = Ok s' /\ slot_free s' 0.
Proof.
  destruct (slab_free_correct 1024 0x10000 demo_slab 0) as [Ep Hc];
    [apply demo_slab_ok..|by exists 16|by vm_compute|by vm_compute|].
  split; [exact Ep|]. destruct Hc as (s' & E & _ & Hj). exists s'. split; [exact E|]. apply Hj; [done|by right].
Defined.
