(* ===== verification/AllocTheorems.v ===== *)
(** * The heap: correctness

    The slab allocator over every order, and the global allocator that serves
    small requests from the slabs and the others from the page allocator. *)

From S2P Require Import Prelude Addr Phy PageAlloc PageAllocTheorems Slab SlabTheorems.
Open Scope Z_scope.

(** ** Layouts and orders *)

Lemma layout_align_pos l : layout_valid l -> exists k, 0 <= k /\ layout_align l = 2 ^ k.
Proof.
  intros (_ & Ha & _). unfold is_power_of_two in Ha. case_bool ((0 <? layout_align l) && (2 ^ Z.log2 (layout_align l) =? layout_align l)) E; [|done].
  destruct E as [_ E]. exists (Z.log2 (layout_align l)). split; [apply Z.log2_nonneg|done].
Qed.

Lemma pad_to_align_spec l : layout_valid l ->
  (layout_align l | layout_size (pad_to_align l)) /\
  layout_size l <= layout_size (pad_to_align l) < layout_size l + layout_align l.
Proof.
  intros Hl. destruct (layout_align_pos l Hl) as (k & Hk & Ha). pose proof (pow2_pos k Hk).
  cbn [pad_to_align layout_size]. apply round_up_spec. lia.
Qed.

(** [next_power_of_two] on the sizes in question. *)
Lemma next_power_of_two_ok n :
  1 <= n <= 2 ^ 63 -> next_power_of_two n = Ok (2 ^ Z.log2_up n).
Proof.
  intros Hn. unfold next_power_of_two. case_bool (n <=? 1) E.
  - by replace n with 1 by lia.
  - unfold Z.log2_up. replace (1 ?= n) with Lt by (symmetry; apply Z.compare_lt_iff; lia).
    rewrite <- Z.sub_1_r, Z.add_1_r. apply chk_ok. split; [apply Z.pow_nonneg; lia|].
    apply Z.pow_lt_mono_r; [lia..|]. assert (Z.log2 (n - 1) < 63); [|lia]. apply Z.log2_lt_pow2; lia.
Qed.

(** The requests that the slabs serve. *)
Definition small_layout (l : Layout) : Prop :=
  layout_valid l /\ 0 < layout_size l /\ layout_size (pad_to_align l) <= 1024.

Lemma slot_order_ok l : small_layout l ->
  exists order, slot_order l = Ok order /\ 3 <= order <= 10 /\
    layout_size l <= 2 ^ order /\ (layout_align l | 2 ^ order).
Proof.
  intros (Hl & Hpos & Hmax). destruct (pad_to_align_spec l Hl) as [Hd Hs].
  destruct (layout_align_pos l Hl) as (k & Hk & Ha).
  set (n := layout_size (pad_to_align l)) in *. unfold slot_order. fold n.
  change (2 ^ SLAB_MIN_ORDER) with 8. unfold next_multiple_of.
  destruct (checked_next_multiple_of_ok n 8 ltac:(lia) ltac:(lia) ltac:(lia)) as [n8 E]. rewrite E.
  destruct (checked_next_multiple_of_Some n 8 n8 ltac:(lia) ltac:(lia) E) as [H8 Hn8].
  assert (Hn8' : n8 <= 1024) by (apply (multiple_le 8); [lia|done|by exists 128|lia]).
  cbn [oexpect obind]. rewrite next_power_of_two_ok by lia. cbn [obind].
  pose proof (Z.log2_up_nonneg n8). pose proof (pow2_pos (Z.log2_up n8) ltac:(lia)).
  unfold ilog2. case_bool_lia. cbn [obind]. rewrite Z.log2_pow2 by done.
  assert (Hlo : 3 <= Z.log2_up n8).
  { change 3 with (Z.log2_up 8). apply Z.log2_up_le_mono. destruct H8 as [x ->]. lia. }
  assert (Hhi : Z.log2_up n8 <= 10) by (change 10 with (Z.log2_up 1024); by apply Z.log2_up_le_mono).
  exists (Z.log2_up n8). unfold as_u8. rewrite Z.mod_small by lia. split; [done|]. split; [lia|].
  pose proof (Z.log2_log2_up_spec n8 ltac:(lia)) as [_ Hup]. split; [lia|].
  rewrite Ha. apply pow2_divide. split; [done|]. apply (Z.pow_le_mono_r_iff 2); [lia..|].
  apply Z.divide_pos_le in Hd; lia.
Qed.

Lemma order_item_size order : 3 <= order <= 10 -> item_size (2 ^ order).
Proof. by exists order. Qed.
#[export] Hint Resolve order_item_size : koe.

(** ** The record of caches *)

Section Record.
Context `{SlabSizes} `{BitSlice} {L : Type} `{LinkedList L}.
Context {St : Type} `{CoreAllocator St, !PageSource St}.
Implicit Types (r : SlabAllocatorRecord L St) (blocks : gmap Z Layout).

(** The caches are in order, on memory they share, and no slab is in two. *)
Record heap_ok r blocks : Prop := {
  he_len : length (caches r) = 8%nat;
  he_cache i c : caches r !! i = Some c -> cache_ok (2 ^ (Z.of_nat i + 3)) c (slabs (memory r));
  he_mem : mem_ok (memory r) blocks;
  he_own i j c d p : caches r !! i = Some c -> caches r !! j = Some d ->
    p ∈ cache_slabs c -> p ∈ cache_slabs d -> i = j
}.

(** The slots in use, by the order of their cache: the abstract state. *)
Definition in_use r (order p : Z) : Prop :=
  exists c slab, 3 <= order <= 10 /\ caches r !! Z.to_nat (order - 3) = Some c /\
    slab ∈ links (full_slabs c) /\ p = slot (2 ^ order) slab 0.

Lemma in_use_slab r blocks order p : heap_ok r blocks -> in_use r order p ->
  exists c slab, caches r !! Z.to_nat (order - 3) = Some c /\ slab ∈ links (full_slabs c) /\
    p = slot (2 ^ order) slab 0 /\ slabs (memory r) !! slab = Some (slab_one (2 ^ order)) /\
    blocks !! slab = Some slab_layout /\ (4096 | slab) /\ 0 < slab /\
    slab < p /\ p + 2 ^ order <= slab + 4096 /\ (2 ^ order | p).
Proof.
  intros Hr (c & slab & Ho & Hc & Hin & ->). exists c, slab.
  pose proof (he_cache _ _ Hr _ _ Hc) as Hok. replace (Z.of_nat _ + 3) with order in Hok by lia.
  pose proof (ca_full _ _ _ Hok _ Hin) as Hs.
  destruct (me_slab _ _ (he_mem _ _ Hr) _ _ Hs) as (Hb & Hal & Hpos).
  pose proof (order_item_size order Ho) as HN. pose proof (slots_len_bounds _ HN) as [HL _].
  destruct (slot_in_slab (2 ^ order) slab 0 HN Hal) as (Hd & H1' & _ & H2'); [lia|].
  pose proof buf_offset_eq. pose proof link_size_small. split_and!; done || lia.
Qed.

(** Two slots in use are the same slot or do not meet. *)
Lemma in_use_apart r blocks o p o' p' :
  heap_ok r blocks -> in_use r o p -> in_use r o' p' ->
  (o = o' /\ p = p') \/ p + 2 ^ o <= p' \/ p' + 2 ^ o' <= p.
Proof.
  intros Hr Hu Hu'. pose proof Hu as (_ & _ & Ho & _). pose proof Hu' as (_ & _ & Ho' & _).
  destruct (in_use_slab _ _ _ _ Hr Hu) as (c & slab & Hc & Hin & Hp & _ & Hb & _ & _ & Hlo & Hhi & _).
  destruct (in_use_slab _ _ _ _ Hr Hu') as (c' & slab' & Hc' & Hin' & Hp' & _ & Hb' & _ & _ & Hlo' & Hhi' & _).
  destruct (decide (slab = slab')) as [<-|Hne].
  - left. assert (Z.to_nat (o - 3) = Z.to_nat (o' - 3)) as Eo.
    { apply (he_own _ _ Hr _ _ c c' slab); [done|done|..]; unfold cache_slabs; set_solver. }
    assert (o = o') as <- by lia. by subst.
  - right. destruct (me_apart _ _ (he_mem _ _ Hr) _ _ _ _ Hb Hb' Hne) as [Ha|Ha];
      rewrite slab_layout_eq in Ha; cbn [layout_size] in Ha; lia.
Qed.

(** A slot in use does not meet a block that is not a slab. *)
Lemma in_use_block r blocks o p q l :
  heap_ok r blocks -> in_use r o p -> blocks !! q = Some l -> slabs (memory r) !! q = None ->
  p + 2 ^ o <= q \/ q + layout_size l <= p.
Proof.
  intros Hr Hu Hq Hn.
  destruct (in_use_slab _ _ _ _ Hr Hu) as (c & slab & _ & _ & _ & Hs & Hb & _ & _ & Hlo & Hhi & _).
  assert (Hne : slab <> q) by congruence.
  destruct (me_apart _ _ (he_mem _ _ Hr) _ _ _ _ Hb Hq Hne) as [Ha|Ha];
    rewrite ?slab_layout_eq in Ha; cbn [layout_size] in Ha; lia.
Qed.

Lemma cache_of_ok r blocks order :
  heap_ok r blocks -> 3 <= order <= 10 ->
  exists c, cache_of order r = Ok (order - 3, c) /\ caches r !! Z.to_nat (order - 3) = Some c /\
    cache_ok (2 ^ order) c (slabs (memory r)).
Proof.
  intros Hr Ho. unfold cache_of. rewrite usub_ok by (unfold SLAB_MIN_ORDER; lia). cbn [obind].
  change (order - SLAB_MIN_ORDER) with (order - 3).
  destruct (slice_get_in_range (caches r) (order - 3)) as (c & -> & Hc).
  { unfold len. rewrite (he_len _ _ Hr). lia. }
  exists c. split_and!; [done|done|]. pose proof (he_cache _ _ Hr _ _ Hc) as Hok.
  by replace (Z.of_nat _ + 3) with order in Hok by lia.
Qed.

(** The caches of two orders are different. *)
Lemma order_index o o' : 3 <= o -> 3 <= o' -> Z.to_nat (o - 3) = Z.to_nat (o' - 3) -> o = o'.
Proof. lia. Qed.

(** Replace one cache, when only one slab changed and it belongs to this cache or
    is new. *)
Lemma heap_ok_update r blocks blocks' i c c' m' slab :
  heap_ok r blocks -> caches r !! i = Some c -> cache_ok (2 ^ (Z.of_nat i + 3)) c' (slabs m') ->
  mem_ok m' blocks' -> (forall p, p <> slab -> slabs m' !! p = slabs (memory r) !! p) ->
  (slab ∈ cache_slabs c \/ slabs (memory r) !! slab = None) ->
  (forall p, p ∈ cache_slabs c' -> p = slab \/ p ∈ cache_slabs c) ->
  heap_ok (mkSlabAllocatorRecord (<[i := c']> (caches r)) m') blocks'.
Proof.
  intros Hr Hc Hok Hm Hoth Hslab Hsub.
  assert (Hlen : (i < length (caches r))%nat) by (by eapply lookup_lt_Some).
  (* a slab of another cache is not the one that changed *)
  assert (Hne : forall j d p, j <> i -> caches r !! j = Some d -> p ∈ cache_slabs d -> p <> slab).
  { intros j d p Hj Hd Hp ->. destruct Hslab as [Hin|Hnone].
    - apply Hj. by apply (he_own _ _ Hr j i d c slab).
    - pose proof (he_cache _ _ Hr _ _ Hd) as [_ _ H3' H4']. unfold cache_slabs in Hp.
      apply elem_of_app in Hp as [Hp|Hp]; [rewrite (H3' _ Hp) in Hnone|rewrite (H4' _ Hp) in Hnone]; done. }
  assert (Hcases : forall j d, <[i := c']> (caches r) !! j = Some d ->
            (j = i /\ d = c') \/ (j <> i /\ caches r !! j = Some d)).
  { intros j d Hd. destruct (decide (j = i)) as [->|Hj].
    - left. rewrite list_lookup_insert_eq in Hd by done. by simplify_eq.
    - right. by rewrite list_lookup_insert_ne in Hd by congruence. }
  split; cbn [caches memory].
  - rewrite length_insert. apply Hr.
  - intros j d [[-> ->]|[Hj Hd]]%Hcases; [done|].
    pose proof (he_cache _ _ Hr _ _ Hd) as [H1' H2' H3' H4']. split; [done|done|..]; intros p Hp;
      rewrite Hoth by (apply (Hne j d); [done|done|unfold cache_slabs; set_solver]); auto.
  - done.
  - assert (Hcross : forall j d p, j <> i -> caches r !! j = Some d -> p ∈ cache_slabs d -> p ∈ cache_slabs c' -> False).
    { intros j d p Hj Hd Hp Hp'. destruct (Hsub p Hp') as [->|Hpc]; [by apply (Hne j d slab)|].
      apply Hj. by apply (he_own _ _ Hr j i d c p). }
    intros j k d e p [[-> ->]|[Hj Hd]]%Hcases [[-> ->]|[Hk He]]%Hcases Hp Hp'; [done|..].
    + exfalso. by eapply Hcross.
    + exfalso. by eapply Hcross.
    + by apply (he_own _ _ Hr j k d e p).
Qed.

(** The slots in use after one cache was replaced. *)
Lemma in_use_update r order c c' m' (P : Z -> Prop) :
  3 <= order <= 10 -> caches r !! Z.to_nat (order - 3) = Some c ->
  (forall slab, slab ∈ links (full_slabs c') <-> P slab) ->
  forall o p, in_use (mkSlabAllocatorRecord (<[Z.to_nat (order - 3) := c']> (caches r)) m') o p <->
    if o =? order then exists slab, P slab /\ p = slot (2 ^ order) slab 0 else in_use r o p.
Proof.
  intros Ho Hc HP o p. assert (Hlen : (Z.to_nat (order - 3) < length (caches r))%nat) by (by eapply lookup_lt_Some).
  unfold in_use. cbn [caches]. case_bool (o =? order) E.
  - subst o. rewrite list_lookup_insert_eq by done. split.
    + intros (d & slab & _ & Hd & Hin & ->). simplify_eq. exists slab. by rewrite <- HP.
    + intros (slab & Hs & ->). exists c', slab. by rewrite HP.
  - split; intros (d & slab & Ho' & Hd & Hin & ->); exists d, slab; (split; [done|]).
    + rewrite list_lookup_insert_ne in Hd by (intros Hi%order_index; lia). done.
    + rewrite list_lookup_insert_ne by (intros Hi%order_index; lia). done.
Qed.

Lemma slab_allocate_spec r blocks layout :
  heap_ok r blocks -> small_layout layout ->
  exists order, slot_order layout = Ok order /\ 3 <= order <= 10 /\
    layout_size layout <= 2 ^ order /\ (layout_align layout | 2 ^ order) /\
    ((exists r', slab_allocate layout r = Ok (None, r') /\ heap_ok r' blocks /\ caches r' = caches r /\
        slabs (memory r') = slabs (memory r)) \/
     (exists slab r' blocks', let p := slot (2 ^ order) slab 0 in
        slab_allocate layout r = Ok (Some (p, 2 ^ order), r') /\ heap_ok r' blocks' /\
        blocks ⊆ blocks' /\ (forall q l, blocks' !! q = Some l -> q = slab \/ blocks !! q = Some l) /\
        (forall q, q <> slab -> slabs (memory r') !! q = slabs (memory r) !! q) /\
        (slabs (memory r) !! slab <> None \/ blocks !! slab = None) /\ ~ in_use r order p /\
        forall o q, in_use r' o q <-> in_use r o q \/ (o = order /\ q = p))).
Proof.
  intros Hr Hl. destruct (slot_order_ok layout Hl) as (order & Eo & Ho & Hsz & Hal).
  exists order. do 4 (split; [done|]). unfold slab_allocate, allocate_if_zst.
  destruct Hl as (_ & Hpos & _). rewrite (proj2 (Z.eqb_neq (layout_size layout) 0)) by lia. cbn [negb].
  rewrite Eo. cbn [obind]. destruct (cache_of_ok r blocks order Hr Ho) as (c & -> & Hc & Hok). cbn [obind].
  rewrite (proj2 (Z.ltb_ge order SLAB_MIN_ORDER)), (proj2 (Z.leb_le order SLAB_MAX_ORDER)) by (unfold SLAB_MIN_ORDER, SLAB_MAX_ORDER; lia).
  unfold reserve_untyped. pose proof (order_item_size order Ho) as HN.
  assert (Hi : 0 <= order - 3 < len (caches r)) by (unfold len; rewrite (he_len _ _ Hr); lia).
  destruct (cache_reserve_spec (2 ^ order) c (memory r) blocks HN Hok (he_mem _ _ Hr))
    as [(m' & -> & Hs & Hm')|(slab & c' & m' & blocks' & -> & Hre)]; cbn [obind];
    rewrite slice_set_ok by done; cbn [obind].
  - left. rewrite list_insert_id by done. eexists. split; [done|]. split; [|done].
    destruct Hr as [R1 R2 R3 R4]. split; cbn [caches memory]; [done|by rewrite Hs|done|done].
  - right. exists slab. do 2 eexists. cbn zeta. split; [done|]. pose proof (re_next _ _ _ _ _ _ _ _ Hre) as Hnext.
    pose proof (re_full _ _ _ _ _ _ _ _ Hre) as Hfull.
    assert (Hnew : slab ∈ links (partial_slabs c) \/ blocks !! slab = None).
    { destruct Hnext as [->|(_ & _ & ?)]; [left; set_solver|by right]. }
    assert (Hnf : slab ∉ links (full_slabs c)).
    { destruct Hnew as [Hp|Hp].
      - pose proof (ca_nodup _ _ _ Hok) as (_ & Hd & _)%NoDup_app. by apply Hd.
      - intros Hf. pose proof (mem_ok_fresh _ _ _ (he_mem _ _ Hr) Hp). by rewrite (ca_full _ _ _ Hok _ Hf) in *. }
    split; [|split_and!].
    + eapply heap_ok_update; [done|done| |apply Hre|apply Hre|..].
      * replace (Z.of_nat _ + 3) with order by lia. apply Hre.
      * destruct Hnew as [Hp|Hp]; [left; unfold cache_slabs; set_solver|].
        right. by apply (mem_ok_fresh _ _ _ (he_mem _ _ Hr)).
      * intros p. unfold cache_slabs. rewrite Hfull. destruct Hnext as [->|(-> & -> & _)]; set_solver.
    + apply Hre.
    + apply Hre.
    + apply Hre.
    + destruct Hnew as [Hp|Hp]; [left; by rewrite (ca_partial _ _ _ Hok _ Hp)|by right].
    + intros (d & s' & _ & Hd & Hin & E). simplify_eq. apply Hnf.
      by apply slab_slot_inj in E as <-.
    + intros o q. rewrite (in_use_update r order c c' m' (fun s => s = slab \/ s ∈ links (full_slabs c))).
      2,3: done. 2: intros s; rewrite Hfull; set_solver.
      case_bool (o =? order) E.
      * subst o. split.
        -- intros (s & [->|Hin] & ->); [by right|]. left. by exists c, s.
        -- intros [(d & s & _ & Hd & Hin & ->)|[_ ->]]; simplify_eq; eauto.
      * split; [by left|]. by intros [?|[? _]].
Qed.

Lemma slab_deallocate_spec r blocks layout order p :
  heap_ok r blocks -> small_layout layout -> slot_order layout = Ok order -> in_use r order p ->
  exists r', slab_deallocate p layout r = Ok r' /\ heap_ok r' blocks /\
    (forall q, slabs (memory r) !! q = None <-> slabs (memory r') !! q = None) /\
    forall o q, in_use r' o q <-> in_use r o q /\ ~ (o = order /\ q = p).
Proof.
  intros Hr Hl Eo Hu. pose proof Hu as (c & slab & Ho & Hc & Hin & ->). unfold slab_deallocate, deallocate_if_zst.
  destruct Hl as (_ & Hpos & _). rewrite (proj2 (Z.eqb_neq (layout_size layout) 0)) by lia. cbn [andb].
  rewrite Eo. cbn [obind]. destruct (cache_of_ok r blocks order Hr Ho) as (d & -> & Hd & Hok). cbn [obind].
  simplify_eq. pose proof (ca_full _ _ _ Hok _ Hin) as Hslab.
  rewrite (proj2 (Z.ltb_ge order SLAB_MIN_ORDER)), (proj2 (Z.leb_le order SLAB_MAX_ORDER)) by (unfold SLAB_MIN_ORDER, SLAB_MAX_ORDER; lia).
  assert (Hi : 0 <= order - 3 < len (caches r)) by (unfold len; rewrite (he_len _ _ Hr); lia).
  destruct (cache_free_spec (2 ^ order) c (memory r) blocks slab (order_item_size order Ho) Hok (he_mem _ _ Hr) Hin)
    as (c' & m' & a & b & -> & Hok' & Hm' & Hpart & Hab & Hfull & Hsl & _). cbn [obind].
  rewrite slice_set_ok by done. cbn [obind]. eexists. split; [done|]. split_and!.
  - eapply (heap_ok_update _ _ _ _ c c' m' slab); [done|done| |done|..].
    + by replace (Z.of_nat _ + 3) with order by lia.
    + intros q Hq. by rewrite Hsl, lookup_insert_ne.
    + left. unfold cache_slabs. set_solver.
    + intros q. unfold cache_slabs. rewrite Hpart, Hfull, Hab. set_solver.
  - intros q. cbn [memory]. rewrite Hsl, lookup_insert_None. split; [|tauto].
    intros Hq. split; [done|]. intros <-. congruence.
  - assert (Hnin : slab ∉ a ++ b).
    { pose proof (ca_nodup _ _ _ Hok) as (_ & _ & Hnd)%NoDup_app. rewrite Hab, <- Permutation_middle in Hnd.
      by apply NoDup_cons in Hnd as [? _]. }
    intros o q. rewrite (in_use_update r order c c' m' (fun s => s ∈ a ++ b)); [|done|done|intros s; by rewrite Hfull].
    case_bool (o =? order) E.
    + subst o. split.
      * intros (s & Hs & ->). split; [exists c, s; rewrite Hab; set_solver|].
        intros [_ <-%slab_slot_inj]. done.
      * intros [(e & s & _ & He & Hs & ->) Hne]. simplify_eq. exists s. split; [|done].
        rewrite Hab in Hs. assert (s <> slab) by (intros ->; by apply Hne). set_solver.
    + split; [|by intros [? _]]. intros Hq. split; [done|by intros [? _]].
Qed.

(** ** The global allocator *)

(** A pointer the global allocator has handed out for a layout. *)
Definition owned r blocks (p : Z) (l : Layout) : Prop :=
  layout_valid l /\
  (layout_size l = 0 /\ p = dangling \/
   small_layout l /\ (exists order, slot_order l = Ok order /\ in_use r order p) \/
   1024 < layout_size (pad_to_align l) /\ blocks !! p = Some l /\ slabs (memory r) !! p = None).

(** Two blocks of memory that do not meet. *)
Definition apart (x y : Z * Layout) : Prop :=
  x.1 + layout_size x.2 <= y.1 \/ y.1 + layout_size y.2 <= x.1.

Lemma apart_sym x y : apart x y -> apart y x.
Proof. unfold apart. tauto. Qed.

(** The layouts the allocators take without a failed assertion. *)
Definition heap_layout (l : Layout) : Prop := layout_valid l /\ layout_align l <= 4096.

Lemma pad_to_align_zero l : layout_valid l -> layout_size l = 0 -> layout_size (pad_to_align l) = 0.
Proof.
  intros Hl H0'. destruct (layout_align_pos l Hl) as (k & Hk & Ha). pose proof (pow2_pos k Hk).
  cbn [pad_to_align layout_size]. rewrite H0'. apply (round_up_id 0); [lia|apply Z.divide_0_r].
Qed.

Lemma large_layout_pos l : layout_valid l -> 1024 < layout_size (pad_to_align l) -> 0 < layout_size l.
Proof.
  intros Hl Hp. destruct Hl as (Hs & Hr). destruct (decide (layout_size l = 0)) as [E|]; [|lia].
  rewrite pad_to_align_zero in Hp by (done || split; done). lia.
Qed.

Lemma owned_pos r blocks p l : heap_ok r blocks -> owned r blocks p l -> 0 < p.
Proof.
  intros Hr (_ & [[_ ->]|[[_ (o & _ & Hu)]|(_ & Hb & _)]]); [done| |by eapply (me_pos _ _ (he_mem _ _ Hr))].
  destruct (in_use_slab _ _ _ _ Hr Hu) as (? & ? & _ & _ & _ & _ & _ & _ & ? & ? & _). lia.
Qed.

Lemma owned_bound r blocks p l : heap_ok r blocks -> owned r blocks p l -> p < USIZE.
Proof.
  intros Hr (Hv & [[_ ->]|[[_ (o & _ & Hu)]|(Hbig & Hb & _)]]); [done| |].
  - destruct (in_use_slab _ _ _ _ Hr Hu) as (c & slab & _ & _ & _ & _ & Hb & _ & _ & _ & Hhi & _).
    pose proof (source_bound _ _ _ _ (me_out _ _ (he_mem _ _ Hr)) Hb) as Hs. rewrite slab_layout_eq in Hs. cbn [layout_size] in Hs.
    pose proof Hu as (_ & _ & Ho & _). pose proof (pow2_pos o ltac:(lia)). lia.
  - pose proof (source_bound _ _ _ _ (me_out _ _ (he_mem _ _ Hr)) Hb). pose proof (large_layout_pos l Hv Hbig). lia.
Qed.

Lemma slot_order_fits l order : small_layout l -> slot_order l = Ok order -> layout_size l <= 2 ^ order.
Proof. intros Hl E. destruct (slot_order_ok l Hl) as (o & E' & _ & Hs & _). rewrite E in E'. by injection E' as ->. Qed.

(** A slot in use is apart from everything else that is owned. *)
Lemma in_use_owned_apart r blocks o p l q k :
  heap_ok r blocks -> in_use r o p -> layout_size l <= 2 ^ o -> owned r blocks q k ->
  (forall o', slot_order k = Ok o' -> small_layout k -> in_use r o' q -> ~ (o = o' /\ p = q)) ->
  apart (p, l) (q, k).
Proof.
  intros Hr Hu Hl Hq Hne. pose proof (owned_pos _ _ _ _ Hr Hq) as Hqpos. unfold apart. cbn [fst snd].
  destruct Hq as (_ & [[Hz ->]|[[Hs (o' & Eo & Hu')]|(_ & Hb & Hn)]]).
  - right. rewrite Hz. destruct (in_use_slab _ _ _ _ Hr Hu) as (? & ? & _ & _ & _ & _ & _ & _ & ? & ? & _).
    unfold dangling. lia.
  - pose proof (slot_order_fits _ _ Hs Eo).
    destruct (in_use_apart _ _ _ _ _ _ Hr Hu Hu') as [[-> ->]|[Ha|Ha]]; [|lia|lia].
    by destruct (Hne o' Eo Hs Hu').
  - destruct (in_use_block _ _ _ _ _ _ Hr Hu Hb Hn); lia.
Qed.

(** What an allocation promises: the old pointers stay owned and the new one is
    large enough, aligned, and apart from them. *)
Definition grants r blocks r' blocks' (layout : Layout) (o : option (Z * Z)) : Prop :=
  heap_ok r' blocks' /\ (forall q l, owned r blocks q l -> owned r' blocks' q l) /\
  match o with
  | None => True
  | Some (p, n) =>
      layout_size layout <= n /\ (0 < layout_size layout -> (layout_align layout | p)) /\
      owned r' blocks' p layout /\ forall q l, owned r blocks q l -> apart (p, layout) (q, l)
  end.

Lemma allocate_zst_spec r blocks layout :
  heap_ok r blocks -> layout_valid layout -> layout_size layout = 0 ->
  exists r' blocks' o, slab_allocate layout r = Ok (o, r') /\ grants r blocks r' blocks' layout o.
Proof.
  intros Hr Hv Hz. exists r, blocks, (Some (dangling, 0)).
  unfold slab_allocate, allocate_if_zst. rewrite Hz. split; [done|]. split; [done|]. split; [done|].
  split_and!; [lia|lia|by split; [|left]|]. intros q l Hq. pose proof (owned_pos _ _ _ _ Hr Hq).
  left. cbn [fst snd]. rewrite Hz. unfold dangling. lia.
Qed.

Lemma allocate_small_spec r blocks layout :
  heap_ok r blocks -> small_layout layout ->
  exists r' blocks' o, slab_allocate layout r = Ok (o, r') /\ grants r blocks r' blocks' layout o.
Proof.
  intros Hr Hl. destruct (slab_allocate_spec r blocks layout Hr Hl) as (order & Eo & Ho & Hs & Hal & Hcase).
  destruct Hcase as [(r' & E & Hr' & Hc & Hsl)|(slab & r' & blocks' & E & Hr' & Hsub & Hbl & Hoth & Hnew & Hnot & Hiu)].
  - exists r', blocks, None. split; [done|]. split; [done|]. split; [|done].
    intros q l (Hv & Hq). split; [done|]. rewrite Hsl. unfold in_use in *. by rewrite Hc.
  - cbn zeta in *. set (p := slot (2 ^ order) slab 0) in *. exists r', blocks'. eexists. split; [done|].
    assert (Hold : forall q l, owned r blocks q l -> owned r' blocks' q l).
    { intros q l (Hv & [Hq|[(Hsm & o & Eo' & Hu)|(Hbig & Hb & Hn)]]); split; try done; [by left|right; left|right; right].
      - split; [done|]. exists o. split; [done|]. apply Hiu. by left.
      - split; [done|]. split; [by eapply lookup_weaken|]. rewrite Hoth; [done|]. intros ->.
        destruct Hnew; congruence. }
    assert (Hu : in_use r' order p) by (apply Hiu; by right).
    split; [done|]. split; [done|]. split_and!; [done| | |].
    + intros _. destruct (in_use_slab _ _ _ _ Hr' Hu) as (? & ? & _ & _ & _ & _ & _ & _ & _ & _ & _ & Hd).
      by eapply Z.divide_trans.
    + split; [apply Hl|]. right. left. eauto.
    + intros q l Hq. eapply in_use_owned_apart; [done|done|done|by apply Hold|].
      intros o' Eo' Hsm Hu' [<- <-]. destruct Hq as (_ & [[Hz _]|[(_ & o2 & Eo2 & Hu2)|(Hbig & _)]]).
      * destruct Hsm as (_ & ? & _). lia.
      * rewrite Eo' in Eo2. by injection Eo2 as <-.
      * destruct Hsm as (_ & _ & ?). lia.
Qed.

(** The memory after the page allocator changed. *)
Lemma heap_ok_pages r blocks blocks' st :
  heap_ok r blocks -> mem_ok (mkSlabMemory (slabs (memory r)) st) blocks' -> heap_ok (with_pages r st) blocks'.
Proof. intros [R1 R2 R3 R4] Hm. by split. Qed.

Lemma allocate_large_spec r blocks layout :
  heap_ok r blocks -> heap_layout layout -> 1024 < layout_size (pad_to_align layout) ->
  exists r' blocks' o, global_allocate layout r = Ok (o, r') /\ grants r blocks r' blocks' layout o.
Proof.
  intros Hr (Hv & Hal) Hbig. pose proof (large_layout_pos layout Hv Hbig) as Hpos. pose proof (he_mem _ _ Hr) as Hm.
  unfold global_allocate. rewrite (proj2 (Z.leb_gt _ SLAB_MAX_SIZE)) by exact Hbig.
  destruct (source_allocate (pages (memory r)) blocks layout (me_out _ _ Hm)) as (o & st & -> & Ho); [by split_and!|].
  cbn [obind]. destruct o as [[p n]|].
  - destruct Ho as (Hn & Hpage & Hp & Hfresh & Hap & Hout).
    exists (with_pages r st), (<[p := layout]> blocks). eexists. split; [done|].
    pose proof (mem_ok_fresh _ _ _ Hm Hfresh) as Hns.
    assert (Hr' : heap_ok (with_pages r st) (<[p := layout]> blocks)).
    { eapply heap_ok_pages; [done|]. split; cbn [pages slabs].
      - done.
      - apply blocks_apart_insert; [apply Hm|done].
      - intros q l [(<- & _)|(_ & Hl)]%lookup_insert_Some; [done|by eapply (me_pos _ _ Hm)].
      - intros q s Hs. rewrite lookup_insert_ne by congruence. by eapply (me_slab _ _ Hm). }
    assert (Hold : forall q l, owned r blocks q l -> owned (with_pages r st) (<[p := layout]> blocks) q l).
    { intros q l (Hv' & [Hq|[Hq|(Hb & Hq & Hn')]]); (split; [done|]); [by left|right; left; exact Hq|right; right].
      split; [done|]. split; [|done]. rewrite lookup_insert_ne by congruence. done. }
    split; [done|]. split; [done|]. split_and!; [done| | |].
    + intros _. eapply Z.divide_trans; [|done]. destruct (layout_align_pos layout Hv) as (k & Hk & Ha).
      rewrite Ha in *. change 4096 with (2 ^ 12) in *. apply pow2_divide. split; [done|].
      by apply (Z.pow_le_mono_r_iff 2).
    + split; [done|]. right. right. by rewrite lookup_insert_eq.
    + intros q l Hq. pose proof Hq as (_ & [[Hz ->]|[(Hs & o' & Eo & Hu)|(_ & Hb & _)]]).
      * right. cbn [fst snd]. rewrite Hz. unfold dangling. lia.
      * apply apart_sym. eapply in_use_owned_apart; [exact Hr'|exact Hu|by apply slot_order_fits| |].
        -- split; [done|]. right. right. by rewrite lookup_insert_eq.
        -- intros ? _ (_ & _ & ?). lia.
      * by apply Hap.
  - exists (with_pages r st), blocks, None. split; [done|]. split; [|done].
    eapply heap_ok_pages; [done|]. destruct Hm. by split.
Qed.

(** Every allocation. *)
Lemma global_allocate_spec r blocks layout :
  heap_ok r blocks -> heap_layout layout ->
  exists r' blocks' o, global_allocate layout r = Ok (o, r') /\ grants r blocks r' blocks' layout o.
Proof.
  intros Hr Hl. pose proof Hl as [Hv _]. destruct (decide (1024 < layout_size (pad_to_align layout))) as [Hbig|Hsmall].
  { by apply allocate_large_spec. }
  unfold global_allocate. rewrite (proj2 (Z.leb_le _ SLAB_MAX_SIZE)) by (change SLAB_MAX_SIZE with 1024; lia).
  destruct (decide (layout_size layout = 0)) as [Hz|Hz]; [by apply allocate_zst_spec|].
  apply allocate_small_spec; [done|]. pose proof Hv as (? & _). split_and!; [done|lia|lia].
Qed.

(** Every deallocation of an owned pointer. *)
Lemma global_deallocate_spec r blocks p layout :
  heap_ok r blocks -> owned r blocks p layout ->
  exists r' blocks', global_deallocate p layout r = Ok r' /\ heap_ok r' blocks' /\
    forall q l, owned r blocks q l -> apart (p, layout) (q, l) -> owned r' blocks' q l.
Proof.
  intros Hr (Hv & [[Hz ->]|[(Hs & order & Eo & Hu)|(Hbig & Hb & Hn)]]); unfold global_deallocate.
  - rewrite pad_to_align_zero by done. unfold slab_deallocate, deallocate_if_zst. rewrite Hz.
    exists r, blocks. split; [done|]. by split.
  - rewrite (proj2 (Z.leb_le _ SLAB_MAX_SIZE)) by apply Hs.
    destruct (slab_deallocate_spec r blocks layout order p Hr Hs Eo Hu) as (r' & -> & Hr' & Hsl & Hiu).
    exists r', blocks. split; [done|]. split; [done|].
    intros q l (Hv' & [Hq|[(Hs' & o & Eo' & Hu')|(Hb & Hq & Hn')]]) Hap; (split; [done|]);
      [by left|right; left|right; right].
    + split; [done|]. exists o. split; [done|]. apply Hiu. split; [done|]. intros [-> ->].
      destruct Hs as (_ & ? & _), Hs' as (_ & ? & _), Hap as [Hap|Hap]; cbn [fst snd] in Hap; lia.
    + split; [done|]. split; [done|]. by apply Hsl.
  - rewrite (proj2 (Z.leb_gt _ SLAB_MAX_SIZE)) by exact Hbig. pose proof (he_mem _ _ Hr) as Hm.
    destruct (source_deallocate (pages (memory r)) blocks p layout (me_out _ _ Hm) Hb) as (st & -> & Hout).
    cbn [obind]. exists (with_pages r st), (delete p blocks). split; [done|]. split.
    + eapply heap_ok_pages; [done|]. split; cbn [pages slabs].
      * done.
      * apply blocks_apart_delete, Hm.
      * intros q l [_ Hl]%lookup_delete_Some. by eapply (me_pos _ _ Hm).
      * intros q t Ht. rewrite lookup_delete_ne by congruence. by eapply (me_slab _ _ Hm).
    + intros q l (Hv' & [Hq|[Hq|(Hb' & Hq & Hn')]]) Hap; (split; [done|]); [by left|right; left; exact Hq|right; right].
      split; [done|]. split; [|done]. rewrite lookup_delete_ne; [done|]. intros <-.
      pose proof (large_layout_pos _ Hv Hbig). pose proof (large_layout_pos _ Hv' Hb').
      destruct Hap as [Hap|Hap]; cbn [fst snd] in Hap; lia.
Qed.

(** ** What a client can reach

    The states of the heap with the pointers the client holds: allocations with
    layouts the allocators take, in any order, and deallocations of pointers it
    holds, with the layout they were allocated for. *)
Inductive heap_reachable : SlabAllocatorRecord L St -> list (Z * Layout) -> Prop :=
| hr_init st : out st ∅ -> heap_reachable (slab_record_new st) []
| hr_alloc r live layout o r' :
    heap_reachable r live -> heap_layout layout -> global_allocate layout r = Ok (o, r') ->
    heap_reachable r' (match o with Some (p, _) => (p, layout) :: live | None => live end)
| hr_dealloc r a p layout b r' :
    heap_reachable r (a ++ (p, layout) :: b) -> global_deallocate p layout r = Ok r' ->
    heap_reachable r' (a ++ b).

Lemma slab_record_new_ok st : out st ∅ -> heap_ok (slab_record_new st) ∅.
Proof.
  intros Hout.
  assert (Hnew : forall i c, caches (slab_record_new st) !! i = Some c -> c = cache_new (L := L)).
  { intros i c. cbn [slab_record_new caches]. by intros [-> _]%lookup_replicate. }
  split.
  - done.
  - intros i c ->%Hnew. unfold cache_new. split; cbn [empty_slabs partial_slabs full_slabs]; unfold cache_slabs;
      cbn [partial_slabs full_slabs]; rewrite ?links_new; [done|constructor|set_solver..].
  - split; [done|intros ????; by rewrite lookup_empty|by intros|]. intros ? ?. by rewrite lookup_empty.
  - intros i j c d q ->%Hnew _. unfold cache_slabs, cache_new. cbn [partial_slabs full_slabs]. rewrite links_new. set_solver.
Qed.

(** The pointers a client holds do not meet. *)
Definition all_apart (live : list (Z * Layout)) : Prop :=
  forall i j x y, live !! i = Some x -> live !! j = Some y -> i <> j -> apart x y.

Lemma all_apart_cons x live : (forall y, y ∈ live -> apart x y) -> all_apart live -> all_apart (x :: live).
Proof.
  intros Hx Hl [|i] [|j] y z Hy Hz Hne; cbn in Hy, Hz; simplify_eq.
  - apply Hx. by eapply list_elem_of_lookup_2.
  - apply apart_sym, Hx. by eapply list_elem_of_lookup_2.
  - apply (Hl i j); [done..|congruence].
Qed.

Lemma all_apart_remove a x b :
  all_apart (a ++ x :: b) -> all_apart (a ++ b) /\ forall y, y ∈ a ++ b -> apart x y.
Proof.
  intros Hl.
  assert (Hget : forall i z, (a ++ b) !! i = Some z ->
            exists j, (a ++ x :: b) !! j = Some z /\ j <> length a /\ j = if decide (i < length a)%nat then i else S i).
  { intros i z Hz. case_decide.
    - exists i. rewrite lookup_app_l in * by done. split_and!; [done|lia|done].
    - exists (S i). rewrite lookup_app_r in Hz |- * by lia. rewrite Nat.sub_succ_l by lia.
      split_and!; [done|lia|done]. }
  split.
  - intros i j y z Hy Hz Hne. destruct (Hget _ _ Hy) as (i' & Hi' & _ & Ei), (Hget _ _ Hz) as (j' & Hj' & _ & Ej).
    apply (Hl i' j'); [done..|]. repeat case_decide; lia.
  - intros y [i Hi]%list_elem_of_lookup_1. destruct (Hget _ _ Hi) as (j & Hj & Hne & _).
    apply (Hl (length a) j); [|done|done]. by rewrite list_lookup_middle.
Qed.

Lemma heap_reachable_inv r live :
  heap_reachable r live ->
  exists blocks, heap_ok r blocks /\ (forall p l, (p, l) ∈ live -> owned r blocks p l) /\ all_apart live.
Proof.
  induction 1 as [st Hout|r live layout o r' _ (blocks & Hr & Hown & Hap) Hl E|
                  r a p layout b r' _ (blocks & Hr & Hown & Hap) E].
  - exists ∅. split; [by apply slab_record_new_ok|]. split; [set_solver|by intros []].
  - destruct (global_allocate_spec r blocks layout Hr Hl) as (r2 & blocks' & o2 & E2 & Hr' & Hold & Hnew).
    rewrite E in E2. injection E2 as <- <-. exists blocks'. split; [done|].
    destruct o as [[p n]|]; [|by eauto]. destruct Hnew as (_ & _ & Hp & Hpa). split.
    + intros q l [[= -> ->]|Hq]%elem_of_cons; eauto.
    + apply all_apart_cons; [|done]. intros [q l] Hq. eauto.
  - apply all_apart_remove in Hap as [Hap Hpa].
    destruct (global_deallocate_spec r blocks p layout Hr) as (r2 & blocks' & E2 & Hr' & Hold).
    { apply Hown. set_solver. }
    rewrite E in E2. injection E2 as <-. exists blocks'. split; [done|]. split; [|done].
    intros q l Hq. apply Hold; [apply Hown; set_solver|by apply Hpa].
Qed.

(** C3: in every state a client of the global allocator can reach, no allocation
    panics; a block that is handed out is large enough, aligned for its layout
    unless it is empty, and meets no block the client holds; every pointer the
    client holds can be given back; and the blocks it holds never meet. *)
Theorem heap_reachable_safe r live :
  heap_reachable r live ->
  (forall layout, heap_layout layout ->
     exists o r', global_allocate layout r = Ok (o, r') /\
       match o with
       | None => True
       | Some (p, n) =>
           0 < p /\ layout_size layout <= n /\ (0 < layout_size layout -> (layout_align layout | p)) /\
           forall q l, (q, l) ∈ live -> apart (p, layout) (q, l)
       end) /\
  (forall p layout, (p, layout) ∈ live -> exists r', global_deallocate p layout r = Ok r') /\
  all_apart live.
Proof.
  intros (blocks & Hr & Hown & Hap)%heap_reachable_inv. split_and!; [| |done].
  - intros layout Hl. destruct (global_allocate_spec r blocks layout Hr Hl) as (r' & blocks' & o & E & Hr' & _ & Ho).
    exists o, r'. split; [done|]. destruct o as [[p n]|]; [|done]. destruct Ho as (Hn & Hal & Hp & Hpa).
    split_and!; [by eapply owned_pos|done|done|]. eauto.
  - intros p layout Hin. destruct (global_deallocate_spec r blocks p layout Hr (Hown _ _ Hin)) as (r' & _ & E & _). eauto.
Qed.

(** C40: each slab ever serves one block: two small blocks that a client holds lie
    on different pages, although a page has room for more. *)
Theorem heap_one_block_per_page r live i j p q l k :
  heap_reachable r live -> live !! i = Some (p, l) -> live !! j = Some (q, k) -> i <> j ->
  small_layout l -> small_layout k -> p / 4096 <> q / 4096.
Proof.
  intros (blocks & Hr & Hown & Hap)%heap_reachable_inv Hi Hj Hne Hl Hk Hpage.
  assert (Hslot : forall n x m, live !! n = Some (x, m) -> small_layout m ->
            exists order slab c, in_use r order x /\ 3 <= order <= 10 /\ caches r !! Z.to_nat (order - 3) = Some c /\
              slab ∈ links (full_slabs c) /\ x = slot (2 ^ order) slab 0 /\ (4096 | slab) /\ slab = x / 4096 * 4096).
  { intros n x m Hn Hm. destruct (Hown x m) as (_ & [[Hz _]|[(_ & o & _ & Hu)|(Hb & _)]]).
    - by eapply list_elem_of_lookup_2.
    - destruct Hm as (_ & ? & _). lia.
    - destruct (in_use_slab _ _ _ _ Hr Hu) as (c & slab & Hc & Hin & Hx & _ & _ & [t ->] & _ & Hlo & Hhi & _).
      pose proof Hu as (_ & _ & Ho & _). pose proof (pow2_pos o ltac:(lia)).
      exists o, (t * 4096), c. split_and!; try done; try lia; [by exists t|].
      f_equal. apply (Z.div_unique x 4096 t (x - t * 4096)); lia.
    - destruct Hm as (_ & _ & ?). lia. }
  destruct (Hslot _ _ _ Hi Hl) as (o & s & c & Hu & Ho & Hc & Hin & Hp & _ & Es).
  destruct (Hslot _ _ _ Hj Hk) as (o' & s' & c' & Hu' & Ho' & Hc' & Hin' & Hq & _ & Es').
  assert (s' = s) as -> by congruence.
  assert (Z.to_nat (o - 3) = Z.to_nat (o' - 3)) as Eo.
  { apply (he_own _ _ Hr _ _ c c' s); [done|done|..]; unfold cache_slabs; set_solver. }
  apply order_index in Eo as <-; [|lia|lia]. assert (q = p) as -> by congruence.
  destruct Hl as (_ & ? & _), Hk as (_ & ? & _), (Hap _ _ _ _ Hi Hj Hne) as [Ha|Ha]; cbn [fst snd] in Ha; lia.
Qed.

(** The front of the partial slabs serves the next request, without a new page. *)
Lemma cache_reserve_partial N c m blocks slab a :
  item_size N -> cache_ok N c (slabs m) -> mem_ok m blocks -> links (partial_slabs c) = slab :: a ->
  exists c' m', cache_reserve N c m = Ok (Some (slot N slab 0), c', m') /\ pages m' = pages m.
Proof.
  intros HN Hc Hm Hl. unfold cache_reserve, find_slab. rewrite front_mut_head, Hl. cbn [head obind].
  unfold get_value, SLAB_LINK_OFFSET. rewrite Z.sub_0_r.
  assert (Hs : slabs m !! slab = Some (slab_new N)) by (apply (ca_partial _ _ _ Hc); rewrite Hl; set_solver).
  rewrite Hs. cbn [oexpect obind]. destruct (me_slab _ _ Hm _ _ Hs) as (_ & Hal & Hpos).
  destruct (slab_reserve_new N slab HN Hal Hpos) as [-> _]. cbn [obind].
  rewrite (proj1 (slab_one_full N HN)), andb_false_r.
  destruct (move_slab_ok c Partial Full [] slab a Hl) as (c' & -> & _); [|done|].
  { pose proof (ca_nodup _ _ _ Hc) as Hnd. unfold cache_slabs in Hnd. by apply NoDup_app in Hnd as [? _]. }
  cbn [obind]. by eexists _, _.
Qed.

(** C39: a small block that is given back is the next one handed out for its
    layout, and no page is taken for it. *)
Theorem heap_reuses_block r live p layout :
  heap_reachable r live -> (p, layout) ∈ live -> small_layout layout ->
  exists n r1 r2, global_deallocate p layout r = Ok r1 /\
    global_allocate layout r1 = Ok (Some (p, n), r2) /\ layout_size layout <= n /\
    pages (memory r2) = pages (memory r).
Proof.
  intros (blocks & Hr & Hown & _)%heap_reachable_inv Hin Hl.
  destruct (Hown _ _ Hin) as (_ & [[Hz _]|[(_ & order & Eo & Hu)|(Hb & _)]]);
    [destruct Hl as (_ & ? & _); lia| |destruct Hl as (_ & _ & ?); lia].
  pose proof (slot_order_fits _ _ Hl Eo) as Hfit. pose proof Hl as (_ & Hpos & Hmax).
  unfold global_deallocate, global_allocate, slab_deallocate, slab_allocate, allocate_if_zst, deallocate_if_zst.
  rewrite (proj2 (Z.leb_le _ SLAB_MAX_SIZE)) by exact Hmax.
  rewrite (proj2 (Z.eqb_neq (layout_size layout) 0)) by lia. cbn [andb negb]. rewrite Eo. cbn [obind].
  pose proof Hu as (c & slab & Ho & Hc & Hs & ->).
  destruct (cache_of_ok r blocks order Hr Ho) as (d & -> & Hd & Hok). cbn [obind]. simplify_eq.
  rewrite (proj2 (Z.ltb_ge order SLAB_MIN_ORDER)), (proj2 (Z.leb_le order SLAB_MAX_ORDER)) by (unfold SLAB_MIN_ORDER, SLAB_MAX_ORDER; lia).
  assert (Hi : 0 <= order - 3 < len (caches r)) by (unfold len; rewrite (he_len _ _ Hr); lia).
  destruct (cache_free_spec (2 ^ order) c (memory r) blocks slab (order_item_size order Ho) Hok (he_mem _ _ Hr) Hs)
    as (c' & m' & a & b & Ef & Hok' & Hm' & Hpart & _ & _ & _ & Hsame). rewrite Ef. cbn [obind].
  rewrite slice_set_ok by done. cbn [obind].
  destruct (cache_reserve_partial (2 ^ order) c' m' blocks slab _ (order_item_size order Ho) Hok' Hm' Hpart)
    as (c2 & m2 & Er & Hpg).
  eexists _, _, _. split; [done|]. unfold cache_of. cbn [caches memory].
  rewrite usub_ok by (unfold SLAB_MIN_ORDER; lia). cbn [obind]. change (order - SLAB_MIN_ORDER) with (order - 3).
  rewrite (slice_get_ok _ _ c') by (lia || (rewrite list_lookup_insert_eq; [done|unfold len in Hi; lia])). cbn [obind].
  unfold reserve_untyped. rewrite Er. cbn [obind]. rewrite slice_set_ok by (unfold len in *; rewrite length_insert; lia).
  cbn [obind]. split; [done|]. split; [done|]. cbn [memory]. by rewrite Hpg.
Qed.

(** A request above the largest order panics instead of failing: the cache is
    looked up before the order is tested. *)
Lemma slab_allocate_oversize r blocks layout :
  heap_ok r blocks -> layout_valid layout -> 1024 < layout_size (pad_to_align layout) <= 2 ^ 62 ->
  slab_allocate layout r = Panic.
Proof.
  intros Hr Hv Hb. pose proof (large_layout_pos layout Hv ltac:(lia)) as Hpos. unfold slab_allocate, allocate_if_zst.
  rewrite (proj2 (Z.eqb_neq (layout_size layout) 0)) by lia. cbn [negb]. unfold slot_order, next_multiple_of.
  set (n := layout_size (pad_to_align layout)) in *. change (2 ^ SLAB_MIN_ORDER) with 8.
  destruct (checked_next_multiple_of_ok n 8 ltac:(lia) ltac:(lia) ltac:(lia)) as [n8 E]. rewrite E.
  destruct (checked_next_multiple_of_Some n 8 n8 ltac:(lia) ltac:(lia) E) as [_ Hn8].
  cbn [oexpect obind]. rewrite next_power_of_two_ok by lia. cbn [obind].
  pose proof (Z.log2_up_nonneg n8). pose proof (pow2_pos (Z.log2_up n8) ltac:(lia)).
  unfold ilog2. case_bool_lia. cbn [obind]. rewrite Z.log2_pow2 by done.
  assert (Hlo : 11 <= Z.log2_up n8) by (change 11 with (Z.log2_up 1025); apply Z.log2_up_le_mono; lia).
  assert (Hhi : Z.log2_up n8 <= 63) by (change 63 with (Z.log2_up (2 ^ 63)); apply Z.log2_up_le_mono; lia).
  unfold as_u8. rewrite Z.mod_small by lia. unfold cache_of. rewrite usub_ok by (unfold SLAB_MIN_ORDER; lia).
  cbn [obind]. unfold slice_get. rewrite lookup_ge_None_2; [|rewrite (he_len _ _ Hr); unfold SLAB_MIN_ORDER; lia].
  by destruct (0 <=? _).
Qed.
End Record.

(** ** Witnesses *)

(** Lists as [intrusive_collections] has them. *)
Fixpoint demo_remove (l : list Z) (p : Z) : option Z * list Z :=
  match l with
  | [] => (None, [])
  | q :: l => if q =? p then (Some q, l) else let '(o, l') := demo_remove l p in (o, q :: l')
  end.

Fixpoint demo_next (l : list Z) (p : Z) : option Z :=
  match l with
  | [] => None
  | q :: l => if q =? p then head l else demo_next l p
  end.

Lemma demo_remove_in l a p b :
  l = a ++ p :: b -> NoDup l -> exists l', demo_remove l p = (Some p, l') /\ l' = a ++ b.
Proof.
  revert l. induction a as [|x a IH]; intros l ->; cbn.
  - intros _. rewrite Z.eqb_refl. by eexists.
  - intros [Hx Hnd]%NoDup_cons. destruct (IH _ eq_refl Hnd) as (l' & -> & ->).
    rewrite (proj2 (Z.eqb_neq x p)) by set_solver. by eexists.
Qed.

#[export] Instance demo_lists : LinkedList (list Z) := {|
  ll_new := [];
  front_mut := head;
  insert_after l c p :=
    match c with
    | None => p :: l
    | Some q => flat_map (fun x => if x =? q then [x; p] else [x]) l
    end;
  move_next l c := match c with None => head l | Some q => demo_next l q end;
  cursor_remove l c := match c with None => (None, l) | Some p => demo_remove l p end;
  push_front l p := p :: l;
  links := id;
  links_new := eq_refl;
  front_mut_head l := eq_refl;
  insert_after_null l p := eq_refl;
  move_next_null l := eq_refl;
  push_front_cons l p := eq_refl;
  cursor_remove_in := demo_remove_in
|}.

Definition demo_heap : SlabAllocatorRecord (list Z) PMM := slab_record_new demo_pmm.

Lemma demo_heap_reachable : heap_reachable demo_heap [].
Proof. apply hr_init, demo_pmm_out. Qed.

(** The heap after two requests for 24 bytes, each of which took a page. *)
Definition demo_request : Layout := mkLayout 24 8.
Lemma demo_request_ok : heap_layout demo_request /\ small_layout demo_request.
Proof. by split_and!. Qed.

Definition demo_allocs (n : nat) : outcome (list (Z * Layout) * SlabAllocatorRecord (list Z) PMM) :=
  Nat.iter n (fun m => let! ' (live, r) := m in
                       let! ' (o, r) := global_allocate demo_request r in
                       Ok (match o with Some (p, _) => (p, demo_request) :: live | None => live end, r))
           (Ok ([], demo_heap)).

Lemma demo_allocs_reachable n live r : demo_allocs n = Ok (live, r) -> heap_reachable r live.
Proof.
  revert live r. induction n as [|n IH]; cbn [demo_allocs Nat.iter].
  - intros live r [= <- <-]. apply demo_heap_reachable.
  - change (Nat.iter n _ _) with (demo_allocs n). intros live r E.
    apply obind_Ok in E as ([live0 r0] & E0 & E). apply obind_Ok in E as ([o r1] & E1 & E).
    injection E as <- <-. eapply hr_alloc; [by apply IH|apply demo_request_ok|exact E1].
Qed.

Definition demo_live : list (Z * Layout) := [(0xFFFF888000401060, demo_request); (0xFFFF888000400060, demo_request)].

Lemma demo_two_blocks : exists r, heap_reachable r demo_live.
Proof.
  assert (E : exists r, demo_allocs 2 = Ok (demo_live, r)) by (vm_compute; by eexists).
  destruct E as [r E]. exists r. exact (demo_allocs_reachable _ _ _ E).
Qed.

Lemma heap_reachable_safe_witness :
  all_apart demo_live /\ exists r, heap_reachable r demo_live /\
    exists o r', global_allocate (mkLayout 5000 4096) r = Ok (o, r').
Proof.
  destruct demo_two_blocks as [r Hr]. destruct (heap_reachable_safe _ _ Hr) as (Ha & _ & Hap). split; [done|].
  exists r. split; [done|]. destruct (Ha (mkLayout 5000 4096)) as (o & r' & Eg & _); [by split_and!|]. by exists o, r'.
Defined.

Lemma heap_one_block_per_page_witness : 0xFFFF888000401060 / 4096 <> 0xFFFF888000400060 / 4096.
Proof.
  destruct demo_two_blocks as [r Hr].
  by apply (heap_one_block_per_page _ _ 0 1 _ _ demo_request demo_request Hr);
    [..|apply demo_request_ok|apply demo_request_ok].
Defined.

Lemma heap_reuses_block_witness :
  exists r n r1 r2, heap_reachable r demo_live /\ global_deallocate 0xFFFF888000401060 demo_request r = Ok r1 /\
    global_allocate demo_request r1 = Ok (Some (0xFFFF888000401060, n), r2) /\ pages (memory r2) = pages (memory r).
Proof.
  destruct demo_two_blocks as [r Hr]. exists r.
  destruct (heap_reuses_block _ _ 0xFFFF888000401060 demo_request Hr) as (n & r1 & r2 & E1 & E2 & _ & Hp).
  - apply list_elem_of_here.
  - apply demo_request_ok.
  - exists n, r1, r2. exact (conj Hr (conj E1 (conj E2 Hp))).
Defined.
