(* ===== verification/Heap.v ===== *)
(** * The heap as its clients see it

    [GlobalAlloc] for the code of the [alloc] crate: what the collections rely on,
    as a class over the blocks that are out, and the global allocator as its
    instance. *)

From S2P Require Import Prelude Addr PageAlloc PageAllocTheorems Slab SlabTheorems AllocTheorems.
Open Scope Z_scope.

(** A block: its first byte and the layout it was asked for with. *)
Definition Block : Type := Z * Layout.

(** The blocks that are out, in any order.  A request fails with the null pointer
    or takes a block that meets none of them; each can be given back. *)
Class HeapOps (R : Type) := {
  heap_alloc : Layout -> R -> outcome (Z * R);
  heap_dealloc : Z -> Layout -> R -> outcome R
}.

Class GlobalHeap (R : Type) `{HeapOps R} := {
  heap_live : R -> list Block -> Prop;
  heap_live_perm r live live' : live ≡ₚ live' -> heap_live r live -> heap_live r live';
  heap_live_apart r b live c : heap_live r (b :: live) -> c ∈ live -> apart b c;
  heap_alloc_ok r live layout : heap_live r live -> heap_layout layout -> 0 < layout_size layout ->
    exists p r', heap_alloc layout r = Ok (p, r') /\ 0 <= p < USIZE /\ (layout_align layout | p) /\
      heap_live r' (if p =? 0 then live else (p, layout) :: live);
  heap_dealloc_ok r live p layout : heap_live r ((p, layout) :: live) -> p <> 0 ->
    exists r', heap_dealloc p layout r = Ok r' /\ heap_live r' live
}.

(** ** A run of the global allocator *)

Section Run.
Context `{SlabSizes} `{BitSlice} {L : Type} `{LinkedList L}.
Context {St : Type} `{CoreAllocator St}.

(** Requests and returns, in any order, over the pages of [st0]. *)
Inductive heap_from (st0 : St) : SlabAllocatorRecord L St -> list Block -> Prop :=
| hf_init : heap_from st0 (slab_record_new st0) []
| hf_alloc r live layout o r' :
    heap_from st0 r live -> heap_layout layout -> global_allocate layout r = Ok (o, r') ->
    heap_from st0 r' (match o with Some (p, _) => (p, layout) :: live | None => live end)
| hf_dealloc r a p layout b r' :
    heap_from st0 r (a ++ (p, layout) :: b) -> global_deallocate p layout r = Ok r' -> heap_from st0 r' (a ++ b).

Context `{!PageSource St}.

Lemma heap_from_reachable st0 r live : out st0 ∅ -> heap_from st0 r live -> heap_reachable r live.
Proof. intros Ho. induction 1; [by apply hr_init|by eapply hr_alloc|by eapply hr_dealloc]. Qed.

(** The bytes of a block are bytes of the source. *)
Lemma owned_within (r : SlabAllocatorRecord L St) blocks p l y :
  heap_ok r blocks -> owned r blocks p l -> p <= y < p + layout_size l -> source_bytes y.
Proof.
  intros Hr (_ & [[Hz _]|[[Hs (o & Eo & Hu)]|(_ & Hb & _)]]) Hy; [lia| |by eapply (source_within _ _ _ _ _ (me_out _ _ (he_mem _ _ Hr)) Hb)].
  destruct (in_use_slab _ _ _ _ Hr Hu) as (c & slab & _ & _ & _ & _ & Hb & _ & _ & Hlo & Hhi & _).
  pose proof (slot_order_fits l o Hs Eo). apply (source_within _ _ _ _ y (me_out _ _ (he_mem _ _ Hr)) Hb).
  rewrite slab_layout_eq. cbn [layout_size]. lia.
Qed.

Lemma heap_from_within st0 r live p l y :
  out st0 ∅ -> heap_from st0 r live -> (p, l) ∈ live -> p <= y < p + layout_size l -> source_bytes y.
Proof.
  intros Ho Hf Hin. apply (heap_from_reachable _ _ _ Ho) in Hf as (blocks & Hok & Hown & _)%heap_reachable_inv.
  by apply (owned_within r blocks p l y Hok), Hown.
Qed.
End Run.

(** ** The global allocator *)

Section Instance.
Context `{SlabSizes} `{BitSlice} {L : Type} `{LinkedList L}.
Context {St : Type} `{CoreAllocator St, !PageSource St}.
Implicit Types r : SlabAllocatorRecord L St.

#[export] Instance global_ops : HeapOps (SlabAllocatorRecord L St) := {|
  heap_alloc := alloc;
  heap_dealloc := dealloc
|}.

(** The pages that the heap stands on. *)
Context (st0 : St).

Definition global_live r (live : list Block) : Prop :=
  out st0 ∅ /\ exists live', live ≡ₚ live' /\ heap_from st0 r live'.

Lemma global_live_perm r live live' : live ≡ₚ live' -> global_live r live -> global_live r live'.
Proof. intros Hp (Ho & l & Hl & Hr). split; [done|]. exists l. split; [by rewrite <- Hp|done]. Qed.

(** A block of the list, and the others. *)
Lemma global_live_split r b live :
  global_live r (b :: live) -> exists a c, live ≡ₚ a ++ c /\ out st0 ∅ /\ heap_from st0 r (a ++ b :: c).
Proof.
  intros (Ho & live' & Hp & Hr). assert (Hin : b ∈ live') by (rewrite <- Hp; left).
  apply list_elem_of_split in Hin as (a & c & ->). exists a, c. split; [|done].
  apply (Permutation_cons_inv (a := b)). by rewrite Hp, Permutation_middle.
Qed.

Lemma global_live_apart r b live c : global_live r (b :: live) -> c ∈ live -> apart b c.
Proof.
  intros (a & d & Hp & Ho & Hr)%global_live_split Hc.
  apply (heap_from_reachable _ _ _ Ho), heap_reachable_inv in Hr as (blocks & _ & _ & Hap).
  apply all_apart_remove in Hap as [_ Hap]. apply Hap. by rewrite <- Hp.
Qed.

Lemma global_alloc_ok r live layout :
  global_live r live -> heap_layout layout -> 0 < layout_size layout ->
  exists p r', alloc layout r = Ok (p, r') /\ 0 <= p < USIZE /\ (layout_align layout | p) /\
    global_live r' (if p =? 0 then live else (p, layout) :: live).
Proof.
  intros (Ho & live' & Hp & Hr) Hl Hpos. pose proof Hr as (blocks & Hok & _)%(heap_from_reachable _ _ _ Ho)%heap_reachable_inv.
  destruct (global_allocate_spec r blocks layout Hok Hl) as (r' & blocks' & o & E & Hok' & _ & Hg).
  unfold alloc. rewrite E. cbn [obind]. eexists _, r'. split; [done|]. pose proof (hf_alloc _ _ _ _ _ _ Hr Hl E) as Hr'.
  destruct o as [[p n]|]; [|by split_and!; [..|apply Z.divide_0_r|split; [|exists live']]]. destruct Hg as (_ & Hal & Hown & _).
  pose proof (owned_pos _ _ _ _ Hok' Hown) as Hp0. pose proof (owned_bound _ _ _ _ Hok' Hown). split; [lia|]. split; [by apply Hal|]. rewrite (proj2 (Z.eqb_neq p 0)) by lia.
  split; [done|]. exists ((p, layout) :: live'). by rewrite Hp.
Qed.

Lemma global_dealloc_ok r live p layout :
  global_live r ((p, layout) :: live) -> p <> 0 -> exists r', dealloc p layout r = Ok r' /\ global_live r' live.
Proof.
  intros (a & c & Hp & Ho & Hr)%global_live_split Hp0.
  pose proof Hr as (blocks & Hok & Hown & _)%(heap_from_reachable _ _ _ Ho)%heap_reachable_inv.
  destruct (global_deallocate_spec r blocks p layout Hok) as (r' & blocks' & E & _); [apply Hown; apply elem_of_app; right; left|].
  unfold dealloc. rewrite (proj2 (Z.eqb_neq p 0) Hp0). exists r'. split; [done|]. split; [done|].
  exists (a ++ c). split; [done|]. by eapply hf_dealloc.
Qed.

Definition global_heap : GlobalHeap (SlabAllocatorRecord L St) := {|
  heap_live := global_live;
  heap_live_perm := global_live_perm;
  heap_live_apart := global_live_apart;
  heap_alloc_ok := global_alloc_ok;
  heap_dealloc_ok := global_dealloc_ok
|}.

Lemma global_live_new : out st0 ∅ -> global_live (slab_record_new st0) [].
Proof. intros Ho. split; [done|]. exists []. split; [done|]. by apply hf_init. Qed.
End Instance.
