(* ===== verification/Vec.v ===== *)
(** * Vectors

    What [test.rs] uses of [alloc::vec::Vec]: growing by doubling through the global
    allocator, pushing, iterating and dropping, over the bytes of memory.  The
    correctness lemmas stand on the heap interface alone: a vector owns its block,
    and an operation on it changes no byte of another block. *)

From S2P Require Import Prelude AllocTheorems Heap.
Open Scope Z_scope.

(** ** Bytes *)

Definition Bytes := Z -> Z.

Definition store (m : Bytes) (a : Z) (bs : list Z) : Bytes :=
  fun x => if (a <=? x) && (x <? a + len bs) then default 0 (bs !! Z.to_nat (x - a)) else m x.
Definition load (m : Bytes) (a n : Z) : list Z := (fun i => m (a + Z.of_nat i)) <$> seq 0 (Z.to_nat n).
(** [ptr::copy_nonoverlapping] *)
Definition copy (m : Bytes) (src dst n : Z) : Bytes :=
  fun x => if (dst <=? x) && (x <? dst + n) then m (src + (x - dst)) else m x.

Lemma load_ext m m' a a' n :
  (forall k, 0 <= k < n -> m' (a' + k) = m (a + k)) -> load m' a' n = load m a n.
Proof.
  intros Hm. unfold load. apply list_fmap_ext. intros i x [-> Hx]%lookup_seq. apply Hm. lia.
Qed.

Lemma load_store m a bs : load (store m a bs) a (len bs) = bs.
Proof.
  apply list_eq. intros i. unfold load. rewrite list_lookup_fmap. unfold len. rewrite Nat2Z.id.
  destruct (decide (i < length bs)%nat) as [Hi|Hi].
  - rewrite lookup_seq_lt by done. cbn [fmap option_fmap option_map]. unfold store, len.
    rewrite (proj2 (Z.leb_le a _)), (proj2 (Z.ltb_lt _ (a + _))) by lia. cbn [andb].
    replace (Z.to_nat (a + Z.of_nat (0 + i) - a)) with i by lia.
    destruct (lookup_lt_is_Some_2 bs i Hi) as [x ->]. done.
  - rewrite lookup_seq_ge by lia. cbn. symmetry. apply lookup_ge_None_2. lia.
Qed.

Lemma store_other m a bs y : ~ (a <= y < a + len bs) -> store m a bs y = m y.
Proof. intros Hy. unfold store. destruct (Z.leb_spec a y), (Z.ltb_spec y (a + len bs)); cbn [andb]; try done; lia. Qed.

Lemma copy_in m src dst n k : 0 <= k < n -> copy m src dst n (dst + k) = m (src + k).
Proof.
  intros Hk. unfold copy. rewrite (proj2 (Z.leb_le dst _)), (proj2 (Z.ltb_lt _ (dst + n))) by lia. cbn [andb]. f_equal. lia.
Qed.

Lemma copy_other m src dst n y : ~ (dst <= y < dst + n) -> copy m src dst n y = m y.
Proof. intros Hy. unfold copy. destruct (Z.leb_spec dst y), (Z.ltb_spec y (dst + n)); cbn [andb]; try done; lia. Qed.

(** The bytes of some blocks are the same. *)
Definition agree (m m' : Bytes) (live : list Block) : Prop :=
  forall b y, b ∈ live -> b.1 <= y < b.1 + layout_size b.2 -> m' y = m y.

Lemma agree_trans m m' m'' live : agree m m' live -> agree m' m'' live -> agree m m'' live.
Proof. intros H1 H2 b y Hb Hy. rewrite (H2 b) by done. by apply (H1 b). Qed.
Lemma agree_sub m m' live live' : live' ⊆ live -> agree m m' live -> agree m m' live'.
Proof. intros Hs Ha b y Hb. apply Ha. by apply Hs. Qed.

(** Writing inside one block leaves those that do not meet it. *)
Lemma agree_store m a bs b live :
  b.1 <= a -> a + len bs <= b.1 + layout_size b.2 -> (forall c, c ∈ live -> apart b c) -> agree m (store m a bs) live.
Proof.
  intros H1 H2 Hap c y Hc Hy. apply store_other. destruct (Hap c Hc); lia.
Qed.
Lemma agree_copy m src b n live :
  n <= layout_size b.2 -> (forall c, c ∈ live -> apart b c) -> agree m (copy m src b.1 n) live.
Proof. intros Hn Hap c y Hc Hy. apply copy_other. destruct (Hap c Hc); lia. Qed.

(** ** Items *)

(** How a type lies in memory. *)
Record Item (T : Type) := mkItem {
  item_size : Z;
  item_align : Z;
  encode : T -> list Z;
  decode : list Z -> T;
  item_valid : T -> Prop;
  item_size_ok : 0 < item_size <= 1024;
  item_align_ok : is_power_of_two item_align = true /\ item_align <= 4096;
  encode_len x : len (encode x) = item_size;
  decode_encode x : item_valid x -> decode (encode x) = x
}.
Arguments item_size {T} i.
Arguments item_align {T} i.
Arguments encode {T} i.
Arguments decode {T} i.
Arguments item_valid {T} i.
Arguments item_size_ok {T} i.
Arguments item_align_ok {T} i.
Arguments encode_len {T} i x.
Arguments decode_encode {T} i x.

(** ** Vectors *)

(** [handle_alloc_error] without [std] and without a handler of its own: a panic. *)
Definition alloc_error {A : Type} (o : outcome (option A)) : outcome A := let! r := o in oexpect r.

Record Vec := mkVec { vcap : Z; vptr : Z; vlen : Z }.

Section Vec.
Context {R : Type} `{GlobalHeap R}.

(** The heap refuses a request while at most [k] blocks are out besides [live]. *)
Definition refused (k : Z) (live : list Block) : Prop :=
  exists (h h' : R) held layout, len held <= k /\ heap_live h (held ++ live) /\ heap_layout layout /\
    0 < layout_size layout /\ heap_alloc layout h = Ok (0, h').

Lemma refused_app k k' held live : refused k (held ++ live) -> k + len held <= k' -> refused k' live.
Proof using.
  intros (h & h' & bs & layout & Hk & Hl & Hx) Hk'. exists h, h', (bs ++ held), layout. rewrite <- app_assoc. split; [|done].
  unfold len in *. rewrite length_app. lia.
Qed.

(** The allocator and the bytes. *)
Record Store := mkStore { st_heap : R; st_bytes : Bytes }.

(** [GlobalAlloc::realloc] *)
Definition realloc (ptr : Z) (layout : Layout) (new_size : Z) (st : Store) : outcome (Z * Store) :=
  let! ' (new_ptr, h) := heap_alloc (mkLayout new_size (layout_align layout)) (st_heap st) in
  if new_ptr =? 0 then Ok (0, mkStore h (st_bytes st))
  else
    let m := copy (st_bytes st) ptr new_ptr (Z.min (layout_size layout) new_size) in
    let! h := heap_dealloc ptr layout h in Ok (new_ptr, mkStore h m).

Section Typed.
Context {T : Type} (I : Item T).
Implicit Types (v : Vec) (xs : list T) (st : Store) (m : Bytes).

Definition vec_layout (cap : Z) : Layout := mkLayout (item_size I * cap) (item_align I).

(** [Vec::new]: nothing is allocated. *)
Definition vec_new : Vec := mkVec 0 (item_align I) 0.

(** [RawVec::MIN_NON_ZERO_CAP] *)
Definition min_cap : Z := if item_size I =? 1 then 8 else if item_size I <=? 1024 then 4 else 1.

(** [RawVec::grow_one]; a capacity that does not fit panics, and [None] stands for the
    call of [handle_alloc_error], from which nothing returns. *)
Definition grow_one v st : outcome (option (Vec * Store)) :=
  let cap := Z.max min_cap (Z.max (vcap v * 2) (vlen v + 1)) in
  let! layout := oexpect (layout_array (item_size I) (item_align I) cap) in
  let! ' (ptr, st) :=
    if vcap v =? 0 then
      let! ' (ptr, h) := heap_alloc layout (st_heap st) in Ok (ptr, mkStore h (st_bytes st))
    else realloc (vptr v) (vec_layout (vcap v)) (layout_size layout) st in
  Ok (if ptr =? 0 then None else Some (mkVec cap ptr (vlen v), st)).

Definition item_ptr v (i : Z) : Z := vptr v + item_size I * i.

Definition push v (x : T) st : outcome (option (Vec * Store)) :=
  try! ' (v, st) := if vlen v =? vcap v then grow_one v st else Ok (Some (v, st)) in
  Ok (Some (mkVec (vcap v) (vptr v) (vlen v + 1),
            mkStore (st_heap st) (store (st_bytes st) (item_ptr v (vlen v)) (encode I x)))).

Definition get v m (i : Z) : T := decode I (load m (item_ptr v i) (item_size I)).

(** [for (i, x) in v.iter().enumerate()] *)
Fixpoint for_each (body : Z -> T -> outcome unit) (n : nat) (i : Z) v m : outcome unit :=
  match n with
  | O => Ok tt
  | S n => let! _ := body i (get v m i) in for_each body n (i + 1) v m
  end.
Definition vec_iter (body : Z -> T -> outcome unit) v m : outcome unit := for_each body (Z.to_nat (vlen v)) 0 v m.

(** Dropping the buffer. *)
Definition drop_buf v st : outcome Store :=
  if vcap v =? 0 then Ok st
  else let! h := heap_dealloc (vptr v) (vec_layout (vcap v)) (st_heap st) in Ok (mkStore h (st_bytes st)).

(** ** What a vector owns and holds *)

Definition vblock v : list Block := if vcap v =? 0 then [] else [(vptr v, vec_layout (vcap v))].

Record vec_ok m v xs : Prop := {
  vo_len : vlen v = len xs;
  vo_cap : len xs <= vcap v <= Z.max 8 (2 * len xs);
  vo_ptr : 0 < vptr v < USIZE;
  vo_valid : Forall (item_valid I) xs;
  vo_items : forall i x, xs !! i = Some x -> load m (item_ptr v (Z.of_nat i)) (item_size I) = encode I x
}.

Lemma vec_new_ok m : vec_ok m vec_new [].
Proof using.
  pose proof (item_align_ok I) as [Ha Hb]. unfold is_power_of_two in Ha.
  apply andb_true_iff in Ha as [Ha%Z.ltb_lt _]. split; cbn; try done. change USIZE with 18446744073709551616. lia.
Qed.

(** The items lie inside the block. *)
Lemma vec_items_in m v xs i : vec_ok m v xs -> 0 <= i < vcap v ->
  exists b, vblock v = [b] /\ b.1 <= item_ptr v i /\ item_ptr v i + item_size I <= b.1 + layout_size b.2.
Proof using.
  intros Hv Hi. unfold vblock, item_ptr. rewrite (proj2 (Z.eqb_neq (vcap v) 0)) by lia. eexists. split; [done|].
  cbn [fst snd vec_layout layout_size]. pose proof (item_size_ok I). nia.
Qed.

Lemma vec_ok_agree m m' v xs : agree m m' (vblock v) -> vec_ok m v xs -> vec_ok m' v xs.
Proof using.
  intros Ha Hv. pose proof Hv as [H1 H2 H3 H4 H5]. split; try done. intros i x Hx. rewrite <- (H5 i x Hx).
  apply lookup_lt_Some in Hx as Hi. unfold len in H2.
  destruct (vec_items_in m v xs (Z.of_nat i) Hv) as (b & Eb & Hlo & Hhi); [lia|].
  apply load_ext. intros k Hk. apply (Ha b); [rewrite Eb; left|lia].
Qed.

(** A reading of an item gives it back. *)
Lemma get_ok m v xs i x : vec_ok m v xs -> xs !! i = Some x -> get v m (Z.of_nat i) = x.
Proof using.
  intros Hv Hx. unfold get. rewrite (vo_items _ _ _ Hv i x Hx). apply decode_encode.
  pose proof (vo_valid _ _ _ Hv) as Hf. rewrite Forall_forall in Hf. apply Hf. by eapply list_elem_of_lookup_2.
Qed.

Lemma for_each_ok body m v xs n : forall i,
  vec_ok m v xs -> (i + n = length xs)%nat ->
  (forall k x, xs !! k = Some x -> body (Z.of_nat k) x = Ok tt) -> for_each body n (Z.of_nat i) v m = Ok tt.
Proof using.
  induction n as [|n IH]; intros i Hv Hn Hb; cbn [for_each]; [done|].
  destruct (lookup_lt_is_Some_2 xs i) as [x Hx]; [lia|]. rewrite (get_ok m v xs i x Hv Hx), (Hb i x Hx). cbn [obind].
  replace (Z.of_nat i + 1) with (Z.of_nat (S i)) by lia. apply IH; [done|lia|done].
Qed.

Lemma vec_iter_ok body m v xs :
  vec_ok m v xs -> (forall k x, xs !! k = Some x -> body (Z.of_nat k) x = Ok tt) -> vec_iter body v m = Ok tt.
Proof using.
  intros Hv Hb. unfold vec_iter. rewrite (vo_len _ _ _ Hv). unfold len. rewrite Nat2Z.id.
  by apply (for_each_ok body m v xs (length xs) 0).
Qed.

Lemma drop_buf_ok v live st :
  heap_live (st_heap st) (vblock v ++ live) -> 0 < vptr v ->
  exists st', drop_buf v st = Ok st' /\ heap_live (st_heap st') live /\ st_bytes st' = st_bytes st.
Proof using.
  unfold vblock, drop_buf. intros Hl Hp. destruct (vcap v =? 0); [by exists st|].
  destruct (heap_dealloc_ok _ _ _ _ Hl) as (h & -> & Hh); [lia|]. cbn [obind]. by eexists.
Qed.

(** ** Growing and pushing *)

Lemma vblock_len v : 0 <= len (vblock v) <= 1.
Proof using. unfold vblock. by destruct (vcap v =? 0). Qed.

(** The result of an operation that may run out of memory, with the vector's block out. *)
Definition made_vec (m : Bytes) (live : list Block) (xs : list T) (o : option (Vec * Store)) : Prop :=
  match o with
  | None => refused 1 live
  | Some (v, st) => heap_live (st_heap st) (vblock v ++ live) /\ vec_ok (st_bytes st) v xs /\ agree m (st_bytes st) live
  end.

Lemma vec_layout_ok cap : 0 < cap <= 2 ^ 42 ->
  layout_array (item_size I) (item_align I) cap = Some (vec_layout cap) /\
  heap_layout (vec_layout cap) /\ 0 < layout_size (vec_layout cap).
Proof using.
  intros Hc. pose proof (item_size_ok I). pose proof (item_align_ok I) as [Ha Hb]. change (2 ^ 42) with 4398046511104 in Hc.
  assert (Hs : 0 < item_size I * cap <= 1024 * 4398046511104) by nia. unfold layout_array, heap_layout, layout_valid.
  cbn [vec_layout layout_size layout_align]. rewrite (proj2 (Z.leb_le _ (ISIZE - item_align I))) by lia.
  split_and!; done || lia.
Qed.

(** A fresh buffer for no items. *)
Lemma fresh_vec_ok m live cap p (h : R) :
  0 < cap <= 8 -> 0 <= p < USIZE -> heap_live h (if p =? 0 then live else (p, vec_layout cap) :: live) -> (p = 0 -> refused 1 live) ->
  made_vec m live [] (if p =? 0 then None else Some (mkVec cap p 0, mkStore h m)).
Proof using.
  intros Hc Hp Hl Hno. destruct (Z.eqb_spec p 0); [by apply Hno|]. split_and!; [|split; cbn [vlen vcap vptr]; change (len (A:=T) []) with 0; done || lia|done].
  unfold vblock. cbn [vcap vptr]. rewrite (proj2 (Z.eqb_neq cap 0)) by lia. exact Hl.
Qed.

(** A larger buffer for the same items. *)
Lemma realloc_ok v xs cap live st :
  heap_live (st_heap st) (vblock v ++ live) -> vec_ok (st_bytes st) v xs -> 0 < vcap v ->
  len xs < cap <= Z.max 8 (2 * len xs) -> vcap v <= cap <= 2 ^ 42 ->
  exists p st', realloc (vptr v) (vec_layout (vcap v)) (layout_size (vec_layout cap)) st = Ok (p, st') /\
    made_vec (st_bytes st) live xs (if p =? 0 then None else Some (mkVec cap p (vlen v), st')).
Proof using.
  intros Hl Hv Hc Hcap Hmax. destruct (vec_layout_ok cap ltac:(lia)) as (_ & Hlay & Hpos). unfold realloc.
  unfold vblock in Hl. rewrite (proj2 (Z.eqb_neq (vcap v) 0)) in Hl by lia. cbn [app] in Hl.
  destruct (heap_alloc_ok _ _ (vec_layout cap) Hl Hlay Hpos) as (p & h & E & Hp & _ & Hl').
  change (mkLayout _ _) with (vec_layout cap). rewrite E. cbn [obind]. destruct (Z.eqb_spec p 0) as [->|Hp0].
  { eexists _, _. split; [done|]. by exists (st_heap st), h, [(vptr v, vec_layout (vcap v))], (vec_layout cap). }
  assert (Hap : forall c, c ∈ live -> apart (p, vec_layout cap) c).
  { intros c Hin. apply (heap_live_apart _ _ _ _ Hl'). by right. }
  apply (heap_live_perm _ _ ((vptr v, vec_layout (vcap v)) :: (p, vec_layout cap) :: live)) in Hl'; [|apply Permutation_swap].
  pose proof (vo_ptr _ _ _ Hv) as Hq. destruct (heap_dealloc_ok _ _ _ _ Hl') as (h2 & -> & Hl2); [lia|]. cbn [obind].
  eexists _, _. split; [done|]. rewrite (proj2 (Z.eqb_neq p 0) Hp0). cbn [made_vec st_heap st_bytes].
  pose proof (item_size_ok I) as Hsz. cbn [vec_layout layout_size] in *. rewrite Z.min_l by nia. split_and!.
  - unfold vblock. cbn [vcap vptr]. by rewrite (proj2 (Z.eqb_neq cap 0)) by lia.
  - pose proof Hv as [H1 H2 H3 H4 H5]. split; cbn [vlen vcap vptr]; try done; try lia.
    intros i x Hx. rewrite <- (H5 i x Hx). apply lookup_lt_Some in Hx. unfold len in *. unfold item_ptr. cbn [vptr].
    apply load_ext. intros k Hk. rewrite <- !Z.add_assoc. apply copy_in. nia.
  - apply (agree_copy _ _ (p, vec_layout cap)); [cbn; nia|done].
Qed.

Lemma grow_one_ok v xs live st :
  heap_live (st_heap st) (vblock v ++ live) -> vec_ok (st_bytes st) v xs -> vlen v = vcap v -> len xs <= 2 ^ 40 ->
  exists o, grow_one v st = Ok o /\ made_vec (st_bytes st) live xs o /\
    match o with Some (v', _) => vlen v' < vcap v' | None => True end.
Proof using.
  intros Hl Hv Hfull Hlen. pose proof Hv as [H1 H2 H3 H4 H5]. change (2 ^ 40) with 1099511627776 in Hlen. unfold grow_one.
  set (cap := Z.max min_cap _). assert (Hmin : 4 <= min_cap <= 8).
  { unfold min_cap. pose proof (item_size_ok I). destruct (item_size I =? 1); [lia|]. by rewrite (proj2 (Z.leb_le (item_size I) 1024)) by lia. }
  assert (Hcap : len xs < cap <= Z.max 8 (2 * len xs)) by lia. assert (Hmax : vcap v <= cap <= 2 ^ 42) by (change (2 ^ 42) with 4398046511104; lia).
  destruct (vec_layout_ok cap ltac:(lia)) as (-> & Hlay & Hpos). cbn [oexpect obind].
  destruct (Z.eqb_spec (vcap v) 0) as [Hz|Hz].
  - assert (xs = []) as -> by (apply nil_length_inv; unfold len in *; lia). unfold vblock in Hl. rewrite Hz in Hl. cbn [Z.eqb app] in Hl.
    destruct (heap_alloc_ok _ _ (vec_layout cap) Hl Hlay Hpos) as (p & h & E & Hp & _ & Hl'). rewrite E. cbn [obind].
    eexists. split; [done|]. change (len []) with 0 in *. rewrite H1. split; [apply fresh_vec_ok; [lia|done|done|intros ->; by exists (st_heap st), h, [], (vec_layout cap)]|].
    destruct (p =? 0); [done|]. cbn [vlen vcap]. lia.
  - destruct (realloc_ok v xs cap live st Hl Hv ltac:(unfold len in *; lia) Hcap Hmax) as (p & st' & -> & Hm). cbn [obind].
    eexists. split; [done|]. split; [exact Hm|]. destruct (p =? 0); [done|]. cbn [vlen vcap]. lia.
Qed.

(** Writing behind the last item. *)
Lemma write_ok v xs x live st :
  heap_live (st_heap st) (vblock v ++ live) -> vec_ok (st_bytes st) v xs -> vlen v < vcap v -> item_valid I x ->
  made_vec (st_bytes st) live (xs ++ [x])
    (Some (mkVec (vcap v) (vptr v) (vlen v + 1), mkStore (st_heap st) (store (st_bytes st) (item_ptr v (vlen v)) (encode I x)))).
Proof using.
  intros Hl Hv Hlt Hx. pose proof Hv as [H1 H2 H3 H4 H5]. cbn [made_vec st_heap st_bytes].
  destruct (vec_items_in _ v xs (vlen v) Hv) as (b & Eb & Hlo & Hhi); [unfold len in *; lia|].
  rewrite Eb in Hl. cbn [app] in Hl. pose proof (encode_len I x) as He. split_and!.
  - change (vblock (mkVec (vcap v) (vptr v) (vlen v + 1))) with (vblock v). rewrite Eb. exact Hl.
  - assert (El : len (xs ++ [x]) = len xs + 1) by (unfold len; rewrite length_app; cbn; lia).
    split; cbn [vlen vcap vptr]; rewrite ?El; try done; try lia; [by apply Forall_app; split; [|apply Forall_singleton]|].
    intros i y Hy. change (item_ptr (mkVec _ _ _) (Z.of_nat i)) with (item_ptr v (Z.of_nat i)).
    destruct (decide (i < length xs)%nat) as [Hi|Hi].
    + rewrite lookup_app_l in Hy by done. rewrite <- (H5 i y Hy). apply load_ext. intros k Hk. apply store_other.
      unfold item_ptr, len in *. pose proof (item_size_ok I). nia.
    + rewrite lookup_app_r in Hy by lia. apply list_lookup_singleton_Some in Hy as [Hi0 <-].
      assert (i = length xs) as -> by lia. unfold len in H1. rewrite <- H1, <- He. apply load_store.
  - apply (agree_store _ _ _ b); [done|lia|]. intros c Hin. by apply (heap_live_apart _ _ _ _ Hl).
Qed.

Lemma push_ok v xs x live st :
  heap_live (st_heap st) (vblock v ++ live) -> vec_ok (st_bytes st) v xs -> item_valid I x -> len xs <= 2 ^ 40 ->
  exists o, push v x st = Ok o /\ made_vec (st_bytes st) live (xs ++ [x]) o.
Proof using.
  intros Hl Hv Hx Hlen. unfold push. destruct (Z.eqb_spec (vlen v) (vcap v)) as [He|Hne].
  - destruct (grow_one_ok v xs live st Hl Hv He Hlen) as ([[v' st']|] & -> & Hm & Hlt); cbn [obind]; [|by eexists].
    destruct Hm as (Hl' & Hv' & Ha). eexists. split; [done|].
    destruct (write_ok v' xs x live st' Hl' Hv' Hlt Hx) as (W1 & W2 & W3). split_and!; [done|done|]. by eapply agree_trans.
  - cbn [obind]. eexists. split; [done|]. apply write_ok; try done. pose proof Hv as [H1 H2 _ _ _]. lia.
Qed.
End Typed.
End Vec.
Arguments Store R : clear implicits.
