(* ===== verification/MemTest.v ===== *)
(** * The memory test

    [test_mem] of [src/src/test.rs]: three vectors, one of them of vectors, grown,
    read and dropped.  Over every heap that keeps its blocks apart, the test ends
    and gives all of its memory back, or panics because the heap refuses a request. *)

From S2P Require Import Prelude Addr Phy PageAlloc PageAllocTheorems Slab SlabTheorems AllocTheorems Heap Vec.
Open Scope Z_scope.

(** ** The types of the items *)

Lemma le_value_small n x w : 0 <= x < w -> w = 256 ^ Z.of_nat n -> le_value (le_bytes n x) = x.
Proof. intros Hx ->. rewrite le_value_bytes. by apply Z.mod_small. Qed.

Definition encode_i32 (x : Z) : list Z := le_bytes 4 (x mod 2 ^ 32).
Definition decode_i32 (bs : list Z) : Z := let v := le_value bs in if v <? 2 ^ 31 then v else v - 2 ^ 32.
Definition valid_i32 (x : Z) : Prop := - 2 ^ 31 <= x < 2 ^ 31.

Lemma decode_encode_i32 x : valid_i32 x -> decode_i32 (encode_i32 x) = x.
Proof.
  unfold valid_i32, decode_i32, encode_i32. intros Hx. rewrite (le_value_small 4 _ (2 ^ 32)) by (done || by apply Z.mod_pos_bound).
  change (2 ^ 32) with 4294967296. change (2 ^ 31) with 2147483648 in *.
  destruct (Z.ltb_spec (x mod 4294967296) 2147483648); Z.div_mod_to_equations; lia.
Qed.

Definition encode_u32 (x : Z) : list Z := le_bytes 4 x.
Definition valid_u32 (x : Z) : Prop := 0 <= x < 2 ^ 32.

Lemma decode_encode_u32 x : valid_u32 x -> le_value (encode_u32 x) = x.
Proof. intros Hx. by apply (le_value_small 4 x (2 ^ 32)). Qed.

(** The header of a vector: three words. *)
Definition encode_vec (v : Vec) : list Z := le_bytes 8 (vcap v) ++ le_bytes 8 (vptr v) ++ le_bytes 8 (vlen v).
Definition decode_vec (bs : list Z) : Vec :=
  mkVec (le_value (take 8 bs)) (le_value (take 8 (drop 8 bs))) (le_value (drop 16 bs)).
Definition valid_vec (v : Vec) : Prop := 0 <= vcap v < USIZE /\ 0 <= vptr v < USIZE /\ 0 <= vlen v < USIZE.

Lemma decode_encode_vec v : valid_vec v -> decode_vec (encode_vec v) = v.
Proof.
  intros (H1 & H2 & H3). destruct v as [c p l]. unfold decode_vec, encode_vec. cbn [vcap vptr vlen] in *.
  pose proof (le_bytes_length 8) as Hl. rewrite take_app_length' by done. rewrite drop_app_length' by done.
  rewrite take_app_length' by done. rewrite (drop_app_ge _ _ 16), Hl by (rewrite Hl; lia). rewrite drop_app_length' by done.
  f_equal; by apply (le_value_small 8 _ USIZE).
Qed.

Lemma encode_i32_len x : len (encode_i32 x) = 4.
Proof. unfold len, encode_i32. by rewrite le_bytes_length. Qed.
Lemma encode_u32_len x : len (encode_u32 x) = 4.
Proof. unfold len, encode_u32. by rewrite le_bytes_length. Qed.
Lemma encode_vec_len v : len (encode_vec v) = 24.
Proof. unfold len, encode_vec. by rewrite !length_app, !le_bytes_length. Qed.

Definition I32 : Item Z :=
  mkItem Z 4 4 encode_i32 decode_i32 valid_i32 ltac:(lia) ltac:(by split) encode_i32_len decode_encode_i32.
Definition U32 : Item Z :=
  mkItem Z 4 4 encode_u32 le_value valid_u32 ltac:(lia) ltac:(by split) encode_u32_len decode_encode_u32.
Definition VEC : Item Vec :=
  mkItem Vec 24 8 encode_vec decode_vec valid_vec ltac:(lia) ltac:(by split) encode_vec_len decode_encode_vec.

(** Multiplication of [i32]s. *)
Definition imul32 (a b : Z) : outcome Z := if (- 2 ^ 31 <=? a * b) && (a * b <? 2 ^ 31) then Ok (a * b) else Panic.

(** ** The test *)

Section Test.
Context {R : Type} `{GlobalHeap R}.
Implicit Types (v : Vec) (st : Store R).

(** [for i in 0..n { v.push(f(i)) }] *)
Fixpoint push_loop {T : Type} (I : Item T) (f : Z -> outcome T) (n : nat) (i : Z) v st : outcome (option (Vec * Store R)) :=
  match n with
  | O => Ok (Some (v, st))
  | S n => let! x := f i in try! ' (v, st) := push I v x st in push_loop I f n (i + 1) v st
  end.

(** [assert!(i.0 == *i.1 as usize)] *)
Definition same_index (i x : Z) : outcome unit := check! i =? as_usize x in Ok tt.

(** The loop that fills [test3]. *)
Fixpoint build_rows (cols n : nat) (j : Z) v st : outcome (option (Vec * Store R)) :=
  match n with
  | O => Ok (Some (v, st))
  | S n =>
      try! ' (inner, st) := push_loop I32 (fun i => imul32 i j) cols 0 (vec_new I32) st in
      try! ' (v, st) := push VEC v inner st in
      build_rows cols n (j + 1) v st
  end.

(** [assert!( *num as usize == i * j)] over the inner vectors. *)
Definition check_row (m : Bytes) (j : Z) (row : Vec) : outcome unit :=
  vec_iter I32 (fun i num => let! ij := umul 64 i j in check! as_usize num =? ij in Ok tt) row m.

(** Dropping the items of [test3]. *)
Fixpoint drop_rows (n : nat) (i : Z) v st : outcome (Store R) :=
  match n with
  | O => Ok st
  | S n => let! st := drop_buf I32 (get VEC v (st_bytes st) i) st in drop_rows n (i + 1) v st
  end.

(** The second half, from [test3] on, with the drops at the end of the function. *)
Definition test_rows (n cols : nat) (test2 : Vec) st : outcome (option (Store R)) :=
  try! ' (test3, st) := build_rows cols n 0 (vec_new VEC) st in
  let! _ := vec_iter U32 same_index test2 (st_bytes st) in
  let! _ := vec_iter VEC (check_row (st_bytes st)) test3 (st_bytes st) in
  let! st := drop_rows (Z.to_nat (vlen test3)) 0 test3 st in
  let! st := drop_buf VEC test3 st in
  let! st := drop_buf U32 test2 st in
  Ok (Some st).

Definition test_mem_sized (n cols : nat) st : outcome (option (Store R)) :=
  try! ' (test, st) := push_loop I32 Ok n 0 (vec_new I32) st in
  try! ' (test2, st) := push_loop U32 Ok n 0 (vec_new U32) st in
  let! _ := vec_iter I32 same_index test (st_bytes st) in
  let! _ := vec_iter U32 same_index test2 (st_bytes st) in
  let! st := drop_buf I32 test st in
  let! _ := vec_iter U32 same_index test2 (st_bytes st) in
  test_rows n cols test2 st.

(** With the panic when memory runs out.  The source has 1200 rows of 10 items. *)
Definition test_mem_rows (n cols : nat) st : outcome (Store R) := alloc_error (test_mem_sized n cols st).
Definition test_mem st : outcome (Store R) := test_mem_rows 1200 10 st.

(** ** The loops *)

Lemma push_loop_ok {T} (I : Item T) f g live n : forall i v xs st,
  heap_live (st_heap st) (vblock I v ++ live) -> vec_ok I (st_bytes st) v xs ->
  (forall k, i <= k < i + Z.of_nat n -> f k = Ok (g k) /\ item_valid I (g k)) -> len xs + Z.of_nat n <= 2 ^ 40 ->
  exists o, push_loop I f n i v st = Ok o /\ made_vec I (st_bytes st) live (xs ++ (g <$> seqZ i (Z.of_nat n))) o.
Proof using.
  induction n as [|n IH]; intros i v xs st Hl Hv Hf Hlen; cbn [push_loop].
  { eexists. split; [done|]. cbn. rewrite app_nil_r. done. }
  destruct (Hf i ltac:(lia)) as [-> Hx]. cbn [obind].
  destruct (push_ok I v xs (g i) live st Hl Hv Hx ltac:(lia)) as ([[v1 st1]|] & -> & Hm); cbn [obind]; [|by eexists].
  destruct Hm as (Hl1 & Hv1 & Ha1).
  destruct (IH (i + 1) v1 (xs ++ [g i]) st1 Hl1 Hv1) as (o & -> & Hm).
  { intros k Hk. apply Hf. lia. }
  { unfold len in *. rewrite length_app. cbn. lia. }
  eexists. split; [done|]. rewrite (seqZ_cons i) by lia. cbn [fmap list_fmap]. rewrite <- app_assoc in Hm. cbn [app] in Hm.
  replace (Z.succ i) with (i + 1) by lia. replace (Z.pred (Z.of_nat (S n))) with (Z.of_nat n) by lia.
  destruct o as [[v' st']|]; [|done]. destruct Hm as (M1 & M2 & M3). split_and!; [done|done|by eapply agree_trans].
Qed.

(** The vectors [0..n]. *)
Lemma push_range_ok (I : Item Z) live n st :
  heap_live (st_heap st) live -> Z.of_nat n <= 2 ^ 31 - 1 -> (forall k, 0 <= k < 2 ^ 31 -> item_valid I k) ->
  exists o, push_loop I Ok n 0 (vec_new I) st = Ok o /\ made_vec I (st_bytes st) live (seqZ 0 (Z.of_nat n)) o.
Proof using.
  intros Hl Hn Hval. change (2 ^ 31) with 2147483648 in *.
  destruct (push_loop_ok I Ok id live n 0 (vec_new I) [] st) as (o & E & Hm).
  - exact Hl.
  - apply vec_new_ok.
  - intros k Hk. split; [done|]. apply Hval. unfold id. lia.
  - change (len (A:=Z) []) with 0. change (2 ^ 40) with 1099511627776. lia.
  - exists o. split; [done|]. by rewrite list_fmap_id in Hm.
Qed.

Lemma same_index_ok n k x : Z.of_nat n < 2 ^ 31 -> seqZ 0 (Z.of_nat n) !! k = Some x -> same_index (Z.of_nat k) x = Ok tt.
Proof using.
  intros Hn Hx. apply lookup_seqZ in Hx as [-> Hk]. change (2 ^ 31) with 2147483648 in Hn.
  unfold same_index, as_usize. rewrite Z.mod_small by lia. by rewrite Z.add_0_l, Z.eqb_refl.
Qed.

(** ** The vector of vectors *)

(** The row [j]. *)
Definition row (cols : nat) (j : Z) : list Z := (fun i => i * j) <$> seqZ 0 (Z.of_nat cols).

(** The headers [hs] of the rows lie in the outer vector, and the rows in their
    own blocks. *)
Definition rows_ok (m : Bytes) v (hs : list Vec) (rows : list (list Z)) : Prop :=
  vec_ok VEC m v hs /\ Forall2 (vec_ok I32 m) hs rows.
Definition rows_blocks (hs : list Vec) : list Block := concat (vblock I32 <$> hs).

Definition made_rows (m : Bytes) (live : list Block) (rows : list (list Z)) (o : option (Vec * Store R)) : Prop :=
  match o with
  | None => refused (len rows + 2) live
  | Some (v, st) => exists hs, heap_live (st_heap st) (vblock VEC v ++ rows_blocks hs ++ live) /\
      rows_ok (st_bytes st) v hs rows /\ agree m (st_bytes st) live
  end.

Lemma rows_agree m m' hs rows :
  agree m m' (rows_blocks hs) -> Forall2 (vec_ok I32 m) hs rows -> Forall2 (vec_ok I32 m') hs rows.
Proof using.
  intros Ha Hf. revert Ha. induction Hf as [|h r hs rows Hh Hf IH]; intros Ha; constructor.
  - eapply vec_ok_agree; [|exact Hh]. eapply agree_sub; [|exact Ha]. unfold rows_blocks. cbn. set_solver.
  - apply IH. eapply agree_sub; [|exact Ha]. unfold rows_blocks. cbn. set_solver.
Qed.

Lemma vec_header_valid m h r : vec_ok I32 m h r -> len r < 2 ^ 40 -> valid_vec h.
Proof using.
  intros [H1 H2 H3 _ _] Hr. change (2 ^ 40) with 1099511627776 in Hr. unfold valid_vec. change USIZE with 18446744073709551616 in *.
  unfold len in *. lia.
Qed.

Lemma build_row_ok cols j live st :
  heap_live (st_heap st) live -> 0 <= j -> Z.of_nat cols * (j + 1) < 2 ^ 31 ->
  exists o, push_loop I32 (fun i => imul32 i j) cols 0 (vec_new I32) st = Ok o /\
    made_vec I32 (st_bytes st) live (row cols j) o.
Proof using.
  intros Hl Hj Hc. change (2 ^ 31) with 2147483648 in *.
  destruct (push_loop_ok I32 (fun i => imul32 i j) (fun i => i * j) live cols 0 (vec_new I32) [] st) as (o & E & Hm).
  - exact Hl.
  - apply vec_new_ok.
  - intros k Hk. assert (Hb : 0 <= k * j < 2147483648) by nia. split; [|change (valid_i32 (k * j)); unfold valid_i32; change (2 ^ 31) with 2147483648; lia].
    unfold imul32. change (2 ^ 31) with 2147483648. by rewrite (proj2 (Z.leb_le _ (k * j))), (proj2 (Z.ltb_lt (k * j) _)) by lia.
  - change (len (A:=Z) []) with 0. change (2 ^ 40) with 1099511627776. nia.
  - by exists o.
Qed.

Lemma rows_blocks_len hs : len (rows_blocks hs) <= len hs.
Proof using.
  unfold rows_blocks. induction hs as [|h hs IH]; [done|]. cbn [fmap list_fmap concat]. pose proof (vblock_len I32 h). unfold len in *.
  rewrite length_app. cbn [length]. lia.
Qed.

Lemma refused_rows {T} (I : Item T) m v hs rows xs live :
  Forall2 (vec_ok I32 m) hs rows -> refused (R := R) 1 (vblock I v ++ rows_blocks hs ++ live) -> refused (R := R) (len (rows ++ xs) + 2) live.
Proof using.
  intros Hf. rewrite app_assoc. intros Hr. apply (refused_app _ _ _ _ Hr). pose proof (vblock_len I v). pose proof (rows_blocks_len hs).
  apply Forall2_length in Hf. unfold len in *. rewrite !length_app. lia.
Qed.

Lemma build_rows_ok cols live n : forall j v hs rows st,
  heap_live (st_heap st) (vblock VEC v ++ rows_blocks hs ++ live) -> rows_ok (st_bytes st) v hs rows ->
  0 <= j -> Z.of_nat cols * (j + Z.of_nat n) < 2 ^ 31 -> len hs + Z.of_nat n <= 2 ^ 40 ->
  exists o, build_rows cols n j v st = Ok o /\
    made_rows (st_bytes st) live (rows ++ (row cols <$> seqZ j (Z.of_nat n))) o.
Proof using.
  induction n as [|n IH]; intros j v hs rows st Hl [Hv Hr] Hj Hc Hlen; cbn [build_rows].
  { eexists. split; [done|]. exists hs. cbn. rewrite app_nil_r. by split_and!. }
  destruct (build_row_ok cols j _ st Hl Hj) as ([[inner st1]|] & -> & Hm); [nia| |cbn [obind]; eexists; split; [done|by apply (refused_rows VEC _ v hs _ _ _ Hr)]].
  cbn [obind]. destruct Hm as (Hl1 & Hi1 & Ha1).
  assert (Hv1 : vec_ok VEC (st_bytes st1) v hs) by (eapply vec_ok_agree; [|exact Hv]; eapply agree_sub; [|exact Ha1]; set_solver).
  assert (Hr1 : Forall2 (vec_ok I32 (st_bytes st1)) hs rows) by (eapply rows_agree; [|exact Hr]; eapply agree_sub; [|exact Ha1]; set_solver).
  apply (heap_live_perm _ _ (vblock VEC v ++ vblock I32 inner ++ rows_blocks hs ++ live)) in Hl1.
  2: { rewrite !app_assoc. do 2 f_equiv. apply Permutation_app_comm. }
  assert (Hrow : len (row cols j) < 2 ^ 40).
  { unfold len, row. rewrite length_fmap, length_seqZ. change (2 ^ 31) with 2147483648 in Hc. change (2 ^ 40) with 1099511627776. nia. }
  destruct (push_ok VEC v hs inner _ st1 Hl1 Hv1 (vec_header_valid _ _ _ Hi1 Hrow) ltac:(lia)) as ([[v2 st2]|] & -> & Hm2);
    cbn [obind]; [|eexists; split; [done|by apply (refused_rows I32 _ inner hs _ _ _ Hr1)]].
  destruct Hm2 as (Hl2 & Hv2 & Ha2).
  destruct (IH (j + 1) v2 (hs ++ [inner]) (rows ++ [row cols j]) st2) as (o & -> & Hm).
  { eapply heap_live_perm; [|exact Hl2]. unfold rows_blocks. rewrite fmap_app, concat_app. cbn [fmap list_fmap concat].
    rewrite app_nil_r, <- app_assoc. f_equiv. rewrite !app_assoc. f_equiv. apply Permutation_app_comm. }
  { split; [exact Hv2|]. apply Forall2_app.
    - eapply rows_agree; [|exact Hr1]. eapply agree_sub; [|exact Ha2]. set_solver.
    - constructor; [|done]. eapply vec_ok_agree; [|exact Hi1]. eapply agree_sub; [|exact Ha2]. set_solver. }
  { lia. } { nia. } { unfold len in *. rewrite length_app. cbn. lia. }
  eexists. split; [done|]. rewrite (seqZ_cons j) by lia. cbn [fmap list_fmap]. rewrite <- app_assoc in Hm. cbn [app] in Hm.
  replace (Z.succ j) with (j + 1) by lia. replace (Z.pred (Z.of_nat (S n))) with (Z.of_nat n) by lia.
  destruct o as [[v' st']|]; [|done]. destruct Hm as (hs' & M1 & M2 & M3). exists hs'. split_and!; [done|done|].
  eapply agree_trans; [|exact M3]. eapply agree_trans; eapply agree_sub; [|exact Ha1| |exact Ha2]; set_solver.
Qed.

Lemma check_row_ok m cols j h :
  0 <= j -> Z.of_nat cols * (j + 1) < 2 ^ 31 -> vec_ok I32 m h (row cols j) -> check_row m j h = Ok tt.
Proof using.
  intros Hj Hc Hh. change (2 ^ 31) with 2147483648 in Hc. apply (vec_iter_ok I32 _ m h (row cols j) Hh). intros k x Hx.
  unfold row in Hx. apply list_lookup_fmap_Some in Hx as (y & -> & Hy). apply lookup_seqZ in Hy as [-> Hk].
  rewrite Z.add_0_l. assert (Hb : 0 <= Z.of_nat k * j < 2147483648) by nia. rewrite umul_ok by lia. cbn [obind].
  unfold as_usize. by rewrite Z.mod_small, Z.eqb_refl by lia.
Qed.

(** The rows are given back one by one; the bytes do not change. *)
Lemma drop_rows_ok v hs rows live n : forall i st,
  (i + n = length hs)%nat -> rows_ok (st_bytes st) v hs rows ->
  heap_live (st_heap st) (rows_blocks (drop i hs) ++ live) ->
  exists st', drop_rows n (Z.of_nat i) v st = Ok st' /\ heap_live (st_heap st') live /\ st_bytes st' = st_bytes st.
Proof using.
  induction n as [|n IH]; intros i st Hn [Hv Hr] Hl; cbn [drop_rows].
  { rewrite drop_ge in Hl by lia. by exists st. }
  destruct (lookup_lt_is_Some_2 hs i) as [h Hh]; [lia|]. rewrite (get_ok VEC _ v hs i h Hv Hh).
  erewrite drop_S in Hl by exact Hh. unfold rows_blocks in Hl. cbn [fmap list_fmap concat] in Hl. rewrite <- app_assoc in Hl.
  destruct (Forall2_lookup_l _ _ _ _ _ Hr Hh) as (r & _ & Hok). pose proof (vo_ptr _ _ _ _ Hok) as Hp.
  destruct (drop_buf_ok I32 h _ st Hl) as (st1 & -> & Hl1 & Hb1); [lia|]. cbn [obind].
  replace (Z.of_nat i + 1) with (Z.of_nat (S i)) by lia.
  destruct (IH (S i) st1) as (st' & -> & Hl' & Hb'); [lia|by rewrite Hb1|done|]. exists st'. by rewrite Hb', Hb1.
Qed.

(** ** The whole test *)

(** What the test of [n] rows leaves when it gets to its end, and why it may not get
    there. *)
Definition passed (n : nat) (m : Bytes) (live : list Block) (o : option (Store R)) : Prop :=
  match o with
  | None => refused (Z.of_nat n + 3) live
  | Some st => heap_live (st_heap st) live /\ agree m (st_bytes st) live
  end.

Lemma range_iter_ok (I : Item Z) m v n :
  Z.of_nat n < 2 ^ 31 -> vec_ok I m v (seqZ 0 (Z.of_nat n)) -> vec_iter I same_index v m = Ok tt.
Proof using. intros Hn Hm. apply (vec_iter_ok I _ _ _ _ Hm). intros k x. by apply same_index_ok. Qed.

Lemma test_rows_ok n cols v2 live st :
  heap_live (st_heap st) (vblock U32 v2 ++ live) -> vec_ok U32 (st_bytes st) v2 (seqZ 0 (Z.of_nat n)) ->
  (Z.of_nat cols + 1) * (Z.of_nat n + 1) < 2 ^ 31 ->
  exists o, test_rows n cols v2 st = Ok o /\ passed n (st_bytes st) live o.
Proof using.
  intros Hl Hv2 Hn. unfold test_rows.
  destruct (build_rows_ok cols (vblock U32 v2 ++ live) n 0 (vec_new VEC) [] [] st) as ([[v4 st4]|] & -> & Hm4);
    [exact Hl|split; [apply vec_new_ok|done]|lia|lia|change (len (A:=Vec) []) with 0; change (2 ^ 31) with 2147483648 in *; change (2 ^ 40) with 1099511627776; lia| |cbn [obind]; eexists; split; [done|]].
  2: { apply (refused_app _ _ _ _ Hm4). pose proof (vblock_len U32 v2). cbn [app]. unfold len. rewrite length_fmap, length_seqZ. unfold len in *. lia. }
  cbn [obind app] in *. destruct Hm4 as (hs & Hl4 & Hr4 & Ha4).
  assert (Hv2' : vec_ok U32 (st_bytes st4) v2 (seqZ 0 (Z.of_nat n))) by (eapply vec_ok_agree; [|exact Hv2]; eapply agree_sub; [|exact Ha4]; set_solver).
  rewrite (range_iter_ok U32 _ _ n) by (done || lia). cbn [obind]. pose proof Hr4 as [Hv4 Hf4].
  rewrite (vec_iter_ok VEC _ _ _ _ Hv4).
  2: { intros k h Hh. destruct (Forall2_lookup_l _ _ _ _ _ Hf4 Hh) as (r & Hr & Hok). apply list_lookup_fmap_Some in Hr as (j & -> & Hj).
       apply lookup_seqZ in Hj as [-> Hj]. apply (check_row_ok _ cols); [lia|nia|done]. }
  cbn [obind]. rewrite (vo_len _ _ _ _ Hv4). unfold len. rewrite Nat2Z.id.
  destruct (drop_rows_ok v4 hs _ (vblock VEC v4 ++ vblock U32 v2 ++ live) (length hs) 0 st4 eq_refl Hr4) as (st5 & E5 & Hl5 & Hb5).
  { rewrite drop_0. eapply heap_live_perm; [|exact Hl4]. rewrite !app_assoc. do 2 f_equiv. apply Permutation_app_comm. }
  change (Z.of_nat 0) with 0 in E5. rewrite E5. cbn [obind].
  destruct (drop_buf_ok VEC v4 _ st5 Hl5) as (st6 & -> & Hl6 & Hb6); [apply Hv4|]. cbn [obind].
  destruct (drop_buf_ok U32 v2 _ st6 Hl6) as (st7 & -> & Hl7 & Hb7); [apply Hv2|]. cbn [obind].
  eexists. split; [done|]. split; [done|]. rewrite Hb7, Hb6, Hb5. eapply agree_sub; [|exact Ha4]. set_solver.
Qed.

Lemma test_mem_sized_ok n cols live st :
  heap_live (st_heap st) live -> (Z.of_nat cols + 1) * (Z.of_nat n + 1) < 2 ^ 31 ->
  exists o, test_mem_sized n cols st = Ok o /\ passed n (st_bytes st) live o.
Proof using.
  intros Hl Hn. assert (Hn1 : Z.of_nat n <= 2 ^ 31 - 1) by lia. unfold test_mem_sized.
  destruct (push_range_ok I32 live n st Hl Hn1) as ([[v1 st1]|] & -> & Hm1); [|cbn [obind]|cbn [obind]; eexists; split; [done|]].
  3: { apply (refused_app 1 _ [] _ Hm1). change (len (A:=Block) []) with 0. lia. }
  { intros k Hk. change (valid_i32 k). unfold valid_i32. lia. }
  destruct Hm1 as (Hl1 & Hv1 & Ha1).
  destruct (push_range_ok U32 _ n st1 Hl1 Hn1) as ([[v2 st2]|] & -> & Hm2); [|cbn [obind]|cbn [obind]; eexists; split; [done|]].
  3: { apply (refused_app _ _ _ _ Hm2). pose proof (vblock_len I32 v1). lia. }
  { intros k Hk. change (valid_u32 k). unfold valid_u32. change (2 ^ 31) with 2147483648 in Hk. change (2 ^ 32) with 4294967296. lia. }
  destruct Hm2 as (Hl2 & Hv2 & Ha2).
  assert (Hv1' : vec_ok I32 (st_bytes st2) v1 (seqZ 0 (Z.of_nat n))) by (eapply vec_ok_agree; [|exact Hv1]; eapply agree_sub; [|exact Ha2]; set_solver).
  rewrite (range_iter_ok I32 _ _ n) by (done || lia). cbn [obind]. rewrite (range_iter_ok U32 _ _ n) by (done || lia). cbn [obind].
  assert (Hl2' : heap_live (st_heap st2) (vblock I32 v1 ++ vblock U32 v2 ++ live)).
  { eapply heap_live_perm; [|exact Hl2]. rewrite !app_assoc. f_equiv. apply Permutation_app_comm. }
  destruct (drop_buf_ok I32 v1 _ st2 Hl2') as (st3 & -> & Hl3 & Hb3); [apply Hv1|]. cbn [obind]. rewrite <- Hb3 in Hv2.
  rewrite (range_iter_ok U32 _ _ n) by (done || lia). cbn [obind].
  destruct (test_rows_ok n cols v2 live st3 Hl3 Hv2 Hn) as (o & -> & Hp). exists o. split; [done|].
  destruct o as [st'|]; [|done]. destruct Hp as [Hp1 Hp2]. rewrite Hb3 in Hp2. split; [done|].
  eapply agree_trans; [exact Ha1|]. eapply agree_trans; [|exact Hp2]. eapply agree_sub; [|exact Ha2]. set_solver.
Qed.

(** C29: over every heap that hands out blocks apart from each other, the memory test of
    any size below the range of [i32] (the source has [test_mem], 1200 rows of 10 items)
    does one of two things.  It ends, every assertion has held, all memory of the test is
    given back, and no byte of any other block has changed.  Or it panics, because the heap
    refused a request while the test held no more blocks than it has rows, and three. *)
Theorem test_mem_correct n cols live st :
  heap_live (st_heap st) live -> (Z.of_nat cols + 1) * (Z.of_nat n + 1) < 2 ^ 31 ->
  match test_mem_rows n cols st with
  | Ok st' => heap_live (st_heap st') live /\ agree (st_bytes st) (st_bytes st') live
  | Panic => test_mem_sized n cols st = Ok None /\ refused (R := R) (Z.of_nat n + 3) live
  | OutOfFuel => False
  end.
Proof using.
  intros Hl Hn. unfold test_mem_rows, alloc_error. destruct (test_mem_sized_ok n cols live st Hl Hn) as ([st'|] & -> & Hp); [exact Hp|].
  split; [done|exact Hp].
Qed.
End Test.

(** ** Witness *)

(** The heap of eight free pages, over memory that holds zeros. *)
Definition demo_store : Store (SlabAllocatorRecord (list Z) PMM) := mkStore demo_heap (fun _ => 0).

#[local] Instance demo_global_heap : GlobalHeap (SlabAllocatorRecord (list Z) PMM) := global_heap demo_pmm.

Lemma demo_store_live : global_live demo_pmm (st_heap demo_store) [].
Proof. apply global_live_new, demo_pmm_out. Qed.

(** It has room for the test with three rows of five items, and none for eight rows. *)
Definition room_for (n cols : nat) : bool :=
  match test_mem_sized n cols demo_store with Ok (Some _) => true | _ => false end.
Lemma demo_room : room_for 3 5 = true /\ room_for 8 1 = false.
Proof. split; vm_compute; reflexivity. Qed.

Lemma test_mem_correct_witness :
  exists st', test_mem_rows 3 5 demo_store = Ok st' /\ heap_live (st_heap st') [].
Proof.
  pose proof (test_mem_correct 3 5 [] demo_store demo_store_live ltac:(lia)) as Hx. unfold test_mem_rows, alloc_error in *.
  pose proof (proj1 demo_room) as Hr. unfold room_for in Hr. destruct (test_mem_sized 3 5 demo_store) as [[st'|]| |]; [|discriminate Hr..].
  exists st'. split; [reflexivity|exact (proj1 Hx)].
Defined.
