(* ===== verification/Pmio.v ===== *)
(** * Port I/O

    [src/src/common/pmio.rs].  The [in] and [out] instructions are the kernel's
    only effects on its devices: the model keeps the accesses in order, oldest
    first.  What a device answers is a parameter, a function of the accesses it
    has seen. *)

From S2P Require Import Prelude.

Inductive PortOp :=
| OutB (port value : Z)
| OutW (port value : Z)
| OutL (port value : Z)
| InB (port value : Z)
| InW (port value : Z)
| InL (port value : Z).

Definition Trace := list PortOp.

(** [Port], [RPort] and [WPort] are one number; [Into] keeps it. *)
Definition Port := Z.

Definition outb (port : Port) (value : Z) (t : Trace) : Trace := t ++ [OutB port value].
Definition outw (port : Port) (value : Z) (t : Trace) : Trace := t ++ [OutW port value].
Definition outl (port : Port) (value : Z) (t : Trace) : Trace := t ++ [OutL port value].

Section Device.
(** What the devices put on the bus for a read of some width. *)
Context (dev : Trace -> Port -> Z).

Definition inb (port : Port) (t : Trace) : Z * Trace :=
  let v := dev t port in (v, t ++ [InB port v]).
Definition inw (port : Port) (t : Trace) : Z * Trace :=
  let v := dev t port in (v, t ++ [InW port v]).
Definition inl (port : Port) (t : Trace) : Z * Trace :=
  let v := dev t port in (v, t ++ [InL port v]).
End Device.

(** The bytes written to a port by [outb], oldest first. *)
Fixpoint written (port : Port) (t : Trace) : list Z :=
  match t with
  | [] => []
  | OutB p v :: t => if p =? port then v :: written port t else written port t
  | _ :: t => written port t
  end.

Lemma written_app port t t' : written port (t ++ t') = written port t ++ written port t'.
Proof.
  induction t as [|[p v|p v|p v|p v|p v|p v] t IH]; cbn [app written]; try done.
  destruct (p =? port); cbn [app]; by rewrite IH.
Qed.
