(* ===== verification/Vga.v ===== *)
(** * The text console

    [src/src/drivers/vga.rs]: the buffer of character cells, the cursor, and the
    controller's cursor registers. *)

From S2P Require Import Prelude Pmio.

(** ** The driver *)

Definition VIEW_HEIGHT : Z := 25.
Definition VIEW_WIDTH : Z := 80.
Definition CRTC_ADDR_PORT : Port := 0x3D4.
Definition CRTC_DATA_PORT : Port := 0x3D5.
Definition CURSOR_LOC_HIGH_IDX : Z := 0xE.
Definition CURSOR_LOC_LOW_IDX : Z := 0xF.

Inductive Color := Black | Blue | Green | Cyan | Red | Purple | Brown | Gray.

(** [as u8] *)
Definition Color_u8 (c : Color) : Z :=
  match c with
  | Black => 0 | Blue => 1 | Green => 2 | Cyan => 3 | Red => 4 | Purple => 5 | Brown => 6 | Gray => 7
  end.

(** [VGABuffer]; [ports] are the port accesses so far. *)
Record VGABuffer := mkVGABuffer {
  color_code : Z;
  cursor_pos : Z;
  buffer : list Z;
  ports : Trace
}.

Definition vga_entry (color_code char : Z) : outcome Z :=
  let! hi := ushl 16 color_code 8 in uadd 16 hi char.

Definition entry_get_char (entry : Z) : Z := as_u8 (Z.land entry 0x00FF).

(** [fn color_code] *)
Definition make_color_code (fg bg : Color) (is_bright : bool) : outcome Z :=
  let! c := uadd 8 0 (Color_u8 fg) in
  let! b := ushl 8 (Z.b2z is_bright) 3 in
  let! c := uadd 8 c b in
  let! b := ushl 8 (Color_u8 bg) 4 in
  uadd 8 c b.

Definition set_cursor (v : VGABuffer) (pos : Z) : VGABuffer :=
  mkVGABuffer (color_code v) pos (buffer v) (ports v).
Definition set_buffer (v : VGABuffer) (b : list Z) : VGABuffer :=
  mkVGABuffer (color_code v) (cursor_pos v) b (ports v).

Definition sync_cursor (v : VGABuffer) : VGABuffer :=
  let t := outb CRTC_ADDR_PORT CURSOR_LOC_LOW_IDX (ports v) in
  let t := outb CRTC_DATA_PORT (as_u8 (Z.land 0x00FF (cursor_pos v))) t in
  let t := outb CRTC_ADDR_PORT CURSOR_LOC_HIGH_IDX t in
  let t := outb CRTC_DATA_PORT (as_u8 (Z.shiftr (cursor_pos v) 8)) t in
  mkVGABuffer (color_code v) (cursor_pos v) (buffer v) t.

(** [init]; [mem] is what the mapped memory holds before. *)
Definition vga_init (mem : list Z) (t : Trace) : outcome VGABuffer :=
  let! c := make_color_code Black Black false in
  let! filler := vga_entry c 0 in
  Ok (mkVGABuffer c 0 (replicate (length mem) filler) t).

(** [x as u16 * y as u16] is what the source computes. *)
Definition set_cursor_pos (v : VGABuffer) (x y : Z) : outcome VGABuffer :=
  let! new_pos := umul 16 x y in
  let! size := umul 16 VIEW_HEIGHT VIEW_WIDTH in
  check! new_pos <? size in
  Ok (sync_cursor (set_cursor v new_pos)).

Definition get_cursor_pos (v : VGABuffer) : Z * Z :=
  (as_u8 (cursor_pos v mod VIEW_WIDTH), as_u8 (cursor_pos v / VIEW_WIDTH)).

Definition vga_clear (v : VGABuffer) : outcome VGABuffer :=
  let! filler := vga_entry (color_code v) 0 in
  let v := set_buffer v (replicate (length (buffer v)) filler) in
  let! v := set_cursor_pos v 0 0 in
  Ok (sync_cursor v).

Definition set_color (v : VGABuffer) (fg bg : Color) (is_bright : bool) : outcome VGABuffer :=
  let! c := make_color_code fg bg is_bright in
  Ok (mkVGABuffer c (cursor_pos v) (buffer v) (ports v)).

Definition viewport_dim : Z * Z := (as_u8 VIEW_WIDTH, as_u8 VIEW_HEIGHT).

Definition scroll_up (v : VGABuffer) : outcome VGABuffer :=
  let width := VIEW_WIDTH in
  let! rest := subslice (buffer v) width (len (buffer v)) in
  let v := set_buffer v (splice (buffer v) 0 rest) in
  let! filler := vga_entry (color_code v) 0 in
  let! start := usub 64 (len (buffer v)) width in
  let! b := slice_fill (buffer v) start (len (buffer v)) filler in
  let! pos := usub 16 (cursor_pos v) VIEW_WIDTH in
  Ok (sync_cursor (set_cursor (set_buffer v b) pos)).

(** The [while] loop of the backspace; the cursor bounds its turns. *)
Fixpoint back_over_blanks (fuel : nat) (v : VGABuffer) : outcome VGABuffer :=
  if 0 <? cursor_pos v then
    let! i := usub 16 (cursor_pos v) 1 in
    let! e := slice_get (buffer v) i in
    if entry_get_char e =? 0 then
      match fuel with
      | O => OutOfFuel
      | S fuel => back_over_blanks fuel (set_cursor v i)
      end
    else Ok v
  else Ok v.

Definition write_u8 (v : VGABuffer) (char : Z) : outcome VGABuffer :=
  let! size := umul 16 VIEW_HEIGHT VIEW_WIDTH in
  if cursor_pos v =? size then Ok v
  else if char =? 10 then
    let! n := next_multiple_of (cursor_pos v) VIEW_WIDTH in
    let! n := chk 16 n in
    let v := set_cursor v n in
    if as_u16 (len (buffer v)) <=? cursor_pos v then scroll_up v else Ok v
  else if char =? 0x8 then
    let! v :=
      if negb (cursor_pos v =? 0) then
        let! pos := usub 16 (cursor_pos v) 1 in
        let! e := vga_entry (color_code v) 0 in
        let! b := slice_set (buffer v) pos e in
        Ok (set_cursor (set_buffer v b) pos)
      else Ok v in
    let! v := back_over_blanks (Z.to_nat (cursor_pos v)) v in
    Ok (sync_cursor v)
  else
    let! e := vga_entry (color_code v) char in
    let! b := slice_set (buffer v) (cursor_pos v) e in
    let! pos := uadd 16 (cursor_pos v) 1 in
    Ok (sync_cursor (set_cursor (set_buffer v b) pos)).

(** [write], and [write_str], which runs the same loop over the bytes. *)
Fixpoint vga_write (v : VGABuffer) (text : list Z) : outcome VGABuffer :=
  match text with
  | [] => Ok v
  | char :: text => let! v := write_u8 v char in vga_write v text
  end.
