(* ===== verification/VgaTheorems.v ===== *)
(** * The text console: correctness

    Cells and cursor stay in bounds, lines land where they should, backspace
    undoes a character, and the controller learns the cursor. *)

From S2P Require Import Prelude Pmio Vga.

(** ** Well-formed consoles *)

Definition is_byte (z : Z) : Prop := 0 <= z < 256.

Record vga_ok (v : VGABuffer) : Prop := {
  vo_len : len (buffer v) = 2000;
  vo_cursor : 0 <= cursor_pos v <= 2000;
  vo_color : is_byte (color_code v);
  vo_cells : Forall (fun e => 0 <= e < 65536) (buffer v)
}.

(** The controller was told where the cursor is. *)
Definition synced (v : VGABuffer) : Prop :=
  exists t, ports v = t ++ [OutB CRTC_ADDR_PORT CURSOR_LOC_LOW_IDX; OutB CRTC_DATA_PORT (cursor_pos v mod 256);
                            OutB CRTC_ADDR_PORT CURSOR_LOC_HIGH_IDX; OutB CRTC_DATA_PORT (cursor_pos v / 256)].

Lemma vga_entry_ok c ch : is_byte c -> is_byte ch ->
  vga_entry c ch = Ok (c * 256 + ch) /\ 0 <= c * 256 + ch < 65536 /\ entry_get_char (c * 256 + ch) = ch.
Proof.
  unfold is_byte. intros Hc Hch. split; [|split; [lia|]].
  - unfold vga_entry. rewrite ushl_ok by (change (2 ^ 8) with 256; change (2 ^ 16) with 65536; lia). cbn [obind].
    change (2 ^ 8) with 256. apply uadd_ok. change (2 ^ 16) with 65536. lia.
  - unfold entry_get_char, as_u8. change 0x00FF with (Z.ones 8). rewrite Z.land_ones by lia. change (2 ^ 8) with 256.
    rewrite Z.mod_mod by lia. rewrite Z.add_comm, Z.mod_add by lia. by apply Z.mod_small.
Qed.

Lemma screen_size : umul 16 VIEW_HEIGHT VIEW_WIDTH = Ok 2000.
Proof. reflexivity. Qed.

Lemma sync_cursor_ok v : 0 <= cursor_pos v <= 2000 -> synced (sync_cursor v).
Proof.
  intros Hc. exists (ports v). unfold sync_cursor, outb. cbn [ports cursor_pos]. rewrite <- !app_assoc. cbn [app].
  unfold as_u8. change 0x00FF with (Z.ones 8). rewrite (Z.land_comm (Z.ones 8)), Z.land_ones by lia.
  change (2 ^ 8) with 256. rewrite Z.mod_mod by lia. rewrite Z.shiftr_div_pow2 by lia. change (2 ^ 8) with 256.
  rewrite (Z.mod_small (cursor_pos v / 256)); [done|].
  pose proof (Z.div_pos (cursor_pos v) 256 ltac:(lia) ltac:(lia)).
  pose proof (Z.div_lt_upper_bound (cursor_pos v) 256 256 ltac:(lia) ltac:(lia)). lia.
Qed.

(** ** Single bytes *)

(** Bytes that are drawn. *)
Definition printable (ch : Z) : Prop := is_byte ch /\ ch <> 10 /\ ch <> 8.

Definition cell (v : VGABuffer) (ch : Z) : Z := color_code v * 256 + ch.

Lemma write_printable v ch :
  vga_ok v -> printable ch -> cursor_pos v < 2000 ->
  exists v', write_u8 v ch = Ok v' /\ vga_ok v' /\ synced v' /\
    color_code v' = color_code v /\ cursor_pos v' = cursor_pos v + 1 /\
    buffer v' = <[Z.to_nat (cursor_pos v) := cell v ch]> (buffer v).
Proof.
  intros [Hl Hc Hcol Hcells] (Hb & Hnl & Hbs) Hlt. destruct (vga_entry_ok _ _ Hcol Hb) as (He & Hr & _).
  unfold write_u8. rewrite screen_size. cbn [obind].
  rewrite (proj2 (Z.eqb_neq (cursor_pos v) 2000)), (proj2 (Z.eqb_neq ch 10)), (proj2 (Z.eqb_neq ch 8)) by lia.
  rewrite He. cbn [obind]. rewrite slice_set_ok by lia. cbn [obind].
  rewrite uadd_ok by (change (2 ^ 16) with 65536; lia). cbn [obind].
  eexists. split; [done|]. split; [|split; [by apply sync_cursor_ok; cbn; lia|done]].
  split; cbn; [unfold len in *; by rewrite length_insert|lia|done|]. by apply Forall_insert.
Qed.

Lemma scroll_up_ok v :
  vga_ok v -> cursor_pos v = 2000 ->
  exists v', scroll_up v = Ok v' /\ vga_ok v' /\ synced v' /\ color_code v' = color_code v /\
    cursor_pos v' = 1920 /\ buffer v' = drop 80 (buffer v) ++ replicate 80 (cell v 0).
Proof.
  intros [Hl Hc Hcol Hcells] Hpos. destruct (vga_entry_ok (color_code v) 0 Hcol ltac:(unfold is_byte; lia)) as (He & Hr & _).
  assert (Hlen : length (buffer v) = 2000%nat) by (unfold len in Hl; lia).
  unfold scroll_up, subslice. change VIEW_WIDTH with 80. case_bool_lia. cbn [obind]. rewrite Hl.
  cbn [set_buffer color_code buffer cursor_pos]. rewrite He. cbn [obind].
  assert (Hb : splice (buffer v) 0 (take (Z.to_nat (2000 - 80)) (drop (Z.to_nat 80) (buffer v)))
               = drop 80 (buffer v) ++ drop 1920 (buffer v)).
  { unfold splice. change (Z.to_nat 0) with 0%nat. rewrite take_0. cbn [app].
    rewrite length_take, length_drop, Hlen, (take_ge (drop _ _)) by (rewrite length_drop, Hlen; lia).
    done. }
  rewrite Hb. assert (Hl2 : len (drop 80 (buffer v) ++ drop 1920 (buffer v)) = 2000).
  { unfold len. rewrite length_app, !length_drop, Hlen. lia. }
  rewrite Hl2. change (usub 64 2000 80) with (Ok 1920). cbn [obind]. unfold slice_fill. rewrite Hl2. cbn [Z.leb andb].
  case_bool_lia. cbn [obind]. rewrite Hpos. change (usub 16 2000 80) with (Ok 1920). cbn [obind].
  assert (Hfill : splice (drop 80 (buffer v) ++ drop 1920 (buffer v)) 1920 (replicate (Z.to_nat (2000 - 1920)) (cell v 0))
                  = drop 80 (buffer v) ++ replicate 80 (cell v 0)).
  { unfold splice. rewrite take_app_length' by (rewrite length_drop, Hlen; lia). f_equal.
    rewrite drop_ge; [by rewrite app_nil_r|]. rewrite length_replicate, length_app, !length_drop, Hlen. lia. }
  eexists. split; [done|]. split; [|split; [by apply sync_cursor_ok; cbn; lia|split; [done|split; [done|exact Hfill]]]].
  split; cbn [sync_cursor set_cursor set_buffer buffer cursor_pos color_code]; [|lia|done|].
  - change (color_code v * 256 + 0) with (cell v 0). rewrite Hfill. unfold len. rewrite length_app, length_drop, length_replicate, Hlen. lia.
  - change (color_code v * 256 + 0) with (cell v 0). rewrite Hfill. apply Forall_app. split; [by apply Forall_drop|by apply Forall_replicate].
Qed.

Lemma next_line n : 0 <= n < 2000 ->
  exists m, next_multiple_of n 80 = Ok m /\ (80 | m) /\ n <= m < n + 80 /\ m <= 2000.
Proof.
  intros Hn. unfold next_multiple_of.
  destruct (checked_next_multiple_of_ok n 80 ltac:(lia) ltac:(lia) ltac:(lia)) as [m E]. rewrite E.
  destruct (checked_next_multiple_of_Some n 80 m ltac:(lia) ltac:(lia) E) as [Hd Hm].
  exists m. split_and!; [done|done|lia|lia|]. apply (multiple_le 80); [lia|done|by exists 25|lia].
Qed.

Lemma write_newline v :
  vga_ok v -> cursor_pos v < 2000 ->
  exists v' m, write_u8 v 10 = Ok v' /\ vga_ok v' /\ color_code v' = color_code v /\
    (80 | m) /\ cursor_pos v <= m < cursor_pos v + 80 /\
    if m =? 2000 then cursor_pos v' = 1920 /\ buffer v' = drop 80 (buffer v) ++ replicate 80 (cell v 0)
    else v' = set_cursor v m.
Proof.
  intros Hv Hlt. pose proof Hv as [Hl Hc Hcol Hcells]. unfold write_u8. rewrite screen_size. cbn [obind].
  rewrite (proj2 (Z.eqb_neq (cursor_pos v) 2000)) by lia. change (10 =? 10) with true. cbn match.
  destruct (next_line (cursor_pos v) ltac:(lia)) as (m & Em & Hd & Hm & Hmax). change VIEW_WIDTH with 80. rewrite Em.
  cbn [obind]. rewrite chk_ok by (change (2 ^ 16) with 65536; lia). cbn [obind set_cursor cursor_pos buffer].
  rewrite Hl. change (as_u16 2000) with 2000.
  assert (Hok : vga_ok (set_cursor v m)) by (split; cbn; [done|lia|done|done]).
  case_bool (m =? 2000) E.
  - subst m. destruct (scroll_up_ok (set_cursor v 2000) Hok eq_refl) as (v' & Es & Hv' & _ & Hcol' & Hpos & Hb).
    exists v', 2000. cbn [Z.leb Z.compare Pos.compare Pos.compare_cont]. fold (set_cursor v 2000). rewrite Es.
    rewrite Z.eqb_refl. split_and!; [done|done|done|done|lia|lia|done|done].
  - exists (set_cursor v m), m. rewrite (proj2 (Z.leb_gt 2000 m)) by lia. rewrite (proj2 (Z.eqb_neq m 2000)) by done.
    split_and!; [done|done|done|done|lia|lia|done].
Qed.

(** The character in a cell. *)
Definition blank_at (b : list Z) (i : Z) : Prop :=
  exists e, b !! Z.to_nat i = Some e /\ entry_get_char e = 0.

(** The place to which a backspace returns from [p]. *)
Definition trimmed (b : list Z) (p q : Z) : Prop :=
  0 <= q <= p /\ (forall i, q <= i < p -> blank_at b i) /\ (q = 0 \/ ~ blank_at b (q - 1)).

Lemma set_cursor_same v p : cursor_pos v = p -> set_cursor v p = v.
Proof. intros <-. by destruct v. Qed.

Lemma back_over_blanks_ok fuel : forall v,
  len (buffer v) = 2000 -> 0 <= cursor_pos v <= 2000 -> (Z.to_nat (cursor_pos v) <= fuel)%nat ->
  exists q, back_over_blanks fuel v = Ok (set_cursor v q) /\ trimmed (buffer v) (cursor_pos v) q.
Proof.
  induction fuel as [|fuel IH]; intros v Hl Hc Hf; cbn [back_over_blanks].
  - assert (cursor_pos v = 0) as E0 by lia. rewrite E0. exists 0. rewrite set_cursor_same by done.
    split; [done|]. split_and!; [lia|lia|lia|by left].
  - case_bool (0 <? cursor_pos v) E.
    2:{ exists (cursor_pos v). rewrite set_cursor_same by done. split; [done|]. split_and!; [lia|lia|lia|left; lia]. }
    rewrite usub_ok by (change (2 ^ 16) with 65536; lia). cbn [obind].
    destruct (slice_get_in_range (buffer v) (cursor_pos v - 1) ltac:(lia)) as (e & -> & He). cbn [obind].
    case_bool (entry_get_char e =? 0) Ee.
    + destruct (IH (set_cursor v (cursor_pos v - 1))) as (q & -> & (Hq & Hb & Hs)); [done|cbn; lia|cbn; lia|].
      cbn [set_cursor cursor_pos buffer] in *. exists q. split; [done|]. split_and!; [lia|lia| |done].
      intros i Hi. destruct (decide (i = cursor_pos v - 1)) as [->|]; [by exists e|apply Hb; lia].
    + exists (cursor_pos v). rewrite set_cursor_same by done. split; [done|]. split_and!; [lia|lia|lia|right].
      intros (e' & He' & Hz). congruence.
Qed.

(** [write_u8] of a backspace. *)
Lemma write_backspace v :
  vga_ok v -> cursor_pos v < 2000 ->
  exists v' q, write_u8 v 8 = Ok v' /\ vga_ok v' /\ synced v' /\ color_code v' = color_code v /\ cursor_pos v' = q /\
    buffer v' = (if cursor_pos v =? 0 then buffer v
                 else <[Z.to_nat (cursor_pos v - 1) := cell v 0]> (buffer v)) /\
    trimmed (buffer v') (Z.max 0 (cursor_pos v - 1)) q.
Proof.
  intros [Hl Hc Hcol Hcells] Hlt. destruct (vga_entry_ok (color_code v) 0 Hcol ltac:(unfold is_byte; lia)) as (He & Hr & _).
  unfold write_u8. rewrite screen_size. cbn [obind]. rewrite (proj2 (Z.eqb_neq (cursor_pos v) 2000)) by lia.
  change (8 =? 10) with false. change (8 =? 8) with true. cbn match.
  assert (Hstep : exists w,
    (if negb (cursor_pos v =? 0) then
        let! pos := usub 16 (cursor_pos v) 1 in
        let! e := vga_entry (color_code v) 0 in
        let! b := slice_set (buffer v) pos e in
        Ok (set_cursor (set_buffer v b) pos)
      else Ok v) = Ok w /\ cursor_pos w = Z.max 0 (cursor_pos v - 1) /\ color_code w = color_code v /\ ports w = ports v /\
    buffer w = (if cursor_pos v =? 0 then buffer v else <[Z.to_nat (cursor_pos v - 1) := cell v 0]> (buffer v))).
  { case_bool (cursor_pos v =? 0) E; cbn [negb].
    - exists v. split_and!; [done|lia|done|done|done].
    - rewrite usub_ok by (change (2 ^ 16) with 65536; lia). cbn [obind]. rewrite He. cbn [obind].
      rewrite slice_set_ok by lia. cbn [obind]. eexists. split; [done|]. cbn. split_and!; [lia|done|done|done]. }
  destruct Hstep as (w & -> & Hpw & Hcw & _ & Hbw). cbn [obind].
  assert (Hlw : len (buffer w) = 2000).
  { rewrite Hbw. destruct (cursor_pos v =? 0); [done|]. unfold len in *. by rewrite length_insert. }
  destruct (back_over_blanks_ok (Z.to_nat (cursor_pos w)) w Hlw ltac:(lia) ltac:(lia)) as (q & -> & Hq). cbn [obind].
  pose proof Hq as (Hq1 & _). exists (sync_cursor (set_cursor w q)), q. split; [done|]. split.
  - split; cbn; [done|lia|by rewrite Hcw|]. rewrite Hbw. destruct (cursor_pos v =? 0); [done|]. by apply Forall_insert.
  - split; [apply sync_cursor_ok; cbn; lia|]. cbn. rewrite <- Hpw. split_and!; [done|done|done|apply Hq..].
Qed.

(** ** Text *)

Lemma vga_write_app v t1 t2 : vga_write v (t1 ++ t2) = obind (vga_write v t1) (fun v => vga_write v t2).
Proof.
  revert v. induction t1 as [|c t1 IH]; intros v; cbn [app vga_write obind]; [done|].
  rewrite obind_assoc. destruct (write_u8 v c); cbn [obind]; [apply IH|done|done].
Qed.

(** A row of cells in the console's color. *)
Definition cells (v : VGABuffer) (text : list Z) : list Z := cell v <$> text.

Lemma print_ok text : forall v,
  vga_ok v -> Forall printable text -> cursor_pos v + len text <= 2000 ->
  exists v', vga_write v text = Ok v' /\ vga_ok v' /\ ((text = [] /\ v' = v) \/ synced v') /\ color_code v' = color_code v /\
    cursor_pos v' = cursor_pos v + len text /\ buffer v' = splice (buffer v) (cursor_pos v) (cells v text).
Proof.
  induction text as [|c text IH]; intros v Hv Ht Hfit; cbn [vga_write].
  - exists v. split_and!; [done|done|by left|done|unfold len; cbn; lia|]. unfold splice. cbn [cells fmap list_fmap length app].
    by rewrite Nat.add_0_r, take_drop.
  - apply Forall_cons in Ht as [Hc Ht]. unfold len in Hfit. cbn [length] in Hfit.
    destruct (write_printable v c Hv Hc ltac:(lia)) as (v1 & -> & Hv1 & Hs1 & Hcol1 & Hp1 & Hb1). cbn [obind].
    destruct (IH v1 Hv1 Ht) as (v' & -> & Hv' & Hs & Hcol & Hp & Hb); [unfold len; lia|].
    exists v'. split; [done|]. split; [done|]. split.
    { right. by destruct Hs as [[_ ->]|Hs]. }
    split; [congruence|]. split; [unfold len in *; cbn [length]; lia|]. rewrite Hb, Hb1, Hp1.
    pose proof (vo_cursor _ Hv). pose proof (vo_len _ Hv) as Hlen. unfold len in Hlen.
    unfold splice, cells, cell. rewrite Hcol1. cbn [fmap list_fmap length app].
    rewrite Z2Nat.inj_add by lia. change (Z.to_nat 1) with 1%nat. rewrite Nat.add_1_r.
    rewrite (take_S_r _ _ (color_code v * 256 + c)) by (rewrite list_lookup_insert_eq by lia; done).
    rewrite take_insert_ge by lia. rewrite <- app_assoc. cbn [app]. do 2 f_equal. f_equal.
    rewrite drop_insert_lt by lia. f_equal. lia.
Qed.

Lemma write_u8_safe v ch : vga_ok v -> is_byte ch -> exists v', write_u8 v ch = Ok v' /\ vga_ok v'.
Proof.
  intros Hv Hb. pose proof (vo_cursor _ Hv). destruct (decide (cursor_pos v = 2000)) as [E|].
  { exists v. split; [|done]. unfold write_u8. rewrite screen_size. cbn [obind]. by rewrite E. }
  destruct (decide (ch = 10)) as [->|]; [|destruct (decide (ch = 8)) as [->|]].
  - destruct (write_newline v Hv ltac:(lia)) as (v' & m & ? & ? & _). eauto.
  - destruct (write_backspace v Hv ltac:(lia)) as (v' & m & ? & ? & _). eauto.
  - destruct (write_printable v ch Hv) as (v' & ? & ? & _); [done|lia|eauto].
Qed.

Lemma write_at_end v text : cursor_pos v = 2000 -> vga_write v text = Ok v.
Proof.
  intros E. induction text as [|c text IH]; cbn [vga_write]; [done|].
  unfold write_u8 at 1. rewrite screen_size. cbn [obind]. rewrite E. cbn [Z.eqb Pos.eqb obind]. done.
Qed.

(** ** The theorems *)

(** C37: whatever bytes are written, the console never panics and its backspace loop
    ends; the screen keeps its 2000 cells of 16 bits, the cursor stays on them or
    just behind the last one, and the color stays a byte. *)
Theorem vga_write_safe text : forall v,
  vga_ok v -> Forall is_byte text -> exists v', vga_write v text = Ok v' /\ vga_ok v'.
Proof.
  induction text as [|c text IH]; intros v Hv Ht; cbn [vga_write]; [eauto|].
  apply Forall_cons in Ht as [Hc Ht]. destruct (write_u8_safe v c Hv Hc) as (v1 & -> & Hv1). by apply IH.
Qed.

(** A line of one to eighty characters, written at the start of a row and ended
    by a newline, fills its row and moves to the next; on the last row the screen
    moves up and a blank row appears below, unless the line fills the row. *)
Theorem vga_println_correct v r line :
  vga_ok v -> 0 <= r < 25 -> cursor_pos v = 80 * r -> Forall printable line -> 1 <= len line <= 80 ->
  len line < 80 \/ r < 24 ->
  exists v', vga_write v (line ++ [10]) = Ok v' /\ vga_ok v' /\ color_code v' = color_code v /\
    let b := splice (buffer v) (80 * r) (cells v line) in
    if r <? 24 then cursor_pos v' = 80 * (r + 1) /\ buffer v' = b
    else cursor_pos v' = 80 * 24 /\ buffer v' = drop 80 b ++ replicate 80 (cell v 0).
Proof.
  intros Hv Hr Hp Hline Hn Hfit. rewrite vga_write_app.
  destruct (print_ok line v Hv Hline ltac:(lia)) as (v1 & -> & Hv1 & _ & Hcol & Hp1 & Hb1). cbn [obind vga_write].
  destruct (write_newline v1 Hv1 ltac:(lia)) as (v' & m & -> & Hv' & Hcol' & [q ->] & Hm & Hcase). cbn [obind].
  assert (q = r + 1) as -> by lia. exists v'. split_and!; [done|done|congruence|]. cbn zeta. rewrite Hp in Hb1.
  case_bool (r <? 24) E.
  - rewrite (proj2 (Z.eqb_neq _ 2000)) in Hcase by lia. subst v'. cbn. split; [lia|done].
  - rewrite (proj2 (Z.eqb_eq _ 2000)) in Hcase by lia. destruct Hcase as [-> ->]. rewrite Hb1. unfold cell.
    by rewrite Hcol.
Qed.

(** A backspace undoes a character that was just written behind another one or
    at the start of the screen: the cursor is back, in the controller too, and the
    cell is blank. *)
Theorem vga_backspace_undoes v ch :
  vga_ok v -> cursor_pos v < 1999 -> printable ch -> cursor_pos v = 0 \/ ~ blank_at (buffer v) (cursor_pos v - 1) ->
  exists v', vga_write v [ch; 8] = Ok v' /\ vga_ok v' /\ synced v' /\ cursor_pos v' = cursor_pos v /\
    buffer v' = <[Z.to_nat (cursor_pos v) := cell v 0]> (buffer v).
Proof.
  intros Hv Hlt Hch Hprev. pose proof (vo_cursor _ Hv). cbn [vga_write].
  destruct (write_printable v ch Hv Hch ltac:(lia)) as (v1 & -> & Hv1 & _ & Hcol1 & Hp1 & Hb1). cbn [obind].
  destruct (write_backspace v1 Hv1 ltac:(lia)) as (v' & q & -> & Hv' & Hs & _ & Hq & Hb & (Hq1 & Hq2 & Hq3)). cbn [obind].
  rewrite (proj2 (Z.eqb_neq (cursor_pos v1) 0)), Hb1, Hp1 in Hb by lia.
  replace (cursor_pos v + 1 - 1) with (cursor_pos v) in Hb by lia. rewrite list_insert_insert, decide_True in Hb by done.
  replace (cell v1 0) with (cell v 0) in Hb by (unfold cell; by rewrite Hcol1).
  exists v'. split_and!; [done|done|done| |done]. rewrite Hq. rewrite Hp1 in Hq1, Hq2.
  destruct (decide (q < cursor_pos v)) as [Hqlt|]; [exfalso|lia].
  destruct Hprev as [E0|Hnb]; [lia|]. apply Hnb.
  destruct (Hq2 (cursor_pos v - 1) ltac:(lia)) as (e & He & Hz). exists e. split; [|done].
  rewrite Hb in He. by rewrite list_lookup_insert_ne in He by lia.
Qed.

(** Once the last cell of the screen has been written, everything written after
    it is dropped, newlines and backspaces too. *)
Theorem vga_last_cell_freezes v text more :
  vga_ok v -> Forall printable text -> cursor_pos v + len text = 2000 ->
  vga_write v (text ++ more) = vga_write v text.
Proof.
  intros Hv Ht Hfit. rewrite vga_write_app. destruct (print_ok text v Hv Ht ltac:(lia)) as (v' & -> & _ & _ & _ & Hp & _).
  cbn [obind]. apply write_at_end. lia.
Qed.

(** [set_cursor_pos] multiplies the coordinates: the position it sets is not the
    one that [get_cursor_pos] reports. *)
Lemma set_cursor_pos_product v :
  exists v', set_cursor_pos v 5 3 = Ok v' /\ cursor_pos v' = 15 /\ get_cursor_pos v' = (15, 0).
Proof. eexists. by split_and!. Qed.

(** A newline at the start of a row does nothing. *)
Lemma newline_at_row_start v r : vga_ok v -> 0 <= r < 25 -> cursor_pos v = 80 * r -> write_u8 v 10 = Ok v.
Proof.
  intros Hv Hr Hp. destruct (write_newline v Hv ltac:(lia)) as (v' & m & -> & _ & _ & [q ->] & Hm & Hcase).
  assert (q = r) as -> by lia. rewrite (proj2 (Z.eqb_neq _ 2000)) in Hcase by lia. subst v'.
  f_equal. apply set_cursor_same. lia.
Qed.

(** ** Witnesses *)

(** A blank console in gray on black. *)
Definition demo_console (pos : Z) : VGABuffer := mkVGABuffer 7 pos (replicate 2000 0x700) [].

Lemma demo_console_ok pos : 0 <= pos <= 2000 -> vga_ok (demo_console pos).
Proof. intros Hp. split; [by vm_compute|done|by split|]. apply Forall_replicate. lia. Qed.

Definition demo_line : list Z := [107; 111; 101].
Lemma demo_line_ok : Forall printable demo_line.
Proof. repeat constructor; vm_compute; congruence. Qed.

Lemma vga_write_safe_witness : exists v', vga_write (demo_console 1999) [107; 10; 8] = Ok v' /\ vga_ok v'.
Proof. apply (vga_write_safe [107; 10; 8] (demo_console 1999)); [by apply demo_console_ok|by repeat constructor]. Defined.

Lemma vga_println_correct_witness :
  exists v', vga_write (demo_console 1920) (demo_line ++ [10]) = Ok v' /\ cursor_pos v' = 1920.
Proof.
  destruct (vga_println_correct (demo_console 1920) 24 demo_line) as (v' & E & _ & _ & [Hp _]);
    [by apply demo_console_ok|done|done|apply demo_line_ok|done|by left|].
  exact (ex_intro _ v' (conj E Hp)).
Defined.

Lemma vga_backspace_undoes_witness :
  exists v', vga_write (demo_console 0) [107; 8] = Ok v' /\ cursor_pos v' = 0.
Proof.
  destruct (vga_backspace_undoes (demo_console 0) 107) as (v' & E & _ & _ & Hp & _);
    [by apply demo_console_ok|done|by repeat split|by left|].
  exact (ex_intro _ v' (conj E Hp)).
Defined.

Lemma vga_last_cell_freezes_witness :
  vga_write (demo_console 1997) (demo_line ++ [10; 107; 8]) = vga_write (demo_console 1997) demo_line.
Proof. apply (vga_last_cell_freezes (demo_console 1997) demo_line); [by apply demo_console_ok|apply demo_line_ok|done]. Defined.
