(* ===== verification/Keyboard.v ===== *)
(** * The keyboard and the monitor

    [src/src/io/keyboard.rs], [src/src/drivers/ps2.rs] and [src/src/io/monitor.rs]:
    scan codes arrive in an interrupt handler, wait in a ring buffer, become key
    events, and their characters go to the console. *)

From S2P Require Import Prelude Pmio Vga.

(** ** Key codes *)

Definition KeyCode := Z.

Definition KEY_RESERVED : KeyCode := 0.
Definition KEY_ESC : KeyCode := 1.
Definition KEY_1 : KeyCode := 2.
Definition KEY_2 : KeyCode := 3.
Definition KEY_3 : KeyCode := 4.
Definition KEY_4 : KeyCode := 5.
Definition KEY_5 : KeyCode := 6.
Definition KEY_6 : KeyCode := 7.
Definition KEY_7 : KeyCode := 8.
Definition KEY_8 : KeyCode := 9.
Definition KEY_9 : KeyCode := 10.
Definition KEY_0 : KeyCode := 11.
Definition KEY_MINUS : KeyCode := 12.
Definition KEY_EQUAL : KeyCode := 13.
Definition KEY_BACKSPACE : KeyCode := 14.
Definition KEY_TAB : KeyCode := 15.
Definition KEY_Q : KeyCode := 16.
Definition KEY_W : KeyCode := 17.
Definition KEY_E : KeyCode := 18.
Definition KEY_R : KeyCode := 19.
Definition KEY_T : KeyCode := 20.
Definition KEY_Y : KeyCode := 21.
Definition KEY_U : KeyCode := 22.
Definition KEY_I : KeyCode := 23.
Definition KEY_O : KeyCode := 24.
Definition KEY_P : KeyCode := 25.
Definition KEY_LEFTBRACE : KeyCode := 26.
Definition KEY_RIGHTBRACE : KeyCode := 27.
Definition KEY_ENTER : KeyCode := 28.
Definition KEY_LEFTCTRL : KeyCode := 29.
Definition KEY_A : KeyCode := 30.
Definition KEY_S : KeyCode := 31.
Definition KEY_D : KeyCode := 32.
Definition KEY_F : KeyCode := 33.
Definition KEY_G : KeyCode := 34.
Definition KEY_H : KeyCode := 35.
Definition KEY_J : KeyCode := 36.
Definition KEY_K : KeyCode := 37.
Definition KEY_L : KeyCode := 38.
Definition KEY_SEMICOLON : KeyCode := 39.
Definition KEY_APOSTROPHE : KeyCode := 40.
Definition KEY_GRAVE : KeyCode := 41.
Definition KEY_LEFTSHIFT : KeyCode := 42.
Definition KEY_BACKSLASH : KeyCode := 43.
Definition KEY_Z : KeyCode := 44.
Definition KEY_X : KeyCode := 45.
Definition KEY_C : KeyCode := 46.
Definition KEY_V : KeyCode := 47.
Definition KEY_B : KeyCode := 48.
Definition KEY_N : KeyCode := 49.
Definition KEY_M : KeyCode := 50.
Definition KEY_COMMA : KeyCode := 51.
Definition KEY_DOT : KeyCode := 52.
Definition KEY_SLASH : KeyCode := 53.
Definition KEY_RIGHTSHIFT : KeyCode := 54.
Definition KEY_KPASTERISK : KeyCode := 55.
Definition KEY_LEFTALT : KeyCode := 56.
Definition KEY_SPACE : KeyCode := 57.
Definition KEY_CAPSLOCK : KeyCode := 58.
Definition KEY_F1 : KeyCode := 59.
Definition KEY_F2 : KeyCode := 60.
Definition KEY_F3 : KeyCode := 61.
Definition KEY_F4 : KeyCode := 62.
Definition KEY_F5 : KeyCode := 63.
Definition KEY_F6 : KeyCode := 64.
Definition KEY_F7 : KeyCode := 65.
Definition KEY_F8 : KeyCode := 66.
Definition KEY_F9 : KeyCode := 67.
Definition KEY_F10 : KeyCode := 68.
Definition KEY_NUMLOCK : KeyCode := 69.
Definition KEY_SCROLLLOCK : KeyCode := 70.
Definition KEY_KP7 : KeyCode := 71.
Definition KEY_KP8 : KeyCode := 72.
Definition KEY_KP9 : KeyCode := 73.
Definition KEY_KPMINUS : KeyCode := 74.
Definition KEY_KP4 : KeyCode := 75.
Definition KEY_KP5 : KeyCode := 76.
Definition KEY_KP6 : KeyCode := 77.
Definition KEY_KPPLUS : KeyCode := 78.
Definition KEY_KP1 : KeyCode := 79.
Definition KEY_KP2 : KeyCode := 80.
Definition KEY_KP3 : KeyCode := 81.
Definition KEY_KP0 : KeyCode := 82.
Definition KEY_KPDOT : KeyCode := 83.
Definition KEY_F11 : KeyCode := 87.
Definition KEY_F12 : KeyCode := 88.
Definition KEYCODE_MAX : KeyCode := 88.

(** ** What the keyboard takes from other crates *)

(** [bitflags]: [set], [toggle] and [contains] of a set of flags. *)
Class BitFlags := {
  flags_set : Z -> Z -> bool -> Z;
  flags_toggle : Z -> Z -> Z;
  flags_contains : Z -> Z -> bool;
  flags_set_ok m f b : flags_set m f b = if b then Z.lor m f else Z.ldiff m f;
  flags_toggle_ok m f : flags_toggle m f = Z.lxor m f;
  flags_contains_ok m f : flags_contains m f = (Z.land m f =? f)
}.

(** [bitvec]: [BitSlice::set] panics out of range. *)
Class BitSet := {
  bits_set : list bool -> Z -> bool -> outcome (list bool);
  bits_set_ok l i b :
    bits_set l i b = if (0 <=? i) && (i <? len l) then Ok (<[Z.to_nat i := b]> l) else Panic
}.

(** [ringbuf]: a queue of bounded capacity; [try_push] gives the item back when
    the queue is full. *)
Class RingBuf (R : Type) := {
  rb_new : Z -> R;
  try_push : R -> Z * bool -> R;
  try_pop : R -> option (Z * bool) * R;
  rb_items : R -> list (Z * bool);
  rb_capacity : R -> Z;
  rb_new_ok n : rb_items (rb_new n) = [] /\ rb_capacity (rb_new n) = n;
  try_push_ok r x : rb_capacity (try_push r x) = rb_capacity r /\
    rb_items (try_push r x) = if len (rb_items r) <? rb_capacity r then rb_items r ++ [x] else rb_items r;
  try_pop_ok r : rb_capacity (try_pop r).2 = rb_capacity r /\
    match rb_items r with
    | [] => (try_pop r).1 = None /\ rb_items (try_pop r).2 = []
    | x :: l => (try_pop r).1 = Some x /\ rb_items (try_pop r).2 = l
    end
}.

(** ** Key states and modifiers *)

Definition Modifier := Z.
Definition ALT : Modifier := 1.
Definition SHIFT : Modifier := 2.
Definition CTRL : Modifier := 4.
Definition CAPSLOCK : Modifier := 8.
Definition SCROLLLOCK : Modifier := 16.
Definition NUMLOCK : Modifier := 32.

(** [div_ceil(KEYCODE_MAX + 1, 64)] words of 64 bits. *)
Definition STATES_LEN : Z := (KEYCODE_MAX + 1 + 63) / 64.

(** [states] as the bits of its words. *)
Record VirtKeyboard := mkVirtKeyboard { states : list bool; modifier : Modifier }.

Record KeyEvent := mkKeyEvent { key : KeyCode; is_press : bool; ev_modifier : Modifier }.

Definition virt_new : VirtKeyboard := mkVirtKeyboard (replicate (Z.to_nat (STATES_LEN * 64)) false) 0.

Section Keyboard.
Context `{BitFlags} `{BitSet}.

Definition update_modifier (m : Modifier) (packet : KeyCode * bool) : Modifier :=
  let '(k, is_press) := packet in
  if k =? KEY_LEFTALT then flags_set m ALT is_press
  else if k =? KEY_LEFTCTRL then flags_set m CTRL is_press
  else if (k =? KEY_LEFTSHIFT) || (k =? KEY_RIGHTSHIFT) then flags_set m SHIFT is_press
  else if (k =? KEY_CAPSLOCK) && is_press then flags_toggle m CAPSLOCK
  else if (k =? KEY_SCROLLLOCK) && is_press then flags_toggle m SCROLLLOCK
  else if (k =? KEY_NUMLOCK) && is_press then flags_toggle m NUMLOCK
  else m.

Definition virt_update (kb : VirtKeyboard) (packet : KeyCode * bool) : outcome VirtKeyboard :=
  let! s := bits_set (states kb) packet.1 packet.2 in
  Ok (mkVirtKeyboard s (update_modifier (modifier kb) packet)).

Definition virt_event (kb : VirtKeyboard) (packet : KeyCode * bool) : KeyEvent :=
  mkKeyEvent packet.1 packet.2 (modifier kb).

Definition virt_parse (kb : VirtKeyboard) (packet : KeyCode * bool)
    : outcome (option KeyEvent * VirtKeyboard) :=
  let! kb := virt_update kb packet in Ok (Some (virt_event kb packet), kb).

(** ** Scan codes *)

Inductive Sc1 := Normal | Extra (b : Z) | Pause (b : Z) | Command.

Definition in_incl (lo hi x : Z) : bool := (lo <=? x) && (x <=? hi).

Definition parse_normal (byte : Z) : option (KeyCode * bool) :=
  let R k := k + 0x80 in
  if in_incl KEY_RESERVED KEY_KPDOT byte || in_incl KEY_F11 KEY_F12 byte then Some (byte, true)
  else if in_incl (R KEY_RESERVED) (R KEY_KPDOT) byte || in_incl (R KEY_F11) (R KEY_F12) byte
  then Some (byte - 0x80, false)
  else if byte =? 0x0F then Some (KEY_BACKSPACE, true)
  else if byte =? 0x8F then Some (KEY_BACKSPACE, false)
  else if byte =? 0x39 then Some (KEY_SPACE, true)
  else if byte =? 0xB9 then Some (KEY_SPACE, false)
  else None.

Definition sc1_parse (sc : Sc1) (byte : Z) : outcome (option (KeyCode * bool) * Sc1) :=
  match sc with
  | Normal => Ok (parse_normal byte, sc)
  | Extra _ | Pause _ | Command => Panic (* todo!() *)
  end.

(** ** The driver *)

Context {R : Type} `{RingBuf R}.

(** [KEYBOARD_SRC] and [KEYBOARD] share the ring buffer; both are absent before
    [init]. *)
Record Ps2 := mkPs2 { cur_sc : Sc1; ring : R; virt : VirtKeyboard }.

Definition DATA_PORT : Port := 0x60.

Definition ps2_init (k : option Ps2) : option Ps2 :=
  match k with
  | Some _ => k
  | None => Some (mkPs2 Normal (rb_new 128) virt_new)
  end.

Definition ps2_keyboard_handler (dev : Trace -> Port -> Z) (t : Trace) (k : option Ps2)
    : outcome (Trace * option Ps2) :=
  let '(byte, t) := inb dev DATA_PORT t in
  match k with
  | None => Ok (t, None)
  | Some s =>
      let! ' (packet, sc) := sc1_parse (cur_sc s) byte in
      match packet with
      | None => Ok (t, Some (mkPs2 sc (ring s) (virt s)))
      | Some packet => Ok (t, Some (mkPs2 sc (try_push (ring s) packet) (virt s)))
      end
  end.

(** [Ps2Keyboard::next] *)
Definition ps2_next (s : Ps2) : outcome (option KeyEvent * Ps2) :=
  let '(o, r) := try_pop (ring s) in
  match o with
  | None => Ok (None, mkPs2 (cur_sc s) r (virt s))
  | Some packet =>
      let! ' (ke, kb) := virt_parse (virt s) packet in
      Ok (ke, mkPs2 (cur_sc s) r kb)
  end.

(** ** The monitor *)

(** The keys of the letters. *)
Definition letters : list (KeyCode * Z) :=
  [(KEY_A, 97); (KEY_B, 98); (KEY_C, 99); (KEY_D, 100); (KEY_E, 101); (KEY_F, 102);
   (KEY_G, 103); (KEY_H, 104); (KEY_I, 105); (KEY_J, 106); (KEY_K, 107); (KEY_L, 108);
   (KEY_M, 109); (KEY_N, 110); (KEY_O, 111); (KEY_P, 112); (KEY_Q, 113); (KEY_R, 114);
   (KEY_S, 115); (KEY_T, 116); (KEY_U, 117); (KEY_V, 118); (KEY_W, 119); (KEY_X, 120);
   (KEY_Y, 121); (KEY_Z, 122)].

Definition letter (k : KeyCode) : option Z :=
  snd <$> List.find (fun p => p.1 =? k) letters.

Definition ketoa (ke : KeyEvent) : outcome (option Z) :=
  if negb (is_press ke) then Ok None
  else
    let is_cap := xorb (flags_contains (ev_modifier ke) CAPSLOCK) (flags_contains (ev_modifier ke) SHIFT) in
    let! cap_offset := umul 8 32 (Z.b2z is_cap) in
    if key ke =? KEY_0 then Ok (Some 48)
    else if in_incl KEY_1 KEY_9 (key ke) then
      let! d := usub 16 (key ke) KEY_1 in
      let! c := uadd 8 49 (as_u8 d) in Ok (Some c)
    else
      match letter (key ke) with
      | Some l => let! c := usub 8 l cap_offset in Ok (Some c)
      | None =>
          Ok (if key ke =? KEY_ENTER then Some 10
              else if key ke =? KEY_SPACE then Some 32
              else if key ke =? KEY_BACKSPACE then Some 0x8
              else None)
      end.

(** One turn of the loop of [Monitor::start], which never leaves it. *)
Definition monitor_turn (s : Ps2) (console : VGABuffer) : outcome (Ps2 * VGABuffer) :=
  let! ' (ke, s) := ps2_next s in
  let! ascii := match ke with None => Ok None | Some ke => ketoa ke end in
  match ascii with
  | None => Ok (s, console)
  | Some ascii => let! console := write_u8 console ascii in Ok (s, console)
  end.
End Keyboard.

Arguments Ps2 R : clear implicits.
