(* ===== verification/KeyboardTheorems.v ===== *)
(** * The keyboard and the monitor: correctness

    The state of the keys and of the modifiers is a function of the packets seen,
    and what was typed reaches the console in order, however the interrupts and
    the turns of the monitor interleave. *)

From S2P Require Import Prelude Pmio Vga VgaTheorems Keyboard.

(** ** Flags *)

Lemma single_bit_contains m n : 0 <= n -> (Z.land m (2 ^ n) =? 2 ^ n) = Z.testbit m n.
Proof.
  intros Hn. pose proof (pow2_pos n Hn). rewrite Z.land_comm.
  destruct (Z.testbit m n) eqn:E.
  - apply Z.eqb_eq. apply Z.bits_inj'. intros k Hk. rewrite Z.land_spec, Z.pow2_bits_eqb by done.
    destruct (n =? k) eqn:Ek; [apply Z.eqb_eq in Ek as <-; by rewrite E|done].
  - apply Z.eqb_neq. intros Heq. apply (f_equal (fun z => Z.testbit z n)) in Heq.
    rewrite Z.land_spec, Z.pow2_bits_true, E in Heq by done. done.
Qed.

(** The state that the last packet of certain keys leaves. *)
Definition last_state (ks : KeyCode -> bool) (d : bool) (ps : list (KeyCode * bool)) : bool :=
  fold_left (fun acc p => if ks p.1 then p.2 else acc) ps d.

(** Whether a key was pressed an odd number of times. *)
Definition odd_presses (k : KeyCode) (d : bool) (ps : list (KeyCode * bool)) : bool :=
  fold_left (fun acc p => if (p.1 =? k) && p.2 then negb acc else acc) ps d.

Definition is_shift (k : KeyCode) : bool := (k =? KEY_LEFTSHIFT) || (k =? KEY_RIGHTSHIFT).

Section Keys.
Context `{BitFlags} `{BitSet}.

Lemma flags_set_bit m n k b : 0 <= n -> 0 <= k ->
  Z.testbit (flags_set m (2 ^ n) b) k = if n =? k then b else Z.testbit m k.
Proof.
  intros Hn Hk. rewrite flags_set_ok. destruct b; rewrite ?Z.lor_spec, ?Z.ldiff_spec, Z.pow2_bits_eqb by done.
  - destruct (n =? k); [by rewrite orb_true_r|by rewrite orb_false_r].
  - destruct (n =? k); [by rewrite andb_false_r|by rewrite andb_true_r].
Qed.

Lemma flags_toggle_bit m n k : 0 <= n -> 0 <= k ->
  Z.testbit (flags_toggle m (2 ^ n)) k = if n =? k then negb (Z.testbit m k) else Z.testbit m k.
Proof.
  intros Hn Hk. rewrite flags_toggle_ok, Z.lxor_spec, Z.pow2_bits_eqb by done.
  destruct (n =? k); [by rewrite xorb_true_r|by rewrite xorb_false_r].
Qed.

Definition mods (m : Modifier) (ps : list (KeyCode * bool)) : Modifier := fold_left update_modifier ps m.

(** What one packet does to each modifier. *)
Lemma update_modifier_bits m k b :
  let m' := update_modifier m (k, b) in
  Z.testbit m' 0 = (if k =? KEY_LEFTALT then b else Z.testbit m 0) /\
  Z.testbit m' 1 = (if is_shift k then b else Z.testbit m 1) /\
  Z.testbit m' 2 = (if k =? KEY_LEFTCTRL then b else Z.testbit m 2) /\
  Z.testbit m' 3 = (if (k =? KEY_CAPSLOCK) && b then negb (Z.testbit m 3) else Z.testbit m 3) /\
  Z.testbit m' 4 = (if (k =? KEY_SCROLLLOCK) && b then negb (Z.testbit m 4) else Z.testbit m 4) /\
  Z.testbit m' 5 = (if (k =? KEY_NUMLOCK) && b then negb (Z.testbit m 5) else Z.testbit m 5).
Proof.
  cbn zeta. unfold update_modifier, is_shift.
  change ALT with (2 ^ 0). change SHIFT with (2 ^ 1). change CTRL with (2 ^ 2).
  change CAPSLOCK with (2 ^ 3). change SCROLLLOCK with (2 ^ 4). change NUMLOCK with (2 ^ 5).
  assert (Hcases : k = KEY_LEFTALT \/ k = KEY_LEFTCTRL \/ k = KEY_LEFTSHIFT \/ k = KEY_RIGHTSHIFT \/ k = KEY_CAPSLOCK \/
    k = KEY_SCROLLLOCK \/ k = KEY_NUMLOCK \/
    ((k =? KEY_LEFTALT) = false /\ (k =? KEY_LEFTCTRL) = false /\ (k =? KEY_LEFTSHIFT) = false /\
     (k =? KEY_RIGHTSHIFT) = false /\ (k =? KEY_CAPSLOCK) = false /\ (k =? KEY_SCROLLLOCK) = false /\
     (k =? KEY_NUMLOCK) = false)) by lia.
  destruct Hcases as [->|[->|[->|[->|[->|[->|[->|(-> & -> & -> & -> & -> & -> & ->)]]]]]]];
    destruct b; cbn -[flags_set flags_toggle Z.testbit Z.pow]; rewrite ?flags_set_bit, ?flags_toggle_bit by lia;
    cbn -[Z.testbit]; split_and!; done.
Qed.

(** The modifiers after a run of packets. *)
Record mods_of (m m' : Modifier) (ps : list (KeyCode * bool)) : Prop := {
  mo_alt : Z.testbit m' 0 = last_state (fun k => k =? KEY_LEFTALT) (Z.testbit m 0) ps;
  mo_shift : Z.testbit m' 1 = last_state is_shift (Z.testbit m 1) ps;
  mo_ctrl : Z.testbit m' 2 = last_state (fun k => k =? KEY_LEFTCTRL) (Z.testbit m 2) ps;
  mo_caps : Z.testbit m' 3 = odd_presses KEY_CAPSLOCK (Z.testbit m 3) ps;
  mo_scroll : Z.testbit m' 4 = odd_presses KEY_SCROLLLOCK (Z.testbit m 4) ps;
  mo_num : Z.testbit m' 5 = odd_presses KEY_NUMLOCK (Z.testbit m 5) ps
}.

Lemma mods_ok ps : forall m, mods_of m (mods m ps) ps.
Proof.
  induction ps as [|[k b] ps IH]; intros m; [done|]. cbn [mods fold_left].
  destruct (IH (update_modifier m (k, b))) as [I0 I1 I2 I3 I4 I5].
  destruct (update_modifier_bits m k b) as (U0 & U1 & U2 & U3 & U4 & U5).
  rewrite U0 in I0. rewrite U1 in I1. rewrite U2 in I2. rewrite U3 in I3. rewrite U4 in I4. rewrite U5 in I5.
  by split.
Qed.

(** Run packets through [VirtKeyboard::parse]. *)
Fixpoint feed (kb : VirtKeyboard) (ps : list (KeyCode * bool)) : outcome VirtKeyboard :=
  match ps with
  | [] => Ok kb
  | p :: ps => let! ' (_, kb) := virt_parse kb p in feed kb ps
  end.

Definition key_ok (p : KeyCode * bool) : Prop := 0 <= p.1 <= KEYCODE_MAX.

Lemma virt_parse_ok kb p :
  len (states kb) = 128 -> key_ok p ->
  virt_parse kb p = Ok (Some (mkKeyEvent p.1 p.2 (update_modifier (modifier kb) p)),
    mkVirtKeyboard (<[Z.to_nat p.1 := p.2]> (states kb)) (update_modifier (modifier kb) p)).
Proof.
  intros Hl Hp. unfold key_ok in Hp. change KEYCODE_MAX with 88 in Hp. unfold virt_parse, virt_update.
  rewrite bits_set_ok. by case_bool_lia.
Qed.

Lemma feed_ok ps : forall kb,
  len (states kb) = 128 -> Forall key_ok ps ->
  exists kb', feed kb ps = Ok kb' /\ len (states kb') = 128 /\ modifier kb' = mods (modifier kb) ps /\
    forall k d, 0 <= k < 128 -> states kb !! Z.to_nat k = Some d ->
      states kb' !! Z.to_nat k = Some (last_state (fun k' => k' =? k) d ps).
Proof.
  induction ps as [|p ps IH]; intros kb Hl Hps; cbn [feed].
  - exists kb. by split_and!.
  - apply Forall_cons in Hps as [Hp Hps]. rewrite virt_parse_ok by done. cbn [obind].
    destruct (IH (mkVirtKeyboard (<[Z.to_nat p.1 := p.2]> (states kb)) (update_modifier (modifier kb) p)))
      as (kb' & -> & Hl' & Hm & Hs); [cbn; unfold len in *; by rewrite length_insert|done|].
    exists kb'. split_and!; [done|done|done|]. intros k d Hk Hd. apply Hs; [done|]. cbn [states].
    unfold key_ok in Hp. change KEYCODE_MAX with 88 in Hp. case_bool (p.1 =? k) E.
    + rewrite E. rewrite list_lookup_insert_eq; [done|]. unfold len in Hl. lia.
    + by rewrite list_lookup_insert_ne by lia.
Qed.

Lemma virt_new_len : len (states virt_new) = 128.
Proof. reflexivity. Qed.

Lemma virt_new_state k : 0 <= k < 128 -> states virt_new !! Z.to_nat k = Some false.
Proof. intros Hk. apply lookup_replicate_2. change (Z.to_nat (STATES_LEN * 64)) with 128%nat. lia. Qed.

(** After any run of packets the keyboard records for every key whether it is
    down; alt, shift and control are set while the last such key seen is down, and
    the three locks are set after an odd number of presses. *)
Theorem keyboard_state_correct ps :
  Forall key_ok ps ->
  exists kb, feed virt_new ps = Ok kb /\
    (forall k, 0 <= k <= KEYCODE_MAX -> states kb !! Z.to_nat k = Some (last_state (fun k' => k' =? k) false ps)) /\
    flags_contains (modifier kb) ALT = last_state (fun k => k =? KEY_LEFTALT) false ps /\
    flags_contains (modifier kb) SHIFT = last_state is_shift false ps /\
    flags_contains (modifier kb) CTRL = last_state (fun k => k =? KEY_LEFTCTRL) false ps /\
    flags_contains (modifier kb) CAPSLOCK = odd_presses KEY_CAPSLOCK false ps /\
    flags_contains (modifier kb) SCROLLLOCK = odd_presses KEY_SCROLLLOCK false ps /\
    flags_contains (modifier kb) NUMLOCK = odd_presses KEY_NUMLOCK false ps.
Proof.
  intros Hps. destruct (feed_ok ps virt_new virt_new_len Hps) as (kb & E & _ & Hm & Hs).
  exists kb. split; [done|]. split.
  { change KEYCODE_MAX with 88. intros k Hk. apply Hs; [lia|]. apply virt_new_state. lia. }
  destruct (mods_ok ps 0) as [I0 I1 I2 I3 I4 I5]. change (modifier virt_new) with 0 in Hm. rewrite <- Hm in *.
  rewrite !flags_contains_ok. change ALT with (2 ^ 0). change SHIFT with (2 ^ 1). change CTRL with (2 ^ 2).
  change CAPSLOCK with (2 ^ 3). change SCROLLLOCK with (2 ^ 4). change NUMLOCK with (2 ^ 5).
  rewrite !single_bit_contains by lia. rewrite Z.bits_0 in *. by split_and!.
Qed.

(** ** From scan codes to the console *)

Lemma parse_normal_ok byte p : is_byte byte -> parse_normal byte = Some p -> key_ok p.
Proof.
  unfold is_byte, parse_normal, key_ok, in_incl. cbv beta zeta.
  change KEYCODE_MAX with 88. change KEY_RESERVED with 0. change KEY_KPDOT with 83. change KEY_F11 with 87. change KEY_F12 with 88.
  intros Hb. repeat (match goal with |- (if ?b then _ else _) = _ -> _ => destruct b eqn:?; [intros [= <-]; cbn; lia|] end). done.
Qed.

(** The arms for the scan codes of backspace and space are never reached. *)
Lemma parse_normal_tab : parse_normal 0x0F = Some (KEY_TAB, true).
Proof. reflexivity. Qed.

Lemma letter_range k l : letter k = Some l -> 97 <= l <= 122.
Proof.
  unfold letter. destruct (List.find (fun p => p.1 =? k) letters) as [[k' l']|] eqn:E; [|done]. cbn. intros [= <-].
  apply find_some in E as [Hin _]. unfold letters in Hin. cbn [In] in Hin.
  repeat (destruct Hin as [[= <- <-]|Hin]; [lia|]). done.
Qed.

Lemma ketoa_ok ke : 0 <= key ke <= KEYCODE_MAX ->
  exists o, ketoa ke = Ok o /\ forall c, o = Some c -> is_byte c.
Proof.
  change KEYCODE_MAX with 88. intros Hk. unfold ketoa, is_byte. destruct (is_press ke); cbn [negb]; [|by exists None].
  set (cap := xorb _ _). assert (Hcap : umul 8 32 (Z.b2z cap) = Ok (32 * Z.b2z cap)) by by destruct cap. rewrite Hcap. cbn [obind].
  destruct (key ke =? KEY_0); [eexists; split; [done|intros c [= <-]; lia]|].
  unfold in_incl. change KEY_1 with 2. change KEY_9 with 10. case_bool ((2 <=? key ke) && (key ke <=? 10)) E.
  { rewrite usub_ok by (change (2 ^ 16) with 65536; lia). cbn [obind]. unfold as_u8. rewrite Z.mod_small by lia.
    rewrite uadd_ok by (change (2 ^ 8) with 256; lia). cbn [obind]. eexists. split; [done|]. intros c [= <-]. lia. }
  destruct (letter (key ke)) as [l|] eqn:El.
  - apply letter_range in El. rewrite usub_ok by (change (2 ^ 8) with 256; destruct cap; cbn [Z.b2z]; lia). cbn [obind].
    eexists. split; [done|]. intros c [= <-]. destruct cap; cbn [Z.b2z]; lia.
  - eexists. split; [done|]. intros c. repeat (destruct (key ke =? _); [intros [= <-]; lia|]). done.
Qed.

(** The characters that a run of packets types. *)
Definition typed_one (m : Modifier) (p : KeyCode * bool) : list Z :=
  match ketoa (mkKeyEvent p.1 p.2 (update_modifier m p)) with
  | Ok (Some c) => [c]
  | _ => []
  end.
Fixpoint typed (m : Modifier) (ps : list (KeyCode * bool)) : list Z :=
  match ps with
  | [] => []
  | p :: ps => typed_one m p ++ typed (update_modifier m p) ps
  end.

Lemma typed_app m ps qs : typed m (ps ++ qs) = typed m ps ++ typed (mods m ps) qs.
Proof.
  revert m. induction ps as [|p ps IH]; intros m; [done|]. cbn [app typed mods fold_left].
  rewrite IH, app_assoc. done.
Qed.

(** ** The machine

    The keyboard and the monitor, with the accesses to the keyboard's port: an
    interrupt delivers one scan code, and the monitor takes a turn of its loop,
    in any order. *)

Context {R : Type} `{RingBuf R}.

Record System := mkSystem { kbd : option (Ps2 R); console : VGABuffer; bus : Trace }.

Inductive Event := Key (byte : Z) | Turn.

Definition sys_step (s : System) (e : Event) : outcome System :=
  match e with
  | Key byte =>
      let! ' (t, k) := ps2_keyboard_handler (fun _ _ => byte) (bus s) (kbd s) in
      Ok (mkSystem k (console s) t)
  | Turn =>
      let! k := oexpect (kbd s) in
      let! ' (k, c) := monitor_turn k (console s) in
      Ok (mkSystem (Some k) c (bus s))
  end.

Fixpoint sys_run (s : System) (es : list Event) : outcome System :=
  match es with
  | [] => Ok s
  | e :: es => let! s := sys_step s e in sys_run s es
  end.

Definition sys_init (v : VGABuffer) : System := mkSystem (ps2_init None) v [].

(** The packets that an event brings. *)
Definition packet_of (e : Event) : list (KeyCode * bool) :=
  match e with
  | Key byte => option_list (parse_normal byte)
  | Turn => []
  end.
Definition packets (es : list Event) : list (KeyCode * bool) := es ≫= packet_of.

Definition event_ok (e : Event) : Prop := match e with Key byte => is_byte byte | Turn => True end.

(** The packets seen are those handled, then those waiting, less the ones that
    found the buffer full; the console shows what the handled ones typed. *)
Record pipeline (v : VGABuffer) (ps : list (KeyCode * bool)) (s : System)
    (handled waiting : list (KeyCode * bool)) : Prop := {
  pi_sub : handled ++ waiting `sublist_of` ps;
  pi_all : len ps <= 128 -> handled ++ waiting = ps;
  pi_keys : Forall key_ok (handled ++ waiting);
  pi_fits : len waiting <= 128;
  pi_console : vga_write v (typed 0 handled) = Ok (console s);
  pi_vga : vga_ok (console s);
  pi_kbd : exists k, kbd s = Some k /\ cur_sc k = Normal /\ rb_items (ring k) = waiting /\
    rb_capacity (ring k) = 128 /\ len (states (virt k)) = 128 /\ modifier (virt k) = mods 0 handled
}.

Lemma pipeline_init v : vga_ok v -> pipeline v [] (sys_init v) [] [].
Proof.
  intros Hv. split; [done|done|constructor|done|done|done|].
  exists (mkPs2 Normal (rb_new 128) virt_new). destruct (rb_new_ok 128) as [Hi Hc]. by split_and!.
Qed.

Lemma pipeline_key v ps s h w byte :
  pipeline v ps s h w -> is_byte byte ->
  exists s' w', sys_step s (Key byte) = Ok s' /\ pipeline v (ps ++ packet_of (Key byte)) s' h w'.
Proof.
  intros [H1' H2' H3' H4' H5' H6' (k & Hk & Hsc & Hi & Hcap & Hl & Hm)] Hb.
  cbn [sys_step packet_of]. unfold ps2_keyboard_handler, inb. rewrite Hk, Hsc. cbn [sc1_parse obind].
  destruct (parse_normal byte) as [p|] eqn:Ep; cbn [obind]; [change (option_list (Some p)) with [p]|].
  - destruct (try_push_ok (ring k) p) as [Hcap' Hi']. rewrite Hi, Hcap in Hi'.
    eexists _, (if len w <? 128 then w ++ [p] else w). split; [done|]. split; cbn [console kbd]; [| | | |done|done|].
    + case_bool (len w <? 128) E; [rewrite app_assoc; by apply sublist_app|].
      rewrite <- (app_nil_r (h ++ _)). apply sublist_app; [done|apply sublist_nil_l].
    + unfold len in *. rewrite length_app. cbn [length]. intros Hlen. specialize (H2' ltac:(lia)).
      rewrite (proj2 (Z.ltb_lt _ _)); [by rewrite app_assoc, H2'|]. rewrite <- H2', length_app in Hlen. lia.
    + apply parse_normal_ok in Ep; [|done]. case_bool (len w <? 128) E; [|done]. rewrite app_assoc.
      apply Forall_app. split; [done|by constructor].
    + case_bool (len w <? 128) E; [|done]. unfold len in *. rewrite length_app. cbn [length]. lia.
    + eexists. split; [done|]. cbn. split_and!; [done|done|congruence|done|done].
  - eexists _, w. split; [done|]. rewrite app_nil_r. split; [done..|]. eexists. split; [done|]. by split_and!.
Qed.

Lemma pipeline_turn v ps s h w :
  pipeline v ps s h w ->
  exists s', sys_step s Turn = Ok s' /\ pipeline v ps s' (h ++ take 1 w) (drop 1 w).
Proof.
  intros [H1' H2' H3' H4' H5' H6' (k & Hk & Hsc & Hi & Hcap & Hl & Hm)].
  cbn [sys_step]. rewrite Hk. cbn [oexpect obind]. unfold monitor_turn, ps2_next.
  pose proof (try_pop_ok (ring k)) as [Hcap' Hpop]. rewrite Hi in Hpop. destruct (try_pop (ring k)) as [o r].
  cbn [fst snd] in *. destruct w as [|p w]; destruct Hpop as [-> Hr].
  - cbn [obind]. eexists. split; [done|]. cbn [take drop]. rewrite app_nil_r in *.
    split; rewrite ?app_nil_r; [done..|]. eexists. split; [done|]. cbn. split_and!; congruence || done.
  - apply Forall_app in H3' as [Hh [Hp Hw]%Forall_cons].
    rewrite virt_parse_ok by done. cbn [obind].
    destruct (ketoa_ok (mkKeyEvent p.1 p.2 (update_modifier (modifier (virt k)) p)) Hp) as (c & Ec & Hc).
    rewrite Ec. cbn [obind take drop].
    assert (Hmods : mods 0 (h ++ [p]) = update_modifier (modifier (virt k)) p)
      by (unfold mods; by rewrite fold_left_app, Hm).
    assert (Htyped : typed 0 (h ++ [p]) = typed 0 h ++ option_list c).
    { rewrite typed_app. f_equal. cbn [typed]. unfold typed_one. rewrite <- Hm, Ec, app_nil_r. by destruct c. }
    assert (Hrest : forall con, vga_write v (typed 0 (h ++ [p])) = Ok con -> vga_ok con ->
      pipeline v ps (mkSystem (Some (mkPs2 (cur_sc k) r (mkVirtKeyboard (<[Z.to_nat p.1 := p.2]> (states (virt k)))
                                (update_modifier (modifier (virt k)) p)))) con (bus s)) (h ++ [p]) w).
    { intros con Hcon Hok. assert (Hlw : len w <= 128) by (unfold len in *; cbn [length] in *; lia).
      split; rewrite <- ?app_assoc; [done|done|by apply Forall_app; split; [|constructor]|done|done|done|].
      eexists. split; [done|]. cbn. split_and!; [done|done|congruence|unfold len in *; by rewrite length_insert|done]. }
    destruct c as [c|]; cbn [obind].
    + destruct (write_u8_safe (console s) c H6' (Hc c eq_refl)) as (con & Ew & Hok). rewrite Ew. cbn [obind].
      eexists. split; [done|]. apply Hrest; [|done]. rewrite Htyped, vga_write_app, H5'. change (option_list (Some c)) with [c].
      cbn [obind vga_write]. by rewrite Ew.
    + eexists. split; [done|]. apply Hrest; [|done]. rewrite Htyped. change (option_list None) with (@nil Z). by rewrite app_nil_r.
Qed.

Lemma sys_run_app s es es' : sys_run s (es ++ es') = obind (sys_run s es) (fun s => sys_run s es').
Proof.
  revert s. induction es as [|e es IH]; intros s; cbn [app sys_run obind]; [done|].
  rewrite obind_assoc. destruct (sys_step s e); cbn [obind]; [apply IH|done|done].
Qed.

Lemma pipeline_run v es : forall ps s h w,
  pipeline v ps s h w -> Forall event_ok es ->
  exists s' h' w', sys_run s es = Ok s' /\ pipeline v (ps ++ packets es) s' h' w'.
Proof.
  induction es as [|e es IH]; intros ps s h w Hp Hes; cbn [sys_run].
  - exists s, h, w. split; [done|]. by rewrite app_nil_r.
  - apply Forall_cons in Hes as [He Hes].
    assert (Hstep : exists s' h' w', sys_step s e = Ok s' /\ pipeline v (ps ++ packet_of e) s' h' w').
    { destruct e as [byte|].
      - destruct (pipeline_key v ps s h w byte Hp He) as (s' & w' & ? & ?). eauto.
      - destruct (pipeline_turn v ps s h w Hp) as (s' & E & Hp'). cbn [packet_of]. rewrite app_nil_r. eauto 6. }
    destruct Hstep as (s1 & h1 & w1 & -> & Hp1). cbn [obind].
    destruct (IH _ _ _ _ Hp1 Hes) as (s' & h' & w' & -> & Hp'). exists s', h', w'. split; [done|].
    unfold packets. cbn [mbind list_bind]. by rewrite app_assoc.
Qed.

Lemma pipeline_drain v ps n : forall s h w,
  pipeline v ps s h w -> (length w <= n)%nat ->
  exists s', sys_run s (replicate n Turn) = Ok s' /\ pipeline v ps s' (h ++ w) [].
Proof.
  induction n as [|n IH]; intros s h w Hp Hn; cbn [replicate sys_run].
  - destruct w; [|cbn in Hn; lia]. exists s. by rewrite app_nil_r.
  - destruct (pipeline_turn v ps s h w Hp) as (s1 & -> & Hp1). cbn [obind].
    destruct (IH _ _ _ Hp1) as (s' & -> & Hp'); [rewrite length_drop; lia|]. exists s'. split; [done|].
    by rewrite <- app_assoc, take_drop in Hp'.
Qed.

(** C30: however interrupts and turns of the monitor interleave, nothing panics, and
    the console is in the state that writing the characters of the packets handled
    so far, in order, leads to.  Handled and waiting packets together are the
    packets that arrived, less some that found the buffer of 128 full. *)
Theorem keyboard_console_correct v es :
  vga_ok v -> Forall event_ok es ->
  exists s handled waiting, sys_run (sys_init v) es = Ok s /\
    vga_write v (typed 0 handled) = Ok (console s) /\ vga_ok (console s) /\
    handled ++ waiting `sublist_of` packets es /\ len waiting <= 128 /\
    (len (packets es) <= 128 -> handled ++ waiting = packets es).
Proof.
  intros Hv Hes. destruct (pipeline_run v es [] _ _ _ (pipeline_init v Hv) Hes) as (s & h & w & E & Hp).
  exists s, h, w. cbn [app] in Hp. destruct Hp. by split_and!.
Qed.

(** C31: nothing that was accepted is left behind: 128 turns after the last
    interrupt the buffer is empty, and up to 128 packets all of them have been
    typed. *)
Theorem keyboard_console_drains v es :
  vga_ok v -> Forall event_ok es ->
  exists s k handled, sys_run (sys_init v) (es ++ replicate 128 Turn) = Ok s /\
    kbd s = Some k /\ rb_items (ring k) = [] /\ handled `sublist_of` packets es /\
    (len (packets es) <= 128 -> handled = packets es) /\
    vga_write v (typed 0 handled) = Ok (console s).
Proof.
  intros Hv Hes. destruct (pipeline_run v es [] _ _ _ (pipeline_init v Hv) Hes) as (s & h & w & E & Hp). cbn [app] in Hp.
  destruct (pipeline_drain v (packets es) 128 s h w Hp) as (s' & E' & Hp').
  { pose proof (pi_fits _ _ _ _ _ Hp) as Hf. unfold len in Hf. lia. }
  destruct Hp' as [P1 P2 _ _ P5 _ (k & Hk & _ & Hi & _)]. rewrite app_nil_r in *.
  exists s', k, (h ++ w). rewrite sys_run_app, E. cbn [obind]. by split_and!.
Qed.
End Keys.

(** ** Witnesses *)

#[export] Instance demo_flags : BitFlags := {|
  flags_set m f b := if b then Z.lor m f else Z.ldiff m f;
  flags_toggle m f := Z.lxor m f;
  flags_contains m f := (Z.land m f =? f);
  flags_set_ok m f b := eq_refl;
  flags_toggle_ok m f := eq_refl;
  flags_contains_ok m f := eq_refl
|}.

#[export] Instance demo_bitset : BitSet := {|
  bits_set l i b := if (0 <=? i) && (i <? len l) then Ok (<[Z.to_nat i := b]> l) else Panic;
  bits_set_ok l i b := eq_refl
|}.

Definition demo_push (r : Z * list (Z * bool)) (x : Z * bool) : Z * list (Z * bool) :=
  if len r.2 <? r.1 then (r.1, r.2 ++ [x]) else r.
Definition demo_pop (r : Z * list (Z * bool)) : option (Z * bool) * (Z * list (Z * bool)) :=
  match r.2 with
  | [] => (None, r)
  | x :: l => (Some x, (r.1, l))
  end.

Lemma demo_push_ok r x : (demo_push r x).1 = r.1 /\
  (demo_push r x).2 = if len r.2 <? r.1 then r.2 ++ [x] else r.2.
Proof. unfold demo_push. by destruct (len r.2 <? r.1). Qed.

Lemma demo_pop_ok r : (demo_pop r).2.1 = r.1 /\
  match r.2 with
  | [] => (demo_pop r).1 = None /\ (demo_pop r).2.2 = []
  | x :: l => (demo_pop r).1 = Some x /\ (demo_pop r).2.2 = l
  end.
Proof. unfold demo_pop. destruct r as [n [|x l]]; by split. Qed.

#[export] Instance demo_ring : RingBuf (Z * list (Z * bool)) := {|
  rb_new n := (n, []);
  try_push := demo_push;
  try_pop := demo_pop;
  rb_items := snd;
  rb_capacity := fst;
  rb_new_ok n := conj eq_refl eq_refl;
  try_push_ok := demo_push_ok;
  try_pop_ok := demo_pop_ok
|}.

(** Shift, [k], shift up, [o], enter: typed as [K], [o] and a newline. *)
Definition demo_keys : list Event := [Key 42; Turn; Key 37; Key 165; Key 170; Turn; Key 24; Key 28].
Lemma demo_keys_ok : Forall event_ok demo_keys.
Proof. repeat constructor; vm_compute; congruence. Qed.
Lemma demo_keys_typed : typed 0 (packets demo_keys) = [75; 111; 10].
Proof. reflexivity. Qed.

Lemma keyboard_state_correct_witness :
  exists kb, feed virt_new [(KEY_LEFTSHIFT, true); (KEY_CAPSLOCK, true)] = Ok kb /\ flags_contains (modifier kb) SHIFT = true.
Proof.
  destruct (keyboard_state_correct [(KEY_LEFTSHIFT, true); (KEY_CAPSLOCK, true)]) as (kb & E & _ & _ & Hs & _).
  - repeat constructor; vm_compute; congruence.
  - exists kb. split; [exact E|]. rewrite Hs. reflexivity.
Defined.

Lemma keyboard_console_correct_witness :
  exists s handled waiting, sys_run (sys_init (demo_console 0)) demo_keys = Ok s /\
    vga_write (demo_console 0) (typed 0 handled) = Ok (console s) /\ handled ++ waiting = packets demo_keys.
Proof.
  destruct (keyboard_console_correct (demo_console 0) demo_keys) as (s & h & w & E & Ew & _ & _ & _ & Hall).
  - by apply demo_console_ok.
  - apply demo_keys_ok.
  - exists s, h, w. refine (conj E (conj Ew (Hall _))). by vm_compute.
Defined.

Lemma keyboard_console_drains_witness :
  exists s, sys_run (sys_init (demo_console 0)) (demo_keys ++ replicate 128 Turn) = Ok s /\
    vga_write (demo_console 0) [75; 111; 10] = Ok (console s).
Proof.
  destruct (keyboard_console_drains (demo_console 0) demo_keys) as (s & k & h & E & _ & _ & _ & Hall & Ew).
  - by apply demo_console_ok.
  - apply demo_keys_ok.
  - rewrite Hall, demo_keys_typed in Ew by by vm_compute. exists s. exact (conj E Ew).
Defined.
