(* ===== verification/Interrupt.v ===== *)
(** * Interrupts

    [src/src/interrupt.rs], [src/src/interrupt/pic.rs] and
    [src/src/interrupt/handler.rs]: the guard that disables interrupts, the
    interrupt descriptor table, the two interrupt controllers, and the handlers
    that the entry stubs call. *)

From S2P Require Import Prelude Pmio Vga Keyboard.

(** ** The interrupt guard *)

(** The interrupt flag of the processor, which [cli] and [sti] change, and
    [INTERRUPT_GUARD_CNT]. *)
Record Cpu := mkCpu { intr_enabled : bool; guard_cnt : Z }.

Definition enable_interrupt (c : Cpu) : Cpu := mkCpu true (guard_cnt c).
Definition disable_interrupt (c : Cpu) : Cpu := mkCpu false (guard_cnt c).

(** [fetch_add] and [fetch_sub] wrap. *)
Definition guard_new (c : Cpu) : Cpu :=
  let c := disable_interrupt c in
  mkCpu (intr_enabled c) (as_usize (guard_cnt c + 1)).

Definition guard_drop (c : Cpu) : Cpu :=
  let prev_cnt := guard_cnt c in
  let c := mkCpu (intr_enabled c) (as_usize (guard_cnt c - 1)) in
  if prev_cnt =? 1 then enable_interrupt c else c.

(** ** Interrupt descriptors *)

Record InterruptDesc := mkInterruptDesc {
  low_low_offset : Z;
  segment_selector : Z;
  attributes : Z;
  high_low_offset : Z;
  high_offset : Z;
  desc_reserved : Z
}.

Definition desc_null : InterruptDesc := mkInterruptDesc 0 0 0 0 0 0.

Inductive GateTyp := Intrpt | Trap.
Definition GateTyp_u8 (t : GateTyp) : Z := match t with Intrpt => 14 | Trap => 15 end.

Inductive Privilege := User | Kernel.
Definition Privilege_u8 (p : Privilege) : Z := match p with User => 3 | Kernel => 0 end.

(** [bitvec]: [BitField::load_le] and [BitField::store_le] on the bits [lo..hi] of
    an integer viewed in [Lsb0] order. *)
Class BitField := {
  load_le : Z -> Z * Z -> Z;
  store_le : Z -> Z * Z -> Z -> Z;
  load_le_ok x lo hi : 0 <= lo < hi -> load_le x (lo, hi) = Z.shiftr x lo mod 2 ^ (hi - lo);
  store_le_ok x lo hi v : 0 <= lo < hi ->
    store_le x (lo, hi) v = Z.lor (Z.ldiff x (Z.shiftl (Z.ones (hi - lo)) lo)) (Z.shiftl (v mod 2 ^ (hi - lo)) lo)
}.

Definition DPL_IDXS : Z * Z := (13, 15).
Definition IST_IDXS : Z * Z := (0, 2).
Definition P_IDXS : Z * Z := (15, 16).
Definition TYPE_IDXS : Z * Z := (8, 12).

Section Interrupts.
Context `{BitField}.

Definition desc_new (addr : Z) (typ : GateTyp) (dpl : Privilege) : InterruptDesc :=
  let low_low := load_le addr (0, 16) in
  let high_low := load_le addr (16, 32) in
  let high := load_le addr (32, 64) in
  let a := store_le 0 TYPE_IDXS (GateTyp_u8 typ) in
  let a := store_le a DPL_IDXS (Privilege_u8 dpl) in
  let a := store_le a P_IDXS 1 in
  mkInterruptDesc low_low 8 a high_low high 0.

Definition desc_exn (addr : Z) : InterruptDesc := desc_new addr Trap Kernel.
Definition desc_irq (addr : Z) : InterruptDesc := desc_new addr Trap Kernel.

(** ** The descriptor table *)

Definition IDT_LEN : Z := 256.
Abbreviation Idt := (list InterruptDesc).
Definition idt_new : Idt := replicate (Z.to_nat IDT_LEN) desc_null.

Definition VECTOR_DF : Z := 8.
Definition VECTOR_PF : Z := 14.
Definition VECTOR_PIC : Z := 32.

(** The loop over the vectors [i..i+n] of both initialisers; [isr] is the table
    that the entry stubs define. *)
Fixpoint init_handlers (mk : Z -> InterruptDesc) (isr : list Z) (i : Z) (n : nat) (idt : Idt) : outcome Idt :=
  match n with
  | O => Ok idt
  | S n =>
      let! addr := slice_get isr i in
      let! idt := if addr =? 0 then Ok idt else slice_set idt i (mk addr) in
      init_handlers mk isr (i + 1) n idt
  end.

Definition init_exn_handlers (isr : list Z) (idt : Idt) : outcome Idt := init_handlers desc_exn isr 0 22 idt.
Definition init_irq_handlers (isr : list Z) (idt : Idt) : outcome Idt := init_handlers desc_irq isr 32 16 idt.

Record Idtr := mkIdtr { limit : Z; idt_base : Z }.

(** [size_of::<InterruptDesc>()] *)
Definition DESC_SIZE : Z := 2 + 2 + 2 + 2 + 4 + 4.
Definition init_idtr (idt_addr : Z) : Idtr := mkIdtr (as_u16 (IDT_LEN * DESC_SIZE)) idt_addr.

(** ** The interrupt controllers *)

Definition PIC1_CMD_PORT : Port := 0x20.
Definition PIC1_DATA_PORT : Port := 0x21.
Definition PIC2_CMD_PORT : Port := 0xA0.
Definition PIC2_DATA_PORT : Port := 0xA1.
Definition ICW1 : Z := 17.
Definition ICW2_PIC1 : Z := VECTOR_PIC.
Definition ICW2_PIC2 : Z := VECTOR_PIC + 8.
Definition ICW3_PIC1 : Z := 4.
Definition ICW3_PIC2 : Z := 2.
Definition ICW4 : Z := 1.

Definition init_pic (t : Trace) : Trace :=
  let t := outb PIC1_CMD_PORT ICW1 t in
  let t := outb PIC2_CMD_PORT ICW1 t in
  let t := outb PIC1_DATA_PORT ICW2_PIC1 t in
  let t := outb PIC2_DATA_PORT ICW2_PIC2 t in
  let t := outb PIC1_DATA_PORT ICW3_PIC1 t in
  let t := outb PIC2_DATA_PORT ICW3_PIC2 t in
  let t := outb PIC1_DATA_PORT ICW4 t in
  outb PIC2_DATA_PORT ICW4 t.

Definition mask_all (t : Trace) : Trace := outb PIC2_DATA_PORT 0xff (outb PIC1_DATA_PORT 0xff t).
Definition unmask_all (t : Trace) : Trace := outb PIC2_DATA_PORT 0 (outb PIC1_DATA_PORT 0 t).

Definition EOI : Z := 0x20.
Definition ack (irq : Z) (t : Trace) : Trace :=
  if (0 <=? irq) && (irq <? 8) then outb PIC1_CMD_PORT EOI t
  else if (8 <=? irq) && (irq <? 16) then outb PIC2_CMD_PORT EOI t
  else t.

(** The offset and the controller of an interrupt request. *)
Definition pic_of (irq : Z) : option (Z * Port) :=
  if (0 <=? irq) && (irq <? 8) then Some (irq, PIC1_DATA_PORT)
  else if (8 <=? irq) && (irq <? 16) then Some (irq - 8, PIC2_DATA_PORT)
  else None.

Context (dev : Trace -> Port -> Z).

Definition pic_mask (irq : Z) (t : Trace) : outcome Trace :=
  match pic_of irq with
  | None => Ok t
  | Some (irq_offset, pic) =>
      let '(mask, t) := inb dev pic t in
      let! bit := ushl 8 1 irq_offset in
      Ok (outb pic (Z.lor mask bit) t)
  end.

(** [!x] on a byte is [255 - x]. *)
Definition pic_unmask (irq : Z) (t : Trace) : outcome Trace :=
  match pic_of irq with
  | None => Ok t
  | Some (irq_offset, pic) =>
      let '(mask, t) := inb dev pic t in
      let! bit := ushl 8 1 irq_offset in
      Ok (outb pic (Z.land mask (255 - bit)) t)
  end.

(** [interrupt::init] *)
Record IntrState := mkIntrState { cpu : Cpu; idt : Idt; idtr : Idtr; intr_ports : Trace }.

Definition interrupt_init (isr : list Z) (idt_addr : Z) (s : IntrState) : outcome IntrState :=
  let r := init_idtr idt_addr in
  let! i := init_exn_handlers isr (idt s) in
  let! i := init_irq_handlers isr i in
  let t := mask_all (init_pic (intr_ports s)) in
  let! t := pic_unmask 1 t in
  Ok (mkIntrState (enable_interrupt (cpu s)) i r t).

(** ** Handlers *)

Context {R : Type} `{RingBuf R}.

Definition irq_handler (vec : Z) (t : Trace) (k : option (Ps2 R)) : outcome (Trace * option (Ps2 R)) :=
  let! irq := usub 8 vec VECTOR_PIC in
  let! ' (t, k) := if irq =? 1 then ps2_keyboard_handler dev t k else Ok (t, k) in
  Ok (ack irq t, k).

(** How an exception handler ends: it returns to the code that was interrupted,
    stops the processor after it wrote to the console, or waits for the lock of
    the console forever. *)
Inductive ExnEnd := Returned | Halted (console : VGABuffer) | Spins.

(** [log!] of a message, then [hlt]; [locked] tells whether the interrupted code
    holds the lock. *)
Definition log_and_halt (msg : list Z) (locked : bool) (console : VGABuffer) : outcome ExnEnd :=
  if locked then Ok Spins else let! console := vga_write console msg in Ok (Halted console).

Definition page_fault_msg : list Z := [80; 97; 103; 101; 32; 70; 97; 117; 108; 116; 33].
Definition double_fault_msg : list Z := [68; 111; 117; 98; 108; 101; 32; 70; 97; 117; 108; 116; 33].

Definition exception_handler (vec : Z) (locked : bool) (console : VGABuffer) : outcome ExnEnd :=
  if vec =? VECTOR_PF then log_and_halt page_fault_msg locked console
  else if vec =? VECTOR_DF then log_and_halt double_fault_msg locked console
  else Ok Returned.
End Interrupts.
