(* ===== verification/InterruptTheorems.v ===== *)
(** * Interrupts: correctness *)

From S2P Require Import Prelude Pmio Vga VgaTheorems Keyboard KeyboardTheorems Interrupt.

(** Decide an equation between comparisons. *)
Ltac cmp_lia :=
  repeat match goal with
  | |- context [?a <=? ?b] => destruct (Z.leb_spec a b)
  | |- context [?a <? ?b] => destruct (Z.ltb_spec a b)
  end; cbn [andb]; first [reflexivity | lia].

(** ** The interrupt guard *)

Inductive GuardOp := GNew | GDrop.

Definition guard_step (c : Cpu) (o : GuardOp) : Cpu := match o with GNew => guard_new c | GDrop => guard_drop c end.
Definition guard_run (c : Cpu) (ops : list GuardOp) : Cpu := fold_left guard_step ops c.

(** The number of guards alive after a run that starts with [n]; [None] when it
    drops a guard that does not exist. *)
Fixpoint alive (n : Z) (ops : list GuardOp) : option Z :=
  match ops with
  | [] => Some n
  | GNew :: ops => alive (n + 1) ops
  | GDrop :: ops => if n =? 0 then None else alive (n - 1) ops
  end.

Lemma guard_run_ok ops : forall c n m,
  guard_cnt c = n -> 0 <= n -> n + len ops < USIZE -> (0 < n -> intr_enabled c = false) -> alive n ops = Some m ->
  let c' := guard_run c ops in
  guard_cnt c' = m /\ 0 <= m /\ (0 < m -> intr_enabled c' = false) /\
  (m = 0 -> intr_enabled c' = match ops with [] => intr_enabled c | _ => true end).
Proof.
  induction ops as [|o ops IH]; intros c n m Hc Hn Hmax Hen Ha; cbn zeta.
  - injection Ha as <-. by split_and!.
  - unfold len in Hmax. cbn [length] in Hmax. cbn [guard_run fold_left].
    destruct o; cbn [alive guard_step] in *.
    + assert (Hcnt : guard_cnt (guard_new c) = n + 1).
      { cbn. rewrite Hc. unfold as_usize. by rewrite Z.mod_small by lia. }
      destruct (IH (guard_new c) (n + 1) m Hcnt ltac:(lia) ltac:(unfold len; lia) ltac:(done) Ha) as (H1 & H2 & H3 & H4).
      split_and!; [done|done|done|]. intros Hm. destruct ops as [|]; [|by apply H4].
      cbn in Ha. injection Ha as <-. lia.
    + case_bool (n =? 0) E; [done|].
      assert (Hcnt : guard_cnt (guard_drop c) = n - 1 /\ intr_enabled (guard_drop c) = if n =? 1 then true else intr_enabled c).
      { unfold guard_drop. rewrite Hc. unfold as_usize. rewrite Z.mod_small by lia. by destruct (n =? 1). }
      destruct Hcnt as [Hcnt Hint].
      assert (Hen' : 0 < n - 1 -> intr_enabled (guard_drop c) = false).
      { intros ?. rewrite Hint, (proj2 (Z.eqb_neq n 1)) by lia. apply Hen. lia. }
      destruct (IH (guard_drop c) (n - 1) m Hcnt ltac:(lia) ltac:(unfold len; lia) Hen' Ha) as (H1 & H2 & H3 & H4).
      split_and!; [done|done|done|]. intros Hm. destruct ops as [|]; [|by apply H4].
      cbn in Ha. injection Ha as <-. cbn [fold_left].
      rewrite Hint. by rewrite (proj2 (Z.eqb_eq n 1)) by lia.
Qed.

(** ** Descriptors *)

(** The address and the attributes that the processor reads from a descriptor. *)
Definition gate_addr (d : InterruptDesc) : Z :=
  low_low_offset d + 2 ^ 16 * high_low_offset d + 2 ^ 32 * high_offset d.

Section Theorems.
Context `{BitField}.

Lemma desc_new_addr addr typ dpl : 0 <= addr < USIZE -> gate_addr (desc_new addr typ dpl) = addr.
Proof.
  intros Ha. unfold gate_addr, desc_new. cbn [low_low_offset high_low_offset high_offset].
  rewrite !load_le_ok by lia. rewrite !Z.shiftr_div_pow2 by lia.
  change (2 ^ 0) with 1. change (16 - 0) with 16. change (32 - 16) with 16. change (64 - 32) with 32.
  rewrite Z.div_1_r. rewrite (Z.mod_small (addr / 2 ^ 32)).
  2:{ split; [apply Z.div_pos; lia|apply Z.div_lt_upper_bound; lia]. }
  change (2 ^ 32) with (2 ^ 16 * 2 ^ 16). rewrite <- Z.div_div by lia.
  pose proof (Z.div_mod addr (2 ^ 16) ltac:(lia)). pose proof (Z.div_mod (addr / 2 ^ 16) (2 ^ 16) ltac:(lia)). lia.
Qed.

Lemma desc_new_fields addr typ dpl :
  attributes (desc_new addr typ dpl) = 2 ^ 15 + 2 ^ 13 * Privilege_u8 dpl + 2 ^ 8 * GateTyp_u8 typ /\
  segment_selector (desc_new addr typ dpl) = 8.
Proof.
  split; [|done]. cbn [desc_new attributes]. unfold TYPE_IDXS, DPL_IDXS, P_IDXS. rewrite !store_le_ok by lia.
  destruct typ, dpl; vm_compute; reflexivity.
Qed.

(** The handlers that the loop installs. *)
Lemma init_handlers_ok mk isr n : forall i (idt : list InterruptDesc),
  len isr = 256 -> len idt = 256 -> 0 <= i -> i + Z.of_nat n <= 256 ->
  exists idt', init_handlers mk isr i n idt = Ok idt' /\ len idt' = 256 /\
    forall j a, isr !! j = Some a ->
      idt' !! j = if (i <=? Z.of_nat j) && (Z.of_nat j <? i + Z.of_nat n) && negb (a =? 0)
                  then Some (mk a) else idt !! j.
Proof.
  induction n as [|n IH]; intros i idt Hisr Hidt Hi Hn; cbn [init_handlers].
  - exists idt. split_and!; [done|done|]. intros j a Ha. replace ((i <=? Z.of_nat j) && (Z.of_nat j <? i + Z.of_nat 0)) with false by cmp_lia. done.
  - destruct (slice_get_in_range isr i ltac:(lia)) as (a & -> & Ha). cbn [obind].
    set (idt1 := (if a =? 0 then idt else <[Z.to_nat i := mk a]> idt) : list InterruptDesc).
    assert (E1 : (if a =? 0 then Ok idt else slice_set idt i (mk a)) = Ok idt1).
    { subst idt1. destruct (a =? 0); [done|]. by rewrite slice_set_ok by lia. }
    rewrite E1. cbn [obind]. assert (Hl1 : len idt1 = 256).
    { subst idt1. destruct (a =? 0); [done|]. unfold len in *. by rewrite length_insert. }
    destruct (IH (i + 1) idt1 Hisr Hl1 ltac:(lia) ltac:(lia)) as (idt' & -> & Hl' & Hj).
    exists idt'. split_and!; [done|done|]. intros j b Hb. rewrite (Hj j b Hb). subst idt1.
    destruct (decide (Z.of_nat j = i)) as [Hji|Hji].
    + replace (Z.to_nat i) with j in * by lia. assert (b = a) as -> by congruence.
      replace ((i + 1 <=? Z.of_nat j) && (Z.of_nat j <? i + 1 + Z.of_nat n)) with false by cmp_lia. cbn [andb].
      replace ((i <=? Z.of_nat j) && (Z.of_nat j <? i + Z.of_nat (S n))) with true by cmp_lia. cbn [andb].
      destruct (a =? 0); cbn [negb]; [done|]. apply list_lookup_insert_eq. unfold len in Hidt. lia.
    + replace ((i + 1 <=? Z.of_nat j) && (Z.of_nat j <? i + 1 + Z.of_nat n))
        with ((i <=? Z.of_nat j) && (Z.of_nat j <? i + Z.of_nat (S n))) by cmp_lia.
      destruct ((i <=? Z.of_nat j) && (Z.of_nat j <? i + Z.of_nat (S n)) && negb (b =? 0)); [done|].
      destruct (a =? 0); [done|]. by rewrite list_lookup_insert_ne by lia.
Qed.

(** ** The interrupt controllers *)

(** The mask of a controller: the byte last written to its data port. *)
Definition imr (t : Trace) (port : Port) : option Z := last (written port t).

Definition pic_port (irq : Z) : Port := if irq <? 8 then PIC1_DATA_PORT else PIC2_DATA_PORT.

Definition is_pic_port (port : Port) : Prop := port = PIC1_DATA_PORT \/ port = PIC2_DATA_PORT.

(** What the controllers document: once its three initialisation words have been
    written, a read of the data port returns the mask. *)
Definition imr_readable (dev : Trace -> Port -> Z) : Prop :=
  forall t port v, is_pic_port port -> (3 < length (written port t))%nat -> imr t port = Some v -> dev t port = v.

(** Whether a request is masked. *)
Definition masked (t : Trace) (irq : Z) : Prop :=
  exists v, imr t (pic_port irq) = Some v /\ Z.testbit v (irq mod 8) = true.

(** Both controllers are set up and have a mask. *)
Definition pics_ready (t : Trace) : Prop :=
  forall port, is_pic_port port -> (3 < length (written port t))%nat /\ exists v, imr t port = Some v /\ is_byte v.

Lemma written_out port p v t :
  written port (t ++ [OutB p v]) = if p =? port then written port t ++ [v] else written port t.
Proof. rewrite written_app. cbn [written]. destruct (p =? port); [done|by rewrite app_nil_r]. Qed.
Lemma written_in port p v t : written port (t ++ [InB p v]) = written port t.
Proof. rewrite written_app. by rewrite app_nil_r. Qed.

Lemma pic_of_ok irq : 0 <= irq < 16 -> pic_of irq = Some (irq mod 8, pic_port irq) /\ 0 <= irq mod 8 < 8.
Proof.
  intros Hi. pose proof (Z.mod_pos_bound irq 8 ltac:(lia)). split; [|done]. unfold pic_of, pic_port.
  case_bool (irq <? 8) E; case_bool_lia.
  - rewrite Z.mod_small by lia. done.
  - case_bool_lia. replace (irq mod 8) with (irq - 8); [done|].
    apply (Z.mod_unique irq 8 1); lia.
Qed.

Lemma pic_port_is irq : is_pic_port (pic_port irq).
Proof. unfold pic_port, is_pic_port. destruct (irq <? 8); auto. Qed.

(** A write of [v] to the data port of [irq] after a read of it. *)
Lemma pic_write t irq w v :
  pics_ready t -> is_byte v ->
  let t' := outb (pic_port irq) v (t ++ [InB (pic_port irq) w]) in
  pics_ready t' /\ imr t' (pic_port irq) = Some v /\
  forall port, port <> pic_port irq -> imr t' port = imr t port.
Proof.
  intros Hr Hv. cbn zeta. unfold outb, imr. split_and!.
  - intros port Hp. destruct (Hr port Hp) as (Hl & u & Hu & Hub). unfold imr. rewrite written_out, written_in.
    destruct (pic_port irq =? port); [|eauto]. rewrite length_app, last_snoc. split; [lia|eauto].
  - rewrite written_out, Z.eqb_refl, last_snoc. done.
  - intros port Hne. rewrite written_out, written_in, (proj2 (Z.eqb_neq _ _)) by congruence. done.
Qed.

Lemma same_pic j irq : 0 <= j < 16 -> 0 <= irq < 16 -> pic_port j = pic_port irq -> j mod 8 = irq mod 8 -> j = irq.
Proof.
  unfold pic_port. intros Hj Hi. case_bool (j <? 8) E1; case_bool (irq <? 8) E2; try done; intros _ Hm.
  - by rewrite !Z.mod_small in Hm by lia.
  - pose proof (Z.div_mod j 8 ltac:(lia)). pose proof (Z.div_mod irq 8 ltac:(lia)).
    assert (j / 8 = 1) by (symmetry; apply (Z.div_unique j 8 1 (j - 8)); lia).
    assert (irq / 8 = 1) by (symmetry; apply (Z.div_unique irq 8 1 (irq - 8)); lia). lia.
Qed.

(** The masked requests after the mask of [irq]'s controller became [v]. *)
Lemma masked_write t t' irq u v (b : bool) :
  0 <= irq < 16 -> imr t (pic_port irq) = Some u -> imr t' (pic_port irq) = Some v ->
  (forall port, port <> pic_port irq -> imr t' port = imr t port) ->
  (forall n, 0 <= n < 8 -> Z.testbit v n = if n =? irq mod 8 then b else Z.testbit u n) ->
  forall j, 0 <= j < 16 -> masked t' j <-> if j =? irq then b = true else masked t j.
Proof.
  intros Hi Hu Hv Hoth Hb j Hj. pose proof (Z.mod_pos_bound j 8 ltac:(lia)). unfold masked.
  destruct (decide (pic_port j = pic_port irq)) as [Ep|Ep].
  - rewrite Ep, Hu, Hv. case_bool (j =? irq) E.
    + subst j. split; [intros (x & [= <-] & Hx)|intros Hx; exists v; split; [done|]];
        rewrite Hb, Z.eqb_refl in * by done; done.
    + assert (Hm : (j mod 8 =? irq mod 8) = false) by (apply Z.eqb_neq; intros ?; by apply E, same_pic).
      split; intros (x & [= <-] & Hx); eexists; (split; [done|]); rewrite Hb, Hm in * by done; done.
  - rewrite Hoth by done. rewrite (proj2 (Z.eqb_neq j irq)) by congruence. done.
Qed.

Context (dev : Trace -> Port -> Z) (Himr : imr_readable dev).

Lemma byte_bit n : 0 <= n < 8 -> ushl 8 1 n = Ok (2 ^ n) /\ 1 <= 2 ^ n <= 128.
Proof.
  intros Hn. pose proof (pow2_le n 7 ltac:(lia)). pose proof (pow2_pos n ltac:(lia)). change (2 ^ 7) with 128 in *.
  split; [|lia]. rewrite ushl_ok by (change (2 ^ 8) with 256; lia). f_equal. lia.
Qed.

Lemma byte_testbit x n : is_byte x -> 8 <= n -> Z.testbit x n = false.
Proof.
  unfold is_byte. intros Hx Hn. destruct (decide (x = 0)) as [->|]; [apply Z.bits_0|].
  apply Z.bits_above_log2; [lia|]. assert (Z.log2 x < 8); [|lia]. apply Z.log2_lt_pow2; [lia|]. change (2 ^ 8) with 256. lia.
Qed.

Lemma byte_of_bits x : 0 <= x -> (forall n, 8 <= n -> Z.testbit x n = false) -> is_byte x.
Proof.
  intros Hx Hb. unfold is_byte. split; [done|]. change 256 with (2 ^ 8).
  replace x with (x mod 2 ^ 8); [apply Z.mod_pos_bound; lia|].
  apply Z.bits_inj'. intros n Hn. destruct (decide (n < 8)).
  - by rewrite Z.mod_pow2_bits_low by lia.
  - rewrite Z.mod_pow2_bits_high by lia. symmetry. apply Hb. lia.
Qed.

Lemma pic_mask_ok irq t :
  pics_ready t -> 0 <= irq < 16 ->
  exists t', pic_mask dev irq t = Ok t' /\ pics_ready t' /\
    forall j, 0 <= j < 16 -> masked t' j <-> j = irq \/ masked t j.
Proof.
  intros Hr Hi. destruct (pic_of_ok irq Hi) as [Hp Hm]. unfold pic_mask. rewrite Hp. cbn [inb].
  destruct (Hr _ (pic_port_is irq)) as (Hl & u & Hu & Hub). rewrite (Himr t _ u (pic_port_is irq) Hl Hu).
  destruct (byte_bit _ Hm) as [-> Hbit]. cbn [obind].
  assert (Hv : is_byte (Z.lor u (2 ^ (irq mod 8)))).
  { apply byte_of_bits; [apply Z.lor_nonneg; unfold is_byte in Hub; lia|]. intros n Hn.
    rewrite Z.lor_spec, Z.pow2_bits_eqb, byte_testbit by (done || lia). apply Z.eqb_neq. lia. }
  destruct (pic_write t irq u _ Hr Hv) as (Hr' & Hi' & Hoth). eexists. split; [done|]. split; [exact Hr'|].
  intros j Hj. rewrite (masked_write t _ irq u _ true Hi Hu Hi' Hoth); [|intros n Hn|done].
  - case_bool (j =? irq) E; [split; [by left|done]|]. split; [by right|]. by intros [?|?].
  - rewrite Z.lor_spec, Z.pow2_bits_eqb, Z.eqb_sym by lia. destruct (n =? irq mod 8); [by rewrite orb_true_r|by rewrite orb_false_r].
Qed.

Lemma pic_unmask_ok irq t :
  pics_ready t -> 0 <= irq < 16 ->
  exists t', pic_unmask dev irq t = Ok t' /\ pics_ready t' /\
    forall j, 0 <= j < 16 -> masked t' j <-> j <> irq /\ masked t j.
Proof.
  intros Hr Hi. destruct (pic_of_ok irq Hi) as [Hp Hm]. unfold pic_unmask. rewrite Hp. cbn [inb].
  destruct (Hr _ (pic_port_is irq)) as (Hl & u & Hu & Hub). rewrite (Himr t _ u (pic_port_is irq) Hl Hu).
  destruct (byte_bit _ Hm) as [-> Hbit]. cbn [obind].
  assert (Hnot : forall n, 0 <= n < 8 -> Z.testbit (255 - 2 ^ (irq mod 8)) n = negb (n =? irq mod 8)).
  { intros n Hn. replace (255 - 2 ^ (irq mod 8)) with (Z.ldiff 255 (2 ^ (irq mod 8))).
    - rewrite Z.ldiff_spec, Z.pow2_bits_eqb, (Z.eqb_sym n) by lia. change 255 with (Z.ones 8).
      rewrite Z.ones_spec_low by lia. done.
    - symmetry. apply Z.sub_nocarry_ldiff. assert (Hc : irq mod 8 = 0 \/ irq mod 8 = 1 \/ irq mod 8 = 2 \/ irq mod 8 = 3 \/
        irq mod 8 = 4 \/ irq mod 8 = 5 \/ irq mod 8 = 6 \/ irq mod 8 = 7) by lia.
      by destruct Hc as [->|[->|[->|[->|[->|[->|[->| ->]]]]]]]. }
  assert (Hv : is_byte (Z.land u (255 - 2 ^ (irq mod 8)))).
  { apply byte_of_bits; [apply Z.land_nonneg; unfold is_byte in Hub; lia|]. intros n Hn.
    by rewrite Z.land_spec, (byte_testbit u) by done. }
  destruct (pic_write t irq u _ Hr Hv) as (Hr' & Hi' & Hoth). eexists. split; [done|]. split; [exact Hr'|].
  intros j Hj. rewrite (masked_write t _ irq u _ false Hi Hu Hi' Hoth); [|intros n Hn|done].
  - case_bool (j =? irq) E; [split; [done|by intros [? _]]|]. split; [done|by intros [_ ?]].
  - rewrite Z.land_spec, Hnot by done. destruct (n =? irq mod 8); cbn [negb]; [by rewrite andb_false_r|by rewrite andb_true_r].
Qed.

(** After initialisation every request is masked. *)
Lemma pics_initialised t :
  let t' := mask_all (init_pic t) in
  pics_ready t' /\ forall j, 0 <= j < 16 -> masked t' j.
Proof.
  cbn zeta. assert (Hw : forall port, is_pic_port port ->
    (3 < length (written port (mask_all (init_pic t))))%nat /\ imr (mask_all (init_pic t)) port = Some 0xff).
  { intros port [->| ->]; unfold mask_all, init_pic, outb, imr; rewrite !written_out;
      cbn -[written last]; (split; [rewrite !length_app; cbn [length]; lia|apply last_snoc]). }
  split.
  - intros port Hp. destruct (Hw port Hp) as [Hl Hv]. split; [done|]. exists 0xff. split; [done|by unfold is_byte].
  - intros j Hj. exists 0xff. destruct (Hw _ (pic_port_is j)) as [_ Hv]. split; [done|].
    change 0xff with (Z.ones 8). apply Z.ones_spec_low. apply Z.mod_pos_bound. lia.
Qed.

(** The vectors with a handler: exceptions and the requests of the controllers. *)
Definition has_vector (j : Z) : bool := (0 <=? j) && (j <=? 21) || (32 <=? j) && (j <=? 47).

Lemma interrupt_init_spec isr addr s :
  len isr = 256 -> Forall (fun a => 0 <= a < USIZE) isr -> idt s = idt_new ->
  exists s', interrupt_init dev isr addr s = Ok s' /\ intr_enabled (cpu s') = true /\
    (forall irq, 0 <= irq < 16 -> masked (intr_ports s') irq <-> irq <> 1) /\
    forall j a, isr !! j = Some a ->
      if has_vector (Z.of_nat j) && negb (a =? 0)
      then exists d, idt s' !! j = Some d /\ gate_addr d = a /\ segment_selector d = 8 /\ attributes d = 0x8F00
      else idt s' !! j = Some desc_null.
Proof.
  intros Hisr Hrange Hidt. unfold interrupt_init, init_exn_handlers, init_irq_handlers. rewrite Hidt.
  destruct (init_handlers_ok desc_exn isr 22 0 idt_new Hisr eq_refl ltac:(lia) ltac:(lia)) as (i1 & -> & Hl1 & H1). cbn [obind].
  destruct (init_handlers_ok desc_irq isr 16 32 i1 Hisr Hl1 ltac:(lia) ltac:(lia)) as (i2 & -> & Hl2 & H2). cbn [obind].
  destruct (pics_initialised (intr_ports s)) as [Hr Hall].
  destruct (pic_unmask_ok 1 _ Hr ltac:(lia)) as (t' & -> & _ & Hm). cbn [obind].
  eexists. split; [done|]. cbn [cpu intr_ports idt intr_enabled enable_interrupt]. split; [done|]. split.
  { intros irq Hi. rewrite Hm by done. split; [by intros [? _]|]. intros Hne. split; [done|by apply Hall]. }
  intros j a Ha. rewrite (H2 j a Ha), (H1 j a Ha). rewrite Forall_lookup in Hrange. specialize (Hrange j a Ha).
  assert (Hnull : idt_new !! j = Some desc_null).
  { apply lookup_replicate_2. apply lookup_lt_Some in Ha. unfold len in Hisr. change (Z.to_nat IDT_LEN) with 256%nat. lia. }
  assert (Hgate : exists d, Some (desc_new a Trap Kernel) = Some d /\ gate_addr d = a /\ segment_selector d = 8 /\ attributes d = 0x8F00).
  { eexists. split; [done|]. split; [by apply desc_new_addr|]. destruct (desc_new_fields a Trap Kernel) as [-> ->]. done. }
  unfold has_vector, desc_irq, desc_exn. rewrite Hnull.
  destruct (a =? 0); cbn [negb]; rewrite ?andb_false_r, ?andb_true_r; [done|].
  repeat match goal with
  | |- context [?x <=? ?y] => destruct (Z.leb_spec x y)
  | |- context [?x <? ?y] => destruct (Z.ltb_spec x y)
  end; cbn [andb orb]; done || lia.
Qed.

(** C33: initialisation ends with interrupts on and only the keyboard's request let
    through.  Every vector of an exception or a request whose stub exists has a
    present trap gate of the kernel that leads to its stub; every other entry is
    null. *)
Theorem interrupt_init_correct isr addr s :
  len isr = 256 -> Forall (fun a => 0 <= a < USIZE) isr -> idt s = idt_new ->
  exists s', interrupt_init dev isr addr s = Ok s' /\ intr_enabled (cpu s') = true /\
    (forall irq, 0 <= irq < 16 -> masked (intr_ports s') irq <-> irq <> 1) /\
    forall j a, isr !! j = Some a ->
      if has_vector (Z.of_nat j) && negb (a =? 0)
      then exists d, idt s' !! j = Some d /\ gate_addr d = a /\ segment_selector d = 8 /\ attributes d = 0x8F00
      else idt s' !! j = Some desc_null.
Proof. exact (interrupt_init_spec isr addr s). Qed.

(** Masking a request masks it and no other, unmasking lets it and no other
    through, on both controllers; the controllers stay readable, so that this
    holds again for the next call. *)
Theorem pic_masks_correct irq t :
  pics_ready t -> 0 <= irq < 16 ->
  (exists t', pic_mask dev irq t = Ok t' /\ pics_ready t' /\
     forall j, 0 <= j < 16 -> masked t' j <-> j = irq \/ masked t j) /\
  (exists t', pic_unmask dev irq t = Ok t' /\ pics_ready t' /\
     forall j, 0 <= j < 16 -> masked t' j <-> j <> irq /\ masked t j).
Proof. intros Hr Hi. split; [by apply pic_mask_ok|by apply pic_unmask_ok]. Qed.

(** ** Handlers *)

Context {R : Type} `{RingBuf R}.

(** The handler of a request acknowledges it as its last access, to the
    controller that raised it; the keyboard's reads one byte before and queues its
    packet, when there is room; the others touch nothing else. *)
Lemma irq_handler_spec vec t (k : Ps2 R) :
  32 <= vec < 48 -> cur_sc k = Normal ->
  exists t' k', irq_handler dev vec t (Some k) = Ok (t', Some k') /\ virt k' = virt k /\ cur_sc k' = Normal /\
    rb_capacity (ring k') = rb_capacity (ring k) /\
    let eoi := OutB (if vec <? 40 then PIC1_CMD_PORT else PIC2_CMD_PORT) EOI in
    if vec =? 33 then
      let byte := dev t DATA_PORT in
      t' = t ++ [InB DATA_PORT byte; eoi] /\
      rb_items (ring k') = rb_items (ring k) ++
        (if len (rb_items (ring k)) <? rb_capacity (ring k) then option_list (parse_normal byte) else [])
    else t' = t ++ [eoi] /\ k' = k.
Proof.
  intros Hv Hsc. unfold irq_handler. change VECTOR_PIC with 32. rewrite usub_ok by (change (2 ^ 8) with 256; lia). cbn [obind].
  assert (Hack : forall u, ack (vec - 32) u = u ++ [OutB (if vec <? 40 then PIC1_CMD_PORT else PIC2_CMD_PORT) EOI]).
  { intros u. unfold ack, outb. case_bool (vec <? 40) E; case_bool_lia; [done|]. by case_bool_lia. }
  case_bool (vec =? 33) E.
  - subst vec. cbn [Z.eqb Z.sub Z.add Z.opp Z.pos_sub Pos.eqb Pos.pred_double]. unfold ps2_keyboard_handler, inb.
    rewrite Hsc. cbn [sc1_parse obind]. change (33 - 32 =? 1) with true. cbn match.
    destruct (parse_normal (dev t DATA_PORT)) as [p|] eqn:Ep; cbn [obind]; rewrite Hack, <- app_assoc.
    + eexists _, _. split; [done|]. do 2 (split; [done|]). cbn zeta. cbn [ring]. destruct (try_push_ok (ring k) p) as [-> ->].
      split; [done|]. split; [done|]. change (option_list (Some p)) with [p].
      destruct (len (rb_items (ring k)) <? rb_capacity (ring k)); [done|by rewrite app_nil_r].
    + eexists _, _. split; [done|]. do 3 (split; [done|]). cbn zeta. split; [done|].
      change (option_list None) with (@nil (Z * bool)). cbn [ring].
      destruct (len (rb_items (ring k)) <? rb_capacity (ring k)); by rewrite app_nil_r.
  - rewrite (proj2 (Z.eqb_neq (vec - 32) 1)) by lia. cbn [obind]. rewrite Hack. eexists _, _. split; [done|].
    by split_and!.
Qed.
End Theorems.

(** C34: the guard works for any nesting: while guards are alive interrupts are off,
    and when the last one is dropped they are on again. *)
Theorem interrupt_guard_correct ops m enabled :
  len ops < USIZE -> alive 0 ops = Some m ->
  let c := guard_run (mkCpu enabled 0) ops in
  guard_cnt c = m /\ (0 < m -> intr_enabled c = false) /\ (m = 0 -> ops <> [] -> intr_enabled c = true).
Proof.
  intros Hl Ha. cbn zeta. destruct (guard_run_ok ops (mkCpu enabled 0) 0 m eq_refl ltac:(lia) ltac:(lia) ltac:(cbn; lia) Ha)
    as (H1 & _ & H3 & H4). split_and!; [done|done|]. intros Hm Hne. rewrite (H4 Hm). by destruct ops.
Qed.

(** A request of the second controller is not acknowledged to the first one,
    through which it arrives. *)
Lemma slave_ack t irq : 8 <= irq < 16 -> written PIC1_CMD_PORT (ack irq t) = written PIC1_CMD_PORT t.
Proof.
  intros Hi. unfold ack. do 2 case_bool_lia. unfold outb. by rewrite written_out.
Qed.

(** A page fault of code that holds the lock of the console, as the monitor does
    all the time, reports nothing and spins. *)
Lemma page_fault_spins console : exception_handler VECTOR_PF true console = Ok Spins.
Proof. reflexivity. Qed.

(** ** Witnesses *)

#[export] Instance demo_bitfield : BitField := {|
  load_le x r := Z.shiftr x r.1 mod 2 ^ (r.2 - r.1);
  store_le x r v := Z.lor (Z.ldiff x (Z.shiftl (Z.ones (r.2 - r.1)) r.1)) (Z.shiftl (v mod 2 ^ (r.2 - r.1)) r.1);
  load_le_ok x lo hi _ := eq_refl;
  store_le_ok x lo hi v _ := eq_refl
|}.

(** Controllers that answer with the byte last written. *)
Definition demo_dev (t : Trace) (port : Port) : Z := default 0 (imr t port).
Lemma demo_dev_readable : imr_readable demo_dev.
Proof. intros t port v _ _ E. unfold demo_dev. by rewrite E. Qed.

Definition demo_isr : list Z := (fun i => 0xFFFFFFFF80100000 + 16 * Z.of_nat i) <$> seq 0 256.
Lemma demo_isr_ok : len demo_isr = 256 /\ Forall (fun a => 0 <= a < USIZE) demo_isr.
Proof.
  split; [by vm_compute|]. unfold demo_isr. apply Forall_fmap, Forall_seq. intros j Hj. cbn. lia.
Qed.

Lemma interrupt_init_correct_witness :
  exists s', interrupt_init demo_dev demo_isr 0 (mkIntrState (mkCpu false 0) idt_new (mkIdtr 0 0) []) = Ok s' /\
    ~ masked (intr_ports s') 1 /\ masked (intr_ports s') 9.
Proof.
  destruct (interrupt_init_correct demo_dev demo_dev_readable demo_isr 0
              (mkIntrState (mkCpu false 0) idt_new (mkIdtr 0 0) [])) as (s' & E & _ & Hm & _).
  - apply demo_isr_ok.
  - apply demo_isr_ok.
  - reflexivity.
  - exists s'. refine (conj E (conj _ _)); [intros H1%Hm; [by apply H1|lia]|apply Hm; lia].
Defined.

Lemma pic_masks_correct_witness :
  exists t', pic_unmask demo_dev 12 (mask_all (init_pic [])) = Ok t' /\ ~ masked t' 12 /\ masked t' 4.
Proof.
  destruct (pics_initialised []) as [Hr Hall].
  destruct (pic_masks_correct demo_dev demo_dev_readable 12 _ Hr ltac:(lia)) as [_ (t' & E & _ & Hm)].
  exists t'. split; [exact E|]. split; [intros H1%Hm; [by destruct H1|lia]|].
  apply Hm; [lia|]. split; [lia|apply Hall; lia].
Defined.

Lemma interrupt_guard_correct_witness :
  intr_enabled (guard_run (mkCpu true 0) [GNew; GNew; GDrop]) = false /\
  intr_enabled (guard_run (mkCpu true 0) [GNew; GNew; GDrop; GDrop]) = true.
Proof.
  split.
  - apply (interrupt_guard_correct [GNew; GNew; GDrop] 1 true); [by vm_compute|reflexivity|lia].
  - apply (interrupt_guard_correct [GNew; GNew; GDrop; GDrop] 0 true); [by vm_compute|reflexivity|lia|done].
Defined.
