(* ===== verification/Boot.v ===== *)
(** * Boot

    [src/src/boot/multiboot2_header.rs], the segment descriptors and the linker
    symbols of [src/src/mem.rs], and the console side of [src/src/common/panic.rs]
    and of [kmain] in [src/src/main.rs]. *)

From S2P Require Import Prelude Addr Pmio Vga VgaTheorems Interrupt InterruptTheorems.

(** ** The multiboot header *)

Record EndTag := mkEndTag { tag_typ : Z; tag_flags : Z; tag_size : Z }.
Record Header := mkHeader {
  magic : Z;
  architecture : Z;
  header_length : Z;
  checksum : Z;
  end_tag : EndTag
}.

Definition MAGIC : Z := 0xE85250D6.
Definition ARCHITECTURE : Z := 0.
Definition END_TAG : EndTag := mkEndTag 0 0 8.
(** [size_of::<Header>()]: four words, and an end tag of eight bytes. *)
Definition HEADER_LENGTH : Z := 4 * 4 + (2 + 2 + 4).
(** [!(MAGIC + ARCHITECTURE + HEADER_LENGTH) + 1], evaluated at compile time. *)
Definition CHECKSUM : outcome Z :=
  let! a := uadd 32 MAGIC ARCHITECTURE in
  let! s := uadd 32 a HEADER_LENGTH in
  uadd 32 (2 ^ 32 - 1 - s) 1.
Definition MULTIBOOT2_HEADER : outcome Header :=
  let! c := CHECKSUM in Ok (mkHeader MAGIC ARCHITECTURE HEADER_LENGTH c END_TAG).

(** The header as it lies in memory. *)
Definition header_bytes (h : Header) : list Z :=
  le_bytes 4 (magic h) ++ le_bytes 4 (architecture h) ++ le_bytes 4 (header_length h) ++ le_bytes 4 (checksum h) ++
  le_bytes 2 (tag_typ (end_tag h)) ++ le_bytes 2 (tag_flags (end_tag h)) ++ le_bytes 4 (tag_size (end_tag h)).

(** ** Linker symbols *)

Section Symbols.
(** The addresses of [_KERNEL_START_VMA], [_KERNEL_END_VMA] and
    [_KERNEL_START_LMA]. *)
Context (start_vma end_vma start_lma : Z).

Definition kernel_start_vma : outcome (Addr KernelImageSpace) := Addr_new start_vma.
Definition kernel_end_vma : outcome (Addr KernelImageSpace) := Addr_new end_vma.
Definition kernel_start_lma : outcome (Addr UMASpace) := Addr_new start_lma.
Definition kernel_size : outcome Z :=
  let! e := kernel_end_vma in
  let! s := kernel_start_vma in
  let! d := addr_sub e s in
  oexpect (try_usize d).
Definition kernel_end_lma : outcome (Addr UMASpace) :=
  let! s := kernel_start_lma in
  let! n := kernel_size in
  byte_add s n.
End Symbols.

(** ** Segments *)

Section Segments.
Context `{BitField}.

Definition SEG_TYPE_IDXS : Z * Z := (40, 44).
Definition SEG_DESC_TYPE_IDXS : Z * Z := (44, 45).
Definition SEG_DPL_IDXS : Z * Z := (45, 47).
Definition SEG_P_IDXS : Z * Z := (47, 48).
Definition SEG_LONG_MODE_IDXS : Z * Z := (53, 54).

Definition seg_invalid : Z := 0.
Definition seg_code : Z :=
  let v := store_le 0 SEG_TYPE_IDXS 8 in
  let v := store_le v SEG_DESC_TYPE_IDXS 1 in
  let v := store_le v SEG_DPL_IDXS (Privilege_u8 Kernel) in
  let v := store_le v SEG_P_IDXS 1 in
  store_le v SEG_LONG_MODE_IDXS 1.

Definition GDT_LEN : Z := 2.
Definition gdt_new : list Z := replicate (Z.to_nat GDT_LEN) seg_invalid.

Record Gdtr := mkGdtr { gdt_limit : Z; gdt_base : Z }.

Definition init_gdtr (gdt : list Z) (gdt_addr : Z) : outcome (list Z * Gdtr) :=
  let! gdt := slice_set gdt 1 seg_code in
  let! l := usub 64 (GDT_LEN * 8) 1 in
  Ok (gdt, mkGdtr (as_u16 l) gdt_addr).
End Segments.

(** ** Console messages *)

(** The panic handler: clear the screen and write the message in red; [msg] is
    what the formatting machinery passes to [write_str]. *)
Definition panic_screen (console : VGABuffer) (msg : list Z) : outcome VGABuffer :=
  let! v := vga_clear console in
  let! v := set_color v Red Black true in
  vga_write v msg.

(** The start of [kmain]: a greeting in bright green, then bright gray. *)
Definition hello : list Z :=
  [72; 101; 108; 108; 111; 32; 102; 114; 111; 109; 32; 107; 101; 114; 110; 101; 108; 33; 10].
Definition greet (console : VGABuffer) : outcome VGABuffer :=
  let! v := set_color console Green Black true in
  let! v := vga_write v hello in
  set_color v Gray Black true.

(** ** The theorems *)

(** The header is what a boot loader looks for: its bytes are as many as its
    length field says, its four words add up to zero modulo [2^32], and it ends
    with the end tag. *)
Theorem multiboot_header_valid :
  exists h, MULTIBOOT2_HEADER = Ok h /\ magic h = MAGIC /\
    len (header_bytes h) = header_length h /\
    (magic h + architecture h + header_length h + checksum h) mod 2 ^ 32 = 0 /\
    drop 16 (header_bytes h) = [0; 0; 0; 0; 8; 0; 0; 0].
Proof. eexists. split; [vm_compute; reflexivity|]. by vm_compute. Qed.

Section SegmentTheorems.
Context `{BitField}.

Lemma seg_code_eq : seg_code = 0x0020980000000000.
Proof. unfold seg_code, SEG_TYPE_IDXS, SEG_DESC_TYPE_IDXS, SEG_DPL_IDXS, SEG_P_IDXS, SEG_LONG_MODE_IDXS.
  rewrite !store_le_ok by lia. reflexivity. Qed.

(** The selector in every gate names the code segment: present, for the kernel,
    executable, in long mode; the other segment is null. *)
Lemma gates_select_code gdt_addr addr typ dpl :
  exists gdt r, init_gdtr gdt_new gdt_addr = Ok (gdt, r) /\
    gdt !! Z.to_nat (segment_selector (desc_new addr typ dpl) / 8) = Some 0x0020980000000000 /\
    gdt !! 0%nat = Some 0 /\ gdt_limit r = 8 * len gdt - 1.
Proof.
  unfold init_gdtr. rewrite seg_code_eq. eexists _, _. split; [vm_compute; reflexivity|].
  rewrite (proj2 (desc_new_fields addr typ dpl)). by vm_compute.
Qed.
End SegmentTheorems.

Lemma make_color_code_ok fg bg b : exists c, make_color_code fg bg b = Ok c /\ is_byte c.
Proof. destruct fg, bg, b; eexists; (split; [reflexivity|by vm_compute]). Qed.

Lemma vga_clear_ok v : vga_ok v -> exists v', vga_clear v = Ok v' /\ vga_ok v' /\ synced v' /\ cursor_pos v' = 0 /\
  buffer v' = replicate 2000 (cell v 0) /\ color_code v' = color_code v.
Proof.
  intros [H1 H2 H3 H4]. unfold vga_clear. destruct (vga_entry_ok (color_code v) 0 H3 ltac:(unfold is_byte; lia)) as (-> & Hr & _).
  cbn [obind]. unfold set_cursor_pos. change (umul 16 0 0) with (Ok 0). rewrite screen_size. cbn [obind Z.ltb Z.compare].
  replace (length (buffer v)) with 2000%nat by (unfold len in H1; lia).
  eexists. split; [done|]. split; [|split; [by apply sync_cursor_ok; cbn|done]].
  split; cbn [sync_cursor set_cursor set_buffer buffer cursor_pos color_code]; [|lia|done|by apply Forall_replicate].
  unfold len. by rewrite length_replicate.
Qed.

(** Whatever the console showed, the panic handler writes its message in red to
    an empty screen, from the top: a message without control characters that
    fits the screen stands there alone. *)
Theorem panic_screen_correct v msg :
  vga_ok v -> Forall printable msg -> len msg <= 2000 ->
  exists v', panic_screen v msg = Ok v' /\ vga_ok v' /\ cursor_pos v' = len msg /\
    buffer v' = ((fun ch => 12 * 256 + ch) <$> msg) ++ replicate (2000 - length msg) (cell v 0).
Proof.
  intros Hv Hm Hl. unfold panic_screen. destruct (vga_clear_ok v Hv) as (v1 & -> & Hv1 & _ & Hp1 & Hb1 & _). cbn [obind].
  destruct v1 as [c p b t]. cbn [cursor_pos buffer] in Hp1, Hb1. subst p b. change (set_color (mkVGABuffer c 0 (replicate 2000 (cell v 0)) t) Red Black true)
    with (Ok (mkVGABuffer 12 0 (replicate 2000 (cell v 0)) t)). cbn [obind].
  assert (Hv2 : vga_ok (mkVGABuffer 12 0 (replicate 2000 (cell v 0)) t)).
  { destruct Hv1 as [V1 V2 V3 V4]. split; [done|done|by vm_compute|done]. }
  destruct (print_ok msg _ Hv2 Hm) as (v' & -> & Hv' & _ & _ & Hp' & Hb'); [done|].
  exists v'. split_and!; [done|done|done|]. rewrite Hb'. cbn [cursor_pos buffer]. unfold splice, cells.
  change (Z.to_nat 0) with 0%nat. rewrite take_0. cbn [app Nat.add]. rewrite length_fmap, drop_replicate. done.
Qed.

Lemma panic_screen_correct_witness :
  exists v', panic_screen (demo_console 700) demo_line = Ok v' /\ cursor_pos v' = 3.
Proof.
  destruct (panic_screen_correct (demo_console 700) demo_line) as (v' & E & _ & Hp & _);
    [by apply demo_console_ok|apply demo_line_ok|by vm_compute|]. exact (ex_intro _ v' (conj E Hp)).
Defined.
