(* ===== verification/MemInit.v ===== *)
(** * Memory initialisation

    [init] of [src/src/mem.rs]: the segments, the boot memory manager, the first
    page tables and the physical memory manager, in this order. *)

From Stdlib Require Import Sorted.
From S2P Require Import Prelude Addr Memblock MemblockTheorems Phy PhyTheorems Entry Paging PagingInit PagingInitTheorems.
From S2P Require Import Interrupt InterruptTheorems Boot.
Open Scope Z_scope.

(** The statics that [init] sets: the segments and their register, [MMU] (its map
    is the [cr3] of the machine) and [PMM]. *)
Record MemState := mkMemState {
  ms_gdt : list Z;
  ms_gdtr : option Gdtr;
  ms_mmu : bool;
  ms_machine : Machine;
  ms_pmm : PMM
}.

(** [phy::init_boot_mem] *)
Definition init_boot_mem (kernel_end_lma : Addr UMASpace) (areas : list MemoryArea) : outcome MemblockSystem :=
  memblock_init kernel_end_lma areas.

Section MemInit.
Context `{BitField}.
(** The addresses of the statics and the symbols of the linker. *)
Context (gdt_addr pml4_vaddr pdpt_vaddr pd_vaddr start_vma end_vma start_lma : Z).

(** [tag] is the memory map of the boot information, [ram] what the machine has
    at the addresses of the frame records. *)
Definition mem_init (tag : option (list MemoryArea)) (ram : Ram) (k : MemState) : outcome MemState :=
  let! areas := oexpect tag in
  let! ' (gdt, gdtr) := init_gdtr (ms_gdt k) gdt_addr in
  let! kend := kernel_end_lma start_vma end_vma start_lma in
  let! bmm := init_boot_mem kend areas in
  let! st :=
    if ms_mmu k then Ok (ms_machine k)
    else
      let! kernel_end := kernel_end_vma end_vma in
      paging_init pml4_vaddr pdpt_vaddr pd_vaddr (value kernel_end) (ar_size (managed_range bmm)) (ms_machine k) in
  let! ' (pmm, _) := phy_init bmm ram (ms_pmm k) in
  Ok (mkMemState gdt (Some gdtr) true st pmm).

(** ** What the linker and the boot loader provide *)

Record symbols_ok : Prop := {
  sy_vma : range_start KernelImageSpace <= start_vma <= end_vma;
  sy_lma : 0 <= start_lma /\ start_lma + (end_vma - start_vma) < range_end UMASpace;
  sy_statics : statics_ok pml4_vaddr pdpt_vaddr pd_vaddr end_vma
}.

(** The end of the kernel in physical memory. *)
Definition kernel_end_phys : Addr UMASpace := mkAddr (start_lma + (end_vma - start_vma)).

Record memory_map_ok (areas : list MemoryArea) : Prop := {
  mm_areas : Forall area_ok areas;
  mm_apart : StronglySorted areas_apart areas;
  mm_len : len areas <= MEMBLOCKS_LEN;
  mm_some : exists a x, a ∈ areas /\ usable kernel_end_phys a x
}.

Lemma kernel_end_lma_ok : symbols_ok -> kernel_end_lma start_vma end_vma start_lma = Ok kernel_end_phys /\
  kernel_end_vma end_vma = Ok (mkAddr end_vma).
Proof.
  intros [H1 H2 H3]. pose proof (st_end _ _ _ _ H3) as He. change GiB with 1073741824 in He. destruct kernel_range as [E1 E2].
  rewrite E1, UMA_end in *. unfold kernel_end_lma, kernel_start_lma, kernel_size, kernel_end_vma, kernel_start_vma.
  rewrite !Addr_new_ok by (rewrite ?E1, ?E2, ?UMA_start, ?UMA_end; lia). cbn [obind].
  rewrite addr_sub_ok by (cbn [value]; rewrite ?E1, ?E2; change USIZE with 18446744073709551616; lia). cbn [obind value].
  unfold try_usize. rewrite (proj2 (Z.leb_le 0 (end_vma - start_vma))) by lia. cbn [oexpect obind].
  rewrite byte_add_ok by (cbn [value]; rewrite ?UMA_start; lia). done.
Qed.

(** ** The theorem *)

Lemma covered_bound bmm x : sys_ok bmm -> covered (all_blocks bmm) x -> 0 <= x < range_end UMASpace.
Proof. intros Hs (m & Hm & Hmx). eapply Forall_forall in Hm; [|apply (so_blocks _ Hs)]. blk. lia. Qed.

(** The managed range is part of the physical address space. *)
Lemma managed_size_ok bmm :
  sys_ok bmm -> let lo := value (ar_base (managed_range bmm)) in let hi := lo + ar_size (managed_range bmm) in
  (forall x, covered (all_blocks bmm) x -> lo <= x < hi) -> covered (all_blocks bmm) lo -> covered (all_blocks bmm) (hi - 1) ->
  0 < ar_size (managed_range bmm) <= range_end UMASpace.
Proof.
  intros Hs lo hi Hin Hlo Hhi. pose proof (Hin lo Hlo) as H1.
  pose proof (covered_bound bmm lo Hs Hlo). pose proof (covered_bound bmm (hi - 1) Hs Hhi). lia.
Qed.

(** What [init] does up to the hand-over. *)
Lemma mem_init_spec areas ram k :
  symbols_ok -> memory_map_ok areas -> ms_mmu k = false -> len (ms_gdt k) = GDT_LEN ->
  statics_zero pml4_vaddr pdpt_vaddr pd_vaddr (mem (ms_machine k)) ->
  exists bmm st gdt gdtr,
    mem_init (Some areas) ram k =
      (let! ' (pmm, _) := phy_init bmm ram (ms_pmm k) in Ok (mkMemState gdt (Some gdtr) true st pmm)) /\
    memblock_init kernel_end_phys areas = Ok bmm /\
    sys_ok bmm /\ (forall x, covered (all_blocks bmm) x <-> exists a, a ∈ areas /\ usable kernel_end_phys a x) /\
    0 < ar_size (managed_range bmm) <= range_end UMASpace /\
    built pml4_vaddr pdpt_vaddr pd_vaddr end_vma (ar_size (managed_range bmm)) st.
Proof.
  intros Hy [M1 M2 M3 M4] Hmmu Hgdt Hz. destruct (kernel_end_lma_ok Hy) as [Ek Ev].
  destruct (memblock_init_spec kernel_end_phys areas) as (bmm & Eb & Hs & _ & _ & Hc & Hin & Hlo & Hhi); try done.
  { pose proof Hy as [? ? ?]. cbn. lia. }
  pose proof (managed_size_ok bmm Hs Hin Hlo Hhi) as Hm.
  destruct (paging_init_built _ _ _ _ (sy_statics Hy) _ _ Hz Hm) as (st & Ep & Hb & _).
  assert (Hg : exists gdt, slice_set (ms_gdt k) 1 seg_code = Ok gdt).
  { eexists. apply slice_set_ok. rewrite Hgdt. done. }
  destruct Hg as (gdt & Eg). eexists bmm, st, gdt, _. split; [|done].
  unfold mem_init. cbn [oexpect obind]. unfold init_gdtr. rewrite Eg. cbn [obind].
  change (usub 64 (GDT_LEN * 8) 1) with (Ok 15). cbn [obind]. rewrite Ek. cbn [obind]. unfold init_boot_mem.
  rewrite Eb. cbn [obind]. rewrite Hmmu, Ev. cbn [obind value]. rewrite Ep. reflexivity.
Qed.

(** Physical memory in the remap. *)
Lemma remap_mapped bmm st x :
  symbols_ok -> 0 < ar_size (managed_range bmm) <= range_end UMASpace ->
  built pml4_vaddr pdpt_vaddr pd_vaddr end_vma (ar_size (managed_range bmm)) st -> 0 <= x < range_end UMASpace ->
  translate st (mkAddr (S := PhysicalRemapSpace) (x + REMAP_OFFSET)) = Ok (option_map mkAddr (remap_of (ar_size (managed_range bmm)) x)).
Proof.
  intros Hy Hm Hb Hx. destruct (remap_ok x Hx) as (Ev & _). by apply (built_remap _ _ _ _ (sy_statics Hy) _ _ Hb Hm (mkAddr x) _ Ev).
Qed.

(** The blocks of the boot memory manager are mapped there, below 512 GiB. *)
Lemma covered_mapped bmm st x v :
  symbols_ok -> sys_ok bmm -> 0 < ar_size (managed_range bmm) <= range_end UMASpace ->
  built pml4_vaddr pdpt_vaddr pd_vaddr end_vma (ar_size (managed_range bmm)) st ->
  covered (all_blocks bmm) x -> x < 512 * GiB -> p2v (mkAddr x) = Ok v -> translate st v = Ok (Some (mkAddr (x / GiB * GiB))).
Proof.
  intros Hy Hs Hm Hb Hcov Hlt E. pose proof (covered_bound bmm x Hs Hcov) as Hx.
  rewrite (built_remap _ _ _ _ (sy_statics Hy) _ _ Hb Hm (mkAddr x) v E) by done. cbn [value]. rewrite remap_of_in; [done|].
  rewrite (Z.div_small x) by lia. apply Z.div_pos; [lia|done].
Qed.

(** C25: on a boot with sound linker symbols, blank tables and a sound memory map,
    [init] gets through to the physical memory manager without a panic: the boot
    memory manager holds exactly the available memory above the kernel, the kernel
    image is mapped where it was loaded from, and every available byte below
    512 GiB is mapped at its place in the remap. *)
Theorem mem_init_correct areas ram k :
  symbols_ok -> memory_map_ok areas -> ms_mmu k = false -> len (ms_gdt k) = GDT_LEN ->
  statics_zero pml4_vaddr pdpt_vaddr pd_vaddr (mem (ms_machine k)) ->
  exists bmm st gdt gdtr,
    mem_init (Some areas) ram k =
      (let! ' (pmm, _) := phy_init bmm ram (ms_pmm k) in Ok (mkMemState gdt (Some gdtr) true st pmm)) /\
    sys_ok bmm /\ (forall x, covered (all_blocks bmm) x <-> exists a, a ∈ areas /\ usable kernel_end_phys a x) /\
    (forall v p, KernelImageSpace_v2p v = Ok p -> value v < end_vma ->
       translate st v = Ok (Some (mkAddr (value p / (2 * MiB) * (2 * MiB))))) /\
    (forall a x v, a ∈ areas -> usable kernel_end_phys a x -> x < 512 * GiB -> p2v (mkAddr x) = Ok v ->
       translate st v = Ok (Some (mkAddr (x / GiB * GiB)))).
Proof.
  intros Hy Hmap Hmmu Hgdt Hz. destruct (mem_init_spec areas ram k Hy Hmap Hmmu Hgdt Hz) as (bmm & st & gdt & gdtr & E & _ & Hs & Hc & Hm & Hb).
  exists bmm, st, gdt, gdtr. split; [exact E|]. split; [done|]. split; [done|]. split.
  - intros v p. by apply (built_kernel _ _ _ _ (sy_statics Hy) _ _ Hb Hm).
  - intros a x v Ha Hx Hlt Ev. apply (covered_mapped bmm); try done. apply Hc. by exists a.
Qed.
End MemInit.

(** ** Witness *)

Definition demo_areas : list MemoryArea := [mkMemoryArea 0x1000 0x9e000 Available; mkMemoryArea 0x100000 0x7ee0000 Available].
Definition demo_start_vma : Z := 0xFFFFFFFF80100000.
Definition demo_mem : MemState := mkMemState gdt_new None false demo_blank None.

Lemma mem_init_correct_witness :
  exists bmm st gdt gdtr,
    mem_init 0x8000 demo_p4 demo_pdpts demo_pd demo_start_vma demo_kernel_end 0x100000 (Some demo_areas) low_memory demo_mem =
      (let! ' (pmm, _) := phy_init bmm low_memory None in Ok (mkMemState gdt (Some gdtr) true st pmm)) /\
    translate st (mkAddr (S := PhysicalRemapSpace) (0x500000 + REMAP_OFFSET)) = Ok (Some (mkAddr 0)).
Proof.
  destruct (mem_init_correct 0x8000 demo_p4 demo_pdpts demo_pd demo_start_vma demo_kernel_end 0x100000
              demo_areas low_memory demo_mem) as (bmm & st & gdt & gdtr & E & _ & _ & _ & Hx).
  - split; [by vm_compute|by vm_compute|exact demo_statics_ok].
  - split.
    + repeat constructor; by vm_compute.
    + repeat constructor; unfold areas_apart, in_area; cbn; intros; lia || congruence.
    + by vm_compute.
    + exists (mkMemoryArea 0x100000 0x7ee0000 Available), 0x500000. split; [by right; left|].
      unfold usable, in_area. cbn. split; [done|]. change demo_kernel_end with 0xFFFFFFFF80400800. change demo_start_vma with 0xFFFFFFFF80100000. lia.
  - reflexivity.
  - reflexivity.
  - by split.
  - exists bmm, st, gdt, gdtr. split; [exact E|].
    apply (Hx (mkMemoryArea 0x100000 0x7ee0000 Available) 0x500000); [by right; left| |by vm_compute|by vm_compute].
    unfold usable, in_area. cbn. split; [done|]. change demo_kernel_end with 0xFFFFFFFF80400800. change demo_start_vma with 0xFFFFFFFF80100000. lia.
Defined.
