(* ===== verification/KernelMemory.v ===== *)
(** * The memory of the kernel, from the boot loader to the heap

    [init] of [src/src/mem.rs] together with everything that allocates after it:
    where the blocks of the global allocator lie, and what the page tables say about
    them. *)

From stdpp Require Import sets.
From S2P Require Import Prelude Addr Memblock MemblockTheorems Phy PhyTheorems PhyBoot Entry Paging PagingInit PagingInitTheorems PageAlloc PageAllocTheorems.
From S2P Require Import Slab SlabTheorems AllocTheorems Heap Interrupt InterruptTheorems Boot MemInit.
Open Scope Z_scope.

Section KernelMemory.
Context `{BitField} `{SlabSizes} `{BitSlice} {L : Type} `{LinkedList L}.
Context (gdt_addr pml4_vaddr pdpt_vaddr pd_vaddr start_vma end_vma start_lma : Z).

Abbreviation kend := (kernel_end_phys start_vma end_vma start_lma).

(** What [init] finds: the symbols, the memory map, tables that hold nothing, and plain
    memory that keeps clear of the image of the kernel. *)
Record boot_ok (areas : list MemoryArea) (ram : Ram) (k : MemState) : Prop := {
  bo_symbols : symbols_ok pml4_vaddr pdpt_vaddr pd_vaddr start_vma end_vma start_lma;
  bo_map : memory_map_ok start_vma end_vma start_lma areas;
  bo_mmu : ms_mmu k = false;
  bo_pmm : ms_pmm k = None;
  bo_gdt : len (ms_gdt k) = GDT_LEN;
  bo_tables : statics_zero pml4_vaddr pdpt_vaddr pd_vaddr (mem (ms_machine k));
  bo_ram : Forall (fun '(lo, hi) => hi <= start_lma \/ value kend <= lo) (plain ram)
}.

(** The image of the kernel is mapped where it was loaded. *)
Definition image_mapped (st : Machine) : Prop :=
  forall v p, KernelImageSpace_v2p v = Ok p -> value v < end_vma -> translate st v = Ok (Some (mkAddr (value p / (2 * MiB) * (2 * MiB)))).

(** The byte at [y] is one of the remap, of memory that the boot loader reported and the
    kernel does not occupy, and translates to its huge page; when the managed memory has
    [size] bytes, this is so below the next multiple of 512 GiB, and nothing is mapped
    from there on. *)
Definition byte_backed (areas : list MemoryArea) (size : Z) (st : Machine) (y : Z) : Prop :=
  let x := y - REMAP_OFFSET in
  (exists a, a ∈ areas /\ usable kend a x) /\
  translate st (mkAddr (S := PhysicalRemapSpace) y) = Ok (option_map mkAddr (remap_of size x)).

(** The byte at [y] is one of the remap, of plain memory outside the kernel's image, and
    is mapped. *)
Definition record_backed (ram : Ram) (st : Machine) (y : Z) : Prop :=
  let x := y - REMAP_OFFSET in
  has_range (plain ram) x 1 /\ ~ start_lma <= x < value kend /\
  translate st (mkAddr (S := PhysicalRemapSpace) y) = Ok (Some (mkAddr (x / GiB * GiB))).

(** What [init] leaves, with [r0] the record of the frames. *)
Record memory_ready (areas : list MemoryArea) (ram : Ram) (size : Z) (k : MemState) (r0 : PhysicalMemoryRecord) : Prop := {
  mr_image : image_mapped (ms_machine k);
  mr_pmm : ms_pmm k = Some r0;
  mr_pages : pmm_out (ms_pmm k) ∅;
  mr_records y : record_byte r0 y -> record_backed ram (ms_machine k) y;
  mr_heap (r : SlabAllocatorRecord L PMM) live p l y :
    heap_from (ms_pmm k) r live -> (p, l) ∈ live -> p <= y < p + layout_size l ->
    byte_backed areas size (ms_machine k) y /\ ~ record_byte r0 y
}.

Lemma avail_pmm_out base avail pmm blocks : avail_out base avail pmm blocks -> pmm_out pmm blocks.
Proof. intros (r & -> & Ha). exists r. split; [done|apply Ha]. Qed.

(** The block in use is part of the managed range. *)
Lemma block_size_managed ram bmm p : handover_ok ram bmm p -> mb_size p <= ar_size (managed_range bmm).
Proof using.
  intros Hh. pose proof (partial_size bmm p (hv_sys _ _ _ Hh) (hv_cur _ _ _ Hh)) as Hp. unfold block_ok, mb_end in Hp.
  assert (Hc : forall x, mb_in p x -> covered (all_blocks bmm) x).
  { intros x Hx. exists p. split; [|done]. unfold all_blocks. rewrite (hv_cur _ _ _ Hh). set_solver. }
  pose proof (mg_covers _ (hv_managed _ _ _ Hh)) as Hm. unfold mb_in, mb_end in Hc.
  pose proof (Hm _ (Hc (value (mb_base p)) ltac:(lia))). pose proof (Hm _ (Hc (value (mb_base p) + mb_size p - 1) ltac:(lia))). lia.
Qed.

(** The records lie below the size of the managed range, so they are mapped. *)
Lemma records_mapped areas ram k bmm p st r y :
  boot_ok areas ram k -> handover_ok ram bmm p -> recorded bmm p r ->
  0 < ar_size (managed_range bmm) <= range_end UMASpace ->
  built pml4_vaddr pdpt_vaddr pd_vaddr end_vma (ar_size (managed_range bmm)) st ->
  record_byte r y -> record_backed ram st y.
Proof using.
  intros Hk Hh Hr Hm Hb Hy. pose proof (record_plain ram bmm p r y Hh Hr Hy) as Hp. apply (rc_place _ _ _ Hr) in Hy.
  pose proof (so_offset _ (hv_sys _ _ _ Hh) p (hv_cur _ _ _ Hh)). pose proof (hv_room _ _ _ Hh). pose proof (block_size_managed ram bmm p Hh).
  set (x := y - REMAP_OFFSET) in *. unfold record_backed. fold x. split; [done|]. split.
  - destruct Hp as (lo & hi & Hin & Hlo & Hhi). pose proof (bo_ram _ _ _ Hk) as Hram. rewrite Forall_forall in Hram.
    specialize (Hram (lo, hi) Hin). cbv beta iota in Hram. lia.
  - replace y with (x + REMAP_OFFSET) by lia. rewrite (remap_mapped _ _ _ _ _ _ bmm st x (bo_symbols _ _ _ Hk) Hm Hb) by lia.
    rewrite remap_of_in; [done|]. apply Z.div_le_mono; [done|lia].
Qed.

Lemma mem_init_ready_spec areas ram k bmm p :
  boot_ok areas ram k -> memblock_init kend areas = Ok bmm -> handover_ok ram bmm p ->
  exists k' r0, mem_init gdt_addr pml4_vaddr pdpt_vaddr pd_vaddr start_vma end_vma start_lma (Some areas) ram k = Ok k' /\
    memory_ready areas ram (ar_size (managed_range bmm)) k' r0.
Proof.
  intros Hk Eb Hh. pose proof Hk as [B1 B2 B3 B4 B5 B6 _].
  destruct (mem_init_spec gdt_addr _ _ _ _ _ _ areas ram k B1 B2 B3 B5 B6) as (bmm' & st & gdt & gdtr & E & Eb' & Hs & Hc & Hm & Hb).
  rewrite Eb in Eb'. injection Eb' as <-. destruct (record_new_spec ram bmm p Hh) as (r & s' & Er & Hr). pose proof (recorded_avail _ _ _ Hr) as Hav.
  rewrite E, B4. unfold phy_init. rewrite Er. cbn [obind]. eexists _, r. split; [done|]. split; cbn [ms_machine ms_pmm].
  - intros v q. by apply (built_kernel _ _ _ _ (sy_statics _ _ _ _ _ _ B1) _ _ Hb Hm).
  - done.
  - by eapply avail_pmm_out.
  - intros y. by apply (records_mapped areas ram k bmm p).
  - intros h live q l y Hf Hin Hy.
    pose proof (heap_from_within (PageSource0 := avail_source _ _) _ _ _ _ _ y Hav Hf Hin Hy) as Hbyte.
    apply (avail_byte_left ram bmm p y Hh) in Hbyte as Hl. pose proof (left_covered ram bmm p _ Hh Hl) as Hcov. split.
    + split; [by apply Hc|]. replace y with (y - REMAP_OFFSET + REMAP_OFFSET) at 1 by lia.
      apply (remap_mapped _ _ _ _ _ _ bmm st _ B1 Hm Hb), (covered_bound bmm _ Hs Hcov).
    + intros Hrec. pose proof (left_above ram bmm p r _ y Hh Hr Hl Hrec). lia.
Qed.

(** The frames are those of the boot memory manager. *)
Lemma mem_init_pmm areas ram k k' :
  boot_ok areas ram k ->
  mem_init gdt_addr pml4_vaddr pdpt_vaddr pd_vaddr start_vma end_vma start_lma (Some areas) ram k = Ok k' ->
  exists bmm s, memblock_init kend areas = Ok bmm /\ phy_init bmm ram None = Ok (ms_pmm k', s).
Proof.
  intros [B1 B2 B3 B4 B5 B6 _] E.
  destruct (mem_init_spec gdt_addr _ _ _ _ _ _ areas ram k B1 B2 B3 B5 B6) as (bmm & st & gdt & gdtr & E' & Eb & _).
  rewrite E', B4 in E. apply obind_Ok in E as ([pmm s] & Ep & [= <-]). by exists bmm, s.
Qed.

(** C6: on a sound boot whose blocks suit the frame record, which the code does not test,
    [init] returns with the physical memory manager in order.  The frame records and the
    map of the buddy system lie in plain memory outside the kernel's image and are mapped.
    The heap that stands on the manager keeps to its memory: after any sequence of
    requests and returns, every byte of every block belongs to memory that the boot
    loader reported as available above the kernel and not to the records, and it translates
    to its huge page exactly below the next multiple of 512 GiB above the size of the managed
    memory; beyond that nothing is mapped. *)
Theorem mem_init_heap_backed areas ram k bmm p :
  boot_ok areas ram k -> memblock_init kend areas = Ok bmm -> handover_ok ram bmm p ->
  exists k' r0, mem_init gdt_addr pml4_vaddr pdpt_vaddr pd_vaddr start_vma end_vma start_lma (Some areas) ram k = Ok k' /\
    ms_pmm k' = Some r0 /\ pmm_out (Some r0) ∅ /\
    (forall y, record_byte r0 y -> record_backed ram (ms_machine k') y) /\
    forall (r : SlabAllocatorRecord L PMM) live b l y,
      heap_from (Some r0) r live -> (b, l) ∈ live -> b <= y < b + layout_size l ->
      byte_backed areas (ar_size (managed_range bmm)) (ms_machine k') y /\ ~ record_byte r0 y.
Proof.
  intros Hk Eb Hh. destruct (mem_init_ready_spec areas ram k bmm p Hk Eb Hh) as (k' & r0 & E & [_ R1 R2 R3 R4]). rewrite R1 in *.
  exists k', r0. by split_and!.
Qed.
End KernelMemory.

(** ** Witness *)

(** Two areas above the kernel: eight frames, and one behind 64 bytes that take the
    frame records and the map of the buddy system. *)
Definition demo_ram : list MemoryArea := [mkMemoryArea 0x800000 0x8000 Available; mkMemoryArea 0x80efc0 0x1040 Available].
Definition demo_kend : Addr UMASpace := kernel_end_phys demo_start_vma demo_kernel_end 0x100000.
Definition demo_last_area : Memblock := mkMemblock (mkAddr 0x80efc0) 0x1040 Free.
Definition demo_bmm : MemblockSystem :=
  mkMemblockSystem [mkMemblock (mkAddr 0x800000) 0x8000 Free] [] (Some demo_last_area) 0
    (mkAddrRange (mkAddr 0x800000) 0x10000) false.

Lemma demo_bmm_eq : memblock_init demo_kend demo_ram = Ok demo_bmm.
Proof. vm_compute. reflexivity. Qed.

Lemma demo_ram_handover : handover_ok low_memory demo_bmm demo_last_area.
Proof.
  split.
  - split; [split; repeat constructor; vm_compute; congruence|vm_compute; congruence|done|intros p [= <-]; by vm_compute|done].
  - split; [done|done|by vm_compute|]. intros x (m & [->|[->|[]%elem_of_nil]%elem_of_cons]%elem_of_cons & Hx);
      unfold mb_in, mb_end in Hx; cbn in *; lia.
  - done.
  - by vm_compute.
  - apply Forall_cons. split; [|apply Forall_singleton].
    + split_and!; [by exists 0x800|by exists 8|]. intros k Hk _. change (value _ - _) with 0. apply Z.divide_0_r.
    + change (rest_block demo_bmm demo_last_area) with (mkMemblock (mkAddr 0x80f000) 0x1000 Free).
      split_and!; [by exists 0x80f|by exists 1|]. intros k Hk Hle. cbn [mb_size] in Hle. change 0x1000 with (2 ^ 12) in Hle.
      apply Z.pow_le_mono_r_iff in Hle; [|lia..]. assert (k = 0) as -> by lia. by exists 0xf.
  - exists 0, 0xa0000. split; [by left|]. by vm_compute.
  - by vm_compute.
Qed.

Lemma demo_ram_usable : exists a x, a ∈ demo_ram /\ usable demo_kend a x.
Proof.
  exists (mkMemoryArea 0x800000 0x8000 Available), 0x804000. split; [left|]. unfold usable, in_area. cbn. split; [done|].
  change demo_kernel_end with 0xFFFFFFFF80400800. change demo_start_vma with 0xFFFFFFFF80100000. lia.
Qed.

Lemma demo_boot_ok : boot_ok demo_p4 demo_pdpts demo_pd demo_start_vma demo_kernel_end 0x100000 demo_ram low_memory demo_mem.
Proof.
  split; [split; [by vm_compute|by vm_compute|exact demo_statics_ok]| |done|done|done|by split|].
  - split; [repeat constructor; by vm_compute| |by vm_compute|exact demo_ram_usable].
    repeat constructor; unfold areas_apart, in_area; cbn; intros; lia || congruence.
  - apply Forall_singleton. left. lia.
Qed.

(** The first block of the heap on this machine. *)
Definition demo_first : Z := REMAP_OFFSET + 0x800060.

Definition first_block (pmm : PMM) : option Z :=
  match global_allocate demo_request (slab_record_new (L := list Z) pmm) with
  | Ok (Some (p, _), _) => Some p
  | _ => None
  end.
Lemma demo_first_eq :
  match phy_init demo_bmm low_memory None with Ok (pmm, _) => first_block pmm | _ => None end = Some demo_first.
Proof. vm_compute. reflexivity. Qed.

Lemma demo_first_block bmm s pmm :
  memblock_init demo_kend demo_ram = Ok bmm -> phy_init bmm low_memory None = Ok (pmm, s) ->
  exists n r, global_allocate demo_request (slab_record_new (L := list Z) pmm) = Ok (Some (demo_first, n), r).
Proof.
  rewrite demo_bmm_eq. intros [= <-] E. pose proof demo_first_eq as Hf. rewrite E in Hf. clear E. unfold first_block in Hf.
  generalize dependent demo_first. intros d Hf.
  destruct (global_allocate demo_request (slab_record_new pmm)) as [[[[p n]|] r]| |]; [|discriminate..].
  injection Hf as <-. by exists n, r.
Qed.

Lemma mem_init_heap_backed_witness :
  exists k', mem_init 0x8000 demo_p4 demo_pdpts demo_pd demo_start_vma demo_kernel_end 0x100000
    (Some demo_ram) low_memory demo_mem = Ok k' /\
    translate (ms_machine k') (mkAddr (S := PhysicalRemapSpace) demo_first) = Ok (Some (mkAddr 0)).
Proof.
  destruct (mem_init_heap_backed (L := list Z) 0x8000 demo_p4 demo_pdpts demo_pd demo_start_vma demo_kernel_end 0x100000
              demo_ram low_memory demo_mem demo_bmm demo_last_area demo_boot_ok demo_bmm_eq demo_ram_handover) as (k' & r0 & E & E0 & _ & _ & Hx).
  exists k'. split; [exact E|]. destruct (mem_init_pmm _ _ _ _ _ _ _ _ _ _ _ demo_boot_ok E) as (bmm & s & Eb & Ep).
  destruct (demo_first_block bmm s (ms_pmm k') Eb Ep) as (n & r & Er). rewrite E0 in Er.
  pose proof (hf_alloc _ _ [] demo_request (Some (demo_first, n)) r (hf_init _) (proj1 demo_request_ok) Er) as Hf. cbv iota beta in Hf.
  assert (Hin : (demo_first, demo_request) ∈ [(demo_first, demo_request)]) by apply list_elem_of_here.
  assert (Hy : demo_first <= demo_first < demo_first + layout_size demo_request) by (change (layout_size demo_request) with 24; lia).
  destruct (Hx r _ _ _ _ Hf Hin Hy) as [[_ Ht] _]. clear -Ht. exact Ht.
Defined.
