(* ===== verification/FirstProcess.v ===== *)
(** * The first process's map

    The tables that [X86_64MemoryManager::init] builds form a tree, and the page allocator
    never hands one of them out: so the map of a process can be made, filled and dropped
    on the memory that [init] of [src/src/mem.rs] leaves, and at any later time. *)

From stdpp Require Import gmap sets.
From S2P Require Import Prelude Addr Buddy BuddySpec Memblock MemblockTheorems Phy PhyTheorems PhyBoot Entry Paging PagingTheorems.
From S2P Require Import PageAlloc PageAllocTheorems PagingInit PagingInitTheorems PagingMapTheorems AddressSpace MapLife.
From S2P Require Import Interrupt InterruptTheorems Boot MemInit KernelMemory.
Open Scope Z_scope.

(** ** The kernel's tables *)

Section Tables.
Context (pml4_vaddr pdpt_vaddr pd_vaddr kernel_end : Z) (Hs : statics_ok pml4_vaddr pdpt_vaddr pd_vaddr kernel_end).

Abbreviation P4 := (P4 pml4_vaddr).
Abbreviation D := (D pdpt_vaddr).
Abbreviation K := (K pd_vaddr).

Definition pdpt_index (i : nat) : Z * Level := (D (Z.of_nat i), PDPT).
Definition kernel_tables : gmap Z Level := <[P4 := PML4]> (<[K := PD]> (list_to_map (pdpt_index <$> seq 0 256))).

(** Where they hang: the directory of the image below the last entry but one of the last table. *)
Definition kernel_path (a : Z) : list Z :=
  if a =? P4 then [] else if a =? K then [511; 510] else [256 + (a - D 0) / 4096].

Lemma D_inj i j : D i = D j -> i = j.
Proof using. rewrite (D_step pdpt_vaddr i), (D_step pdpt_vaddr j). lia. Qed.

Lemma lookup_pdpts a l :
  (list_to_map (pdpt_index <$> seq 0 256) : gmap Z Level) !! a = Some l <-> l = PDPT /\ exists i, 0 <= i < 256 /\ a = D i.
Proof using.
  rewrite <- elem_of_list_to_map.
  2: { rewrite <- list_fmap_compose. apply NoDup_fmap_2; [|apply NoDup_seq]. intros i j E. cbn in E. apply D_inj in E. lia. }
  rewrite list_elem_of_fmap. split.
  - intros (i & [= -> ->] & Hi%elem_of_seq). split; [done|]. exists (Z.of_nat i). split; [lia|done].
  - intros (-> & i & Hi & ->). exists (Z.to_nat i). unfold pdpt_index. rewrite Z2Nat.id by lia. split; [done|]. apply elem_of_seq. lia.
Qed.

Lemma tables_apart i : 0 <= i < 256 -> D i <> P4 /\ D i <> K /\ P4 <> K.
Proof using Hs. intros Hi. destruct (st_apart _ _ _ _ Hs) as (A1 & A2 & A3). pose proof (D_step pdpt_vaddr i). pose proof (D_step pdpt_vaddr 256). lia. Qed.

Lemma kernel_tables_some a l :
  kernel_tables !! a = Some l <-> (a = P4 /\ l = PML4) \/ (a = K /\ l = PD) \/ (l = PDPT /\ exists i, 0 <= i < 256 /\ a = D i).
Proof using Hs.
  destruct (tables_apart 0 ltac:(lia)) as (_ & _ & Hpk). unfold kernel_tables. rewrite !lookup_insert_Some, lookup_pdpts. split.
  - intros [[<- <-]|(_ & [[<- <-]|(_ & H)])]; auto.
  - intros [[-> ->]|[[-> ->]|(-> & i & Hi & ->)]]; [by left|right; split; [done|by left]|].
    destruct (tables_apart i Hi) as (H1 & H2 & _). right. split; [done|]. right. split; [done|]. split; [done|]. by exists i.
Qed.

Lemma kernel_path_eq : kernel_path P4 = [] /\ kernel_path K = [511; 510] /\ forall i, 0 <= i < 256 -> kernel_path (D i) = [256 + i].
Proof using Hs.
  destruct (tables_apart 0 ltac:(lia)) as (_ & _ & Hpk). unfold kernel_path. rewrite Z.eqb_refl. split; [done|]. split.
  - rewrite (proj2 (Z.eqb_neq K P4)), Z.eqb_refl by done. done.
  - intros i Hi. destruct (tables_apart i Hi) as (H1 & H2 & _). rewrite (proj2 (Z.eqb_neq _ _) H1), (proj2 (Z.eqb_neq _ _) H2).
    rewrite (D_step pdpt_vaddr i). replace (D 0 + i * 4096 - D 0) with (i * 4096) by lia. by rewrite Z.div_mul.
Qed.

Context (s : Z) (st : Machine) (Hb : built pml4_vaddr pdpt_vaddr pd_vaddr kernel_end s st) (Hm : 0 < s <= range_end UMASpace).

(** What the words of the tables refer to. *)
Lemma root_word j : 0 <= j < 512 ->
  entry_target PML4 (mem st (P4 + 8 * j)) = Ok (if 256 <=? j then TTable PDPT (mkAddr (D (j - 256))) else TNone).
Proof using Hb.
  intros Hj. case_bool (256 <=? j) E; [|by rewrite (bt_zero_root _ _ _ _ _ _ Hb) by lia].
  pose proof (pd_root _ _ _ _ _ _ _ (bt_done _ _ _ _ _ _ Hb (j - 256) ltac:(lia))) as Hr. replace (256 + (j - 256)) with j in Hr by lia.
  by apply made_target in Hr.
Qed.

Lemma directory_word j : 0 <= j < 512 -> exists t, entry_target PD (mem st (K + 8 * j)) = Ok t /\ forall l a, t <> TTable l a.
Proof using Hb.
  intros Hj. destruct (Z.lt_ge_cases (KSTART + j * (2 * MiB)) kernel_end) as [Hl|Hl].
  - pose proof (pd_pages _ _ _ _ _ _ _ (bt_done _ _ _ _ _ _ Hb 255 ltac:(lia)) eq_refl j ltac:(lia) Hl) as Hp.
    apply made_target in Hp. eexists. split; [exact Hp|done].
  - rewrite (bt_zero_pd _ _ _ _ _ _ Hb) by (done || lia). by exists TNone.
Qed.

Lemma pdpt_word i j : 0 <= i < 256 -> 0 <= j < 512 ->
  if decide (i = 255 /\ j = 510) then entry_target PDPT (mem st (D i + 8 * j)) = Ok (TTable PD (mkAddr K))
  else exists t, entry_target PDPT (mem st (D i + 8 * j)) = Ok t /\ forall l a, t <> TTable l a.
Proof using Hb.
  intros Hi Hj. pose proof (bt_done _ _ _ _ _ _ Hb i Hi) as Hd. destruct (decide (i = 255 /\ j = 510)) as [[-> ->]|Hn].
  - pose proof (pd_kernel _ _ _ _ _ _ _ Hd eq_refl) as Hk. by apply made_target in Hk.
  - destruct (decide (273 <= 256 + i <= 273 + (s - 1) / (512 * GiB))) as [Hr|Hr].
    + pose proof (pd_remap _ _ _ _ _ _ _ Hd Hr j Hj) as Hp. apply made_target in Hp. eexists. split; [exact Hp|done].
    + rewrite (bt_zero _ _ _ _ _ _ Hb i j) by done. by exists TNone.
Qed.

Lemma kernel_word a l j :
  kernel_tables !! a = Some l -> 0 <= j < 512 ->
  exists t, entry_target l (mem st (a + 8 * j)) = Ok t /\
    forall l' b, t = TTable l' b -> kernel_tables !! value b = Some l' /\ kernel_path (value b) = kernel_path a ++ [j].
Proof using Hs Hb.
  destruct kernel_path_eq as (Ep & Ek & Ed). intros [[-> ->]|[[-> ->]|(-> & i & Hi & ->)]]%kernel_tables_some Hj.
  - rewrite root_word by done. eexists. split; [done|]. intros l' b. case_bool (256 <=? j) E; [|done]. intros [= <- <-]. cbn [value]. split.
    + apply kernel_tables_some. right; right. split; [done|]. exists (j - 256). split; [lia|done].
    + rewrite Ep, Ed by lia. cbn [app]. f_equal. lia.
  - destruct (directory_word j Hj) as (t & E & Ht). exists t. split; [done|]. intros l' b Hn. by destruct (Ht l' b).
  - pose proof (pdpt_word i j Hi Hj) as Hw. destruct (decide (i = 255 /\ j = 510)) as [[-> ->]|_].
    + eexists. split; [done|]. intros l' b [= <- <-]. cbn [value]. split; [apply kernel_tables_some; auto|]. by rewrite Ek, Ed by lia.
    + destruct Hw as (t & E & Ht). exists t. split; [done|]. intros l' b Hn. by destruct (Ht l' b).
Qed.

Lemma kernel_tables_ok : tables_ok st kernel_tables /\ tree_ok st kernel_tables kernel_path.
Proof using Hs Hb.
  pose proof (made_target _ _ _ _ (bt_cr3 _ _ _ _ _ _ Hb)) as Ec. destruct (table_places _ _ _ _ Hs 0 ltac:(lia)) as (Pl1 & _ & Pl3).
  split; [split|split].
  - exists (mkAddr P4). split; [exact Ec|]. apply kernel_tables_some. by left.
  - intros a l [[-> ->]|[[-> ->]|(-> & i & Hi & ->)]]%kernel_tables_some; (split; [done|]); try done. by apply (table_places _ _ _ _ Hs).
  - intros a l j Ha Hj. destruct (kernel_word a l j Ha Hj) as (t & E & Ht). unfold entry_ok. rewrite E. destruct t; try done. by apply Ht.
  - intros a. rewrite Ec. intros [= <-]. apply kernel_path_eq.
  - intros a l j l' b Ha Hj E. destruct (kernel_word a l j Ha Hj) as (t & E' & Ht). rewrite E in E'. injection E' as <-. by apply (Ht l').
Qed.
End Tables.

(** ** Memory that keeps the tables *)

Lemma same_tables_ok st st' T P :
  cr3 st' = cr3 st -> same_tables T (mem st) (mem st') -> tables_ok st T -> tree_ok st T P -> tables_ok st' T /\ tree_ok st' T P.
Proof.
  intros Ec Hm [H1 H2 H3] [G1 G2]. split; split; rewrite ?Ec; try done.
  - intros a l i Ha Hi. rewrite (Hm a l i Ha Hi). by apply H3.
  - intros a l i l' b Ha Hi. rewrite (Hm a l i Ha Hi). by apply (G2 a l i l' b).
Qed.

Lemma same_translate {V} `{VirtSpace V} st st' T (v : Addr V) :
  cr3 st' = cr3 st -> same_tables T (mem st) (mem st') -> tables_ok st T -> translate st' v = translate st v.
Proof.
  intros Ec Hm Ht. apply (translate_agree v T); try done. unfold entry_ok. cbn [er_level er_loc read].
  destruct (to_cr3 _ _ Ht) as (a & Ea & HT). by rewrite Ea.
Qed.

(** ** The page allocator after the boot *)

(** What requests and returns of pages lead to from [pmm0]. *)
Inductive pages_from (pmm0 : PMM) : PMM -> gmap Z Layout -> Prop :=
| pf_init : pages_from pmm0 pmm0 ∅
| pf_alloc pmm blocks layout o pmm' : pages_from pmm0 pmm blocks -> page_layout layout ->
    page_allocate_ptr layout pmm = Ok (o, pmm') ->
    pages_from pmm0 pmm' (match o with Some (p, _) => <[p := layout]> blocks | None => blocks end)
| pf_free pmm blocks p layout pmm' : pages_from pmm0 pmm blocks -> blocks !! p = Some layout ->
    page_deallocate_ptr p layout pmm = Ok pmm' -> pages_from pmm0 pmm' (delete p blocks).

Lemma pages_from_avail base avail pmm0 pmm blocks :
  avail_out base avail pmm0 ∅ -> pages_from pmm0 pmm blocks -> avail_out base avail pmm blocks.
Proof.
  intros H0. induction 1 as [|pmm blocks layout o pmm' _ IH Hl E|pmm blocks p layout pmm' _ IH Hp E]; [done|..].
  - destruct (avail_source_allocate base avail pmm blocks layout IH Hl) as (o' & pmm1 & E' & Ho). rewrite E in E'. injection E' as <- <-.
    destruct o as [[p n]|]; [|done]. by destruct Ho as (_ & _ & _ & _ & _ & ?).
  - destruct (avail_source_deallocate base avail pmm blocks p layout IH Hp) as (pmm1 & E' & Ho). rewrite E in E'. by injection E' as <-.
Qed.

Section FirstProcess.
Context `{BitField}.
Context (gdt_addr pml4_vaddr pdpt_vaddr pd_vaddr start_vma end_vma start_lma : Z).

(** The linker script: the image is loaded at a fixed distance from where it runs, and holds the tables. *)
Record image_ok : Prop := {
  im_offset : start_vma = KSTART + start_lma;
  im_pml4 : pml4_vaddr + 4096 <= end_vma;
  im_pdpts : pdpt_vaddr + 256 * 4096 <= end_vma;
  im_pd : pd_vaddr + 4096 <= end_vma
}.

Abbreviation tables := (kernel_tables pml4_vaddr pdpt_vaddr pd_vaddr).
Abbreviation kend := (kernel_end_phys start_vma end_vma start_lma).

Lemma tables_in_image a l :
  image_ok -> statics_ok pml4_vaddr pdpt_vaddr pd_vaddr end_vma -> tables !! a = Some l -> a + 4096 <= value kend.
Proof using.
  intros [Ho H1 H2 H3] Hs [[-> ->]|[[-> ->]|(-> & i & Hi & ->)]]%(kernel_tables_some _ _ _ _ Hs); cbn [value kernel_end_phys].
  - unfold P4. lia.
  - unfold K. lia.
  - unfold D. lia.
Qed.

(** No table of the kernel is ever free. *)
Lemma tables_in_use (areas : list MemoryArea) ram bmm p r B0 a l :
  image_ok -> statics_ok pml4_vaddr pdpt_vaddr pd_vaddr end_vma -> handover_ok ram bmm p ->
  (forall x, covered (all_blocks bmm) x <-> exists a, a ∈ areas /\ usable kend a x) ->
  avail_out (boot_base bmm) (fun f => covered (left_blocks bmm p) (boot_base bmm + f * 4096)) (Some r) B0 ->
  tables !! a = Some l -> in_use r a.
Proof using.
  intros Hi Hs Hh Hc (r0 & [= <-] & Ha) HT f Hf E. destruct (frame_free (buddy r) f) eqn:Ef; [exfalso|done].
  pose proof (av_free _ _ _ _ Ha f Hf Ef) as Hcov. cbn beta in Hcov.
  rewrite (av_base _ _ _ _ Ha), FRAME_SIZE_eq in E. rewrite <- E in Hcov.
  apply (left_covered ram bmm p _ Hh), Hc in Hcov as (b & _ & _ & _ & Hlo). pose proof (tables_in_image a l Hi Hs HT). lia.
Qed.

(** C7: on a sound boot whose blocks suit the frame record, which the code does not test, the map of a process can be
    made, filled and dropped after [init], as long as there are pages for it.  Whatever pages were
    taken and given back since, and whatever was written outside the kernel's tables: if the next [1 + 4 * length L] requests
    for a page succeed and these pages hold zeros (the code neither clears a table nor
    survives a refused request), then [new], the [map]s of the list [L] of small pages in the lower half and the drop succeed;
    the kernel's half is what [init] mapped, the lower half is what was mapped there, and in the end the same pages are out
    as before. *)
Theorem first_process_map {V} `{VirtSpace V} areas ram k bmm p (L : list (PageAddr V * PageAddr UMASpace * list Flag)) :
  boot_ok pml4_vaddr pdpt_vaddr pd_vaddr start_vma end_vma start_lma areas ram k -> memblock_init kend areas = Ok bmm -> handover_ok ram bmm p ->
  image_ok -> Forall user_page L ->
  exists k', mem_init gdt_addr pml4_vaddr pdpt_vaddr pd_vaddr start_vma end_vma start_lma (Some areas) ram k = Ok k' /\
    forall r B0 st, pages_from (ms_pmm k') (Some r) B0 ->
      cr3 st = cr3 (ms_machine k') -> same_tables tables (mem (ms_machine k')) (mem st) ->
      supply (1 + 4 * length L) (Some r) st tables ->
      exists raw' st1 pmm1 st2 pmm2 pmm3,
        memory_map_new st (Some r) = Ok (raw', st1, pmm1) /\
        map_all (mkMachine raw' (mem st1)) pmm1 L = Ok (st2, pmm2) /\
        memory_map_drop st2 pmm2 = Ok pmm3 /\ pmm_out pmm3 B0 /\
        forall (X : Type) (HX : VirtSpace X) (x : Addr X), translate st1 x = translate (ms_machine k') x /\
          translate st2 x = behind L (value x) (if 256 <=? vidx PML4 (value x) then translate (ms_machine k') x else Ok None).
Proof using.
  intros [B1 B2 B3 B4 B5 B6 _] Eb Hh Him HL.
  destruct (mem_init_spec gdt_addr _ _ _ _ _ _ areas ram k B1 B2 B3 B5 B6) as (bmm' & st0 & gdt & gdtr & E & Eb' & _ & Hc & _ & Hb).
  rewrite Eb in Eb'. injection Eb' as <-. destruct (record_new_spec ram bmm p Hh) as (r0 & s' & Er & Hr). pose proof (recorded_avail _ _ _ Hr) as Hav.
  rewrite E, B4. unfold phy_init.
  rewrite Er. cbn [obind]. eexists. split; [done|]. cbn [ms_machine ms_pmm]. intros r B0 st Hpf Ec Hsame Hsup.
  pose proof (sy_statics _ _ _ _ _ _ B1) as Hs. destruct (kernel_tables_ok _ _ _ _ Hs _ _ Hb) as [Ht0 Htr0].
  destruct (same_tables_ok _ _ _ _ Ec Hsame Ht0 Htr0) as [Ht Htr]. pose proof (pages_from_avail _ _ _ _ _ Hav Hpf) as Hav'.
  destruct (memory_map_life_spec B0 st tables _ r L Ht Htr (avail_pmm_out _ _ _ _ Hav')) as
    (raw' & st1 & pmm1 & st2 & pmm2 & pmm3 & E1 & E2 & E3 & Ho & Hx); [|done|done|].
  { intros a l Ha. by apply (tables_in_use areas ram bmm p r B0 a l). }
  exists raw', st1, pmm1, st2, pmm2, pmm3. split_and!; try done. intros X HX x. destruct (Hx X HX x) as [-> ->].
  by rewrite (same_translate st0 st tables x Ec Hsame Ht0).
Qed.
End FirstProcess.

(** ** Witness *)

#[local] Existing Instance DemoUserSpace_virt.

Lemma demo_image_ok : image_ok demo_p4 demo_pdpts demo_pd demo_start_vma demo_kernel_end 0x100000.
Proof. by split; vm_compute. Qed.

Lemma demo_boot_supply :
  match phy_init demo_bmm low_memory None with Ok (pmm, _) => supply_check 0x400800 5 pmm [] | _ => false end = true.
Proof. vm_compute. reflexivity. Qed.

(** The machine of [init], with zeros behind the kernel. *)
Definition cleared (st : Machine) : Machine := mkMachine (cr3 st) (fun y => if y <? 0x400800 then mem st y else 0).

Lemma cleared_same st :
  same_tables (kernel_tables demo_p4 demo_pdpts demo_pd) (mem st) (mem (cleared st)).
Proof.
  intros a l i Ha Hi. pose proof (tables_in_image _ _ _ _ _ _ _ _ demo_image_ok demo_statics_ok Ha) as Hlt.
  change (value (kernel_end_phys demo_start_vma demo_kernel_end 0x100000)) with 0x400800 in Hlt. rewrite TABLE_LEN_eq in Hi.
  cbn [mem cleared]. by rewrite (proj2 (Z.ltb_lt _ _)) by lia.
Qed.

Lemma demo_pages_supply pmm s st :
  phy_init demo_bmm low_memory None = Ok (pmm, s) ->
  exists r, pmm = Some r /\ supply 5 pmm (cleared st) (kernel_tables demo_p4 demo_pdpts demo_pd).
Proof.
  intros E. pose proof demo_boot_supply as Hc. rewrite E in Hc. clear E. destruct pmm as [r|]; [|vm_compute in Hc; discriminate].
  exists r. split; [reflexivity|]. apply (supply_checked 0x400800 5 (Some r) _ _ [] Hc).
  - intros a l Ha. left. pose proof (tables_in_image _ _ _ _ _ _ _ _ demo_image_ok demo_statics_ok Ha) as Hlt.
    change (value (kernel_end_phys demo_start_vma demo_kernel_end 0x100000)) with 0x400800 in Hlt. lia.
  - intros y Hy. cbn [mem cleared]. by rewrite (proj2 (Z.ltb_ge _ _)) by lia.
Qed.

Lemma first_process_map_witness :
  exists k' r raw' st1 pmm1 st2 pmm2 pmm3,
    mem_init 0x8000 demo_p4 demo_pdpts demo_pd demo_start_vma demo_kernel_end 0x100000 (Some demo_ram) low_memory demo_mem = Ok k' /\
    memory_map_new (cleared (ms_machine k')) (Some r) = Ok (raw', st1, pmm1) /\
    map_all (mkMachine raw' (mem st1)) pmm1 [demo_user] = Ok (st2, pmm2) /\
    memory_map_drop st2 pmm2 = Ok pmm3 /\ pmm_out pmm3 ∅ /\
    translate st2 (mkAddr (S := DemoUserSpace) 0x7123) = Ok (Some (mkAddr 0x345000)).
Proof.
  destruct (first_process_map 0x8000 demo_p4 demo_pdpts demo_pd demo_start_vma demo_kernel_end 0x100000
              demo_ram low_memory demo_mem demo_bmm demo_last_area [demo_user] demo_boot_ok demo_bmm_eq demo_ram_handover demo_image_ok demo_user_page) as (k' & E & Hp).
  destruct (mem_init_pmm _ _ _ _ _ _ _ _ _ _ _ demo_boot_ok E) as (bmm & s & Eb & Ep). fold demo_kend in Eb.
  rewrite demo_bmm_eq in Eb. injection Eb as <-. destruct (demo_pages_supply _ s (ms_machine k') Ep) as (r & Er & Hs). clear Ep.
  pose proof (pf_init (ms_pmm k')) as Hpf. rewrite Er in Hs. rewrite Er in Hpf at 2.
  destruct (Hp r ∅ (cleared (ms_machine k')) Hpf eq_refl (cleared_same _) Hs)
    as (raw' & st1 & pmm1 & st2 & pmm2 & pmm3 & E1 & E2 & E3 & Ho & Hx).
  exists k', r, raw', st1, pmm1, st2, pmm2, pmm3. split; [exact E|]. split; [exact E1|]. split; [exact E2|]. split; [exact E3|].
  split; [exact Ho|]. clear -Hx. destruct (Hx DemoUserSpace _ (mkAddr 0x7123)) as [_ ->]. reflexivity.
Defined.
