(* ===== verification/Kmain.v ===== *)
(** * The kernel's entry point

    [kmain] of [src/src/main.rs] and [init] of [src/src/drivers.rs]: everything that
    happens from the boot loader's jump to the last message on the screen. *)

From Stdlib Require Import String Ascii.
From S2P Require Import Prelude Addr Memblock Phy PhyTheorems PhyBoot Entry Paging PagingInit PagingInitTheorems PageAlloc PageAllocTheorems Slab SlabTheorems AllocTheorems Heap Vec MemTest.
From S2P Require Import Pmio Vga VgaTheorems Keyboard KeyboardTheorems Interrupt InterruptTheorems Boot MemInit KernelMemory.
Open Scope Z_scope.

(** ** The messages *)

Definition bytes_of (s : string) : list Z := (fun c => Z.of_N (N_of_ascii c)) <$> list_ascii_of_string s.
Definition line (s : string) : list Z := bytes_of s ++ [10].

(** ** Where the console lies *)

Definition KERNEL_OFFSET_VMA : Z := 0xFFFFFFFF80000000.
Definition kernel_offset_vma : Z := KERNEL_OFFSET_VMA.
Definition BUFFER : Z := kernel_offset_vma + 0xb8000.

(** The first two bytes of each cell up to the last one lie in the first large page of
    the image space. *)
Lemma console_v2p y :
  BUFFER <= y < BUFFER + 2 * (VIEW_HEIGHT * VIEW_WIDTH) ->
  exists p, KernelImageSpace_v2p (mkAddr y) = Ok p /\ value p / (2 * MiB) * (2 * MiB) = 0.
Proof.
  intros Hy. change (2 * (VIEW_HEIGHT * VIEW_WIDTH)) with 4000 in Hy. change BUFFER with 0xFFFFFFFF800b8000 in Hy.
  destruct kernel_range as [E1 E2]. change KSTART with 0xFFFFFFFF80000000 in E1. exists (mkAddr (y - 0xFFFFFFFF80000000)).
  unfold KernelImageSpace_v2p. rewrite in_space_ok by (cbn [value]; rewrite ?E1, ?E2; lia). cbn [value].
  rewrite E1, usub_ok by lia. cbn [obind]. rewrite Addr_new_ok by (rewrite ?UMA_start, ?UMA_end; lia). split; [done|].
  cbn [value]. rewrite Z.div_small; [done|]. change (2 * MiB) with 2097152. lia.
Qed.

Section Kmain.
Context `{BitField} `{SlabSizes} `{BitSlice} {L : Type} `{LinkedList L} {Q : Type} `{RingBuf Q}.
(** The devices, the addresses of the statics, the symbols of the linker, and the
    entry stubs. *)
Context (dev : Trace -> Port -> Z).
Context (gdt_addr idt_addr pml4_vaddr pdpt_vaddr pd_vaddr start_vma end_vma start_lma : Z) (isr : list Z).

(** What a ring buffer takes from the heap when it is made and split; [None] is the call
    of [handle_alloc_error]. *)
Context (rb_storage : Store (SlabAllocatorRecord L PMM) -> outcome (option (Store (SlabAllocatorRecord L PMM)))).

(** The state of the kernel.  The frames belong to the heap once it has started. *)
Record Kernel := mkKernel {
  kn_console : VGABuffer;
  kn_mem : MemState;
  kn_store : Store (SlabAllocatorRecord L PMM);
  kn_intr : IntrState;
  kn_keyboard : option (Ps2 Q)
}.

(** [drivers::init] *)
Definition drivers_init (kb : option (Ps2 Q)) (st : Store (SlabAllocatorRecord L PMM)) : outcome (option (option (Ps2 Q) * Store (SlabAllocatorRecord L PMM))) :=
  try! st := rb_storage st in Ok (Some (ps2_init kb, st)).

(** [kmain], up to the point where interrupts are on.  [info] is what [BootInformation::load]
    finds, its memory map inside; [ram] is what the machine has at the addresses of the
    frame records, [vga_mem] and [bytes] are what the memories hold; the memory test has [n]
    rows of [cols] items; [None] is the call of [handle_alloc_error]. *)
Definition kmain_head (n cols : nat) (info : option (option (list MemoryArea))) (ram : Ram) (vga_mem : list Z) (bytes : Bytes)
    (m : MemState) (i : IntrState) (kb : option (Ps2 Q)) : outcome (option Kernel) :=
  let! c := vga_init vga_mem [] in
  let! c := greet c in
  let! tag := oexpect info in
  let! c := vga_write c (line "boot info found") in
  let! m := mem_init gdt_addr pml4_vaddr pdpt_vaddr pd_vaddr start_vma end_vma start_lma tag ram m in
  try! st := test_mem_sized n cols (mkStore (slab_record_new (ms_pmm m)) bytes) in
  let! c := vga_write c (line "mem initalized") in
  let! i := interrupt_init dev isr idt_addr i in
  Ok (Some (mkKernel c m st i kb)).

(** The rest.  The kernel waits for interrupts in the state that is returned. *)
Definition kmain_tail (k : Kernel) : outcome (option Kernel) :=
  let! c := vga_write (kn_console k) (line "interrupt initialized") in
  try! ' (kb, st) := drivers_init (kn_keyboard k) (kn_store k) in
  let! c := vga_write c (line "drivers initialized") in
  let! c := vga_write c (10 :: line "kernel initialized") in
  Ok (Some (mkKernel c (kn_mem k) st (kn_intr k) kb)).

Definition kmain_sized (n cols : nat) (info : option (option (list MemoryArea))) (ram : Ram) (vga_mem : list Z) (bytes : Bytes)
    (m : MemState) (i : IntrState) (kb : option (Ps2 Q)) : outcome (option Kernel) :=
  try! k := kmain_head n cols info ram vga_mem bytes m i kb in kmain_tail k.

(** [kmain], with the panic when memory runs out; its memory test has 1200 rows of 10
    items. *)
Definition kmain_rows (n cols : nat) (info : option (option (list MemoryArea))) (ram : Ram) (vga_mem : list Z) (bytes : Bytes)
    (m : MemState) (i : IntrState) (kb : option (Ps2 Q)) : outcome Kernel :=
  alloc_error (kmain_sized n cols info ram vga_mem bytes m i kb).
Definition kmain := kmain_rows 1200 10.

(** ** The screen *)

(** The lines and their colors: bright green and bright gray. *)
Definition boot_lines : list (Z * string) :=
  [(10, "Hello from kernel!"); (15, "boot info found"); (15, "mem initalized"); (15, "interrupt initialized");
   (15, "drivers initialized"); (15, "kernel initialized")]%string.
Definition row_cells (l : Z * string) : list Z :=
  let text := bytes_of l.2 in ((fun ch => l.1 * 256 + ch) <$> text) ++ replicate (80 - length text) 0.
Definition boot_screen : list Z := concat (row_cells <$> boot_lines) ++ replicate (19 * 80) 0.

Lemma boot_screen_ok vga_mem :
  len vga_mem = 2000 ->
  exists c0 c1 c2 c3 c4 c5 c6, vga_init vga_mem [] = Ok c0 /\ greet c0 = Ok c1 /\ vga_write c1 (line "boot info found") = Ok c2 /\
    vga_write c2 (line "mem initalized") = Ok c3 /\ vga_write c3 (line "interrupt initialized") = Ok c4 /\
    vga_write c4 (line "drivers initialized") = Ok c5 /\ vga_write c5 (10 :: line "kernel initialized") = Ok c6 /\
    buffer c6 = boot_screen /\ cursor_pos c6 = 480.
Proof using.
  intros Hl. unfold vga_init. replace (length vga_mem) with 2000%nat by (unfold len in Hl; lia).
  do 7 eexists. do 7 (split; [vm_compute; reflexivity|]). vm_compute. done.
Qed.

(** ** The theorem *)

Context (Himr : imr_readable dev).
(** The ring buffer keeps to the rules of the heap. *)
Context (Hrb : forall st0 st live, global_live st0 (st_heap st) live ->
  exists o, rb_storage st = Ok o /\
    match o with None => True | Some st' => exists bs, global_live st0 (st_heap st') (bs ++ live) end).

(** A kernel that has been brought up, on [size] bytes of managed memory: [live] are the
    blocks of its drivers. *)
Record booted (areas : list MemoryArea) (ram : Ram) (size : Z) (k : Kernel) (live : list Block) : Prop := {
  bt_heap : global_live (ms_pmm (kn_mem k)) (st_heap (kn_store k)) live;
  bt_backed p l y : (p, l) ∈ live -> p <= y < p + layout_size l ->
    byte_backed start_vma end_vma start_lma areas size (ms_machine (kn_mem k)) y;
  bt_records r y : ms_pmm (kn_mem k) = Some r -> record_byte r y ->
    record_backed start_vma end_vma start_lma ram (ms_machine (kn_mem k)) y /\
    forall p l, (p, l) ∈ live -> ~ p <= y < p + layout_size l;
  bt_enabled : intr_enabled (cpu (kn_intr k)) = true;
  bt_masks irq : 0 <= irq < 16 -> masked (intr_ports (kn_intr k)) irq <-> irq <> 1;
  bt_gates j a : isr !! j = Some a -> has_vector (Z.of_nat j) = true -> a <> 0 ->
    exists d, idt (kn_intr k) !! j = Some d /\ gate_addr d = a;
  bt_keyboard : kn_keyboard k = Some (mkPs2 Normal (rb_new 128) virt_new);
  bt_screen : buffer (kn_console k) = boot_screen /\ cursor_pos (kn_console k) = 480;
  bt_console y : BUFFER <= y < BUFFER + 2 * (VIEW_HEIGHT * VIEW_WIDTH) -> y < end_vma ->
    translate (ms_machine (kn_mem k)) (mkAddr (S := KernelImageSpace) y) = Ok (Some (mkAddr 0))
}.

(** The blocks of a heap that stands on the pages [init] left. *)
Lemma ready_backed areas ram size m r0 (h : SlabAllocatorRecord L PMM) live p l y :
  memory_ready (L := L) start_vma end_vma start_lma areas ram size m r0 -> global_live (ms_pmm m) h live ->
  (p, l) ∈ live -> p <= y < p + layout_size l -> byte_backed start_vma end_vma start_lma areas size (ms_machine m) y /\ ~ record_byte r0 y.
Proof using.
  intros Hm (_ & live' & Hp & Hf) Hin. apply (mr_heap _ _ _ _ _ _ _ _ Hm h live' p l y Hf). by rewrite <- Hp.
Qed.

(** The memory test, or the keyboard's buffer behind it, finds too little memory. *)
Definition starved (n cols : nat) (m : MemState) (bytes : Bytes) : Prop :=
  match test_mem_sized n cols (mkStore (slab_record_new (L := L) (ms_pmm m)) bytes) with
  | Ok (Some st) => rb_storage st = Ok None
  | o => o = Ok None
  end.

Lemma kmain_sized_ok n cols areas ram bmm p vga_mem bytes m i :
  (Z.of_nat cols + 1) * (Z.of_nat n + 1) < 2 ^ 31 ->
  boot_ok pml4_vaddr pdpt_vaddr pd_vaddr start_vma end_vma start_lma areas ram m ->
  memblock_init (kernel_end_phys start_vma end_vma start_lma) areas = Ok bmm -> handover_ok ram bmm p ->
  len isr = 256 -> Forall (fun a => 0 <= a < USIZE) isr -> idt i = idt_new -> len vga_mem = 2000 ->
  exists m' o, mem_init gdt_addr pml4_vaddr pdpt_vaddr pd_vaddr start_vma end_vma start_lma (Some areas) ram m = Ok m' /\
    kmain_sized n cols (Some (Some areas)) ram vga_mem bytes m i None = Ok o /\
    match o with
    | None => starved n cols m' bytes
    | Some k => kn_mem k = m' /\ exists live, booted areas ram (ar_size (managed_range bmm)) k live
    end.
Proof using Himr Hrb.
  intros Hn Hb Hbmm Hh Hisr Hisr' Hidt Hvga. unfold kmain_sized, kmain_head.
  destruct (boot_screen_ok vga_mem Hvga) as (c0 & c1 & c2 & c3 & c4 & c5 & c6 & -> & E1 & E2 & E3 & E4 & E5 & E6 & Hscr).
  cbn [obind]. rewrite E1. cbn [obind oexpect]. rewrite E2. cbn [obind].
  destruct (mem_init_ready_spec (L := L) gdt_addr _ _ _ _ _ _ areas ram m bmm p Hb Hbmm Hh) as (m' & r0 & Em & Hm). rewrite Em. cbn [obind].
  exists m'. enough (Hx : exists o, _ = Ok o /\ _) by (destruct Hx as [o Hx]; exists o; split; [done|exact Hx]). unfold starved.
  set (st := mkStore _ bytes). assert (Hl : global_live (ms_pmm m') (st_heap st) []) by (apply global_live_new, Hm).
  destruct (test_mem_sized_ok (H0 := global_heap (ms_pmm m')) n cols [] st Hl Hn) as ([st1|] & -> & Hp); cbn [obind]; [|by exists None].
  destruct Hp as [Hl1 _]. rewrite E3. cbn [obind].
  destruct (interrupt_init_spec dev Himr isr idt_addr i Hisr Hisr' Hidt) as (i' & -> & Hen & Hmask & Hgate). cbn [obind].
  unfold kmain_tail. cbn [kn_console kn_mem kn_store kn_intr kn_keyboard]. rewrite E4. cbn [obind]. unfold drivers_init. destruct (Hrb _ st1 [] Hl1) as ([st2|] & E7 & Hl2); rewrite E7; cbn [obind]; [|by exists None].
  rewrite E5. cbn [obind]. rewrite E6. cbn [obind]. eexists (Some _). split; [done|]. destruct Hl2 as [bs Hl2]. split; [done|]. exists (bs ++ []).
  split; cbn [kn_mem kn_store kn_intr kn_keyboard kn_console]; try done.
  - intros q l y Hin Hy. by apply (ready_backed areas ram _ m' r0 (st_heap st2) (bs ++ []) q l).
  - intros r y. rewrite (mr_pmm _ _ _ _ _ _ _ _ Hm). intros [= <-] Hy. split; [by apply (mr_records _ _ _ _ _ _ _ _ Hm)|].
    intros q l Hin Hq. by apply (ready_backed areas ram _ m' r0 (st_heap st2) (bs ++ []) q l y Hm Hl2 Hin).
  - intros j a Ha Hv Hne. specialize (Hgate j a Ha). rewrite Hv, (proj2 (Z.eqb_neq a 0) Hne) in Hgate.
    destruct Hgate as (d & Hd & Hga & _). by exists d.
  - intros y Hy Hlt. destruct (console_v2p y Hy) as (q & Ev & E0). by rewrite (mr_image _ _ _ _ _ _ _ _ Hm _ q Ev Hlt), E0.
Qed.

(** C5: on a sound boot whose blocks suit the frame record, which the code does not test,
    [kmain] with a memory test of any size ([kmain] itself has 1200 rows of 10 items) either
    gets to its end or panics because memory ran out, in the memory test or for the
    keyboard's buffer.  At its end the memory test has passed, the heap stands on the memory that was
    handed over, apart from the frame records, its blocks are mapped as far as the remap reaches
    (to the next multiple of 512 GiB above the size of the managed memory), interrupts are on with only the keyboard let
    through, the keyboard's buffer is empty, the six lines stand on the screen, and the
    console's memory is still mapped. *)
Theorem kmain_correct n cols areas ram bmm p vga_mem bytes m i :
  (Z.of_nat cols + 1) * (Z.of_nat n + 1) < 2 ^ 31 ->
  boot_ok pml4_vaddr pdpt_vaddr pd_vaddr start_vma end_vma start_lma areas ram m ->
  memblock_init (kernel_end_phys start_vma end_vma start_lma) areas = Ok bmm -> handover_ok ram bmm p ->
  len isr = 256 -> Forall (fun a => 0 <= a < USIZE) isr -> idt i = idt_new -> len vga_mem = 2000 ->
  exists m', mem_init gdt_addr pml4_vaddr pdpt_vaddr pd_vaddr start_vma end_vma start_lma (Some areas) ram m = Ok m' /\
    match kmain_rows n cols (Some (Some areas)) ram vga_mem bytes m i None with
    | Ok k => kn_mem k = m' /\ exists live, booted areas ram (ar_size (managed_range bmm)) k live
    | Panic => starved n cols m' bytes
    | OutOfFuel => False
    end.
Proof using Himr Hrb.
  intros Hn Hb Hbmm Hh Hi1 Hi2 Hi3 Hv. destruct (kmain_sized_ok n cols areas ram bmm p vga_mem bytes m i Hn Hb Hbmm Hh Hi1 Hi2 Hi3 Hv) as (m' & o & Em & E & Ho).
  exists m'. split; [exact Em|]. unfold kmain_rows, alloc_error. rewrite E. destruct o as [k|]; exact Ho.
Qed.

(** Without boot information, or without its memory map, the kernel panics. *)
Lemma kmain_no_info ram vga_mem bytes m i kb :
  len vga_mem = 2000 ->
  kmain None ram vga_mem bytes m i kb = Panic /\ kmain (Some None) ram vga_mem bytes m i kb = Panic.
Proof using.
  intros Hl. unfold kmain, kmain_rows, alloc_error, kmain_sized, kmain_head. destruct (boot_screen_ok vga_mem Hl) as (c0 & c1 & c2 & _ & _ & _ & _ & -> & E1 & E2 & _).
  cbn [obind]. rewrite E1. cbn [obind oexpect]. rewrite E2. done.
Qed.
End Kmain.

(** ** Witness *)

(** A ring buffer that takes one block, for its items and its counters. *)
Definition demo_storage (st : Store (SlabAllocatorRecord (list Z) PMM)) : outcome (option (Store (SlabAllocatorRecord (list Z) PMM))) :=
  let! ' (p, h) := heap_alloc (mkLayout 640 8) (st_heap st) in
  Ok (if p =? 0 then None else Some (mkStore h (st_bytes st))).

Lemma demo_storage_ok st0 st live : global_live st0 (st_heap st) live ->
  exists o, demo_storage st = Ok o /\
    match o with None => True | Some st' => exists bs, global_live st0 (st_heap st') (bs ++ live) end.
Proof.
  intros Hl. destruct (global_alloc_ok st0 _ live (mkLayout 640 8) Hl) as (p & h & E & _ & _ & Hl'); [by split_and!|done|].
  unfold demo_storage. cbn [heap_alloc global_ops]. rewrite E. cbn [obind]. destruct (p =? 0); eexists; (split; [done|]); [done|].
  by exists [(p, mkLayout 640 8)].
Qed.

Definition demo_intr : IntrState := mkIntrState (mkCpu false 0) idt_new (mkIdtr 0 0) [].

(** With a memory test of three rows of five items, this machine gets to the end. *)
Definition has_room (n cols : nat) (pmm : PMM) : bool :=
  match test_mem_sized n cols (mkStore (slab_record_new (L := list Z) pmm) (fun _ => 0)) with
  | Ok (Some st) => match demo_storage st with Ok (Some _) => true | _ => false end
  | _ => false
  end.

Lemma demo_has_room :
  match phy_init demo_bmm low_memory None with Ok (pmm, _) => has_room 3 5 pmm | _ => false end = true.
Proof. vm_compute. reflexivity. Qed.

Lemma room_not_starved n cols m : has_room n cols (ms_pmm m) = true -> ~ starved demo_storage n cols m (fun _ => 0).
Proof.
  unfold has_room, starved. destruct (test_mem_sized n cols _) as [[st|]| |]; [|discriminate..].
  destruct (demo_storage st) as [[st'|]| |]; [discriminate|done..].
Qed.

Lemma demo_not_starved m' :
  mem_init 0x8000 demo_p4 demo_pdpts demo_pd demo_start_vma demo_kernel_end 0x100000 (Some demo_ram) low_memory demo_mem = Ok m' ->
  ~ starved demo_storage 3 5 m' (fun _ => 0).
Proof.
  intros Em. destruct (mem_init_pmm _ _ _ _ _ _ _ _ _ _ _ demo_boot_ok Em) as (bmm & s & Eb & Ep). clear Em. fold demo_kend in Eb.
  rewrite demo_bmm_eq in Eb. injection Eb as <-. pose proof demo_has_room as Hr. rewrite Ep in Hr. clear Ep. by apply room_not_starved.
Qed.

Lemma demo_boot_ends :
  exists k, kmain_sized (Q := Z * list (Z * bool)) demo_dev 0x8000 0x9000 demo_p4 demo_pdpts demo_pd demo_start_vma demo_kernel_end 0x100000
      demo_isr demo_storage 3 5 (Some (Some demo_ram)) low_memory (replicate 2000 0) (fun _ => 0) demo_mem demo_intr None = Ok (Some k) /\
    intr_enabled (cpu (kn_intr k)) = true /\ buffer (kn_console k) = boot_screen.
Proof.
  destruct (kmain_sized_ok (Q := Z * list (Z * bool)) demo_dev 0x8000 0x9000 demo_p4 demo_pdpts demo_pd demo_start_vma demo_kernel_end 0x100000
              demo_isr demo_storage demo_dev_readable demo_storage_ok 3 5 demo_ram low_memory demo_bmm demo_last_area (replicate 2000 0) (fun _ => 0) demo_mem demo_intr)
    as (m' & o & Em & E & Ho); [done|exact demo_boot_ok|exact demo_bmm_eq|exact demo_ram_handover|apply demo_isr_ok|apply demo_isr_ok|reflexivity|reflexivity|].
  apply demo_not_starved in Em.
  destruct o as [k|]; [|by destruct Em]. destruct Ho as [_ [live Ho]]. exists k. split; [exact E|]. split; apply Ho.
Qed.

Lemma kmain_correct_witness :
  exists k, kmain_rows (Q := Z * list (Z * bool)) demo_dev 0x8000 0x9000 demo_p4 demo_pdpts demo_pd demo_start_vma demo_kernel_end 0x100000
      demo_isr demo_storage 3 5 (Some (Some demo_ram)) low_memory (replicate 2000 0) (fun _ => 0) demo_mem demo_intr None = Ok k /\
    intr_enabled (cpu (kn_intr k)) = true /\ buffer (kn_console k) = boot_screen.
Proof.
  destruct (kmain_correct (Q := Z * list (Z * bool)) demo_dev 0x8000 0x9000 demo_p4 demo_pdpts demo_pd demo_start_vma demo_kernel_end 0x100000
              demo_isr demo_storage demo_dev_readable demo_storage_ok 3 5 demo_ram low_memory demo_bmm demo_last_area (replicate 2000 0) (fun _ => 0) demo_mem demo_intr)
    as (m' & Em & Ho); [lia|exact demo_boot_ok|exact demo_bmm_eq|exact demo_ram_handover|apply demo_isr_ok|apply demo_isr_ok|reflexivity|reflexivity|].
  apply demo_not_starved in Em. match type of Ho with match ?x with _ => _ end => destruct x as [k| |] end; [|by destruct Em|destruct Ho].
  exists k. destruct Ho as [_ [live Ho]]. split; [reflexivity|]. split; apply Ho.
Defined.
