(* ===== verification/Idle.v ===== *)
(** * Interrupts during the boot and after it

    The end of [kmain] of [src/src/main.rs], once interrupts are on, with requests between its steps;
    and [hlt] of [src/src/common.rs], where it ends: the processor sleeps until a
    request comes in, its handler runs, and it sleeps again. *)

From Stdlib Require Import String.
From S2P Require Import Prelude Addr Memblock Phy PhyTheorems Entry Paging PagingInit PagingInitTheorems Slab SlabTheorems AllocTheorems Heap Vec MemTest Pmio.
From S2P Require Import Vga VgaTheorems Keyboard KeyboardTheorems Interrupt InterruptTheorems Boot MemInit KernelMemory Kmain.
Open Scope Z_scope.

(** Filling a bounded buffer step by step, or at once. *)
Lemma take_take_app {A} (c : nat) (a b : list A) : take c (take c a ++ b) = take c (a ++ b).
Proof. revert c. induction a as [|x a IH]; intros [|c]; cbn; try done. by rewrite IH. Qed.

Section Idle.
Context {L Q : Type} `{RingBuf Q} (dev : Trace -> Port -> Z).
Implicit Types k : Kernel (L := L) (Q := Q).

(** The kernel after a handler: the accesses to the ports, and the keyboard. *)
Definition after_irq k (t : Trace) (kb : option (Ps2 Q)) : Kernel (L := L) (Q := Q) :=
  let i := kn_intr k in
  mkKernel (kn_console k) (kn_mem k) (kn_store k) (mkIntrState (cpu i) (idt i) (idtr i) t) kb.

(** [loop { hlt }], over the vectors of the requests that wake it up. *)
Fixpoint hlt (vecs : list Z) k : outcome Kernel :=
  match vecs with
  | [] => Ok k
  | vec :: vecs =>
      let! ' (t, kb) := irq_handler dev vec (intr_ports (kn_intr k)) (kn_keyboard k) in
      hlt vecs (after_irq k t kb)
  end.

(** ** What the devices see *)

(** The bytes read from a port, oldest first. *)
Fixpoint reads (port : Port) (t : Trace) : list Z :=
  match t with
  | [] => []
  | InB p v :: t => if p =? port then v :: reads port t else reads port t
  | _ :: t => reads port t
  end.

(** The vectors of the first and of the second controller. *)
Definition of_first (vec : Z) : bool := vec <? 40.
Definition count (f : Z -> bool) (vecs : list Z) : nat := length (List.filter f vecs).

(** The requests [vecs] were served by the accesses [t]: one byte is read for each
    of the keyboard's, and each request is acknowledged to its controller. *)
Record served (vecs : list Z) (t : Trace) : Prop := {
  sv_reads : length (reads DATA_PORT t) = count (fun vec => vec =? 33) vecs;
  sv_first : written PIC1_CMD_PORT t = replicate (count of_first vecs) EOI;
  sv_second : written PIC2_CMD_PORT t = replicate (count (fun vec => negb (of_first vec)) vecs) EOI
}.

Lemma reads_app port t t' : reads port (t ++ t') = reads port t ++ reads port t'.
Proof using.
  induction t as [|[p v|p v|p v|p v|p v|p v] t IH]; cbn [app reads]; try done.
  destruct (p =? port); cbn [app]; by rewrite IH.
Qed.

(** The accesses of one handler. *)
Definition irq_accesses (vec byte : Z) : Trace :=
  (if vec =? 33 then [InB DATA_PORT byte] else []) ++ [OutB (if of_first vec then PIC1_CMD_PORT else PIC2_CMD_PORT) EOI].

Lemma served_cons vec byte vecs t : served vecs t -> served (vec :: vecs) (irq_accesses vec byte ++ t).
Proof using.
  intros [H1 H2 H3]. unfold irq_accesses, count, of_first in *.
  split; unfold count, of_first; rewrite ?reads_app, ?written_app; cbn [List.filter]; destruct (vec =? 33), (vec <? 40);
    rewrite ?length_app, ?H1, ?H2, ?H3; reflexivity.
Qed.

Lemma reads_irq vec byte : reads DATA_PORT (irq_accesses vec byte) = if vec =? 33 then [byte] else [].
Proof using. unfold irq_accesses. by destruct (vec =? 33), (of_first vec). Qed.

(** ** One request *)

(** A keyboard, if there is one, that can take a byte. *)
Definition kb_ok (kb : option (Ps2 Q)) : Prop :=
  match kb with None => True | Some s => cur_sc s = Normal /\ len (rb_items (ring s)) <= rb_capacity (ring s) end.

(** What the bytes [bs] leave of the keyboard [kb]: without a driver they are lost. *)
Definition keyed (kb : option (Ps2 Q)) (bs : list Z) (kb' : option (Ps2 Q)) : Prop :=
  match kb, kb' with
  | None, None => True
  | Some s, Some s' => cur_sc s' = Normal /\ virt s' = virt s /\ rb_capacity (ring s') = rb_capacity (ring s) /\
      rb_items (ring s') = take (Z.to_nat (rb_capacity (ring s))) (rb_items (ring s) ++ omap parse_normal bs)
  | _, _ => False
  end.

Lemma keyed_nil kb : kb_ok kb -> keyed kb [] kb.
Proof using.
  destruct kb as [s|]; [|done]. intros [Hsc Hc]. cbn. split_and!; try done. rewrite app_nil_r, take_ge; [done|]. unfold len in Hc. lia.
Qed.

Lemma keyed_ok kb bs kb' : kb_ok kb -> keyed kb bs kb' -> kb_ok kb'.
Proof using.
  destruct kb as [s|], kb' as [s'|]; try done. intros [_ Hc] (H1 & _ & H3 & H4). split; [done|]. rewrite H3, H4. unfold len in *.
  rewrite length_take. lia.
Qed.

Lemma keyed_trans kb b1 kb1 b2 kb2 : keyed kb b1 kb1 -> keyed kb1 b2 kb2 -> keyed kb (b1 ++ b2) kb2.
Proof using.
  destruct kb as [s|], kb1 as [s1|], kb2 as [s2|]; try done. intros (H1 & H2 & H3 & H4) (G1 & G2 & G3 & G4). cbn.
  split_and!; [done|congruence|congruence|]. rewrite G4, H4, H3, omap_app, app_assoc. apply take_take_app.
Qed.

Lemma irq_step vec k :
  32 <= vec < 48 -> kb_ok (kn_keyboard k) ->
  let t := irq_accesses vec (dev (intr_ports (kn_intr k)) DATA_PORT) in
  exists kb, irq_handler dev vec (intr_ports (kn_intr k)) (kn_keyboard k) = Ok (intr_ports (kn_intr k) ++ t, kb) /\
    keyed (kn_keyboard k) (reads DATA_PORT t) kb.
Proof using.
  intros Hv Hok t. destruct (kn_keyboard k) as [s|].
  - destruct Hok as [Hsc Hc]. destruct (irq_handler_spec dev vec (intr_ports (kn_intr k)) s Hv Hsc) as (t' & s' & -> & H1 & H2 & H3 & H4).
    exists (Some s'). unfold t. rewrite reads_irq. unfold irq_accesses, of_first. cbn zeta in H4. cbn [keyed]. unfold len in *.
    destruct (vec =? 33); destruct H4 as [-> H4].
    + split; [done|]. do 3 (split; [done|]). rewrite H4. cbn [omap list_omap].
      destruct (parse_normal _) as [p|]; cbn [option_list]; [|rewrite take_ge; [by destruct (_ <? _)|rewrite length_app; cbn; lia]].
      case_bool (Z.of_nat (length (rb_items (ring s))) <? rb_capacity (ring s)) E.
      * rewrite take_ge; [done|]. rewrite length_app. cbn. lia.
      * rewrite app_nil_r, take_app_le, take_ge by lia. done.
    + subst s'. split; [done|]. do 3 (split; [done|]). cbn [omap list_omap]. rewrite app_nil_r, take_ge by lia. done.
  - exists None. split; [|done]. unfold irq_handler. change VECTOR_PIC with 32. rewrite usub_ok by (change (2 ^ 8) with 256; lia). cbn [obind].
    unfold t, irq_accesses, of_first, ack, outb. destruct (Z.eqb_spec vec 33) as [->|Hne].
    { change (33 - 32) with 1. cbn. by rewrite <- app_assoc. }
    rewrite (proj2 (Z.eqb_neq (vec - 32) 1)) by lia. cbn [obind app]. case_bool (vec <? 40) E; case_bool_lia; [done|]. by case_bool_lia.
Qed.

(** ** Interrupts between the steps of [kmain] *)

(** What is left to do once interrupts are on: bytes for the console, and the drivers. *)
Inductive Action := Put (b : Z) | Drivers.
(** A step of [kmain], or the vector of a request. *)
Inductive Event := Act (a : Action) | Irq (vec : Z).

Context (rb_storage : Store (SlabAllocatorRecord L PMM) -> outcome (option (Store (SlabAllocatorRecord L PMM)))).

Definition do_action (a : Action) k : outcome (option Kernel) :=
  match a with
  | Put b => let! c := write_u8 (kn_console k) b in Ok (Some (mkKernel c (kn_mem k) (kn_store k) (kn_intr k) (kn_keyboard k)))
  | Drivers => try! ' (kb, st) := drivers_init rb_storage (kn_keyboard k) (kn_store k) in
      Ok (Some (mkKernel (kn_console k) (kn_mem k) st (kn_intr k) kb))
  end.

Fixpoint run (evs : list Event) k : outcome (option Kernel) :=
  match evs with
  | [] => Ok (Some k)
  | Act a :: evs => try! k := do_action a k in run evs k
  | Irq vec :: evs =>
      let! ' (t, kb) := irq_handler dev vec (intr_ports (kn_intr k)) (kn_keyboard k) in
      run evs (after_irq k t kb)
  end.

Definition vecs_of (evs : list Event) : list Z := omap (fun e => match e with Act _ => None | Irq vec => Some vec end) evs.
Definition actions_of (evs : list Event) : list Action := omap (fun e => match e with Act a => Some a | Irq _ => None end) evs.

Definition requests_ok (evs : list Event) : Prop := Forall (fun vec => 32 <= vec < 48) (vecs_of evs).

Lemma run_app evs evs' k : run (evs ++ evs') k = try! k := run evs k in run evs' k.
Proof using.
  revert k. induction evs as [|[a|vec] evs IH]; intros k; cbn [run app]; [done|..].
  - destruct (do_action a k) as [[k1|]| |]; cbn [obind]; [apply IH|done..].
  - destruct (irq_handler _ _ _ _) as [[t kb]| |]; cbn [obind]; [apply IH|done..].
Qed.

(** Writing to the console between requests. *)
Lemma run_puts evs text : forall k c,
  requests_ok evs -> kb_ok (kn_keyboard k) -> actions_of evs = Put <$> text -> vga_write (kn_console k) text = Ok c ->
  exists t kb, run evs k = Ok (Some (mkKernel c (kn_mem k) (kn_store k) (kn_intr (after_irq k (intr_ports (kn_intr k) ++ t) kb)) kb)) /\
    served (vecs_of evs) t /\ keyed (kn_keyboard k) (reads DATA_PORT t) kb.
Proof using.
  revert text. induction evs as [|[a|vec] evs IH]; intros text k c Hv Hk Ha Hw.
  - destruct text; [|done]. cbn in Hw. injection Hw as <-. exists [], (kn_keyboard k). split; [|split; [done|by apply keyed_nil]].
    cbn. rewrite app_nil_r. by destruct k as [? ? ? [] ?].
  - destruct text as [|b text]; [done|]. cbn in Ha. injection Ha as -> Ha. cbn [vga_write] in Hw. apply obind_Ok in Hw as (c1 & E1 & Hw).
    destruct (IH text (mkKernel c1 (kn_mem k) (kn_store k) (kn_intr k) (kn_keyboard k)) c Hv Hk Ha Hw) as (t & kb & E & Hs & Hkey).
    exists t, kb. cbn [run do_action]. rewrite E1. cbn [obind]. by rewrite E.
  - apply Forall_cons in Hv as [Hv Hvs]. destruct (irq_step vec k Hv Hk) as (kb1 & E1 & Hk1). set (t1 := irq_accesses _ _) in *.
    destruct (IH text (after_irq k (intr_ports (kn_intr k) ++ t1) kb1) c Hvs) as (t & kb & E & Hs & Hkey); [by eapply keyed_ok|done|done|].
    exists (t1 ++ t), kb. cbn [run]. rewrite E1. cbn [obind]. rewrite E. split; [cbn; by rewrite app_assoc|].
    split; [by apply served_cons|]. rewrite reads_app. by eapply keyed_trans.
Qed.

(** ** Interrupts after the end of [kmain] *)

Lemma hlt_run vecs : forall k k', run (Irq <$> vecs) k = Ok (Some k') -> hlt vecs k = Ok k'.
Proof using.
  induction vecs as [|vec vecs IH]; intros k k'; cbn [run hlt fmap list_fmap]; [by intros [= <-]|].
  intros ([t kb] & -> & E)%obind_Ok. cbn [obind]. by apply IH.
Qed.

Lemma vecs_only vecs : vecs_of (Irq <$> vecs) = vecs /\ actions_of (Irq <$> vecs) = [].
Proof using. induction vecs as [|vec vecs [IH1 IH2]]; [done|]. split; [|exact IH2]. cbn. f_equal. exact IH1. Qed.

End Idle.

Section Halt.
Context {L Q : Type} `{RingBuf Q} (dev : Trace -> Port -> Z).
Implicit Types k : Kernel (L := L) (Q := Q).

(** C32: from its end on, the kernel serves requests in any order and number without
    a panic: each is acknowledged to its controller, every byte of the keyboard is
    read, the first 128 packets wait in the buffer in the order of their
    bytes, and nothing else of the kernel changes. *)
Theorem hlt_correct k vecs :
  kn_keyboard k = Some (mkPs2 Normal (rb_new 128) virt_new) -> Forall (fun vec => 32 <= vec < 48) vecs ->
  exists t kb, hlt dev vecs k = Ok (after_irq k (intr_ports (kn_intr k) ++ t) (Some kb)) /\ served vecs t /\
    virt kb = virt_new /\ rb_items (ring kb) = take 128 (omap parse_normal (reads DATA_PORT t)).
Proof using.
  intros Hk Hv. destruct (rb_new_ok 128) as [Ei Ec]. destruct (vecs_only vecs) as [E1 E2].
  destruct (run_puts dev (fun _ => Ok None) (Irq <$> vecs) [] k (kn_console k)) as (t & kb & E & Hs & Hkey); [unfold requests_ok; by rewrite E1| |done|done|].
  { rewrite Hk. split; [done|]. cbn [ring]. rewrite Ei, Ec. done. }
  rewrite E1 in Hs. rewrite Hk in Hkey. destruct kb as [s|]; [|done]. destruct Hkey as (_ & H1 & _ & H2). cbn [ring virt] in H1, H2.
  rewrite Ei, Ec in H2. exists t, s. split; [by apply (hlt_run dev (fun _ => Ok None))|]. by split_and!.
Qed.
End Halt.

(** ** Interrupts during the boot *)

Section Boot.
Context `{BitField} `{SlabSizes} `{BitSlice} {L : Type} `{LinkedList L} {Q : Type} `{RingBuf Q}.
Context (dev : Trace -> Port -> Z).
Context (gdt_addr idt_addr pml4_vaddr pdpt_vaddr pd_vaddr start_vma end_vma start_lma : Z) (isr : list Z).
Context (rb_storage : Store (SlabAllocatorRecord L PMM) -> outcome (option (Store (SlabAllocatorRecord L PMM)))).

Abbreviation head := (kmain_head (L := L) (Q := Q) dev gdt_addr idt_addr pml4_vaddr pdpt_vaddr pd_vaddr start_vma end_vma start_lma isr).
Abbreviation whole := (kmain_sized (L := L) (Q := Q) dev gdt_addr idt_addr pml4_vaddr pdpt_vaddr pd_vaddr start_vma end_vma start_lma isr rb_storage).

(** [kmain] with the events [evs] once interrupts are on. *)
Definition kmain_events (n cols : nat) info ram vga_mem bytes m i (evs : list Event) : outcome (option (Kernel (L := L) (Q := Q))) :=
  try! k := head n cols info ram vga_mem bytes m i None in run dev rb_storage evs k.

Lemma kmain_head_keyboard n cols info ram vga_mem bytes m i kb k :
  head n cols info ram vga_mem bytes m i kb = Ok (Some k) -> kn_keyboard k = kb.
Proof using.
  unfold kmain_head. intros E. do 5 (apply obind_Ok in E as (? & _ & E)).
  apply obind_Ok in E as ([st|] & _ & E); [|done]. do 2 (apply obind_Ok in E as (? & _ & E)). by injection E as <-.
Qed.

(** C8: interrupts do not disturb the boot.  When [kmain] gets to its end, it gets to the
    same end with requests in any number and order between any two of its steps after
    [interrupt::init], and after the last: the console, the memory, the heap and the
    interrupt state are the same, every request is served and acknowledged, bytes of the
    keyboard that come before its driver are read and dropped, and of those that come later
    the first 128 packets wait in order. *)
Theorem kmain_interrupted_correct n cols info ram vga_mem bytes m i k evs1 evs2 :
  whole n cols info ram vga_mem bytes m i None = Ok (Some k) ->
  requests_ok evs1 -> requests_ok evs2 ->
  actions_of evs1 = Put <$> line "interrupt initialized" ->
  actions_of evs2 = Put <$> (line "drivers initialized" ++ 10 :: line "kernel initialized") ->
  exists t1 t2 kb,
    kmain_events n cols info ram vga_mem bytes m i (evs1 ++ Act Drivers :: evs2) =
      Ok (Some (after_irq k (intr_ports (kn_intr k) ++ t1 ++ t2) (Some kb))) /\
    served (vecs_of evs1) t1 /\ served (vecs_of evs2) t2 /\
    virt kb = virt_new /\ rb_items (ring kb) = take 128 (omap parse_normal (reads DATA_PORT t2)).
Proof using.
  unfold kmain_sized, kmain_events. intros E Hv1 Hv2 Ha1 Ha2. apply obind_Ok in E as ([k0|] & Eh & E); [|done]. rewrite Eh. cbn [obind].
  pose proof (kmain_head_keyboard _ _ _ _ _ _ _ _ _ _ Eh) as Hk0. clear Eh. unfold kmain_tail, drivers_init in E.
  apply obind_Ok in E as (c1 & E1 & E). apply obind_Ok in E as (o & Eo & E). rewrite Hk0 in Eo.
  apply obind_Ok in Eo as ([st|] & Est & [= <-]); [|done]. apply obind_Ok in E as (c2 & E2 & E). apply obind_Ok in E as (c3 & E3 & [= <-]).
  destruct (run_puts dev rb_storage evs1 (line "interrupt initialized") k0 c1 Hv1) as (t1 & kb1 & R1 & S1 & K1); [by rewrite Hk0|done|done|].
  rewrite Hk0 in K1. destruct kb1; [done|]. rewrite run_app, R1. cbn [obind run do_action kn_keyboard kn_store]. unfold drivers_init. rewrite Est. cbn [obind].
  destruct (rb_new_ok 128) as [Ei Ec]. match goal with |- context [run _ _ evs2 ?k'] => set (k1 := k') end.
  destruct (run_puts dev rb_storage evs2 (line "drivers initialized" ++ 10 :: line "kernel initialized") k1 c3 Hv2) as (t2 & kb2 & R2 & S2 & K2); [|done| |].
  { split; [done|]. cbn [ring]. rewrite Ei, Ec. done. }
  { rewrite vga_write_app. cbn [k1 kn_console]. rewrite E2. done. }
  destruct kb2 as [s|]; [|done]. destruct K2 as (_ & H1' & _ & H2'). cbn [k1 kn_keyboard ps2_init ring virt] in H1', H2'. rewrite Ei, Ec in H2'.
  exists t1, t2, s. rewrite R2. split; [|by split_and!]. cbn. by rewrite app_assoc.
Qed.
End Boot.

(** ** Witness *)

(** Three requests, of the timer, the keyboard and the mouse; the keyboard sends the
    code of [A]. *)
Definition demo_ps2 : Ps2 (Z * list (Z * bool)) := mkPs2 Normal (rb_new 128) virt_new.
Definition demo_kernel : Kernel (L := list Z) (Q := Z * list (Z * bool)) :=
  mkKernel (demo_console 480) demo_mem demo_store demo_intr (Some demo_ps2).

Lemma hlt_correct_witness :
  exists t kb, hlt (fun _ _ => 30) [32; 33; 44] demo_kernel = Ok (after_irq demo_kernel t (Some kb)) /\
    rb_items (ring kb) = take 128 (omap parse_normal (reads DATA_PORT t)).
Proof.
  destruct (hlt_correct (fun _ _ => 30) demo_kernel [32; 33; 44]) as (t & kb & E & _ & _ & Hi).
  - reflexivity.
  - repeat constructor; lia.
  - exists t, kb. split; [exact E|exact Hi].
Defined.

(** A request of the timer between any two bytes, and the code of [A] before and after the drivers. *)
Definition between (vec : Z) (text : list Z) : list Event := text ≫= (fun b => [Act (Put b); Irq vec]).

Lemma kmain_interrupted_correct_witness :
  exists k t1 t2 kb,
    kmain_events (Q := Z * list (Z * bool)) demo_dev 0x8000 0x9000 demo_p4 demo_pdpts demo_pd demo_start_vma demo_kernel_end 0x100000
      demo_isr demo_storage 3 5 (Some (Some demo_ram)) low_memory (replicate 2000 0) (fun _ => 0) demo_mem demo_intr
      ((between 32 (line "interrupt initialized") ++ [Irq 33]) ++ Act Drivers ::
       (Irq 33 :: between 44 (line "drivers initialized" ++ 10 :: line "kernel initialized"))) =
      Ok (Some (after_irq k (intr_ports (kn_intr k) ++ t1 ++ t2) (Some kb))) /\
    buffer (kn_console k) = boot_screen /\ rb_items (ring kb) = take 128 (omap parse_normal (reads DATA_PORT t2)).
Proof.
  destruct demo_boot_ends as (k & E & _ & Hs). exists k.
  destruct (kmain_interrupted_correct (Q := Z * list (Z * bool)) demo_dev 0x8000 0x9000 demo_p4 demo_pdpts demo_pd demo_start_vma demo_kernel_end 0x100000
      demo_isr demo_storage 3 5 (Some (Some demo_ram)) low_memory (replicate 2000 0) (fun _ => 0) demo_mem demo_intr k
      (between 32 (line "interrupt initialized") ++ [Irq 33])
      (Irq 33 :: between 44 (line "drivers initialized" ++ 10 :: line "kernel initialized")) E)
    as (t1 & t2 & kb & E' & _ & _ & _ & Hi).
  - repeat constructor; lia.
  - repeat constructor; lia.
  - reflexivity.
  - reflexivity.
  - exists t1, t2, kb. split; [exact E'|]. split; [exact Hs|exact Hi].
Defined.
